(** * BSDF conversion between the Zemax and the Speos text formats

    A shallow embedding of
    [ansys_optical_automation/interop_process/Convert_BSDF_Zemax_to_Speos.py]
    and the properties of its readers, coordinate transforms, resampler,
    normaliser, precision resolution and writers.

    Numbers.  The resampler, the normaliser and the precision resolution only
    use field operations and comparisons; their Python floats are embedded
    as rationals [Q] (exact arithmetic, executable).  The coordinate
    transforms and the Speos data writer call [math.sin], [math.cos],
    [math.acos] and [math.atan]; they are embedded over the reals [R].

    Control.  A Python call either returns, raises, leaves through [exit()]
    or loops for ever; this is the type [result]. *)

From Stdlib Require Import Ascii String DecimalString.
From Stdlib Require Import ZArith QArith Qabs Qround Qminmax Lia Psatz List Bool.
From Stdlib Require Import Reals.
Import ListNotations.


(** ** Part I. Definitions *)

(** *** Outcomes of a Python call *)

Module Py.

Inductive exn : Set :=
| IndexError
| ValueError
| ZeroDivisionError
| UnboundLocalError.

Inductive result (A : Type) : Type :=
| Ok (a : A)          (* the call returns [a] *)
| Raise (e : exn)     (* an exception propagates to the caller *)
| Exit                (* [exit()] was called *)
| Hang.               (* a [while] loop that never ends *)

Arguments Ok {A} a.
Arguments Raise {A} e.
Arguments Exit {A}.
Arguments Hang {A}.

Definition bind {A B : Type} (m : result A) (k : A -> result B) : result B :=
  match m with
  | Ok a => k a
  | Raise e => Raise e
  | Exit => Exit
  | Hang => Hang
  end.

(** [l[i]] for a non-negative index. *)
Definition lookup {A : Type} (l : list A) (i : nat) : result A :=
  match nth_error l i with
  | Some a => Ok a
  | None => Raise IndexError
  end.

(** A local variable that is only assigned on some paths. *)
Definition read_local {A : Type} (v : option A) : result A :=
  match v with
  | Some a => Ok a
  | None => Raise UnboundLocalError
  end.

(** [for x in xs: body], collecting what each iteration produces. *)
Fixpoint for_each {A B : Type} (xs : list A) (body : A -> result B)
  : result (list B) :=
  match xs with
  | [] => Ok []
  | x :: xs' =>
      bind (body x) (fun b =>
      bind (for_each xs' body) (fun bs => Ok (b :: bs)))
  end.

(** [range(n)]. *)
Definition range (n : nat) : list nat := seq 0 n.

End Py.

Export Py.

Declare Scope py_scope.
Delimit Scope py_scope with py.
Notation "x <- m ;; k" := (bind m (fun x => k))
  (at level 61, m at next level, right associativity) : py_scope.
Notation "' pat <- m ;; k" := (bind m (fun x => match x with pat => k end))
  (at level 61, pat pattern, m at next level, right associativity) : py_scope.
Open Scope py_scope.

(** *** Rational arithmetic as Python uses it *)

Module PyQ.

Local Open Scope Q_scope.

Definition Qltb (x y : Q) : bool := negb (Qle_bool y x).

(** [x / y] on floats: division by zero raises. *)
Definition div (x y : Q) : result Q :=
  if Qeq_bool y 0 then Raise ZeroDivisionError else Ok (x / y).

(** [int(x)]: truncation towards zero. *)
Definition int (x : Q) : Z :=
  if Qltb x 0 then Qceiling x else Qfloor x.

(** [round(x)]: the nearest integer, ties to the even one. *)
Definition round (x : Q) : Z :=
  let f := Qfloor x in
  let r := x - inject_Z f in
  if Qltb r (1 # 2) then f
  else if Qltb (1 # 2) r then (f + 1)%Z
  else if Z.even f then f else (f + 1)%Z.

(** [round(x, ndigits)] for [ndigits >= 0]. *)
Definition round_digits (x : Q) (ndigits : nat) : Q :=
  let p := inject_Z (10 ^ Z.of_nat ndigits) in
  inject_Z (round (x * p)) / p.

End PyQ.

(** *** The resampler: [convert_zemax_speos_bsdf_data] *)

Module Resampler.

Local Open Scope Q_scope.
Import PyQ.

(** [bisect.bisect_left(a, x)]: the loop of the standard library,
    [while lo < hi: mid = (lo + hi) // 2; if a[mid] < x: lo = mid + 1
    else: hi = mid].  Each turn shrinks [hi - lo], so [len(a)] turns are
    enough (lemma [bisect_loop_fuel]). *)
Fixpoint bisect_loop (fuel : nat) (a : list Q) (x : Q) (lo hi : nat) : nat :=
  match fuel with
  | O => lo
  | S fuel' =>
      if (lo <? hi)%nat then
        let mid := ((lo + hi) / 2)%nat in
        if Qltb (nth mid a 0) x
        then bisect_loop fuel' a x (mid + 1) hi
        else bisect_loop fuel' a x lo mid
      else lo
  end.

Definition bisect_left (a : list Q) (x : Q) : nat :=
  bisect_loop (length a) a x 0 (length a).

(** Lines 841-856: the two bracketing indices on the radial axis and the
    interpolation weight. *)
Definition theta_bracket (scatterRadial : list Q) (newTheta : Q)
  : result (nat * nat * Q) :=
  let indexInfTheta := bisect_left scatterRadial newTheta in
  if (indexInfTheta =? 0)%nat then
    Ok (indexInfTheta, indexInfTheta, 0)
  else if (indexInfTheta <=? length scatterRadial - 1)%nat then
    let indexInfTheta := (indexInfTheta - 1)%nat in
    let indexSupTheta := (indexInfTheta + 1)%nat in
    thetaInf <- lookup scatterRadial indexInfTheta ;;
    thetaSup <- lookup scatterRadial indexSupTheta ;;
    coeffTheta <- div (newTheta - thetaInf) (thetaSup - thetaInf) ;;
    Ok (indexInfTheta, indexSupTheta, coeffTheta)
  else
    let indexInfTheta := (indexInfTheta - 1)%nat in
    Ok (indexInfTheta, indexInfTheta, 0).

(** Lines 857-872: the same on the azimuth axis.  The last branch sets
    [indexSupPhi = indexInfPhi + 1]. *)
Definition phi_bracket (scatterAzimuth : list Q) (newPhi : Q)
  : result (nat * nat * Q) :=
  let indexInfPhi := bisect_left scatterAzimuth newPhi in
  if (indexInfPhi =? 0)%nat then
    Ok (indexInfPhi, indexInfPhi, 0)
  else if (indexInfPhi <=? length scatterAzimuth - 1)%nat then
    let indexInfPhi := (indexInfPhi - 1)%nat in
    let indexSupPhi := (indexInfPhi + 1)%nat in
    phiInf <- lookup scatterAzimuth indexInfPhi ;;
    phiSup <- lookup scatterAzimuth indexSupPhi ;;
    coeffPhi <- div (newPhi - phiInf) (phiSup - phiInf) ;;
    Ok (indexInfPhi, indexSupPhi, coeffPhi)
  else
    let indexInfPhi := (indexInfPhi - 1)%nat in
    let indexSupPhi := (indexInfPhi + 1)%nat in
    Ok (indexInfPhi, indexSupPhi, 0).

(** [block[p][t]]: a block is stored azimuth-major. *)
Definition block := list (list Q).

Definition lookup2 (b : block) (p t : nat) : result Q :=
  row <- lookup b p ;; lookup row t.

(** Lines 886-889. *)
Definition blend (bsdf1 bsdf2 bsdf3 bsdf4 coeffTheta coeffPhi : Q) : Q :=
  let bsdfN1 := bsdf1 * (1 - coeffTheta) + bsdf2 * coeffTheta in
  let bsdfN2 := bsdf3 * (1 - coeffTheta) + bsdf4 * coeffTheta in
  bsdfN1 * (1 - coeffPhi) + bsdfN2 * coeffPhi.

(** The source of a conversion.  With [bool_speos_brdf == 0] the axes are
    shared and [bsdfData] is a four-dimensional array; with
    [bool_speos_brdf == 1] every block has its own axes and [bsdfData] is a
    list of blocks, all indexed by the running [index]. *)
Inductive source : Type :=
| FromZemax (scatterRadial scatterAzimuth : list Q)
            (bsdfData : list (list block))
| FromSpeos (scatterRadial_save scatterAzimuth_save : list (list Q))
            (bsdfData : list block).

Definition bool_speos_brdf (s : source) : bool :=
  match s with FromZemax _ _ _ => false | FromSpeos _ _ _ => true end.

(** Lines 837-839: the axes in force for the cell. *)
Definition axes_of (s : source) (index : nat) : result (list Q * list Q) :=
  match s with
  | FromZemax scatterRadial scatterAzimuth _ =>
      Ok (scatterRadial, scatterAzimuth)
  | FromSpeos scatterRadial_save scatterAzimuth_save _ =>
      scatterRadial <- lookup scatterRadial_save index ;;
      scatterAzimuth <- lookup scatterAzimuth_save index ;;
      Ok (scatterRadial, scatterAzimuth)
  end.

(** Lines 874-884: the four corner samples. *)
Definition corners (s : source) (i j index : nat)
           (indexInfPhi indexSupPhi indexInfTheta indexSupTheta : nat)
  : result (Q * Q * Q * Q) :=
  match s with
  | FromZemax _ _ bsdfData =>
      let at_ p t :=
        (plane <- lookup bsdfData i ;; b <- lookup plane j ;; lookup2 b p t) in
      bsdf1 <- at_ indexInfPhi indexInfTheta ;;
      bsdf2 <- at_ indexInfPhi indexSupTheta ;;
      bsdf3 <- at_ indexSupPhi indexInfTheta ;;
      bsdf4 <- at_ indexSupPhi indexSupTheta ;;
      Ok (bsdf1, bsdf2, bsdf3, bsdf4)
  | FromSpeos _ _ bsdfData =>
      bsdf_temp <- lookup bsdfData index ;;
      bsdf1 <- lookup2 bsdf_temp indexInfPhi indexInfTheta ;;
      bsdf2 <- lookup2 bsdf_temp indexInfPhi indexSupTheta ;;
      bsdf3 <- lookup2 bsdf_temp indexSupPhi indexInfTheta ;;
      bsdf4 <- lookup2 bsdf_temp indexSupPhi indexSupTheta ;;
      Ok (bsdf1, bsdf2, bsdf3, bsdf4)
  end.

(** Line 833: the azimuth fold of a plane-symmetrical source. *)
Definition fold_phi (symmetry : string) (newPhi : Q) : Q :=
  if (String.eqb symmetry "PlaneSymmetrical" && Qltb 180 newPhi)%bool
  then 360 - newPhi else newPhi.

(** Lines 832-890: the [else] branch of the cell, from the transformed
    angles to the interpolated value. *)
Definition interpolate_cell (symmetry : string) (s : source)
           (i j index : nat) (newTheta newPhi : Q) : result Q :=
  let newPhi := fold_phi symmetry newPhi in
  '(scatterRadial, scatterAzimuth) <- axes_of s index ;;
  '(indexInfTheta, indexSupTheta, coeffTheta) <-
     theta_bracket scatterRadial newTheta ;;
  '(indexInfPhi, indexSupPhi, coeffPhi) <-
     phi_bracket scatterAzimuth newPhi ;;
  '(bsdf1, bsdf2, bsdf3, bsdf4) <-
     corners s i j index indexInfPhi indexSupPhi indexInfTheta indexSupTheta ;;
  Ok (blend bsdf1 bsdf2 bsdf3 bsdf4 coeffTheta coeffPhi).

Section Cells.

(** The two coordinate transforms are trigonometric; the resampler only
    needs the pair of angles they return. *)
Variable convert_normal_to_specular_using_cartesian : Q -> Q -> Q -> Q * Q.
Variable convert_specular_to_normal_using_cartesian : Q -> Q -> Q -> Q * Q.

(** Lines 819-826. *)
Definition new_angles (s : source) (currentTheta currentPhi : Q)
           (currentSampleRot currentAngleInc : Q) : Q * Q :=
  if bool_speos_brdf s
  then convert_specular_to_normal_using_cartesian
         currentTheta currentPhi currentSampleRot
  else convert_normal_to_specular_using_cartesian
         currentTheta currentPhi currentAngleInc.

(** Lines 815-890: the value of the target cell [(i, j, k, l)]. *)
Definition resample_cell (symmetry : string) (s : source)
           (i j index : nat) (currentTheta currentPhi : Q)
           (currentSampleRot currentAngleInc : Q) : result Q :=
  let '(newTheta, newPhi) :=
    new_angles s currentTheta currentPhi currentSampleRot currentAngleInc in
  if (Qltb 90 newTheta || Qltb newTheta 0)%bool then Ok 0
  else interpolate_cell symmetry s i j index newTheta newPhi.

(** Lines 793-910, the whole conversion.  [temp_bsdfData] is built cell by
    cell; [index] advances once per [(i, j)]. *)
Definition convert_zemax_speos_bsdf_data
           (nb_reflection_transmission : nat) (symmetry scatterType : string)
           (nbSampleRotation nbAngleIncidence : nat)
           (sampleRotation angleIncidence : list Q) (s : source)
           (precisionTheta precisionPhi : Q)
  : result (list (list (list (list Q))) * list Q * list Q) :=
  t <- div 90 precisionTheta ;;
  let nbTheta := int (t + 1) in
  p <- div 360 precisionPhi ;;
  let nbPhi := int (p + 1) in
  (* [np.zeros] refuses a negative dimension *)
  if ((nbTheta <? 0) || (nbPhi <? 0))%Z then Raise ValueError else
  let nbTheta := Z.to_nat nbTheta in
  let nbPhi := Z.to_nat nbPhi in
  temp_bsdfData <-
    for_each (range (nb_reflection_transmission * nbSampleRotation)) (fun i =>
      currentSampleRot <- lookup sampleRotation (i mod nbSampleRotation) ;;
      for_each (range nbAngleIncidence) (fun j =>
        currentAngleInc <- lookup angleIncidence j ;;
        let index := (i * nbAngleIncidence + j)%nat in
        for_each (range nbTheta) (fun k =>
          let currentTheta := inject_Z (Z.of_nat k) * precisionTheta in
          for_each (range nbPhi) (fun l =>
            let currentPhi := inject_Z (Z.of_nat l) * precisionPhi in
            resample_cell symmetry s i j index currentTheta currentPhi
                          currentSampleRot currentAngleInc)))) ;;
  let line_phi :=
    map (fun x => precisionPhi * inject_Z (Z.of_nat x)) (range nbPhi) in
  if (bool_speos_brdf s || String.eqb scatterType "BRDF")%bool then
    Ok (temp_bsdfData,
        map (fun k => precisionTheta * inject_Z (Z.of_nat k)) (range nbTheta),
        line_phi)
  else if ((nb_reflection_transmission * nbSampleRotation <? nbSampleRotation)
           && (0 <? nbAngleIncidence) && (0 <? nbTheta))%nat
  then Raise IndexError (* [bsdfDataSpeos[i]] for an [i] it does not have *)
  else
    let zeros := repeat (repeat (repeat 0 nbPhi) nbTheta) nbAngleIncidence in
    let bsdfDataSpeos :=
      map (fun '(i, plane) =>
             if (i <? nbSampleRotation)%nat
             then map (fun b => rev b) plane
             else zeros)
          (combine (range (nb_reflection_transmission * nbSampleRotation))
                   temp_bsdfData) in
    Ok (bsdfDataSpeos,
        map (fun k => 90 + precisionTheta * inject_Z (Z.of_nat k))
            (range nbTheta),
        line_phi).

End Cells.

(** **** Vocabulary of the resampler's properties *)

(** An angular axis is strictly increasing. *)
Fixpoint strictly_increasing (l : list Q) : Prop :=
  match l with
  | [] => True
  | a :: t =>
      match t with [] => True | b :: _ => a < b end /\ strictly_increasing t
  end.

(** The block the four corners of a cell are read from. *)
Definition block_of (s : source) (i j index : nat) : result block :=
  match s with
  | FromZemax _ _ bsdfData => plane <- lookup bsdfData i ;; lookup plane j
  | FromSpeos _ _ bsdfData => lookup bsdfData index
  end.

(** A block with [nbPhi] rows of [nbTheta] values each. *)
Definition block_dims (b : block) (nbPhi nbTheta : nat) : Prop :=
  length b = nbPhi /\ Forall (fun row => length row = nbTheta) b.

(** [x] is one of the samples of the block. *)
Definition sample_of (b : block) (x : Q) : Prop :=
  exists p t, lookup2 b p t = Ok x.

Definition maximum (l : list Q) : Q :=
  match l with
  | [] => 0
  | x :: t => fold_left Qmax t x
  end.

Definition block_max (b : block) : Q := maximum (concat b).

(** A convex combination of four values. *)
Definition convex4 (v b1 b2 b3 b4 : Q) : Prop :=
  exists w1 w2 w3 w4 : Q,
    0 <= w1 /\ 0 <= w2 /\ 0 <= w3 /\ 0 <= w4 /\
    w1 + w2 + w3 + w4 == 1 /\
    v == w1 * b1 + w2 * b2 + w3 * b3 + w4 * b4.

(** The shape of a bracket: which samples it names and with what
    weight. *)
Inductive bracket_of (axis : list Q) (x : Q) : nat -> nat -> Q -> Prop :=
| bracket_low :
    bracket_of axis x 0 0 0
| bracket_straddle k :
    (S k < length axis)%nat -> nth k axis 0 < x -> x <= nth (S k) axis 0 ->
    bracket_of axis x k (S k)
               ((x - nth k axis 0) / (nth (S k) axis 0 - nth k axis 0))
| bracket_high :
    bracket_of axis x (length axis - 1) (length axis - 1) 0.

End Resampler.
(** *** The normaliser: [normalize_bsdf_data] *)

Module Normalizer.

Local Open Scope Q_scope.
Import PyQ.

Definition block := list (list Q).

(** [l[i] = v] on an existing position. *)
Fixpoint store {A : Type} (l : list A) (i : nat) (v : A) : result (list A) :=
  match l, i with
  | [], _ => Raise IndexError
  | _ :: t, O => Ok (v :: t)
  | a :: t, S i' => t' <- store t i' v ;; Ok (a :: t')
  end.

(** [m[i][j] = v]. *)
Definition store2 {A : Type} (m : list (list A)) (i j : nat) (v : A)
  : result (list (list A)) :=
  row <- lookup m i ;; row' <- store row j v ;; store m i row'.

(** [block.transpose()]: column [t] of a block with [n] columns. *)
Definition column (b : block) (t : nat) : list Q :=
  map (fun row => nth t row 0) b.

Definition transpose (b : block) : block :=
  match b with
  | [] => []
  | row :: _ => map (column b) (range (length row))
  end.

(** [block * factor]. *)
Definition scale (b : block) (factor : Q) : block :=
  map (map (fun v => v * factor)) b.

Section Normalize.

(** Lines 957-972 hand the block to [scipy]: the integrand
    [(1/pi) * block * sin(theta) * cos(theta)] is interpolated by [interp2d]
    and integrated by [nquad], which returns the pair (value, error
    estimate).  The quadrature is a library routine; the normaliser only
    uses its result. *)
Variable nquad : list Q -> list Q -> block -> Q * Q.

(** Lines 953-998: one [(i, j)] slice.  [normalizationBsdf] starts as
    zeros; the [else] branch holds the comparison
    [normalizationBsdf[i][j] == 1], which stores nothing. *)
Definition normalize_slice (line_theta line_phi : list Q)
           (tisData : list (list Q)) (bool_zemax0_speos1 bool_log : bool)
           (i j : nat)
           (st : list (list Q) * list (list block))
  : result (list (list Q) * list (list block)) :=
  let '(normalizationBsdf, bsdfData) := st in
  plane <- lookup bsdfData i ;;
  block_data <- lookup plane j ;;
  let block_data :=
    if bool_zemax0_speos1 then transpose block_data else block_data in
  let r := nquad line_theta line_phi block_data in
  let IntegralValue := Qabs (fst r) in
  normalizationBsdf <-
    (if Qltb 0 IntegralValue then
       tisRow <- lookup tisData i ;;
       tis <- lookup tisRow j ;;
       store2 normalizationBsdf i j (tis / IntegralValue)
     else
       (* [normalizationBsdf[i][j] == 1] *)
       row <- lookup normalizationBsdf i ;;
       _ <- lookup row j ;;
       Ok normalizationBsdf) ;;
  _ <- (if bool_log
        then tisRow <- lookup tisData i ;; lookup tisRow j
        else Ok 0) ;;
  normRow <- lookup normalizationBsdf i ;;
  factor <- lookup normRow j ;;
  plane <- lookup bsdfData i ;;
  old <- lookup plane j ;;
  bsdfData <- store2 bsdfData i j (scale old factor) ;;
  Ok (normalizationBsdf, bsdfData).

(** [for x in xs: st = body(x, st)]. *)
Fixpoint loop {A S : Type} (xs : list A) (body : A -> S -> result S) (st : S)
  : result S :=
  match xs with
  | [] => Ok st
  | x :: xs' => st' <- body x st ;; loop xs' body st'
  end.

(** Lines 949-1000. *)
Definition normalize_bsdf_data (nbSampleRotation nbAngleIncidence : nat)
           (line_theta line_phi : list Q) (tisData : list (list Q))
           (bsdfData : list (list block))
           (bool_zemax0_speos1 bool_log : bool)
  : result (list (list Q) * list (list block)) :=
  let normalizationBsdf :=
    repeat (repeat 0 nbAngleIncidence) nbSampleRotation in
  loop (range nbSampleRotation)
       (fun i st =>
          loop (range nbAngleIncidence)
               (fun j st =>
                  normalize_slice line_theta line_phi tisData
                                  bool_zemax0_speos1 bool_log i j st)
               st)
       (normalizationBsdf, bsdfData).

End Normalize.

End Normalizer.
(** *** Precision resolution: [phi_theta_recommended_precision] *)

Module Precision.

Local Open Scope Q_scope.
Import PyQ.

(** [len(l)] as a Python number. *)
Definition len {A : Type} (l : list A) : Z := Z.of_nat (length l).

(** Lines 1151-1152. *)
Definition round_to_multiple (number multiple : Q) : result Q :=
  q <- div number multiple ;;
  Ok (multiple * inject_Z (round q)).

(** Lines 1121-1148. *)
Definition phi_theta_recommended_precision
           (scatterRadial scatterAzimuth : list Q) (symmetry : string)
  : result (Q * Q) :=
  let nbTheta_max := 1000%Z in
  let nbPhi_max := 1000%Z in
  let theta_max := 90 in
  let phi_max := 360 in
  let multiple := 1 # 2 in
  let '(phi_max, nbPhi_max) :=
    if String.eqb symmetry "PlaneSymmetrical"
    then (180, 500%Z) else (phi_max, nbPhi_max) in
  precisionTheta <- div theta_max (inject_Z (len scatterRadial)) ;;
  precisionTheta <-
    (if (nbTheta_max <? len scatterRadial)%Z then
       d <- div theta_max (inject_Z (nbTheta_max - 1)) ;;
       Ok (round_digits d 1)
     else
       d <- div theta_max (inject_Z (len scatterRadial - 1)) ;;
       Ok (round_digits d 1)) ;;
  precisionTheta <- round_to_multiple precisionTheta multiple ;;
  precisionPhi <- div phi_max (inject_Z (len scatterAzimuth)) ;;
  precisionPhi <-
    (if (nbTheta_max <? len scatterAzimuth)%Z then
       d <- div phi_max (inject_Z (nbPhi_max - 1)) ;;
       Ok (round_digits d 1)
     else
       d <- div phi_max (inject_Z (len scatterAzimuth - 1)) ;;
       Ok (round_digits d 1)) ;;
  precisionPhi <- round_to_multiple precisionPhi multiple ;;
  Ok (precisionTheta, precisionPhi).

(** [p] is a multiple of one half and no multiple of one half is nearer
    to [x]. *)
Definition nearest_half_multiple (p x : Q) : Prop :=
  (exists k : Z, p = (1 # 2) * inject_Z k) /\
  forall k : Z, Qabs (x - p) <= Qabs (x - (1 # 2) * inject_Z k).

End Precision.
(** *** Python strings *)

Module PyStr.

Local Open Scope char_scope.

Definition chars := list ascii.

Definition newline : ascii := "010".
Definition tab : ascii := "009".

(** The characters [str.split()] and [str.strip()] treat as blank (the
    ASCII ones: the space, 9 to 13 and the separators 28 to 31). *)
Definition is_space (c : ascii) : bool :=
  (c =? " ") || (c =? "009") || (c =? "010") || (c =? "011")
  || (c =? "012") || (c =? "013")
  || (c =? "028") || (c =? "029") || (c =? "030") || (c =? "031").

(** [s[n:]] *)
Definition drop (n : nat) (s : chars) : chars := skipn n s.

(** [s[:-1]] *)
Definition drop_last (s : chars) : chars := removelast s.

(** [s[n:-1]] *)
Definition slice (n : nat) (s : chars) : chars := drop n (drop_last s).

Fixpoint lstrip (s : chars) : chars :=
  match s with
  | c :: s' => if is_space c then lstrip s' else s
  | [] => []
  end.

(** [s.strip()] *)
Definition strip (s : chars) : chars := rev (lstrip (rev (lstrip s))).

(** [s.split()]: the maximal runs of non-blank characters. *)
Fixpoint split_blank (s cur : chars) : list chars :=
  match s with
  | [] => match cur with [] => [] | _ => [rev cur] end
  | c :: s' =>
      if is_space c then
        match cur with
        | [] => split_blank s' []
        | _ => rev cur :: split_blank s' []
        end
      else split_blank s' (c :: cur)
  end.

Definition split (s : chars) : list chars := split_blank s [].

(** [s.split(sep)] for a one-character separator. *)
Fixpoint split_at (sep : ascii) (s cur : chars) : list chars :=
  match s with
  | [] => [rev cur]
  | c :: s' =>
      if c =? sep then rev cur :: split_at sep s' []
      else split_at sep s' (c :: cur)
  end.

Definition split_on (sep : ascii) (s : chars) : list chars :=
  split_at sep s [].

(** The lines of a file, each with its terminator, as [readline] hands
    them out. *)
Fixpoint lines_from (s cur : chars) : list chars :=
  match s with
  | [] => match cur with [] => [] | _ => [rev cur] end
  | c :: s' =>
      if c =? newline then rev (c :: cur) :: lines_from s' []
      else lines_from s' (c :: cur)
  end.

Definition lines_of (s : chars) : list chars := lines_from s [].

Definition is_digit (c : ascii) : bool := ("0" <=? c) && (c <=? "9").

Definition digit_value (c : ascii) : Z :=
  Z.of_N (N_of_ascii c) - 48.

Fixpoint digits_value (s : chars) (acc : Z) : option Z :=
  match s with
  | [] => Some acc
  | c :: s' =>
      if is_digit c then digits_value s' (10 * acc + digit_value c)
      else None
  end.

Definition signed (s : chars) : bool * chars :=
  match s with
  | "-" :: s' => (true, s')
  | "+" :: s' => (false, s')
  | _ => (false, s)
  end.

(** [int(s)] on a decimal literal with optional sign and surrounding
    blanks. *)
Definition int (s : chars) : result Z :=
  let '(neg, body) := signed (strip s) in
  match body with
  | [] => Raise ValueError
  | _ =>
      match digits_value body 0 with
      | Some n => Ok (if neg then - n else n)%Z
      | None => Raise ValueError
      end
  end.

(** The part of [s] before the first character satisfying [p], and the
    rest from that character on. *)
Fixpoint break (p : ascii -> bool) (s : chars) : chars * chars :=
  match s with
  | [] => ([], [])
  | c :: s' =>
      if p c then ([], s)
      else let '(a, b) := break p s' in (c :: a, b)
  end.

(** [float(s)] on a decimal literal: optional sign, digits with an
    optional point, optional exponent.  The spellings [inf] and [nan] have
    no rational value and are not covered. *)
Definition float (s : chars) : result Q :=
  let '(neg, body) := signed (strip s) in
  let '(mantissa, expo) := break (fun c => (c =? "e") || (c =? "E")) body in
  let '(whole, frac) := break (fun c => c =? ".") mantissa in
  let frac := match frac with _ :: f => f | [] => [] end in
  match whole ++ frac, digits_value (whole ++ frac) 0 with
  | _ :: _, Some m =>
      let e :=
        match expo with
        | [] => Ok 0%Z
        | _ :: e' =>
            let '(eneg, ebody) := signed e' in
            match ebody, digits_value ebody 0 with
            | _ :: _, Some n => Ok (if eneg then - n else n)%Z
            | _, _ => Raise ValueError
            end
        end in
      e <- e ;;
      let v := (inject_Z m * Qpower 10 (e - Z.of_nat (length frac)))%Q in
      Ok (if neg then - v else v)%Q
  | _, _ => Raise ValueError
  end.

(** [s.lower()] *)
Definition lower_char (c : ascii) : ascii :=
  if ("A" <=? c) && (c <=? "Z")
  then ascii_of_N (N_of_ascii c + 32) else c.

Definition lower (s : chars) : chars := map lower_char s.

Fixpoint starts_with (p s : chars) : bool :=
  match p, s with
  | [], _ => true
  | a :: p', b :: s' => (a =? b) && starts_with p' s'
  | _ :: _, [] => false
  end.

(** [p in s] *)
Fixpoint contains (p s : chars) : bool :=
  starts_with p s || match s with [] => false | _ :: s' => contains p s' end.

(** [os.path.splitext(path)[1]]: from the last dot of the last path
    component, leading dots of that component not counted. *)
Fixpoint after_last (sep : ascii) (s cur : chars) : chars :=
  match s with
  | [] => cur
  | c :: s' => if c =? sep then after_last sep s' s' else after_last sep s' cur
  end.

Fixpoint from_last_dot (s : chars) (found : chars) : chars :=
  match s with
  | [] => found
  | c :: s' => if c =? "." then from_last_dot s' s else from_last_dot s' found
  end.

Fixpoint skip_dots (s : chars) : chars :=
  match s with
  | c :: s' => if c =? "." then skip_dots s' else s
  | [] => []
  end.

Definition splitext_ext (path : chars) : chars :=
  from_last_dot (skip_dots (after_last "/" path path)) [].

(** Python values of different types never compare equal. *)
Inductive value : Type :=
| VStr (s : chars)
| VInt (n : Z).

Definition eq (a b : value) : bool :=
  match a, b with
  | VStr s, VStr t => if list_eq_dec ascii_dec s t then true else false
  | VInt n, VInt m => (n =? m)%Z
  | _, _ => false
  end.

Definition str_eq (s t : chars) : bool := eq (VStr s) (VStr t).

(** A string literal. *)
Definition lit (s : string) : chars := list_ascii_of_string s.

End PyStr.


(** *** Reading a file: a state of unread lines and printed warnings *)

Module Reader.

Import PyStr.

Record state : Type := mk_state {
  unread : list chars;      (* the lines [readline] has not returned yet *)
  printed : list string     (* the warnings printed so far *)
}.

Definition M (A : Type) : Type := state -> state * result A.

Definition ret {A : Type} (a : A) : M A := fun s => (s, Ok a).

Definition bindM {A B : Type} (m : M A) (k : A -> M B) : M B :=
  fun s =>
    let '(s', r) := m s in
    match r with
    | Ok a => k a s'
    | Raise e => (s', Raise e)
    | Exit => (s', Exit)
    | Hang => (s', Hang)
    end.

Definition lift {A : Type} (r : result A) : M A := fun s => (s, r).

(** [bfile.readline()]: the empty string at the end of the file. *)
Definition readline : M chars :=
  fun s =>
    match unread s with
    | [] => (s, Ok [])
    | l :: rest => (mk_state rest (printed s), Ok l)
    end.

Definition print (msg : string) : M unit :=
  fun s => (mk_state (unread s) (printed s ++ [msg]), Ok tt).

(** [exit()] *)
Definition exit {A : Type} : M A := fun s => (s, Exit).

(** [for x in xs: body], collecting what each iteration produces. *)
Fixpoint for_eachM {A B : Type} (xs : list A) (body : A -> M B)
  : M (list B) :=
  match xs with
  | [] => ret []
  | x :: xs' =>
      bindM (body x) (fun b =>
      bindM (for_eachM xs' body) (fun bs => ret (b :: bs)))
  end.

(** [line = readline(); while line[0] == "#": line = readline()].  At the
    end of the file [readline] returns the empty string, whose first
    character does not exist. *)
Fixpoint skip_comments (ls : list chars) : list chars * result chars :=
  match ls with
  | [] => ([], Raise IndexError)
  | l :: rest =>
      match l with
      | [] => (rest, Raise IndexError)
      | c :: _ => if (c =? "#")%char then skip_comments rest else (rest, Ok l)
      end
  end.

Definition read_uncommented : M chars :=
  fun s =>
    let '(rest, r) := skip_comments (unread s) in
    (mk_state rest (printed s), r).

(** [line = readline(); while line[0:9] != "DataBegin": line = readline()].
    Past the end of the file every [readline] returns the empty string and
    the loop never ends. *)
Fixpoint seek_data_begin (ls : list chars) : list chars * result unit :=
  match ls with
  | [] => ([], Hang)
  | l :: rest =>
      if starts_with (lit "DataBegin") l then (rest, Ok tt)
      else seek_data_begin rest
  end.

Definition read_to_data_begin : M unit :=
  fun s =>
    let '(rest, r) := seek_data_begin (unread s) in
    (mk_state rest (printed s), r).

(** Running a reader on the text of a file. *)
Definition run {A : Type} (m : M A) (text : chars) : list string * result A :=
  let '(s, r) := m (mk_state (lines_of text) []) in (printed s, r).

End Reader.

Declare Scope reader_scope.
Delimit Scope reader_scope with reader.
Notation "x <- m ;; k" := (Reader.bindM m (fun x => k))
  (at level 61, m at next level, right associativity) : reader_scope.
Notation "m ;; k" := (Reader.bindM m (fun _ => k))
  (at level 61, right associativity) : reader_scope.

(** *** The Zemax reader: [read_zemax_bsdf] *)

Module ZemaxReader.

Import PyStr Reader.
Local Open Scope reader_scope.

(** [np.zeros] refuses a negative dimension. *)
Definition dimension (n : Z) : result nat :=
  if (n <? 0)%Z then Raise ValueError else Ok (Z.to_nat n).

(** [while tokens[-1] == "": tokens = tokens[:-1]] *)
Fixpoint drop_empty_tail (reversed : list chars) : result (list chars) :=
  match reversed with
  | [] => Raise IndexError
  | t :: r =>
      match t with
      | [] => drop_empty_tail r
      | _ :: _ => Ok (rev reversed)
      end
  end.

(** A count line, e.g. lines 275-279: [int(line[offset:-1])]. *)
Definition read_count (offset : nat) : M Z :=
  line <- read_uncommented ;;
  lift (int (slice offset line)).

(** A values line, e.g. lines 283-296.  The axis is assigned in the
    [else] branch only; on a count mismatch the warning is printed and the
    local variable stays unassigned. *)
Definition read_values (nb : Z) (warning : string) : M (option (list Q)) :=
  line <- read_uncommented ;;
  tokens <- lift (drop_empty_tail (rev (split (drop_last line)))) ;;
  if negb (Z.of_nat (length tokens) =? nb)%Z then
    print warning ;;
    ret None
  else
    values <- lift (for_each tokens float) ;;
    ret (Some values).

(** [row[:] = tokens], as [numpy] converts and broadcasts. *)
Definition assign_row (n : nat) (tokens : list chars) : result (list Q) :=
  bind (for_each tokens float) (fun values =>
  if (length values =? n)%nat then Ok values
  else
    match values with
    | [v] => Ok (repeat v n)
    | _ => Raise ValueError
    end).

Record zemax_bsdf : Type := mk_zemax_bsdf {
  scatterType : chars;
  symmetry : chars;
  nbSampleRotation : Z;
  nbAngleIncidence : Z;
  nbScatterAzimuth : Z;
  nbScatterRadial : Z;
  angleIncidence : list Q;
  sampleRotation : list Q;
  scatterRadial : list Q;
  scatterAzimuth : list Q;
  tisData : list (list Q);
  bsdfData : list (list (list (list Q)))
}.

(** Lines 233-409.  The informational prints under [bool_log] do not
    change the control flow and are left out; the warnings are recorded. *)
Definition read_zemax_bsdf : M zemax_bsdf :=
  sourceLine <- read_uncommented ;;
  let source := strip (slice 6 sourceLine) in
  symmetryLine <- read_uncommented ;;
  let symmetry := strip (slice 8 symmetryLine) in
  spectralContentLine <- read_uncommented ;;
  let spectralContent := strip (slice 15 spectralContentLine) in
  scatterTypeLine <- read_uncommented ;;
  let scatterType := strip (slice 11 scatterTypeLine) in
  nbSampleRotation <- read_count 14 ;;
  sampleRotation <-
    read_values nbSampleRotation
                ".....WARNING: Wrong data for sample rotation values" ;;
  nbAngleIncidence <- read_count 16 ;;
  angleIncidence <-
    read_values nbAngleIncidence
                ".....WARNING: Wrong data for angle incidence values" ;;
  nbScatterAzimuth <- read_count 14 ;;
  scatterAzimuth <-
    read_values nbScatterAzimuth
                ".....WARNING: Wrong data for scatter azimuth values" ;;
  nbScatterRadial <- read_count 13 ;;
  scatterRadial <-
    read_values nbScatterRadial
                ".....WARNING: Wrong data for scatter radial values" ;;
  read_to_data_begin ;;
  dimRotation <- lift (dimension nbSampleRotation) ;;
  dimIncidence <- lift (dimension nbAngleIncidence) ;;
  dimAzimuth <- lift (dimension nbScatterAzimuth) ;;
  dimRadial <- lift (dimension nbScatterRadial) ;;
  slices <-
    for_eachM (range dimRotation) (fun i =>
      for_eachM (range dimIncidence) (fun j =>
        tisLine <- readline ;;
        tis <- lift (float (slice 4 tisLine)) ;;
        rows <-
          for_eachM (range dimAzimuth) (fun k =>
            dataLine <- readline ;;
            lift (assign_row dimRadial (split dataLine))) ;;
        ret (tis, rows))) ;;
  let tisData := map (map fst) slices in
  let bsdfData := map (map snd) slices in
  angleIncidence <- lift (read_local angleIncidence) ;;
  sampleRotation <- lift (read_local sampleRotation) ;;
  scatterRadial <- lift (read_local scatterRadial) ;;
  scatterAzimuth <- lift (read_local scatterAzimuth) ;;
  ret (mk_zemax_bsdf scatterType symmetry nbSampleRotation nbAngleIncidence
                     nbScatterAzimuth nbScatterRadial angleIncidence
                     sampleRotation scatterRadial scatterAzimuth
                     tisData bsdfData).

End ZemaxReader.

(** *** The Speos reader: [read_speos_bsdf] *)

Module SpeosReader.

Import PyQ PyStr Reader.
Local Open Scope reader_scope.

Record speos_bsdf : Type := mk_speos_bsdf {
  bool_success : Z;
  nb_reflection_transmission : Z;
  scatterType : chars;
  symmetry : chars;
  nbSampleRotation : Z;
  nbAngleIncidence : Z;
  angleIncidence : list Q;
  wavelength : list Q;
  scatterRadial_list : list (list Q);
  scatterAzimuth_list : list (list Q);
  tisData : list (list Q);
  bsdfData_list : list (list (list Q))
}.

(** One block of the data section, lines 527-549. *)
Record speos_block : Type := mk_speos_block {
  block_tis : Q;
  block_radial : list Q;
  block_azimuth : list Q;
  block_data : list (list Q)
}.

(** [np.transpose] of [nbRows] rows of [nbColumns] values. *)
Definition transpose (nbColumns : nat) (rows : list (list Q))
  : list (list Q) :=
  map (fun c => map (fun row => nth c row 0%Q) rows) (range nbColumns).

Definition read_block : M speos_block :=
  tisLine <- readline ;;
  tis <- lift (float tisLine) ;;
  nbthetaphiLine <- readline ;;
  let nbthetaphi := split_on " " (drop_last nbthetaphiLine) in
  nbScatterRadial <- lift (bind (lookup nbthetaphi 0) int) ;;
  nbScatterAzimuth <- lift (bind (lookup nbthetaphi 1) int) ;;
  scatterAzimuthLine <- readline ;;
  let scatterAzimuthLineString :=
    split_on tab (strip (drop_last scatterAzimuthLine)) in
  scatterAzimuth <- lift (for_each scatterAzimuthLineString float) ;;
  dimRadial <- lift (ZemaxReader.dimension nbScatterRadial) ;;
  dimAzimuth <- lift (ZemaxReader.dimension nbScatterAzimuth) ;;
  rows <-
    for_eachM (range dimRadial) (fun k =>
      dataLine <- readline ;;
      let data := split dataLine in
      radial <- lift (bind (lookup data 0) float) ;;
      row <- lift (ZemaxReader.assign_row dimAzimuth (tl data)) ;;
      ret (radial, row)) ;;
  ret (mk_speos_block tis (map fst rows) scatterAzimuth
                      (transpose dimAzimuth (map snd rows))).

(** Lines 425-571.  [input(...)] before each [exit()] waits for the Enter
    key and is taken to return. *)
Definition read_speos_bsdf (inputFilepath : chars) : M speos_bsdf :=
  let bool_success := 1%Z in
  let input_file_extension := lower (splitext_ext inputFilepath) in
  let symmetry :=
    if contains (lit "brdf") input_file_extension
    then Some (lit "Asymmetrical") else None in
  headerLine <- readline ;;
  let header := split_on " " (drop_last headerLine) in
  version <- lift (lookup header (length header - 1)) ;;
  versionNumber <- lift (float (drop 1 version)) ;;
  if Qltb versionNumber 8 then
    print ".....WARNING: The format is not supported." ;;
    print ".....Open and save the file with the BSDF viewer to update the format." ;;
    exit
  else
  textorbinaryLine <- readline ;;
  let textorbinary := split_on tab (drop_last textorbinaryLine) in
  flag <- lift (lookup textorbinary 0) ;;
  (* [textorbinary[0] == 0]: a string compared with the integer 0 *)
  if PyStr.eq (VStr flag) (VInt 0) then
    print ".....WARNING: The BSDF data cannot be read. It is not a text." ;;
    exit
  else
  commentLine <- readline ;;
  nbmeasurementLine <- readline ;;
  measurementdescriptionLine <- readline ;;
  reflectionortransmissionLine <- readline ;;
  let reflectionortransmission :=
    split_on tab (drop_last reflectionortransmissionLine) in
  reflection <- lift (lookup reflectionortransmission 0) ;;
  let scatterType :=
    if str_eq reflection (lit "1") then Some (lit "BRDF") else None in
  transmission <- lift (lookup reflectionortransmission 1) ;;
  let scatterType :=
    if str_eq transmission (lit "1") then Some (lit "BTDF")
    else scatterType in
  let nb_reflection_transmission :=
    if (str_eq reflection (lit "1") && str_eq transmission (lit "1"))%bool
    then 2%Z else 1%Z in
  typeLine <- readline ;;
  nbAngleIncidenceWavelengthLine <- readline ;;
  let nbAngleIncidenceWavelength :=
    split_on tab (drop_last nbAngleIncidenceWavelengthLine) in
  nbAngleIncidence <- lift (bind (lookup nbAngleIncidenceWavelength 0) int) ;;
  nbWavelength <- lift (bind (lookup nbAngleIncidenceWavelength 1) int) ;;
  angleIncidenceLine <- readline ;;
  angleIncidence <-
    lift (for_each (split_on tab (drop_last angleIncidenceLine)) float) ;;
  wavelengthLine <- readline ;;
  wavelength <-
    lift (for_each (split_on tab (drop_last wavelengthLine)) float) ;;
  dimBlocks <-
    lift (ZemaxReader.dimension
            (nb_reflection_transmission * nbAngleIncidence)) ;;
  dimWavelength <- lift (ZemaxReader.dimension nbWavelength) ;;
  blocks <-
    for_eachM (range dimBlocks) (fun i =>
      for_eachM (range dimWavelength) (fun j => read_block)) ;;
  let tisData := map (map block_tis) blocks in
  let nbSampleRotation := nbWavelength in
  scatterType <- lift (read_local scatterType) ;;
  symmetry <- lift (read_local symmetry) ;;
  ret (mk_speos_bsdf bool_success nb_reflection_transmission scatterType
                     symmetry nbSampleRotation nbAngleIncidence
                     angleIncidence wavelength
                     (map block_radial (concat blocks))
                     (map block_azimuth (concat blocks))
                     tisData
                     (map block_data (concat blocks))).

End SpeosReader.
(** *** The writers *)

Module Writers.

Import PyStr.
Local Open Scope R_scope.

(** What a writer puts into a string: fixed text, or a number under one of
    the conversions the source applies to it. *)
Inductive piece : Type :=
| Text (s : chars)
| StrInt (n : Z)            (* [str(n)] of an integer *)
| StrFloat (x : R)          (* [str(x)] of a float *)
| StrRound3 (x : R)         (* [str(round(x, 3))] *)
| Sci3 (x : R).             (* ["{:.3e}".format(x)] *)

(** One string appended to [nLines]. *)
Definition fragment : Type := list piece.

Definition T (s : string) : piece := Text (lit s).
Definition NL : piece := Text [newline].
Definition TAB : piece := Text [tab].

(** A writer appends to [nLines]: it yields a value and what it has
    appended, or raises. *)
Definition W (A : Type) : Type := result (A * list fragment).

Definition retW {A : Type} (a : A) : W A := Ok (a, []).

Definition bindW {A B : Type} (m : W A) (k : A -> W B) : W B :=
  bind m (fun '(a, out1) =>
  bind (k a) (fun '(b, out2) => Ok (b, out1 ++ out2))).

(** [nLines.append(s)] *)
Definition append (s : fragment) : W unit := Ok (tt, [s]).

Definition liftW {A : Type} (r : result A) : W A :=
  bind r (fun a => Ok (a, [])).

(** [for x in xs: body] *)
Fixpoint forW {A : Type} (xs : list A) (body : A -> W unit) : W unit :=
  match xs with
  | [] => retW tt
  | x :: xs' => bindW (body x) (fun _ => forW xs' body)
  end.

(** What the writer has appended. *)
Definition appended {A : Type} (m : W A) : result (list fragment) :=
  bind m (fun '(_, out) => Ok out).

End Writers.

Declare Scope writer_scope.
Delimit Scope writer_scope with writer.
Notation "x <- m ;; k" := (Writers.bindW m (fun x => k))
  (at level 61, m at next level, right associativity) : writer_scope.
Notation "m ;; k" := (Writers.bindW m (fun _ => k))
  (at level 61, right associativity) : writer_scope.

Module SpeosWriter.

Import PyStr Writers.
Local Open Scope R_scope.
Local Open Scope writer_scope.

(** Lines 607-660.  The warning printed for an unknown scatter type is not
    recorded. *)
Definition write_speos_header_bsdf
           (binaryMode : Z) (anisotropyVector : list Z) (scatterType : chars)
           (nbSampleRotation nbAngleIncidence : nat)
           (sampleRotation angleIncidence : list R)
           (tisData : list (list R)) : result (list fragment) :=
  appended (
    let measurementDescription := "Measurement description"%string in
    let comment := "Comment"%string in
    append [T "OPTIS - Anisotropic BSDF surface file v7.0"; NL] ;;
    append [StrInt binaryMode; NL] ;;
    append [T comment; NL] ;;
    append [StrInt (Z.of_nat (String.length measurementDescription)); NL] ;;
    append [T measurementDescription; NL] ;;
    a0 <- liftW (lookup anisotropyVector 0) ;;
    a1 <- liftW (lookup anisotropyVector 1) ;;
    a2 <- liftW (lookup anisotropyVector 2) ;;
    append [StrInt a0; TAB; StrInt a1; TAB; StrInt a2; NL] ;;
    (if str_eq scatterType (lit "BRDF") then
       append [T "1"; TAB; T "0"; NL] ;;
       append [StrInt 1; NL]
     else if str_eq scatterType (lit "BTDF") then
       append [T "0"; TAB; T "1"; NL] ;;
       append [StrInt 0; NL]
     else retW tt) ;;
    append [StrInt (Z.of_nat nbSampleRotation); NL] ;;
    forW (range nbSampleRotation) (fun i =>
      x <- liftW (lookup sampleRotation i) ;;
      append [StrFloat x; TAB]) ;;
    (if negb (nbSampleRotation =? 0)%nat then append [NL] else retW tt) ;;
    forW (range nbSampleRotation) (fun k =>
      append [StrInt (Z.of_nat nbAngleIncidence); NL] ;;
      forW (range nbAngleIncidence) (fun i =>
        x <- liftW (lookup angleIncidence i) ;;
        append [StrFloat x; TAB]) ;;
      (if negb (nbAngleIncidence =? 0)%nat then append [NL] else retW tt)) ;;
    inc0 <- liftW (lookup angleIncidence 0) ;;
    append [StrFloat inc0; TAB; T "0"; NL] ;;
    append [NL] ;;
    append [T "2"; NL] ;;
    row0 <- liftW (lookup tisData 0) ;;
    tis00 <- liftW (lookup row0 0) ;;
    append [T "350"; TAB; StrFloat (100 * tis00); NL] ;;
    row0 <- liftW (lookup tisData 0) ;;
    tis00 <- liftW (lookup row0 0) ;;
    append [T "850"; TAB; StrFloat (100 * tis00); NL]).

(** [bsdfDataSpeos[i][j][k][phi_idx]] *)
Definition lookup4 (a : list (list (list (list R)))) (i j k l : nat)
  : result R :=
  bind (lookup a i) (fun ai =>
  bind (lookup ai j) (fun aij =>
  bind (lookup aij k) (fun aijk => lookup aijk l))).

(** Lines 1024-1049. *)
Definition write_speos_data_bsdf
           (nLines : list fragment) (scatterType : chars)
           (nbSampleRotation nbAngleIncidence : nat)
           (line_theta line_phi : list R)
           (bsdfDataSpeos : list (list (list (list R))))
  : result (list fragment) :=
  let nbTheta := length line_theta in
  let nbPhi := length line_phi in
  bind (appended (
    forW (range nbSampleRotation) (fun i =>
      forW (range nbAngleIncidence) (fun j =>
        append [StrInt (Z.of_nat nbTheta); T " ";
                StrInt (Z.of_nat nbPhi); NL] ;;
        forW (range nbPhi) (fun x =>
          currentPhi <- liftW (lookup line_phi x) ;;
          append [TAB; StrFloat currentPhi]) ;;
        append [NL] ;;
        forW (range nbTheta) (fun k =>
          currentTheta <- liftW (lookup line_theta k) ;;
          append [StrFloat currentTheta] ;;
          forW (range nbPhi) (fun phi_idx =>
            if str_eq scatterType (lit "BRDF") then
              v <- liftW (lookup4 bsdfDataSpeos i j k phi_idx) ;;
              append [TAB; StrFloat v]
            else if str_eq scatterType (lit "BTDF") then
              let thetas_cosine := cos ((180 - currentTheta) * PI / 180) in
              v <- liftW (lookup4 bsdfDataSpeos i j k phi_idx) ;;
              append [TAB; StrFloat (thetas_cosine * v)]
            else retW tt) ;;
          append [NL]))) ;;
    append [T "End of file"] ;;
    append [NL]))
  (fun out => Ok (nLines ++ out)).

End SpeosWriter.

Module ZemaxWriter.

Import PyStr Writers.
Local Open Scope R_scope.
Local Open Scope writer_scope.

(** Lines 1075-1089.  [shape2] and [shape3] stand for [bsdfData.shape[2]]
    and [bsdfData.shape[3]]. *)
Definition write_zemax_data_bsdf
           (index_wavelength index_RT nbSampleRotation nbAngleIncidence : nat)
           (tisData : list (list R))
           (shape2 shape3 : nat)
           (bsdfData : list (list (list (list R))))
  : result (list fragment) :=
  appended (
    forW (range nbSampleRotation) (fun i =>
      forW (range nbAngleIncidence) (fun j =>
        let index_angle := (j + nbAngleIncidence * index_RT)%nat in
        tisRow <- liftW (lookup tisData j) ;;
        tis <- liftW (lookup tisRow index_wavelength) ;;
        append [T "TIS "; StrRound3 (tis / 100); NL] ;;
        forW (range shape3) (fun k =>
          forW (range (shape2 - 1)) (fun l =>
            v <- liftW (SpeosWriter.lookup4 bsdfData index_angle
                                            index_wavelength l k) ;;
            append [Sci3 v; TAB]) ;;
          let l := (shape2 - 1)%nat in
          v <- liftW (SpeosWriter.lookup4 bsdfData index_angle
                                          index_wavelength l k) ;;
          append [Sci3 v; NL]))) ;;
    append [T "DataEnd"; NL]).

End ZemaxWriter.

(** **** Vocabulary of the writers' properties *)

Module WriterSpec.

Import PyStr Writers SpeosWriter.
Local Open Scope R_scope.

(** The value stored at [(i, j, k, l)]. *)
Definition value4 (a : list (list (list (list R)))) (i j k l : nat) : R :=
  nth l (nth k (nth j (nth i a []) []) []) 0.

(** The array has a value at every index below the four bounds. *)
Definition covers (a : list (list (list (list R)))) (n1 n2 n3 n4 : nat)
  : Prop :=
  forall i j k l,
    (i < n1)%nat -> (j < n2)%nat -> (k < n3)%nat -> (l < n4)%nat ->
    lookup4 a i j k l = Ok (value4 a i j k l).

(** Where [write_speos_data_bsdf] puts the value of cell [(i, j, k, p)],
    counted in appended strings from the first one it appends: a block is
    a count line, [nbPhi] azimuths and a line end, then per radial angle
    the angle, [nbPhi] values and a line end. *)
Definition speos_position (nbAngleIncidence nbTheta nbPhi i j k p : nat)
  : nat :=
  (i * nbAngleIncidence + j) * ((nbTheta + 1) * (nbPhi + 2))
  + (k + 1) * (nbPhi + 2) + 1 + p.

(** Where [write_zemax_data_bsdf] puts the value of radial index [l] and
    azimuth index [k] in the block [(i, j)]: a block is a TIS line and then
    one string per value, azimuth by azimuth. *)
Definition zemax_position (nbAngleIncidence shape2 shape3 i j l k : nat)
  : nat :=
  (i * nbAngleIncidence + j) * (1 + shape3 * shape2) + 1 + k * shape2 + l.

End WriterSpec.
(** *** The coordinate transforms *)

Module Transform.

Local Open Scope R_scope.

(** [round(x)] on a real: the nearest integer, ties to the even one. *)
Definition round (x : R) : Z :=
  let f := Int_part x in
  let r := x - IZR f in
  if Rlt_dec r (1 / 2) then f
  else if Rlt_dec (1 / 2) r then (f + 1)%Z
  else if Z.even f then f else (f + 1)%Z.

(** [round(x, ndigits)] *)
Definition round_digits (x : R) (ndigits : nat) : R :=
  IZR (round (x * 10 ^ ndigits)) / 10 ^ ndigits.

(** [math.atan2(y, x)] *)
Definition atan2 (y x : R) : R :=
  if Rlt_dec 0 x then atan (y / x)
  else if Rlt_dec x 0 then
    if Rle_dec 0 y then atan (y / x) + PI else atan (y / x) - PI
  else if Rlt_dec 0 y then PI / 2
  else if Rlt_dec y 0 then - (PI / 2)
  else 0.

(** Lines 44-47 and 101-104: division by the norm. *)
Definition normalize (x_o y_o z_o : R) : result (R * R * R) :=
  let norm := sqrt (x_o * x_o + y_o * y_o + z_o * z_o) in
  if Req_EM_T norm 0 then Raise ZeroDivisionError
  else Ok (x_o * (1 / norm), y_o * (1 / norm), z_o * (1 / norm)).

(** Lines 49 and 106: [math.acos] is defined on [-1, 1]. *)
Definition acos_degrees (z_o : R) : result R :=
  if Rle_dec (-1) z_o then
    if Rle_dec z_o 1 then Ok (acos z_o * (180 / PI)) else Raise ValueError
  else Raise ValueError.

(** [if c: v = x], on a local that may still be unassigned. *)
Definition assign_if {P Q : Prop} (c : {P} + {Q}) (x : R) (v : option R)
  : option R :=
  if c then Some x else v.

(** Lines 33-71. *)
Definition convert_normal_to_specular_using_cartesian
           (theta_i phi_i angle_inc : R) : result (R * R) :=
  let theta_i := theta_i * (PI / 180) in
  let phi_i := phi_i * (PI / 180) in
  let x_i := sin theta_i * cos phi_i in
  let y_i := sin theta_i * sin phi_i in
  let z_i := cos theta_i in
  let x_o := x_i * cos (angle_inc * PI / 180)
             - z_i * sin (angle_inc * PI / 180) in
  let y_o := y_i in
  let z_o := x_i * sin (angle_inc * PI / 180)
             + z_i * cos (angle_inc * PI / 180) in
  '(x_o, y_o, z_o) <- normalize x_o y_o z_o ;;
  theta_o <- acos_degrees z_o ;;
  phi_o <-
    (if Req_EM_T x_o 0 then
       let phi_o := None in
       let phi_o := assign_if (Req_EM_T y_o 0) 0 phi_o in
       let phi_o := assign_if (Rlt_dec 0 y_o) 90 phi_o in
       let phi_o := assign_if (Rlt_dec y_o 0) 270 phi_o in
       read_local phi_o
     else
       let phi_o := atan (y_o / x_o) * (180 / PI) in
       let phi_o := if Rlt_dec x_o 0 then 180 + phi_o else phi_o in
       let phi_o :=
         if Rlt_dec 0 x_o then
           if Rlt_dec y_o 0 then 360 + phi_o else phi_o
         else phi_o in
       Ok phi_o) ;;
  let phi_o := if Rlt_dec phi_o 180 then phi_o + 180 else phi_o - 180 in
  Ok (theta_o, phi_o).

(** Lines 90-123. *)
Definition convert_specular_to_normal_using_cartesian
           (theta_i phi_i angle_inc : R) : result (R * R) :=
  let theta_i := theta_i * (PI / 180) in
  let phi_i := phi_i * (PI / 180) in
  let x_i := sin theta_i * cos phi_i in
  let y_i := sin theta_i * sin phi_i in
  let z_i := cos theta_i in
  let x_o := - x_i * cos (angle_inc * PI / 180)
             + z_i * sin (angle_inc * PI / 180) in
  let y_o := y_i in
  let z_o := x_i * sin (angle_inc * PI / 180)
             + z_i * cos (angle_inc * PI / 180) in
  '(x_o, y_o, z_o) <- normalize x_o y_o z_o ;;
  theta_o <- acos_degrees z_o ;;
  phi_o <-
    (if Req_EM_T (round_digits x_o 2) 0 then
       let phi_o := None in
       let phi_o :=
         assign_if (Req_EM_T (round_digits y_o 0) 0)
                   (phi_i * (180 / PI)) phi_o in
       let phi_o := assign_if (Rlt_dec 0 y_o) 270 phi_o in
       let phi_o := assign_if (Rlt_dec y_o 0) 90 phi_o in
       read_local phi_o
     else
       let phi_o := Rabs (atan2 y_o x_o * (180 / PI)) in
       let phi_o :=
         if Rlt_dec 0 (round_digits y_o 3) then 360 - phi_o else phi_o in
       Ok phi_o) ;;
  let theta_o := round_digits theta_o 2 in
  let phi_o := round_digits phi_o 2 in
  Ok (theta_o, phi_o).

(** The composition the near-inverse property is about. *)
Definition there_and_back (theta phi angle_inc : R) : result (R * R) :=
  '(theta_s, phi_s) <-
     convert_normal_to_specular_using_cartesian theta phi angle_inc ;;
  convert_specular_to_normal_using_cartesian theta_s phi_s angle_inc.

End Transform.

(** **** Vocabulary of the transforms' properties *)

Module TransformSpec.

Import Transform.
Local Open Scope R_scope.

(** Lines 51-63: the azimuth of the rotated direction. *)
Definition specular_azimuth (x_o y_o : R) : result R :=
  if Req_EM_T x_o 0 then
    read_local
      (assign_if (Rlt_dec y_o 0) 270
         (assign_if (Rlt_dec 0 y_o) 90
            (assign_if (Req_EM_T y_o 0) 0 None)))
  else
    Ok (let phi_o := atan (y_o / x_o) * (180 / PI) in
        let phi_o := if Rlt_dec x_o 0 then 180 + phi_o else phi_o in
        if Rlt_dec 0 x_o then
          if Rlt_dec y_o 0 then 360 + phi_o else phi_o
        else phi_o).

(** Lines 66-69: the change of azimuth reference. *)
Definition change_reference (phi_o : R) : R :=
  if Rlt_dec phi_o 180 then phi_o + 180 else phi_o - 180.

(** Lines 108-118: the azimuth in the normal reference. *)
Definition normal_azimuth (phi_i x_o y_o : R) : result R :=
  if Req_EM_T (round_digits x_o 2) 0 then
    read_local
      (assign_if (Rlt_dec y_o 0) 90
         (assign_if (Rlt_dec 0 y_o) 270
            (assign_if (Req_EM_T (round_digits y_o 0) 0)
                       (phi_i * (180 / PI)) None)))
  else
    Ok (let phi_o := Rabs (atan2 y_o x_o * (180 / PI)) in
        if Rlt_dec 0 (round_digits y_o 3) then 360 - phi_o else phi_o).

(** Degrees to radians. *)
Definition radians (x : R) : R := x * (PI / 180).

End TransformSpec.
(** *** Vocabulary of the remaining properties *)

Module PrecisionSpec.

Import PyQ Precision.
Local Open Scope Q_scope.

(** What the routine computes from the number [n] of samples on the branch
    [n <= 1000]: the number of half degrees of the recommended step. *)
Definition half_steps (angle_max : Q) (n : Z) : Z :=
  round (round_digits (angle_max / inject_Z (n - 1)) 1 / (1 # 2)).

(** The recommended step is within a quarter of a degree of the exact
    step. *)
Definition near_enough (angle_max : Q) (n : nat) : bool :=
  Qle_bool (Qabs (angle_max / inject_Z (Z.of_nat n - 1)
                  - (1 # 2) * inject_Z (half_steps angle_max (Z.of_nat n))))
           (1 # 4).

End PrecisionSpec.

Module ReaderSpec.

Import Reader.

(** A computation that prints nothing. *)
Definition quiet {A : Type} (m : M A) : Prop :=
  forall s s' r, m s = (s', r) -> printed s' = printed s.

(** A computation that has printed nothing whenever it returns. *)
Definition silent_on_return {A : Type} (m : M A) : Prop :=
  forall s s' v, m s = (s', Ok v) -> printed s' = printed s.

(** A computation that never returns. *)
Definition never_returns {A : Type} (m : M A) : Prop :=
  forall s s' v, m s <> (s', Ok v).

(** The two warnings that precede the version [exit()]. *)
Definition version_warnings : list string :=
  [ ".....WARNING: The format is not supported.";
    ".....Open and save the file with the BSDF viewer to update the format."
  ]%string.

End ReaderSpec.

(** **** The Speos reader from its third line on *)

Module SpeosReaderSpec.

Import PyQ PyStr Reader SpeosReader.
Local Open Scope reader_scope.

(** Lines 431-433: the symmetry the extension of the path gives. *)
Definition extension_symmetry (inputFilepath : chars) : option chars :=
  if contains (lit "brdf") (lower (splitext_ext inputFilepath))
  then Some (lit "Asymmetrical") else None.

(** Lines 460-571: what [read_speos_bsdf] does once the version and the
    text flag are behind it. *)
Definition read_speos_from_comment (symmetry : option chars)
  : M speos_bsdf :=
  let bool_success := 1%Z in
  commentLine <- readline ;;
  nbmeasurementLine <- readline ;;
  measurementdescriptionLine <- readline ;;
  reflectionortransmissionLine <- readline ;;
  let reflectionortransmission :=
    split_on tab (drop_last reflectionortransmissionLine) in
  reflection <- lift (lookup reflectionortransmission 0) ;;
  let scatterType :=
    if str_eq reflection (lit "1") then Some (lit "BRDF") else None in
  transmission <- lift (lookup reflectionortransmission 1) ;;
  let scatterType :=
    if str_eq transmission (lit "1") then Some (lit "BTDF")
    else scatterType in
  let nb_reflection_transmission :=
    if (str_eq reflection (lit "1") && str_eq transmission (lit "1"))%bool
    then 2%Z else 1%Z in
  typeLine <- readline ;;
  nbAngleIncidenceWavelengthLine <- readline ;;
  let nbAngleIncidenceWavelength :=
    split_on tab (drop_last nbAngleIncidenceWavelengthLine) in
  nbAngleIncidence <- lift (bind (lookup nbAngleIncidenceWavelength 0) int) ;;
  nbWavelength <- lift (bind (lookup nbAngleIncidenceWavelength 1) int) ;;
  angleIncidenceLine <- readline ;;
  angleIncidence <-
    lift (for_each (split_on tab (drop_last angleIncidenceLine)) float) ;;
  wavelengthLine <- readline ;;
  wavelength <-
    lift (for_each (split_on tab (drop_last wavelengthLine)) float) ;;
  dimBlocks <-
    lift (ZemaxReader.dimension
            (nb_reflection_transmission * nbAngleIncidence)) ;;
  dimWavelength <- lift (ZemaxReader.dimension nbWavelength) ;;
  blocks <-
    for_eachM (range dimBlocks) (fun i =>
      for_eachM (range dimWavelength) (fun j => read_block)) ;;
  let tisData := map (map block_tis) blocks in
  let nbSampleRotation := nbWavelength in
  scatterType <- lift (read_local scatterType) ;;
  symmetry <- lift (read_local symmetry) ;;
  ret (mk_speos_bsdf bool_success nb_reflection_transmission scatterType
                     symmetry nbSampleRotation nbAngleIncidence
                     angleIncidence wavelength
                     (map block_radial (concat blocks))
                     (map block_azimuth (concat blocks))
                     tisData
                     (map block_data (concat blocks))).

End SpeosReaderSpec.

(** *** The text of a written file *)

Module Render.

Import PyStr Writers.

(** [str(n)] of an integer. *)
Definition str_int (n : Z) : chars :=
  list_ascii_of_string (NilZero.string_of_int (Z.to_int n)).

Section Formats.

(** The decimal spellings Python gives to floats: [str], [str] after
    [round(., 3)], and ["{:.3e}".format]. *)
Variable str_float : R -> chars.
Variable str_round3 : R -> chars.
Variable format_sci3 : R -> chars.

Definition render_piece (p : piece) : chars :=
  match p with
  | Text s => s
  | StrInt n => str_int n
  | StrFloat x => str_float x
  | StrRound3 x => str_round3 x
  | Sci3 x => format_sci3 x
  end.

(** [nFile.writelines(nLines)]: the text of the file. *)
Definition file_text (nLines : list fragment) : chars :=
  flat_map (flat_map render_piece) nLines.

End Formats.

End Render.

Module WriterOutput.

Import PyStr Writers SpeosWriter WriterSpec.
Local Open Scope R_scope.

(** The first string of every Speos file. *)
Definition speos_header_fragment : fragment :=
  [T "OPTIS - Anisotropic BSDF surface file v7.0"; NL].

(** What [write_speos_data_bsdf] appends for one radial angle, one block
    and the whole data set, when every cell [v] at radial angle [theta] is
    written as [scale theta v]. *)
Definition speos_row_out (scale : R -> R -> R) (line_theta line_phi : list R)
           (bsdfDataSpeos : list (list (list (list R)))) (i j k : nat)
  : list fragment :=
  [StrFloat (nth k line_theta 0)]
    :: map (fun p => [TAB; StrFloat (scale (nth k line_theta 0)
                                          (value4 bsdfDataSpeos i j k p))])
           (range (length line_phi))
    ++ [[NL]].

Definition speos_block_out (scale : R -> R -> R) (line_theta line_phi : list R)
           (bsdfDataSpeos : list (list (list (list R)))) (i j : nat)
  : list fragment :=
  ([StrInt (Z.of_nat (length line_theta)); T " ";
    StrInt (Z.of_nat (length line_phi)); NL]
     :: map (fun x => [TAB; StrFloat (nth x line_phi 0)])
            (range (length line_phi))
     ++ [[NL]])
    ++ flat_map (speos_row_out scale line_theta line_phi bsdfDataSpeos i j)
                (range (length line_theta)).

Definition speos_data_out (scale : R -> R -> R)
           (nbSampleRotation nbAngleIncidence : nat)
           (line_theta line_phi : list R)
           (bsdfDataSpeos : list (list (list (list R))))
  : list fragment :=
  flat_map (fun i =>
              flat_map (speos_block_out scale line_theta line_phi
                                        bsdfDataSpeos i)
                       (range nbAngleIncidence))
           (range nbSampleRotation)
  ++ [[T "End of file"]; [NL]].

(** The same for [write_zemax_data_bsdf]. *)
Definition tis_at (index_wavelength : nat) (tisData : list (list R))
           (j : nat) : R :=
  nth index_wavelength (nth j tisData []) 0.

Definition zemax_value (index_wavelength index_RT nbAngleIncidence : nat)
           (bsdfData : list (list (list (list R)))) (j l k : nat) : R :=
  value4 bsdfData (j + nbAngleIncidence * index_RT) index_wavelength l k.

Definition zemax_row_out (index_wavelength index_RT nbAngleIncidence : nat)
           (shape2 : nat) (bsdfData : list (list (list (list R))))
           (j k : nat) : list fragment :=
  map (fun l => [Sci3 (zemax_value index_wavelength index_RT
                                   nbAngleIncidence bsdfData j l k); TAB])
      (range (shape2 - 1))
  ++ [[Sci3 (zemax_value index_wavelength index_RT nbAngleIncidence
                         bsdfData j (shape2 - 1) k); NL]].

Definition zemax_block_out (index_wavelength index_RT nbAngleIncidence : nat)
           (tisData : list (list R)) (shape2 shape3 : nat)
           (bsdfData : list (list (list (list R)))) (j : nat)
  : list fragment :=
  [T "TIS "; StrRound3 (tis_at index_wavelength tisData j / 100); NL]
    :: flat_map (zemax_row_out index_wavelength index_RT nbAngleIncidence
                               shape2 bsdfData j)
                (range shape3).

Definition zemax_data_out
           (index_wavelength index_RT nbSampleRotation nbAngleIncidence : nat)
           (tisData : list (list R)) (shape2 shape3 : nat)
           (bsdfData : list (list (list (list R)))) : list fragment :=
  flat_map (fun i =>
              flat_map (zemax_block_out index_wavelength index_RT
                                        nbAngleIncidence tisData
                                        shape2 shape3 bsdfData)
                       (range nbAngleIncidence))
           (range nbSampleRotation)
  ++ [[T "DataEnd"; NL]].

End WriterOutput.

(** *** Sample inputs *)

Module Samples.

Import PyStr Writers.

(** A source on the axes theta = 0, 45, 90 and phi = 0, 90, 180. *)
Definition grid_block : Resampler.block :=
  [[1; 2; 3]; [4; 5; 6]; [7; 8; 9]]%Q.

Definition grid_src : Resampler.source :=
  Resampler.FromZemax [0; 45; 90]%Q [0; 90; 180]%Q [[grid_block]].

(** A stand-in for the coordinate transforms: the angles unchanged. *)
Definition same_angles (theta phi inc : Q) : Q * Q := (theta, phi).

(** A resampled block (rows by radial angle 0, 45, 90) whose only light is
    at normal exitance. *)
Definition peak_at_normal : Normalizer.block :=
  [[1; 1; 1]; [0; 0; 0]; [0; 0; 0]]%Q.

(** The quadrature of an integrand that vanishes at every sample. *)
Definition no_flux (line_theta line_phi : list Q) (b : Normalizer.block)
  : Q * Q := (0, 0)%Q.

(** The axis 0, 0.5, 1, ... of [n] samples. *)
Definition half_degree_axis (n : nat) : list Q :=
  map (fun k => inject_Z (Z.of_nat k) * (1 # 2))%Q (range n).

(** The text of a file from its lines. *)
Definition text_of (lines : list string) : chars :=
  flat_map (fun l => lit l ++ [newline]) lines.

(** Cells separated by tabulations. *)
Definition tabbed (cells : list string) : string :=
  String.concat (String tab EmptyString) cells.

(** A Zemax file that declares two sample rotations and lists one. *)
Definition mismatched_rotation_file : chars := text_of
  [ "#Data converted"; "Source  Measured"; "Symmetry  PlaneSymmetrical";
    "SpectralContent  Monochrome"; "ScatterType  BRDF";
    "SampleRotation  2"; "0";
    "AngleOfIncidence  1"; "30";
    "ScatterAzimuth  3"; "0 90 180";
    "ScatterRadial  2"; "0 90";
    ""; "Monochrome"; "DataBegin";
    "TIS 0.5"; "1 1"; "1 1"; "1 1";
    "TIS 0.5"; "1 1"; "1 1"; "1 1";
    "DataEnd" ]%string.

(** A Speos file of version 8.0 whose second line is [0]. *)
Definition flag_zero_file : chars := text_of
  [ "OPTIS - Anisotropic BSDF surface file v8.0";
    "0";
    "Comment";
    "23";
    "Measurement description";
    tabbed ["1"; "0"];
    "1";
    tabbed ["1"; "1"];
    "30";
    "550";
    "0.5";
    "2 3";
    tabbed ["0"; "180"; "360"];
    tabbed ["0"; "1"; "1"; "1"];
    tabbed ["90"; "2"; "2"; "2"];
    "End of file" ]%string.

(** What the Speos reader returns for it. *)
Definition flag_zero_result : SpeosReader.speos_bsdf :=
  SpeosReader.mk_speos_bsdf
    1 1 (lit "BRDF") (lit "Asymmetrical") 1 1
    [30]%Q [550]%Q [[0; 90]]%Q [[0; 180; 360]]%Q [[5 # 10]]%Q
    [[[1; 2]; [1; 2]; [1; 2]]]%Q.

(** A transmission data set: one block on theta = 90, 180 and
    phi = 0, 180, 360. *)
Definition transmission_block : list (list (list (list R))) :=
  [[ [[1; 2; 3]; [4; 5; 6]] ]]%R.

(** A Speos file as the writers produce it for one reflection block. *)
Definition written_speos_header : list fragment :=
  [ WriterOutput.speos_header_fragment;
    [StrInt 0; NL]; [T "Comment"; NL]; [StrInt 23; NL];
    [T "Measurement description"; NL];
    [StrInt 0; TAB; StrInt 1; TAB; StrInt 0; NL];
    [T "1"; TAB; T "0"; NL]; [StrInt 1; NL];
    [StrInt 1; NL]; [StrFloat 0; TAB]; [NL];
    [StrInt 1; NL]; [StrFloat 30; TAB]; [NL];
    [StrFloat 30; TAB; T "0"; NL]; [NL]; [T "2"; NL];
    [T "350"; TAB; StrFloat (100 * (1 / 2)); NL];
    [T "850"; TAB; StrFloat (100 * (1 / 2)); NL] ].

Definition written_speos_file : list fragment :=
  written_speos_header ++
  [ [StrInt 2; T " "; StrInt 3; NL];
    [TAB; StrFloat 0]; [TAB; StrFloat 180]; [TAB; StrFloat 360]; [NL];
    [StrFloat 0]; [TAB; StrFloat 1]; [TAB; StrFloat 2]; [TAB; StrFloat 3];
    [NL];
    [StrFloat 90]; [TAB; StrFloat 4]; [TAB; StrFloat 5]; [TAB; StrFloat 6];
    [NL];
    [T "End of file"]; [NL] ].

(** A rendering of floats, for the sample file only. *)
Definition plain_float (x : R) : chars := lit "1.0".

End Samples.

(** *** The cylindrical transforms *)

Module Cylindrical.

Import Transform.
Local Open Scope R_scope.

(** Lines 143-167. *)
Definition convert_normal_to_specular_using_cylindrical
           (theta_i phi_i angle_inc : R) : result (R * R) :=
  let phi_i := phi_i * (PI / 180) in
  let x_i := theta_i * cos phi_i in
  let y_i := theta_i * sin phi_i in
  let x_o := x_i - angle_inc in
  let y_o := y_i in
  let theta_o := sqrt (x_o * x_o + y_o * y_o) in
  phi_o <-
    (if Req_EM_T x_o 0 then
       let phi_o := None in
       let phi_o := assign_if (Req_EM_T y_o 0) 0 phi_o in
       let phi_o := assign_if (Rlt_dec 0 y_o) 90 phi_o in
       let phi_o := assign_if (Rlt_dec y_o 0) 270 phi_o in
       read_local phi_o
     else
       let phi_o := atan (y_o / x_o) * (180 / PI) in
       let phi_o := if Rlt_dec x_o 0 then 180 + phi_o else phi_o in
       let phi_o :=
         if Rlt_dec 0 x_o then
           if Rlt_dec y_o 0 then 360 + phi_o else phi_o
         else phi_o in
       Ok phi_o) ;;
  Ok (theta_o, phi_o).

(** Lines 188-218. *)
Definition convert_normal_to_specular_using_cylindrical_phiref
           (theta_i phi_i angle_inc : R) : result (R * R) :=
  let phi_i := phi_i * (PI / 180) in
  let x_i := theta_i * cos phi_i in
  let y_i := theta_i * sin phi_i in
  let x_o := x_i - angle_inc in
  let y_o := y_i in
  let theta_o := sqrt (x_o * x_o + y_o * y_o) in
  phi_o <-
    (if Req_EM_T x_o 0 then
       let phi_o := None in
       let phi_o := assign_if (Req_EM_T y_o 0) 0 phi_o in
       let phi_o := assign_if (Rlt_dec 0 y_o) 90 phi_o in
       let phi_o := assign_if (Rlt_dec y_o 0) 270 phi_o in
       read_local phi_o
     else
       let phi_o := atan (y_o / x_o) * (180 / PI) in
       let phi_o := if Rlt_dec x_o 0 then 180 + phi_o else phi_o in
       let phi_o :=
         if Rlt_dec 0 x_o then
           if Rlt_dec y_o 0 then 360 + phi_o else phi_o
         else phi_o in
       Ok phi_o) ;;
  let phi_o := if Rlt_dec phi_o 180 then phi_o + 180 else phi_o - 180 in
  Ok (theta_o, phi_o).

End Cylindrical.

Module ResamplerSpec.

Import PyQ Resampler.
Local Open Scope Q_scope.

(** A function of the two angles that is affine in each of them. *)
Definition bilinear (c0 c1 c2 c3 theta phi : Q) : Q :=
  c0 + c1 * theta + c2 * phi + c3 * theta * phi.

(** The number of samples of a target axis, lines 794-795:
    [int(angle_max / precision + 1)]. *)
Definition axis_count (angle_max precision : Q) : nat :=
  Z.to_nat (int (angle_max / precision + 1)).

(** A four-dimensional array of the given dimensions. *)
Definition dims4 (a : list (list (list (list Q)))) (n1 n2 n3 n4 : nat)
  : Prop :=
  length a = n1 /\
  Forall (fun plane =>
            length plane = n2 /\
            Forall (fun b =>
                      length b = n3 /\
                      Forall (fun row => length row = n4) b) plane) a.

End ResamplerSpec.

Module ResamplerSamples.

Import Resampler Samples.
Local Open Scope Q_scope.

(** What the conversion returns for [grid_src] as reflection data on a
    grid of 45 by 90 degrees, with the angles unchanged. *)
Definition resampled_grid
  : list (list (list (list Q))) * list Q * list Q :=
  Eval vm_compute in
    match convert_zemax_speos_bsdf_data
            same_angles same_angles 1 "PlaneSymmetrical" "BRDF" 1 1
            [0] [0] grid_src 45 90 with
    | Ok out => out
    | _ => ([], [], [])
    end.

End ResamplerSamples.

Module PrecisionRanges.

Import PyQ Precision ResamplerSpec.
Local Open Scope Q_scope.

(** Lines 1127-1129: the azimuth range of the symmetry and the number of
    samples assumed for an axis of more than 1000 samples. *)
Definition phi_range (symmetry : string) : Q * Z :=
  if String.eqb symmetry "PlaneSymmetrical" then (180, 500%Z)
  else (360, 1000%Z).

(** Lines 1132-1136 and 1139-1143: the step recommended for an axis of [n]
    samples over [angle_max] degrees. *)
Definition recommended (angle_max : Q) (nb_max n : Z) : Q :=
  let samples := if (1000 <? n)%Z then nb_max else n in
  (1 # 2)
  * inject_Z (round (round_digits (angle_max / inject_Z (samples - 1)) 1
                     / (1 # 2))).

(** The recommended step is at least half a degree and the target axis
    it gives has at most [cells] samples. *)
Definition workable (angle_max : Q) (nb_max : Z) (span : Q) (cells : nat)
           (n : nat) : bool :=
  let p := recommended angle_max nb_max (Z.of_nat n) in
  (Qle_bool (1 # 2) p && (axis_count span p <=? cells)%nat)%bool.

(** The recommended step is zero. *)
Definition degenerate (angle_max : Q) (nb_max : Z) (n : nat) : bool :=
  Qeq_bool (recommended angle_max nb_max (Z.of_nat n)) 0.

End PrecisionRanges.

Module NormalizerSpec.

Import PyQ Normalizer.
Local Open Scope Q_scope.

(** [l] with position [i] replaced by [v]. *)
Fixpoint upd {A : Type} (l : list A) (i : nat) (v : A) : list A :=
  match l, i with
  | [], _ => []
  | _ :: t, O => v :: t
  | a :: t, S i' => a :: upd t i' v
  end.

(** [m[i][j]] *)
Definition at2 {A : Type} (d : A) (m : list (list A)) (i j : nat) : A :=
  nth j (nth i m []) d.

(** [n] rows of [m] entries. *)
Definition shape2 {A : Type} (a : list (list A)) (n m : nat) : Prop :=
  length a = n /\ Forall (fun row => length row = m) a.

Section Factor.

Variable nquad : list Q -> list Q -> block -> Q * Q.

(** Lines 953-978: the factor of a slice, from its TIS value and its
    block as stored. *)
Definition factor (line_theta line_phi : list Q) (bool_zemax0_speos1 : bool)
           (tis : Q) (b : block) : Q :=
  let block_data := if bool_zemax0_speos1 then transpose b else b in
  let IntegralValue := Qabs (fst (nquad line_theta line_phi block_data)) in
  if Qltb 0 IntegralValue then tis / IntegralValue else 0.

End Factor.

End NormalizerSpec.

Module NormalizerSamples.

Import Normalizer.
Local Open Scope Q_scope.

(** A stand-in for the quadrature: the sum of the samples it is given. *)
Definition sum_of_samples (line_theta line_phi : list Q) (b : block)
  : Q * Q :=
  (fold_right Qplus 0 (concat b), 0).

End NormalizerSamples.

Module ZemaxReaderSpec.

Import PyStr Reader ZemaxReader.
Local Open Scope reader_scope.

(** One of the lines starts with [DataBegin]. *)
Definition has_data_begin (ls : list chars) : Prop :=
  Exists (fun l => starts_with (lit "DataBegin") l = true) ls.

(** Every line starts with [#]. *)
Definition comment_only (ls : list chars) : Prop :=
  Forall (fun l => exists rest, l = "#"%char :: rest) ls.

(** A computation that only takes lines from the front of the file. *)
Definition consumes {A : Type} (m : M A) : Prop :=
  forall s s1 r, m s = (s1, r) -> exists pre, unread s = pre ++ unread s1.

(** What the header of a Zemax file yields: the four counts and the four
    axes, each axis unassigned after a warning. *)
Record zemax_header : Type := mk_zemax_header {
  header_scatterType : chars;
  header_symmetry : chars;
  header_counts : Z * Z * Z * Z;
  header_sampleRotation : option (list Q);
  header_angleIncidence : option (list Q);
  header_scatterAzimuth : option (list Q);
  header_scatterRadial : option (list Q)
}.

(** Lines 233-366, the header part of [read_zemax_bsdf]. *)
Definition read_zemax_header : M zemax_header :=
  sourceLine <- read_uncommented ;;
  symmetryLine <- read_uncommented ;;
  let symmetry := strip (slice 8 symmetryLine) in
  spectralContentLine <- read_uncommented ;;
  scatterTypeLine <- read_uncommented ;;
  let scatterType := strip (slice 11 scatterTypeLine) in
  nbSampleRotation <- read_count 14 ;;
  sampleRotation <-
    read_values nbSampleRotation
                ".....WARNING: Wrong data for sample rotation values" ;;
  nbAngleIncidence <- read_count 16 ;;
  angleIncidence <-
    read_values nbAngleIncidence
                ".....WARNING: Wrong data for angle incidence values" ;;
  nbScatterAzimuth <- read_count 14 ;;
  scatterAzimuth <-
    read_values nbScatterAzimuth
                ".....WARNING: Wrong data for scatter azimuth values" ;;
  nbScatterRadial <- read_count 13 ;;
  scatterRadial <-
    read_values nbScatterRadial
                ".....WARNING: Wrong data for scatter radial values" ;;
  ret (mk_zemax_header
         scatterType symmetry
         (nbSampleRotation, nbAngleIncidence, nbScatterAzimuth,
          nbScatterRadial)
         sampleRotation angleIncidence scatterAzimuth scatterRadial).

End ZemaxReaderSpec.

Module ZemaxReaderSamples.

Import PyStr Reader ZemaxReader Samples.

(** A Zemax file of one block on two radial and three azimuthal angles. *)
Definition small_zemax_file : chars := text_of
  [ "#Data converted"; "Source  Measured"; "Symmetry  PlaneSymmetrical";
    "SpectralContent  Monochrome"; "ScatterType  BRDF";
    "SampleRotation  1"; "0";
    "AngleOfIncidence  1"; "30";
    "ScatterAzimuth  3"; "0 90 180";
    "ScatterRadial  2"; "0 90";
    ""; "Monochrome"; "DataBegin";
    "TIS 0.5"; "1 2"; "3 4"; "5 6";
    "DataEnd" ]%string.

(** The same file cut before its data section. *)
Definition truncated_zemax_file : chars := text_of
  [ "#Data converted"; "Source  Measured"; "Symmetry  PlaneSymmetrical";
    "SpectralContent  Monochrome"; "ScatterType  BRDF";
    "SampleRotation  1"; "0";
    "AngleOfIncidence  1"; "30";
    "ScatterAzimuth  3"; "0 90 180";
    "ScatterRadial  2"; "0 90";
    ""; "Monochrome" ]%string.

(** What the Zemax reader returns for [small_zemax_file]. *)
Definition small_zemax_result : zemax_bsdf :=
  Eval vm_compute in
    match snd (run read_zemax_bsdf small_zemax_file) with
    | Ok v => v
    | _ => mk_zemax_bsdf [] [] 0 0 0 0 [] [] [] [] [] []
    end.

End ZemaxReaderSamples.

Module WriterLabels.

Import PyStr Writers SpeosWriter WriterSpec.
Local Open Scope R_scope.

(** What [write_speos_data_bsdf] appends when no branch of its test on the
    scatter type is taken: per block the count line and the azimuths, then
    per radial angle the angle alone. *)
Definition speos_labels_block (line_theta line_phi : list R)
  : list fragment :=
  ([StrInt (Z.of_nat (length line_theta)); T " ";
    StrInt (Z.of_nat (length line_phi)); NL]
     :: map (fun x => [TAB; StrFloat (nth x line_phi 0)])
            (range (length line_phi))
     ++ [[NL]])
    ++ flat_map (fun k => [[StrFloat (nth k line_theta 0)]; [NL]])
                (range (length line_theta)).

Definition speos_labels_out (nbSampleRotation nbAngleIncidence : nat)
           (line_theta line_phi : list R) : list fragment :=
  flat_map (fun i =>
              flat_map (fun j => speos_labels_block line_theta line_phi)
                       (range nbAngleIncidence))
           (range nbSampleRotation)
  ++ [[T "End of file"]; [NL]].

End WriterLabels.

From Stdlib Require Import Qreals.

(** *** The conversion of a file: [convert_zemax_to_speos_bsdf] *)

Module ZemaxToSpeos.

Import PyQ PyStr Reader ZemaxReader Resampler Normalizer Precision.
Import Writers SpeosWriter.
Local Open Scope reader_scope.

(** [os.path.splitext(path)[0]]: the path without its extension. *)
Definition splitext_root (path : chars) : chars :=
  firstn (length path - length (splitext_ext path)) path.

(** [str(s)] of the text read from the file, as the resampler and the
    precision routine compare it. *)
Definition text (s : chars) : string := string_of_list_ascii s.

(** A written file: its name and the strings written to it. *)
Definition file : Type := fragment * list fragment.

Section Convert.

(** The two coordinate transforms and the quadrature, on floats. *)
Variable convert_normal_to_specular_using_cartesian : Q -> Q -> Q -> Q * Q.
Variable convert_specular_to_normal_using_cartesian : Q -> Q -> Q -> Q * Q.
Variable nquad : list Q -> list Q -> block -> Q * Q.

(** Lines 1165-1248.  The progress messages are left out; the file is
    what [write_file] is given. *)
Definition convert_zemax_to_speos_bsdf (inputFilepath : chars) : M file :=
  z <- read_zemax_bsdf ;;
  precision <-
    lift (phi_theta_recommended_precision
            (scatterRadial z) (scatterAzimuth z) (text (symmetry z))) ;;
  let '(precisionTheta, precisionPhi) := precision in
  let binaryMode := 0%Z in
  let anisotropyVector := [0; 1; 0]%Z in
  let nb_reflection_transmission := 1%nat in
  converted <-
    lift (convert_zemax_speos_bsdf_data
            convert_normal_to_specular_using_cartesian
            convert_specular_to_normal_using_cartesian
            nb_reflection_transmission
            (text (symmetry z)) (text (scatterType z))
            (Z.to_nat (nbSampleRotation z)) (Z.to_nat (nbAngleIncidence z))
            (sampleRotation z) (angleIncidence z)
            (FromZemax (scatterRadial z) (scatterAzimuth z) (bsdfData z))
            precisionTheta precisionPhi) ;;
  let '(bsdfDataSpeos, line_theta, line_phi) := converted in
  normalized <-
    lift (normalize_bsdf_data
            nquad
            (Z.to_nat (nbSampleRotation z)) (Z.to_nat (nbAngleIncidence z))
            line_theta line_phi (tisData z) bsdfDataSpeos true true) ;;
  let '(normalizationBsdf, bsdfDataSpeos) := normalized in
  nLines <-
    lift (write_speos_header_bsdf
            binaryMode anisotropyVector (scatterType z)
            (Z.to_nat (nbSampleRotation z)) (Z.to_nat (nbAngleIncidence z))
            (map Q2R (sampleRotation z)) (map Q2R (angleIncidence z))
            (map (map Q2R) (tisData z))) ;;
  nLines <-
    lift (write_speos_data_bsdf
            nLines (scatterType z)
            (Z.to_nat (nbSampleRotation z)) (Z.to_nat (nbAngleIncidence z))
            (map Q2R line_theta) (map Q2R line_phi)
            (map (map (map (map Q2R))) bsdfDataSpeos)) ;;
  let outputFilepath :=
    [Text (lower (splitext_root inputFilepath)); T "_";
     StrFloat (Q2R precisionTheta); T "_"; StrFloat (Q2R precisionPhi);
     T ".anisotropicbsdf"] in
  ret (outputFilepath, nLines).

End Convert.

End ZemaxToSpeos.

Module ConversionSamples.

Import PyStr Reader ZemaxReader Writers Samples.
Import ZemaxReaderSamples NormalizerSamples ZemaxToSpeos.

(** The file the conversion writes for [small_zemax_file], with the angles
    unchanged and the sum of the samples as quadrature. *)
Definition small_conversion : file :=
  Eval cbv -[Q2R IZR] in
    match snd (run (convert_zemax_to_speos_bsdf
                      same_angles same_angles sum_of_samples
                      (lit "Plate.BSDF"))
                   small_zemax_file) with
    | Ok f => f
    | _ => ([], [])
    end.

(** [str(k)] for [k] = 0, 1, ..., [n - 1], separated by spaces. *)
Definition counting (n : nat) : string :=
  String.concat " "
    (map (fun k => NilZero.string_of_uint (Nat.to_uint k)) (range n)).

Definition ones (n : nat) : string := String.concat " " (repeat "1"%string n).

(** A Zemax file of one block on 361 radial and three azimuthal angles. *)
Definition dense_zemax_file : chars := text_of
  [ "#Data converted"; "Source  Measured"; "Symmetry  PlaneSymmetrical";
    "SpectralContent  Monochrome"; "ScatterType  BRDF";
    "SampleRotation  1"; "0";
    "AngleOfIncidence  1"; "30";
    "ScatterAzimuth  3"; "0 90 180";
    "ScatterRadial  361"; counting 361;
    ""; "Monochrome"; "DataBegin";
    "TIS 0.5"; ones 361; ones 361; ones 361;
    "DataEnd" ]%string.

(** What the Zemax reader returns for it. *)
Definition dense_zemax_result : zemax_bsdf :=
  Eval vm_compute in
    match snd (run read_zemax_bsdf dense_zemax_file) with
    | Ok v => v
    | _ => mk_zemax_bsdf [] [] 0 0 0 0 [] [] [] [] [] []
    end.

End ConversionSamples.

From Stdlib Require DecimalPos.

(** *** The Zemax header writer: [write_zemax_header_bsdf] *)

Module ZemaxHeaderWriter.

Import PyStr Writers.
Local Open Scope R_scope.
Local Open Scope writer_scope.

(** Lines 700-742. *)
Definition write_zemax_header_bsdf
           (scatterType symmetry : chars) (currentwavelength : R)
           (nbSampleRotation nbAngleIncidence : nat)
           (sampleRotation angleIncidence line_theta line_phi : list R)
  : result (list fragment) :=
  appended (
    append [T "#Data converted from Speos data"; NL] ;;
    let comment := [T "#Wavelength (nm) = "; StrFloat currentwavelength] in
    append (comment ++ [NL]) ;;
    let comment := [T "Source  Measured"] in
    append (comment ++ [NL]) ;;
    append [T "Symmetry  "; Text symmetry; NL] ;;
    let spectralcontent := [T "SpectralContent  Monochrome"] in
    append (spectralcontent ++ [NL]) ;;
    let ScatterType := [T "ScatterType  "; Text scatterType] in
    append (ScatterType ++ [NL]) ;;
    append [T "SampleRotation  "; StrInt (Z.of_nat nbSampleRotation); NL] ;;
    forW (range nbSampleRotation) (fun i =>
      x <- liftW (lookup sampleRotation i) ;;
      append [StrFloat x; TAB]) ;;
    append [NL] ;;
    append [T "AngleOfIncidence  "; StrInt (Z.of_nat nbAngleIncidence); NL] ;;
    forW (range nbAngleIncidence) (fun i =>
      x <- liftW (lookup angleIncidence i) ;;
      append [StrFloat x; TAB]) ;;
    append [NL] ;;
    append [T "ScatterAzimuth "; StrInt (Z.of_nat (length line_phi)); NL] ;;
    forW (range (length line_phi)) (fun i =>
      x <- liftW (lookup line_phi i) ;;
      append [StrFloat x; TAB]) ;;
    append [NL] ;;
    append [T "ScatterRadial "; StrInt (Z.of_nat (length line_theta)); NL] ;;
    forW (range (length line_theta)) (fun i =>
      x <- liftW (lookup line_theta i) ;;
      append [StrFloat x; TAB]) ;;
    append [NL] ;;
    append [NL] ;;
    append [T "Monochrome"; NL] ;;
    append [T "DataBegin"; NL]).

End ZemaxHeaderWriter.

(** **** Vocabulary of the written Zemax file *)

Module ZemaxFile.

Import PyStr Reader ZemaxReader Writers WriterOutput Render.

(** A string without a line end. *)
Definition plain (s : chars) : bool :=
  forallb (fun c => negb (c =? newline)%char) s.

(** A string that [split()] returns as one piece: not empty, no blank. *)
Definition token (s : chars) : bool :=
  match s with
  | [] => false
  | _ => forallb (fun c => negb (is_space c)) s
  end.

(** A line the comment loop stops at: its first character is not [#]. *)
Definition uncommented (l : chars) : Prop :=
  match l with
  | c :: _ => (c =? "#")%char = false
  | [] => False
  end.

(** A comment line. *)
Definition commented (l : chars) : Prop :=
  match l with
  | c :: _ => (c =? "#")%char = true
  | [] => False
  end.

(** A spelling of floats that [float] reads back: [value x] is what
    [float] makes of the spelling of [x]. *)
Definition spelled (render : R -> chars) (value : R -> Q) : Prop :=
  forall x, token (render x) = true /\ float (render x) = Ok (value x).

(** The digits of a decimal number, most significant first, after the
    digits that gave [acc]. *)
Fixpoint uint_value (d : Decimal.uint) (acc : Z) : Z :=
  match d with
  | Decimal.Nil => acc
  | Decimal.D0 d => uint_value d (10 * acc + 0)
  | Decimal.D1 d => uint_value d (10 * acc + 1)
  | Decimal.D2 d => uint_value d (10 * acc + 2)
  | Decimal.D3 d => uint_value d (10 * acc + 3)
  | Decimal.D4 d => uint_value d (10 * acc + 4)
  | Decimal.D5 d => uint_value d (10 * acc + 5)
  | Decimal.D6 d => uint_value d (10 * acc + 6)
  | Decimal.D7 d => uint_value d (10 * acc + 7)
  | Decimal.D8 d => uint_value d (10 * acc + 8)
  | Decimal.D9 d => uint_value d (10 * acc + 9)
  end.

(** What [write_zemax_header_bsdf] appends for an axis of [n] values. *)
Definition axis_out (n : nat) (xs : list R) : list fragment :=
  map (fun i => [StrFloat (nth i xs 0%R); TAB]) (range n).

Definition zemax_header_out
           (scatterType symmetry : chars) (currentwavelength : R)
           (nbSampleRotation nbAngleIncidence : nat)
           (sampleRotation angleIncidence line_theta line_phi : list R)
  : list fragment :=
  [ [T "#Data converted from Speos data"; NL];
    [T "#Wavelength (nm) = "; StrFloat currentwavelength; NL];
    [T "Source  Measured"; NL];
    [T "Symmetry  "; Text symmetry; NL];
    [T "SpectralContent  Monochrome"; NL];
    [T "ScatterType  "; Text scatterType; NL];
    [T "SampleRotation  "; StrInt (Z.of_nat nbSampleRotation); NL] ]
  ++ axis_out nbSampleRotation sampleRotation
  ++ [ [NL];
       [T "AngleOfIncidence  "; StrInt (Z.of_nat nbAngleIncidence); NL] ]
  ++ axis_out nbAngleIncidence angleIncidence
  ++ [ [NL];
       [T "ScatterAzimuth "; StrInt (Z.of_nat (length line_phi)); NL] ]
  ++ axis_out (length line_phi) line_phi
  ++ [ [NL];
       [T "ScatterRadial "; StrInt (Z.of_nat (length line_theta)); NL] ]
  ++ axis_out (length line_theta) line_theta
  ++ [ [NL]; [NL]; [T "Monochrome"; NL]; [T "DataBegin"; NL] ].

Section Lines.

Variables str_float str_round3 format_sci3 : R -> chars.

(** The lines of the written file, without their line ends. *)
Definition axis_line (n : nat) (xs : list R) : chars :=
  flat_map (fun i => str_float (nth i xs 0%R) ++ [tab]) (range n).

Definition header_lines
           (scatterType symmetry : chars) (currentwavelength : R)
           (nbSampleRotation nbAngleIncidence : nat)
           (sampleRotation angleIncidence line_theta line_phi : list R)
  : list chars :=
  [ lit "#Data converted from Speos data";
    lit "#Wavelength (nm) = " ++ str_float currentwavelength;
    lit "Source  Measured";
    lit "Symmetry  " ++ symmetry;
    lit "SpectralContent  Monochrome";
    lit "ScatterType  " ++ scatterType;
    lit "SampleRotation  " ++ str_int (Z.of_nat nbSampleRotation);
    axis_line nbSampleRotation sampleRotation;
    lit "AngleOfIncidence  " ++ str_int (Z.of_nat nbAngleIncidence);
    axis_line nbAngleIncidence angleIncidence;
    lit "ScatterAzimuth " ++ str_int (Z.of_nat (length line_phi));
    axis_line (length line_phi) line_phi;
    lit "ScatterRadial " ++ str_int (Z.of_nat (length line_theta));
    axis_line (length line_theta) line_theta;
    [];
    lit "Monochrome";
    lit "DataBegin" ].

Variables index_wavelength index_RT nbAngleIncidence : nat.
Variable tisData : list (list R).
Variables shape2 shape3 : nat.
Variable bsdfData : list (list (list (list R))).

Definition row_line (j k : nat) : chars :=
  flat_map (fun l =>
              format_sci3 (zemax_value index_wavelength index_RT
                                       nbAngleIncidence bsdfData j l k)
              ++ [tab])
           (range (shape2 - 1))
  ++ format_sci3 (zemax_value index_wavelength index_RT nbAngleIncidence
                              bsdfData j (shape2 - 1) k).

Definition block_lines (j : nat) : list chars :=
  (lit "TIS " ++ str_round3 (tis_at index_wavelength tisData j / 100)%R)
    :: map (row_line j) (range shape3).

Definition data_lines (nbSampleRotation : nat) : list chars :=
  flat_map (fun i => flat_map block_lines (range nbAngleIncidence))
           (range nbSampleRotation)
  ++ [lit "DataEnd"].

End Lines.

(** What the Zemax reader makes of the file the two Zemax writers
    produce, when [float] reads the three spellings of a float back as
    [float_of], [round3_of] and [sci3_of]. *)
Definition read_back (float_of round3_of sci3_of : R -> Q)
           (scatterType symmetry : chars)
           (index_wavelength index_RT nbSampleRotation nbAngleIncidence : nat)
           (sampleRotation angleIncidence line_theta line_phi : list R)
           (tisData : list (list R))
           (bsdfData : list (list (list (list R)))) : zemax_bsdf :=
  mk_zemax_bsdf
    (strip scatterType) (strip symmetry)
    (Z.of_nat nbSampleRotation) (Z.of_nat nbAngleIncidence)
    (Z.of_nat (length line_phi)) (Z.of_nat (length line_theta))
    (map (fun i => float_of (nth i angleIncidence 0%R))
         (range nbAngleIncidence))
    (map (fun i => float_of (nth i sampleRotation 0%R))
         (range nbSampleRotation))
    (map (fun i => float_of (nth i line_theta 0%R))
         (range (length line_theta)))
    (map (fun i => float_of (nth i line_phi 0%R))
         (range (length line_phi)))
    (map (fun _ =>
            map (fun j =>
                   round3_of (tis_at index_wavelength tisData j / 100)%R)
                (range nbAngleIncidence))
         (range nbSampleRotation))
    (map (fun _ =>
            map (fun j =>
                   map (fun k =>
                          map (fun l =>
                                 sci3_of (zemax_value
                                            index_wavelength index_RT
                                            nbAngleIncidence bsdfData j l k))
                              (range (length line_theta)))
                       (range (length line_phi)))
                (range nbAngleIncidence))
         (range nbSampleRotation)).

End ZemaxFile.

Module RoundTripSamples.

Import PyQ PyStr Writers WriterOutput ZemaxFile Samples.
Local Open Scope R_scope.

(** What [float] makes of the spelling [plain_float] gives to every
    float. *)
Definition plain_value : Q :=
  Eval vm_compute in
    match float (plain_float 0) with
    | Ok v => v
    | _ => 0%Q
    end.

(** A Zemax file as the writers produce it for one block on two radial and
    three azimuthal angles. *)
Definition written_zemax_header : list fragment :=
  zemax_header_out (lit "BRDF") (lit "Asymmetrical") 550 1 1
                   [0] [30] [0; 90] [0; 180; 360].

Definition written_zemax_data : list fragment :=
  zemax_data_out 0 0 1 1 [[50]] 2 3 transmission_block.

End RoundTripSamples.


(** ** Part II. Properties *)

(** *** The resampler *)

Section ResamplerProperties.

Import PyQ Resampler Samples.
Local Open Scope Q_scope.

Lemma Qltb_lt (x y : Q) : Qltb x y = true <-> x < y.
Proof.
  unfold Qltb. rewrite negb_true_iff. split; intro H.
  - apply Qnot_le_lt. intro Hle. apply Qle_bool_iff in Hle. congruence.
  - destruct (Qle_bool y x) eqn:E; [|reflexivity].
    apply Qle_bool_iff in E. exfalso. apply (Qlt_not_le _ _ H E).
Qed.

Lemma Qltb_ge (x y : Q) : Qltb x y = false <-> y <= x.
Proof.
  unfold Qltb. rewrite negb_false_iff. apply Qle_bool_iff.
Qed.

Lemma increasing_tail a l : strictly_increasing (a :: l) -> strictly_increasing l.
Proof. simpl. tauto. Qed.

Lemma increasing_nth (l : list Q) :
  strictly_increasing l ->
  forall i j, (i < j)%nat -> (j < length l)%nat -> nth i l 0 < nth j l 0.
Proof.
  induction l as [|a l IH]; intros Hs i j Hij Hj; [simpl in Hj; lia|].
  assert (Hhead : forall j, (j < length l)%nat -> a < nth j l 0).
  { clear i j Hij Hj. destruct Hs as [Hab Hl]. intros j Hj.
    destruct l as [|b l]; [simpl in Hj; lia|].
    destruct j as [|j]; [exact Hab|].
    apply Qlt_trans with b; [exact Hab|].
    apply (IH Hl 0%nat (S j)); [lia|exact Hj]. }
  destruct j as [|j]; [lia|]. simpl in Hj.
  destruct i as [|i].
  - simpl. apply Hhead. lia.
  - simpl. apply IH; [apply (increasing_tail _ _ Hs)|lia|lia].
Qed.

Lemma increasing_nth_le (l : list Q) :
  strictly_increasing l ->
  forall i j, (i <= j)%nat -> (j < length l)%nat -> nth i l 0 <= nth j l 0.
Proof.
  intros Hs i j Hij Hj. destruct (Nat.eq_dec i j) as [->|Hne].
  - apply Qle_refl.
  - apply Qlt_le_weak. apply increasing_nth; [assumption|lia|assumption].
Qed.

Lemma half_bounds lo hi : (lo < hi)%nat -> (lo <= (lo + hi) / 2 < hi)%nat.
Proof.
  intro H. split.
  - apply Nat.div_le_lower_bound; lia.
  - apply Nat.Div0.div_lt_upper_bound; lia.
Qed.

Lemma bisect_loop_S fuel a x lo hi :
  bisect_loop (S fuel) a x lo hi =
  if (lo <? hi)%nat then
    if Qltb (nth ((lo + hi) / 2) a 0) x
    then bisect_loop fuel a x ((lo + hi) / 2 + 1) hi
    else bisect_loop fuel a x lo ((lo + hi) / 2)
  else lo.
Proof. reflexivity. Qed.

Lemma bisect_loop_spec (a : list Q) (x : Q) :
  strictly_increasing a ->
  forall fuel lo hi,
    (lo <= hi)%nat -> (hi <= length a)%nat -> (hi - lo <= fuel)%nat ->
    (forall i, (i < lo)%nat -> nth i a 0 < x) ->
    (forall i, (hi <= i)%nat -> (i < length a)%nat -> x <= nth i a 0) ->
    (bisect_loop fuel a x lo hi <= length a)%nat /\
    (forall i, (i < bisect_loop fuel a x lo hi)%nat -> nth i a 0 < x) /\
    (forall i, (bisect_loop fuel a x lo hi <= i)%nat ->
               (i < length a)%nat -> x <= nth i a 0).
Proof.
  intros Hs. induction fuel as [|fuel IH]; intros lo hi Hle Hhi Hf Hlo Hup.
  - simpl. assert (lo = hi) by lia. subst. repeat split; auto.
  - rewrite bisect_loop_S. destruct (Nat.ltb_spec lo hi) as [Hlt|Hge].
    + pose proof (half_bounds lo hi Hlt) as [Hm1 Hm2].
      destruct (Qltb (nth ((lo + hi) / 2) a 0) x) eqn:E.
      * apply Qltb_lt in E. apply IH; try lia; auto.
        intros i Hi. apply Qle_lt_trans with (nth ((lo + hi) / 2) a 0); [|exact E].
        apply increasing_nth_le; [assumption|lia|lia].
      * apply Qltb_ge in E. apply IH; try lia; auto.
        intros i Hi Hi'. apply Qle_trans with (nth ((lo + hi) / 2) a 0); [exact E|].
        apply increasing_nth_le; [assumption|lia|lia].
    + assert (lo = hi) by lia. subst. repeat split; auto.
Qed.

Lemma bisect_left_spec (a : list Q) (x : Q) :
  strictly_increasing a ->
  (bisect_left a x <= length a)%nat /\
  (forall i, (i < bisect_left a x)%nat -> nth i a 0 < x) /\
  (forall i, (bisect_left a x <= i)%nat -> (i < length a)%nat -> x <= nth i a 0).
Proof.
  intro Hs. unfold bisect_left.
  apply bisect_loop_spec; auto; try lia.
Qed.

(** More fuel does not change the result. *)
Lemma bisect_loop_fuel (a : list Q) (x : Q) :
  forall fuel fuel' lo hi,
    (hi - lo <= fuel)%nat -> (hi - lo <= fuel')%nat ->
    bisect_loop fuel a x lo hi = bisect_loop fuel' a x lo hi.
Proof.
  induction fuel as [|fuel IH]; intros fuel' lo hi H H'.
  - destruct fuel'; [reflexivity|]. rewrite bisect_loop_S. simpl.
    destruct (Nat.ltb_spec lo hi); [lia|reflexivity].
  - destruct fuel' as [|fuel']; rewrite !bisect_loop_S.
    + simpl. destruct (Nat.ltb_spec lo hi); [lia|reflexivity].
    + destruct (Nat.ltb_spec lo hi) as [Hlt|]; [|reflexivity].
      pose proof (half_bounds lo hi Hlt) as [Hm1 Hm2].
      destruct (Qltb _ _); apply IH; lia.
Qed.

(** At a sample of the axis the search returns its index. *)
Lemma bisect_left_at_sample (a : list Q) (m : nat) :
  strictly_increasing a -> (m < length a)%nat ->
  bisect_left a (nth m a 0) = m.
Proof.
  intros Hs Hm.
  destruct (bisect_left_spec a (nth m a 0) Hs) as (Hlen & Hlo & Hup).
  set (r := bisect_left a (nth m a 0)) in *.
  destruct (Nat.lt_trichotomy r m) as [Hlt|[Heq|Hgt]]; [|exact Heq|].
  - exfalso. specialize (Hup r (Nat.le_refl _)).
    assert (Hr : (r < length a)%nat) by lia. specialize (Hup Hr).
    pose proof (increasing_nth a Hs r m Hlt Hm) as Hc.
    apply (Qlt_not_le _ _ Hc Hup).
  - exfalso. specialize (Hlo m Hgt). apply (Qlt_irrefl _ Hlo).
Qed.

Lemma lookup_nth {A} (l : list A) (i : nat) (d : A) :
  (i < length l)%nat -> lookup l i = Ok (nth i l d).
Proof.
  intro H. unfold lookup. rewrite (nth_error_nth' l d H). reflexivity.
Qed.

Lemma lookup_Ok_nth {A} (l : list A) (i : nat) (d x : A) :
  lookup l i = Ok x -> (i < length l)%nat /\ nth i l d = x.
Proof.
  unfold lookup. destruct (nth_error l i) eqn:E; [|discriminate].
  intro H. injection H as ->. split.
  - apply nth_error_Some. congruence.
  - apply nth_error_nth. exact E.
Qed.

Lemma last_nth (l : list Q) (d : Q) :
  last l d = nth (length l - 1) l d.
Proof.
  induction l as [|a l IH]; [reflexivity|].
  destruct l as [|b l]; [reflexivity|].
  change (last (a :: b :: l) d) with (last (b :: l) d). rewrite IH.
  simpl. rewrite Nat.sub_0_r. reflexivity.
Qed.

Lemma div_pos (x y : Q) : 0 < y -> div x y = Ok (x / y).
Proof.
  intro H. unfold div. destruct (Qeq_bool y 0) eqn:E; [|reflexivity].
  apply Qeq_bool_iff in E. rewrite E in H. exfalso. apply (Qlt_irrefl _ H).
Qed.

Lemma ratio_bounds (x a b : Q) :
  a < x -> x <= b -> 0 <= (x - a) / (b - a) /\ (x - a) / (b - a) <= 1.
Proof.
  intros H1 H2. assert (Hp : 0 < b - a) by lra. split.
  - apply Qle_shift_div_l; [exact Hp|lra].
  - apply Qle_shift_div_r; [exact Hp|lra].
Qed.

Lemma bracket_of_bounds axis x i s c :
  axis <> [] -> bracket_of axis x i s c ->
  (i < length axis)%nat /\ (s < length axis)%nat /\ 0 <= c /\ c <= 1.
Proof.
  intros Hne H.
  assert (0 < length axis)%nat by (destruct axis; [congruence|simpl; lia]).
  destruct H as [|k Hk Hlo Hup|].
  - repeat split; try lia; lra.
  - destruct (ratio_bounds x _ _ Hlo Hup). repeat split; try lia; assumption.
  - repeat split; try lia; lra.
Qed.

Lemma bracket_of_weight axis x i s c :
  bracket_of axis x i s c -> 0 <= c /\ c <= 1.
Proof.
  intros [|k Hk Hlo Hup|].
  - split; lra.
  - apply ratio_bounds; assumption.
  - split; lra.
Qed.

Lemma theta_bracket_shape (scatterRadial : list Q) (newTheta : Q) :
  strictly_increasing scatterRadial ->
  exists i s c, theta_bracket scatterRadial newTheta = Ok (i, s, c) /\
                bracket_of scatterRadial newTheta i s c.
Proof.
  intro Hs. unfold theta_bracket.
  destruct (bisect_left_spec scatterRadial newTheta Hs) as (Hlen & Hlo & Hup).
  set (k := bisect_left scatterRadial newTheta) in *.
  destruct (Nat.eqb_spec k 0) as [->|Hk0].
  - exists 0%nat, 0%nat, 0. split; [reflexivity|constructor].
  - destruct (Nat.leb_spec k (length scatterRadial - 1)) as [Hk|Hk].
    + assert (Hk' : (S (k - 1) < length scatterRadial)%nat) by lia.
      assert (E : (k - 1 + 1 = S (k - 1))%nat) by lia. rewrite E.
      rewrite (lookup_nth scatterRadial (k - 1) 0) by lia.
      rewrite (lookup_nth scatterRadial (S (k - 1)) 0) by lia.
      assert (H1 : nth (k - 1) scatterRadial 0 < newTheta) by (apply Hlo; lia).
      assert (H2 : newTheta <= nth (S (k - 1)) scatterRadial 0)
        by (apply Hup; lia).
      cbn [bind]. rewrite div_pos by lra. cbn [bind].
      eexists _, _, _. split; [reflexivity|]. constructor; assumption.
    + assert (k = length scatterRadial) by lia.
      eexists _, _, _. split; [reflexivity|].
      replace (k - 1)%nat with (length scatterRadial - 1)%nat by lia.
      constructor.
Qed.

Lemma phi_bracket_shape (scatterAzimuth : list Q) (newPhi : Q) :
  strictly_increasing scatterAzimuth ->
  newPhi <= last scatterAzimuth 0 ->
  exists i s c, phi_bracket scatterAzimuth newPhi = Ok (i, s, c) /\
                bracket_of scatterAzimuth newPhi i s c.
Proof.
  intros Hs Hlast. unfold phi_bracket.
  destruct (bisect_left_spec scatterAzimuth newPhi Hs) as (Hlen & Hlo & Hup).
  set (k := bisect_left scatterAzimuth newPhi) in *.
  destruct (Nat.eqb_spec k 0) as [->|Hk0].
  - exists 0%nat, 0%nat, 0. split; [reflexivity|constructor].
  - destruct (Nat.leb_spec k (length scatterAzimuth - 1)) as [Hk|Hk].
    + assert (Hk' : (S (k - 1) < length scatterAzimuth)%nat) by lia.
      assert (E : (k - 1 + 1 = S (k - 1))%nat) by lia. rewrite E.
      rewrite (lookup_nth scatterAzimuth (k - 1) 0) by lia.
      rewrite (lookup_nth scatterAzimuth (S (k - 1)) 0) by lia.
      assert (H1 : nth (k - 1) scatterAzimuth 0 < newPhi) by (apply Hlo; lia).
      assert (H2 : newPhi <= nth (S (k - 1)) scatterAzimuth 0)
        by (apply Hup; lia).
      cbn [bind]. rewrite div_pos by lra. cbn [bind].
      eexists _, _, _. split; [reflexivity|]. constructor; assumption.
    + exfalso. rewrite last_nth in Hlast.
      assert (Hc : nth (length scatterAzimuth - 1) scatterAzimuth 0 < newPhi)
        by (apply Hlo; lia).
      apply (Qlt_not_le _ _ Hc Hlast).
Qed.

(** Past the last azimuth sample the upper index leaves the axis. *)
Lemma phi_bracket_past_last (scatterAzimuth : list Q) (newPhi : Q) :
  strictly_increasing scatterAzimuth -> scatterAzimuth <> [] ->
  last scatterAzimuth 0 < newPhi ->
  phi_bracket scatterAzimuth newPhi =
  Ok ((length scatterAzimuth - 1)%nat, length scatterAzimuth, 0).
Proof.
  intros Hs Hne Hlast. unfold phi_bracket.
  assert (Hpos : (0 < length scatterAzimuth)%nat)
    by (destruct scatterAzimuth; [congruence|simpl; lia]).
  destruct (bisect_left_spec scatterAzimuth newPhi Hs) as (Hlen & Hlo & Hup).
  set (k := bisect_left scatterAzimuth newPhi) in *.
  assert (Hk : k = length scatterAzimuth).
  { destruct (Nat.eq_dec k (length scatterAzimuth)) as [|Hne']; [assumption|].
    exfalso. rewrite last_nth in Hlast.
    assert (Hc : newPhi <= nth (length scatterAzimuth - 1) scatterAzimuth 0)
      by (apply Hup; lia).
    apply (Qlt_not_le _ _ Hlast Hc). }
  rewrite Hk.
  destruct (Nat.eqb_spec (length scatterAzimuth) 0); [lia|].
  destruct (Nat.leb_spec (length scatterAzimuth) (length scatterAzimuth - 1));
    [lia|].
  replace (length scatterAzimuth - 1 + 1)%nat with (length scatterAzimuth)
    by lia.
  reflexivity.
Qed.

Lemma theta_bracket_past_last (scatterRadial : list Q) (newTheta : Q) :
  strictly_increasing scatterRadial -> scatterRadial <> [] ->
  last scatterRadial 0 < newTheta ->
  theta_bracket scatterRadial newTheta =
  Ok ((length scatterRadial - 1)%nat, (length scatterRadial - 1)%nat, 0).
Proof.
  intros Hs Hne Hlast. unfold theta_bracket.
  assert (Hpos : (0 < length scatterRadial)%nat)
    by (destruct scatterRadial; [congruence|simpl; lia]).
  destruct (bisect_left_spec scatterRadial newTheta Hs) as (Hlen & Hlo & Hup).
  set (k := bisect_left scatterRadial newTheta) in *.
  assert (Hk : k = length scatterRadial).
  { destruct (Nat.eq_dec k (length scatterRadial)) as [|Hne']; [assumption|].
    exfalso. rewrite last_nth in Hlast.
    assert (Hc : newTheta <= nth (length scatterRadial - 1) scatterRadial 0)
      by (apply Hup; lia).
    apply (Qlt_not_le _ _ Hlast Hc). }
  rewrite Hk.
  destruct (Nat.eqb_spec (length scatterRadial) 0); [lia|].
  destruct (Nat.leb_spec (length scatterRadial) (length scatterRadial - 1));
    [lia|].
  reflexivity.
Qed.

Lemma lookup2_dims (b : block) (nbPhi nbTheta p t : nat) :
  block_dims b nbPhi nbTheta -> (p < nbPhi)%nat -> (t < nbTheta)%nat ->
  lookup2 b p t = Ok (nth t (nth p b []) 0).
Proof.
  intros [Hlen Hrows] Hp Ht. unfold lookup2.
  rewrite (lookup_nth b p []) by lia. cbn [bind].
  apply lookup_nth.
  rewrite Forall_forall in Hrows. rewrite (Hrows (nth p b [])); [assumption|].
  apply nth_In. lia.
Qed.

Lemma corners_block (s : source) (i j index : nat) (b : block)
      (ip sp it st : nat) :
  block_of s i j index = Ok b ->
  corners s i j index ip sp it st =
  (bsdf1 <- lookup2 b ip it ;;
   bsdf2 <- lookup2 b ip st ;;
   bsdf3 <- lookup2 b sp it ;;
   bsdf4 <- lookup2 b sp st ;;
   Ok (bsdf1, bsdf2, bsdf3, bsdf4)).
Proof.
  destruct s as [rad az d|rads azs d]; simpl; intro H.
  - destruct (lookup d i) as [plane| | |]; try discriminate. cbn [bind] in *.
    rewrite H. reflexivity.
  - rewrite H. reflexivity.
Qed.

Lemma blend_convex4 (b1 b2 b3 b4 ct cp : Q) :
  0 <= ct -> ct <= 1 -> 0 <= cp -> cp <= 1 ->
  convex4 (blend b1 b2 b3 b4 ct cp) b1 b2 b3 b4.
Proof.
  intros H1 H2 H3 H4.
  exists ((1 - ct) * (1 - cp)), (ct * (1 - cp)), ((1 - ct) * cp), (ct * cp).
  repeat split; try (apply Qmult_le_0_compat; lra).
  - ring.
  - unfold blend. ring.
Qed.

Lemma convex4_bounds (v b1 b2 b3 b4 lo hi : Q) :
  convex4 v b1 b2 b3 b4 ->
  lo <= b1 <= hi -> lo <= b2 <= hi -> lo <= b3 <= hi -> lo <= b4 <= hi ->
  lo <= v <= hi.
Proof.
  intros (w1 & w2 & w3 & w4 & P1 & P2 & P3 & P4 & Hsum & Hv) B1 B2 B3 B4.
  assert (L : forall w x, 0 <= w -> lo <= x <= hi ->
                          w * lo <= w * x /\ w * x <= w * hi).
  { intros w x Hw [Hl Hh]. split.
    - rewrite (Qmult_comm w lo), (Qmult_comm w x).
      apply Qmult_le_compat_r; assumption.
    - rewrite (Qmult_comm w x), (Qmult_comm w hi).
      apply Qmult_le_compat_r; assumption. }
  destruct (L w1 b1 P1 B1), (L w2 b2 P2 B2), (L w3 b3 P3 B3), (L w4 b4 P4 B4).
  assert (Elo : lo == w1 * lo + w2 * lo + w3 * lo + w4 * lo).
  { transitivity ((w1 + w2 + w3 + w4) * lo); [rewrite Hsum; ring|ring]. }
  assert (Ehi : hi == w1 * hi + w2 * hi + w3 * hi + w4 * hi).
  { transitivity ((w1 + w2 + w3 + w4) * hi); [rewrite Hsum; ring|ring]. }
  split; lra.
Qed.

Lemma fold_left_Qmax_ge (l : list Q) (x0 : Q) :
  x0 <= fold_left Qmax l x0 /\
  forall x, In x l -> x <= fold_left Qmax l x0.
Proof.
  revert x0. induction l as [|a l IH]; intro x0; simpl.
  - split; [apply Qle_refl|intros x []].
  - destruct (IH (Qmax x0 a)) as [H0 Hin]. split.
    + apply Qle_trans with (Qmax x0 a); [apply Q.le_max_l|exact H0].
    + intros x [Hx|Hx].
      * subst x. apply Qle_trans with (Qmax x0 a); [apply Q.le_max_r|exact H0].
      * apply Hin, Hx.
Qed.

Lemma maximum_ge (l : list Q) (x : Q) : In x l -> x <= maximum l.
Proof.
  destruct l as [|a l]; [intros []|]. unfold maximum.
  destruct (fold_left_Qmax_ge l a) as [H0 Hin].
  intros [Hx|Hx]; [subst x; exact H0|apply Hin, Hx].
Qed.

Lemma sample_le_block_max (b : block) (x : Q) :
  sample_of b x -> x <= block_max b.
Proof.
  intros (p & t & H). apply maximum_ge. unfold lookup2 in H.
  destruct (lookup b p) as [row| | |] eqn:E; try discriminate. cbn [bind] in H.
  apply in_concat. exists row. split.
  - unfold lookup in E. destruct (nth_error b p) eqn:E'; [|discriminate].
    injection E as <-. eapply nth_error_In; eassumption.
  - unfold lookup in H. destruct (nth_error row t) eqn:E'; [|discriminate].
    injection H as <-. eapply nth_error_In; eassumption.
Qed.

(** The interpolation succeeds and is a convex combination of samples. *)
Lemma interpolate_cell_convex (symmetry : string) (s : source)
      (i j index : nat) (newTheta newPhi : Q)
      (scatterRadial scatterAzimuth : list Q) (b : block) :
  axes_of s index = Ok (scatterRadial, scatterAzimuth) ->
  block_of s i j index = Ok b ->
  scatterRadial <> [] -> scatterAzimuth <> [] ->
  block_dims b (length scatterAzimuth) (length scatterRadial) ->
  strictly_increasing scatterRadial -> strictly_increasing scatterAzimuth ->
  fold_phi symmetry newPhi <= last scatterAzimuth 0 ->
  exists v b1 b2 b3 b4,
    interpolate_cell symmetry s i j index newTheta newPhi = Ok v /\
    sample_of b b1 /\ sample_of b b2 /\ sample_of b b3 /\ sample_of b b4 /\
    convex4 v b1 b2 b3 b4.
Proof.
  intros Hax Hb Hr Ha Hd Hsr Hsa Hlast. unfold interpolate_cell.
  rewrite Hax. cbn [bind].
  destruct (theta_bracket_shape scatterRadial newTheta Hsr)
    as (it & st & ct & -> & Bt).
  destruct (phi_bracket_shape scatterAzimuth (fold_phi symmetry newPhi)
                              Hsa Hlast) as (ip & sp & cp & -> & Bp).
  cbn [bind].
  destruct (bracket_of_bounds _ _ _ _ _ Hr Bt) as (Hit & Hst & Hct0 & Hct1).
  destruct (bracket_of_bounds _ _ _ _ _ Ha Bp) as (Hip & Hsp & Hcp0 & Hcp1).
  rewrite (corners_block s i j index b ip sp it st Hb).
  pose proof (lookup2_dims b _ _ ip it Hd Hip Hit) as E1.
  pose proof (lookup2_dims b _ _ ip st Hd Hip Hst) as E2.
  pose proof (lookup2_dims b _ _ sp it Hd Hsp Hit) as E3.
  pose proof (lookup2_dims b _ _ sp st Hd Hsp Hst) as E4.
  rewrite E1, E2, E3, E4. cbn [bind].
  eexists _, _, _, _, _. split; [reflexivity|].
  split; [exists ip, it; exact E1|].
  split; [exists ip, st; exact E2|].
  split; [exists sp, it; exact E3|].
  split; [exists sp, st; exact E4|].
  apply blend_convex4; assumption.
Qed.

(** Whatever the interpolation returns is a convex combination of
    samples. *)
Lemma interpolate_cell_value (symmetry : string) (s : source)
      (i j index : nat) (newTheta newPhi : Q)
      (scatterRadial scatterAzimuth : list Q) (b : block) (v : Q) :
  axes_of s index = Ok (scatterRadial, scatterAzimuth) ->
  block_of s i j index = Ok b ->
  strictly_increasing scatterRadial -> strictly_increasing scatterAzimuth ->
  fold_phi symmetry newPhi <= last scatterAzimuth 0 ->
  interpolate_cell symmetry s i j index newTheta newPhi = Ok v ->
  exists b1 b2 b3 b4,
    sample_of b b1 /\ sample_of b b2 /\ sample_of b b3 /\ sample_of b b4 /\
    convex4 v b1 b2 b3 b4.
Proof.
  intros Hax Hb Hsr Hsa Hlast. unfold interpolate_cell.
  rewrite Hax. cbn [bind].
  destruct (theta_bracket_shape scatterRadial newTheta Hsr)
    as (it & st & ct & -> & Bt).
  destruct (phi_bracket_shape scatterAzimuth (fold_phi symmetry newPhi)
                              Hsa Hlast) as (ip & sp & cp & -> & Bp).
  cbn [bind].
  destruct (bracket_of_weight _ _ _ _ _ Bt) as (Hct0 & Hct1).
  destruct (bracket_of_weight _ _ _ _ _ Bp) as (Hcp0 & Hcp1).
  rewrite (corners_block s i j index b ip sp it st Hb).
  destruct (lookup2 b ip it) as [b1| | |] eqn:E1; cbn [bind];
    try discriminate.
  destruct (lookup2 b ip st) as [b2| | |] eqn:E2; cbn [bind];
    try discriminate.
  destruct (lookup2 b sp it) as [b3| | |] eqn:E3; cbn [bind];
    try discriminate.
  destruct (lookup2 b sp st) as [b4| | |] eqn:E4; cbn [bind];
    try discriminate.
  intro Hv. injection Hv as <-. exists b1, b2, b3, b4.
  split; [exists ip, it; exact E1|].
  split; [exists ip, st; exact E2|].
  split; [exists sp, it; exact E3|].
  split; [exists sp, st; exact E4|].
  apply blend_convex4; assumption.
Qed.

Lemma in_block_sample (b : block) (x : Q) :
  In x (concat b) -> sample_of b x.
Proof.
  intro H. apply in_concat in H. destruct H as (row & Hrow & Hx).
  apply In_nth_error in Hrow. destruct Hrow as [p Hp].
  apply In_nth_error in Hx. destruct Hx as [t Ht].
  exists p, t. unfold lookup2, lookup. rewrite Hp. cbn [bind].
  rewrite Ht. reflexivity.
Qed.

Lemma block_max_nonneg (b : block) :
  (forall x, sample_of b x -> 0 <= x) -> 0 <= block_max b.
Proof.
  intro Hpos. unfold block_max.
  destruct (concat b) as [|x0 l] eqn:E; [simpl; lra|].
  assert (Hin : In x0 (concat b)) by (rewrite E; left; reflexivity).
  apply Qle_trans with x0.
  - apply Hpos, in_block_sample, Hin.
  - rewrite <- E. apply maximum_ge, Hin.
Qed.

Lemma theta_bracket_at_sample (scatterRadial : list Q) (m : nat) :
  strictly_increasing scatterRadial -> (m < length scatterRadial)%nat ->
  exists it st ct,
    theta_bracket scatterRadial (nth m scatterRadial 0) = Ok (it, st, ct) /\
    (it < length scatterRadial)%nat /\ (st < length scatterRadial)%nat /\
    ((ct == 0 /\ it = m) \/ (ct == 1 /\ st = m)).
Proof.
  intros Hs Hm. unfold theta_bracket.
  rewrite (bisect_left_at_sample scatterRadial m Hs Hm).
  destruct (Nat.eqb_spec m 0) as [->|Hm0].
  - exists 0%nat, 0%nat, 0. repeat split; try assumption.
    left. split; reflexivity.
  - destruct (Nat.leb_spec m (length scatterRadial - 1)) as [_|Hc]; [|lia].
    replace (m - 1 + 1)%nat with m by lia.
    rewrite (lookup_nth scatterRadial (m - 1) 0) by lia.
    rewrite (lookup_nth scatterRadial m 0) by lia.
    assert (Hlt : nth (m - 1) scatterRadial 0 < nth m scatterRadial 0)
      by (apply increasing_nth; [assumption|lia|assumption]).
    cbn [bind]. rewrite div_pos by lra. cbn [bind].
    eexists _, _, _. split; [reflexivity|].
    split; [lia|]. split; [assumption|]. right. split; [|reflexivity].
    field. lra.
Qed.

Lemma phi_bracket_at_sample (scatterAzimuth : list Q) (n : nat) :
  strictly_increasing scatterAzimuth -> (n < length scatterAzimuth)%nat ->
  exists ip sp cp,
    phi_bracket scatterAzimuth (nth n scatterAzimuth 0) = Ok (ip, sp, cp) /\
    (ip < length scatterAzimuth)%nat /\ (sp < length scatterAzimuth)%nat /\
    ((cp == 0 /\ ip = n) \/ (cp == 1 /\ sp = n)).
Proof.
  intros Hs Hn. unfold phi_bracket.
  rewrite (bisect_left_at_sample scatterAzimuth n Hs Hn).
  destruct (Nat.eqb_spec n 0) as [->|Hn0].
  - exists 0%nat, 0%nat, 0. repeat split; try assumption.
    left. split; reflexivity.
  - destruct (Nat.leb_spec n (length scatterAzimuth - 1)) as [_|Hc]; [|lia].
    replace (n - 1 + 1)%nat with n by lia.
    rewrite (lookup_nth scatterAzimuth (n - 1) 0) by lia.
    rewrite (lookup_nth scatterAzimuth n 0) by lia.
    assert (Hlt : nth (n - 1) scatterAzimuth 0 < nth n scatterAzimuth 0)
      by (apply increasing_nth; [assumption|lia|assumption]).
    cbn [bind]. rewrite div_pos by lra. cbn [bind].
    eexists _, _, _. split; [reflexivity|].
    split; [lia|]. split; [assumption|]. right. split; [|reflexivity].
    field. lra.
Qed.

Lemma weight_select (f : nat -> Q) (inf sup m : nat) (c : Q) :
  (c == 0 /\ inf = m) \/ (c == 1 /\ sup = m) ->
  f inf * (1 - c) + f sup * c == f m.
Proof.
  intros [[Hc ->]|[Hc ->]]; rewrite Hc; ring.
Qed.

(** C7.  When the transformed and folded source angles of a cell are
    samples [m] and [n] of two strictly increasing source axes, each
    bracket weight is 0 or 1 and the bilinear interpolation returns the
    source value stored at [(n, m)]. *)
Theorem C7_interpolate_cell_at_grid_point
        (symmetry : string) (s : source) (i j index : nat)
        (scatterRadial scatterAzimuth : list Q) (b : block)
        (m n : nat) (newTheta newPhi : Q) :
  axes_of s index = Ok (scatterRadial, scatterAzimuth) ->
  block_of s i j index = Ok b ->
  block_dims b (length scatterAzimuth) (length scatterRadial) ->
  strictly_increasing scatterRadial ->
  strictly_increasing scatterAzimuth ->
  nth_error scatterRadial m = Some newTheta ->
  nth_error scatterAzimuth n = Some (fold_phi symmetry newPhi) ->
  exists src it st ct ip sp cp v,
    lookup2 b n m = Ok src /\
    theta_bracket scatterRadial newTheta = Ok (it, st, ct) /\
    (ct == 0 \/ ct == 1) /\
    phi_bracket scatterAzimuth (fold_phi symmetry newPhi) = Ok (ip, sp, cp) /\
    (cp == 0 \/ cp == 1) /\
    interpolate_cell symmetry s i j index newTheta newPhi = Ok v /\
    v == src /\
    (forall (n2s s2n : Q -> Q -> Q -> Q * Q)
            (currentTheta currentPhi currentSampleRot currentAngleInc : Q),
        new_angles n2s s2n s currentTheta currentPhi
                   currentSampleRot currentAngleInc = (newTheta, newPhi) ->
        0 <= newTheta <= 90 ->
        resample_cell n2s s2n symmetry s i j index currentTheta currentPhi
                      currentSampleRot currentAngleInc = Ok v).
Proof.
  intros Hax Hb Hd Hsr Hsa Hm Hn.
  assert (Hm' : (m < length scatterRadial)%nat)
    by (apply nth_error_Some; congruence).
  assert (Hn' : (n < length scatterAzimuth)%nat)
    by (apply nth_error_Some; congruence).
  apply (nth_error_nth _ _ 0) in Hm. apply (nth_error_nth _ _ 0) in Hn.
  destruct (theta_bracket_at_sample scatterRadial m Hsr Hm')
    as (it & st & ct & Et & Hit & Hst & Hct).
  destruct (phi_bracket_at_sample scatterAzimuth n Hsa Hn')
    as (ip & sp & cp & Ep & Hip & Hsp & Hcp).
  rewrite Hm in Et. rewrite Hn in Ep.
  set (B := fun p t => nth t (nth p b []) 0).
  exists (B n m), it, st, ct, ip, sp, cp.
  exists (blend (B ip it) (B ip st) (B sp it) (B sp st) ct cp).
  split; [apply (lookup2_dims b _ _ n m Hd Hn' Hm')|].
  split; [exact Et|]. split; [tauto|].
  split; [exact Ep|]. split; [tauto|].
  assert (Ev : interpolate_cell symmetry s i j index newTheta newPhi
               = Ok (blend (B ip it) (B ip st) (B sp it) (B sp st) ct cp)).
  { unfold interpolate_cell. rewrite Hax. cbn [bind]. rewrite Et, Ep.
    cbn [bind]. rewrite (corners_block s i j index b ip sp it st Hb).
    rewrite (lookup2_dims b _ _ ip it Hd Hip Hit).
    rewrite (lookup2_dims b _ _ ip st Hd Hip Hst).
    rewrite (lookup2_dims b _ _ sp it Hd Hsp Hit).
    rewrite (lookup2_dims b _ _ sp st Hd Hsp Hst).
    reflexivity. }
  split; [exact Ev|]. split.
  - unfold blend.
    rewrite (weight_select (B ip) it st m ct Hct).
    rewrite (weight_select (B sp) it st m ct Hct).
    apply (weight_select (fun p => B p m) ip sp n cp Hcp).
  - intros n2s s2n currentTheta currentPhi currentSampleRot currentAngleInc
           Hangles [Hlo Hhi].
    unfold resample_cell. rewrite Hangles.
    assert (H90 : Qltb 90 newTheta = false) by (apply Qltb_ge; exact Hhi).
    assert (H0 : Qltb newTheta 0 = false) by (apply Qltb_ge; exact Hlo).
    rewrite H90, H0. exact Ev.
Qed.

Lemma C7_witness :
  exists src it st ct ip sp cp v,
    lookup2 grid_block 1 2 = Ok src /\
    theta_bracket [0; 45; 90] 90 = Ok (it, st, ct) /\
    (ct == 0 \/ ct == 1) /\
    phi_bracket [0; 90; 180] (fold_phi "PlaneSymmetrical" 270)
    = Ok (ip, sp, cp) /\
    (cp == 0 \/ cp == 1) /\
    interpolate_cell "PlaneSymmetrical" grid_src 0 0 0 90 270 = Ok v /\
    v == src /\
    (forall (n2s s2n : Q -> Q -> Q -> Q * Q)
            (currentTheta currentPhi currentSampleRot currentAngleInc : Q),
        new_angles n2s s2n grid_src currentTheta currentPhi
                   currentSampleRot currentAngleInc = (90, 270) ->
        0 <= 90 <= 90 ->
        resample_cell n2s s2n "PlaneSymmetrical" grid_src 0 0 0
                      currentTheta currentPhi
                      currentSampleRot currentAngleInc = Ok v).
Proof.
  apply (C7_interpolate_cell_at_grid_point
           "PlaneSymmetrical" grid_src 0 0 0
           [0; 45; 90] [0; 90; 180] grid_block 2 1).
  - reflexivity.
  - reflexivity.
  - split; [reflexivity|]. repeat constructor.
  - simpl. repeat split; reflexivity.
  - simpl. repeat split; reflexivity.
  - reflexivity.
  - reflexivity.
Defined.

(** Inside the range the interpolation is the blend of the four samples
    its two brackets name, with the weights of the brackets. *)
Lemma interpolate_cell_blend (symmetry : string) (s : source)
      (i j index : nat) (newTheta newPhi : Q)
      (scatterRadial scatterAzimuth : list Q) (b : block) :
  axes_of s index = Ok (scatterRadial, scatterAzimuth) ->
  block_of s i j index = Ok b ->
  scatterRadial <> [] -> scatterAzimuth <> [] ->
  block_dims b (length scatterAzimuth) (length scatterRadial) ->
  strictly_increasing scatterRadial -> strictly_increasing scatterAzimuth ->
  fold_phi symmetry newPhi <= last scatterAzimuth 0 ->
  exists it st ct ip sp cp b1 b2 b3 b4,
    theta_bracket scatterRadial newTheta = Ok (it, st, ct) /\
    phi_bracket scatterAzimuth (fold_phi symmetry newPhi) = Ok (ip, sp, cp) /\
    0 <= ct <= 1 /\ 0 <= cp <= 1 /\
    lookup2 b ip it = Ok b1 /\ lookup2 b ip st = Ok b2 /\
    lookup2 b sp it = Ok b3 /\ lookup2 b sp st = Ok b4 /\
    interpolate_cell symmetry s i j index newTheta newPhi
    = Ok (blend b1 b2 b3 b4 ct cp).
Proof.
  intros Hax Hb Hr Ha Hd Hsr Hsa Hlast. unfold interpolate_cell.
  rewrite Hax. cbn [bind].
  destruct (theta_bracket_shape scatterRadial newTheta Hsr)
    as (it & st & ct & Et & Bt).
  destruct (phi_bracket_shape scatterAzimuth (fold_phi symmetry newPhi)
                              Hsa Hlast) as (ip & sp & cp & Ep & Bp).
  rewrite Et, Ep. cbn [bind].
  destruct (bracket_of_bounds _ _ _ _ _ Hr Bt) as (Hit & Hst & Hct0 & Hct1).
  destruct (bracket_of_bounds _ _ _ _ _ Ha Bp) as (Hip & Hsp & Hcp0 & Hcp1).
  rewrite (corners_block s i j index b ip sp it st Hb).
  pose proof (lookup2_dims b _ _ ip it Hd Hip Hit) as E1.
  pose proof (lookup2_dims b _ _ ip st Hd Hip Hst) as E2.
  pose proof (lookup2_dims b _ _ sp it Hd Hsp Hit) as E3.
  pose proof (lookup2_dims b _ _ sp st Hd Hsp Hst) as E4.
  rewrite E1, E2, E3, E4. cbn [bind].
  exists it, st, ct, ip, sp, cp. eexists _, _, _, _.
  repeat split; try eassumption; reflexivity.
Qed.

(** C9.  On strictly increasing axes, with the folded source azimuth not
    beyond the last azimuth sample, a cell whose transformed radial angle
    is above 90 or below 0 is exactly 0, and every other cell of a
    well-dimensioned source is the blend of the four source samples its two
    brackets name, with both weights in [0, 1]: a convex combination of
    them.  When no source value is negative, whatever the resampler
    computes is neither negative nor above the largest source value. *)
Theorem C9_resample_cell_zero_or_convex
        (n2s s2n : Q -> Q -> Q -> Q * Q)
        (symmetry : string) (s : source) (i j index : nat)
        (currentTheta currentPhi currentSampleRot currentAngleInc : Q)
        (newTheta newPhi : Q)
        (scatterRadial scatterAzimuth : list Q) (b : block) :
  new_angles n2s s2n s currentTheta currentPhi
             currentSampleRot currentAngleInc = (newTheta, newPhi) ->
  axes_of s index = Ok (scatterRadial, scatterAzimuth) ->
  block_of s i j index = Ok b ->
  strictly_increasing scatterRadial ->
  strictly_increasing scatterAzimuth ->
  fold_phi symmetry newPhi <= last scatterAzimuth 0 ->
  (90 < newTheta \/ newTheta < 0 ->
   resample_cell n2s s2n symmetry s i j index currentTheta currentPhi
                 currentSampleRot currentAngleInc = Ok 0) /\
  (0 <= newTheta <= 90 ->
   scatterRadial <> [] -> scatterAzimuth <> [] ->
   block_dims b (length scatterAzimuth) (length scatterRadial) ->
   exists it st ct ip sp cp b1 b2 b3 b4,
     theta_bracket scatterRadial newTheta = Ok (it, st, ct) /\
     phi_bracket scatterAzimuth (fold_phi symmetry newPhi)
     = Ok (ip, sp, cp) /\
     0 <= ct <= 1 /\ 0 <= cp <= 1 /\
     lookup2 b ip it = Ok b1 /\ lookup2 b ip st = Ok b2 /\
     lookup2 b sp it = Ok b3 /\ lookup2 b sp st = Ok b4 /\
     resample_cell n2s s2n symmetry s i j index currentTheta currentPhi
                   currentSampleRot currentAngleInc
     = Ok (blend b1 b2 b3 b4 ct cp) /\
     convex4 (blend b1 b2 b3 b4 ct cp) b1 b2 b3 b4) /\
  (forall v,
      resample_cell n2s s2n symmetry s i j index currentTheta currentPhi
                    currentSampleRot currentAngleInc = Ok v ->
      ((90 < newTheta \/ newTheta < 0) /\ v = 0 \/
       0 <= newTheta <= 90 /\
       exists b1 b2 b3 b4,
         sample_of b b1 /\ sample_of b b2 /\
         sample_of b b3 /\ sample_of b b4 /\
         convex4 v b1 b2 b3 b4) /\
      ((forall x, sample_of b x -> 0 <= x) -> 0 <= v /\ v <= block_max b)).
Proof.
  intros Hangles Hax Hb Hsr Hsa Hlast. unfold resample_cell.
  rewrite Hangles. split; [|split].
  - intros [H|H]; apply Qltb_lt in H; rewrite H;
      [reflexivity|rewrite orb_true_r; reflexivity].
  - intros [Hlo Hhi] Hr Ha Hd.
    assert (H90 : Qltb 90 newTheta = false) by (apply Qltb_ge; exact Hhi).
    assert (H0 : Qltb newTheta 0 = false) by (apply Qltb_ge; exact Hlo).
    rewrite H90, H0. cbn [orb].
    destruct (interpolate_cell_blend symmetry s i j index newTheta newPhi
                scatterRadial scatterAzimuth b Hax Hb Hr Ha Hd Hsr Hsa Hlast)
      as (it & st & ct & ip & sp & cp & b1 & b2 & b3 & b4
          & Et & Ep & Hct & Hcp & E1 & E2 & E3 & E4 & Ev).
    exists it, st, ct, ip, sp, cp, b1, b2, b3, b4.
    repeat split; try assumption; try tauto.
    apply blend_convex4; tauto.
  - intros v.
    destruct (Qltb 90 newTheta) eqn:H90; [|destruct (Qltb newTheta 0) eqn:H0];
      cbn [orb].
    + apply Qltb_lt in H90. intro Hv. injection Hv as <-. split.
      * left. split; [left; exact H90|reflexivity].
      * intro Hpos. split; [lra|apply block_max_nonneg, Hpos].
    + apply Qltb_lt in H0. intro Hv. injection Hv as <-. split.
      * left. split; [right; exact H0|reflexivity].
      * intro Hpos. split; [lra|apply block_max_nonneg, Hpos].
    + apply Qltb_ge in H90, H0. intro Ev.
      destruct (interpolate_cell_value symmetry s i j index newTheta newPhi
                  scatterRadial scatterAzimuth b v Hax Hb Hsr Hsa Hlast Ev)
        as (b1 & b2 & b3 & b4 & S1 & S2 & S3 & S4 & Hc).
      split.
      * right. split; [split; assumption|].
        exists b1, b2, b3, b4. tauto.
      * intro Hpos.
        apply (convex4_bounds v b1 b2 b3 b4 0 (block_max b) Hc);
          (split; [apply Hpos|apply sample_le_block_max]); assumption.
Qed.

Lemma C9_witness :
  (90 < 30 \/ 30 < 0 ->
   resample_cell same_angles same_angles "PlaneSymmetrical" grid_src 0 0 0
                 30 200 0 0 = Ok 0) /\
  (0 <= 30 <= 90 ->
   [0; 45; 90] <> [] -> [0; 90; 180] <> [] ->
   block_dims grid_block (length [0; 90; 180]) (length [0; 45; 90]) ->
   exists it st ct ip sp cp b1 b2 b3 b4,
     theta_bracket [0; 45; 90] 30 = Ok (it, st, ct) /\
     phi_bracket [0; 90; 180] (fold_phi "PlaneSymmetrical" 200)
     = Ok (ip, sp, cp) /\
     0 <= ct <= 1 /\ 0 <= cp <= 1 /\
     lookup2 grid_block ip it = Ok b1 /\ lookup2 grid_block ip st = Ok b2 /\
     lookup2 grid_block sp it = Ok b3 /\ lookup2 grid_block sp st = Ok b4 /\
     resample_cell same_angles same_angles "PlaneSymmetrical" grid_src 0 0 0
                   30 200 0 0
     = Ok (blend b1 b2 b3 b4 ct cp) /\
     convex4 (blend b1 b2 b3 b4 ct cp) b1 b2 b3 b4) /\
  (forall v,
      resample_cell same_angles same_angles "PlaneSymmetrical" grid_src 0 0 0
                    30 200 0 0 = Ok v ->
      ((90 < 30 \/ 30 < 0) /\ v = 0 \/
       0 <= 30 <= 90 /\
       exists b1 b2 b3 b4,
         sample_of grid_block b1 /\ sample_of grid_block b2 /\
         sample_of grid_block b3 /\ sample_of grid_block b4 /\
         convex4 v b1 b2 b3 b4) /\
      ((forall x, sample_of grid_block x -> 0 <= x) ->
       0 <= v /\ v <= block_max grid_block)).
Proof.
  apply (C9_resample_cell_zero_or_convex
           same_angles same_angles "PlaneSymmetrical" grid_src 0 0 0
           30 200 0 0 30 200 [0; 45; 90] [0; 90; 180] grid_block).
  - reflexivity.
  - reflexivity.
  - reflexivity.
  - simpl. repeat split; reflexivity.
  - simpl. repeat split; reflexivity.
  - vm_compute. discriminate.
Defined.

(** C1 fails on the azimuth axis.  Past the last sample the radial
    bracket collapses onto the last index with weight 0, but the azimuth
    bracket keeps [indexSupPhi = indexInfPhi + 1], one past the last row
    of the block, and the corner lookup raises [IndexError]. *)
Theorem C1_phi_upper_edge_leaves_block
        (symmetry : string) (s : source) (i j index : nat)
        (scatterRadial scatterAzimuth : list Q) (b : block)
        (newTheta newPhi : Q) :
  axes_of s index = Ok (scatterRadial, scatterAzimuth) ->
  block_of s i j index = Ok b ->
  scatterRadial <> [] -> scatterAzimuth <> [] ->
  block_dims b (length scatterAzimuth) (length scatterRadial) ->
  strictly_increasing scatterRadial ->
  strictly_increasing scatterAzimuth ->
  last scatterAzimuth 0 < fold_phi symmetry newPhi ->
  (forall theta,
      last scatterRadial 0 < theta ->
      theta_bracket scatterRadial theta
      = Ok ((length scatterRadial - 1)%nat,
            (length scatterRadial - 1)%nat, 0)) /\
  phi_bracket scatterAzimuth (fold_phi symmetry newPhi)
  = Ok ((length scatterAzimuth - 1)%nat, length scatterAzimuth, 0) /\
  lookup b (length scatterAzimuth) = Raise IndexError /\
  interpolate_cell symmetry s i j index newTheta newPhi = Raise IndexError.
Proof.
  intros Hax Hb Hr Ha Hd Hsr Hsa Hlast.
  assert (Hphi := phi_bracket_past_last scatterAzimuth
                    (fold_phi symmetry newPhi) Hsa Ha Hlast).
  assert (Hrow : lookup b (length scatterAzimuth) = Raise IndexError).
  { unfold lookup. destruct Hd as [Hlen _].
    replace (nth_error b (length scatterAzimuth)) with (@None (list Q));
      [reflexivity|].
    symmetry. apply nth_error_None. lia. }
  split; [intros theta Ht; apply theta_bracket_past_last; assumption|].
  split; [exact Hphi|]. split; [exact Hrow|].
  unfold interpolate_cell. rewrite Hax. cbn [bind].
  destruct (theta_bracket_shape scatterRadial newTheta Hsr)
    as (it & st & ct & -> & Bt).
  rewrite Hphi. cbn [bind].
  destruct (bracket_of_bounds _ _ _ _ _ Hr Bt) as (Hit & Hst & _ & _).
  assert (Hlast' : (length scatterAzimuth - 1 < length scatterAzimuth)%nat)
    by (destruct scatterAzimuth; [congruence|simpl; lia]).
  rewrite (corners_block s i j index b _ _ it st Hb).
  rewrite (lookup2_dims b _ _ _ it Hd Hlast' Hit).
  rewrite (lookup2_dims b _ _ _ st Hd Hlast' Hst). cbn [bind].
  unfold lookup2 at 1. rewrite Hrow. reflexivity.
Qed.

Lemma C1_witness :
  (forall theta,
      last [0; 45; 90] 0 < theta ->
      theta_bracket [0; 45; 90] theta
      = Ok ((length [0; 45; 90] - 1)%nat,
            (length [0; 45; 90] - 1)%nat, 0)) /\
  phi_bracket [0; 90; 180] (fold_phi "Asymmetrical" 270)
  = Ok ((length [0; 90; 180] - 1)%nat, length [0; 90; 180], 0) /\
  lookup grid_block (length [0; 90; 180]) = Raise IndexError /\
  interpolate_cell "Asymmetrical" grid_src 0 0 0 45 270 = Raise IndexError.
Proof.
  apply (C1_phi_upper_edge_leaves_block
           "Asymmetrical" grid_src 0 0 0 [0; 45; 90] [0; 90; 180] grid_block
           45 270).
  - reflexivity.
  - reflexivity.
  - discriminate.
  - discriminate.
  - split; [reflexivity|]. repeat constructor.
  - simpl. repeat split; reflexivity.
  - simpl. repeat split; reflexivity.
  - vm_compute. reflexivity.
Defined.

End ResamplerProperties.

(** *** The normaliser *)

Section NormalizerProperties.

Import PyQ Normalizer Samples.
Local Open Scope Q_scope.

(** C2 fails on a degenerate slice.  When the integral of a slice is not
    positive its factor stays at the initial 0 (the [else] branch compares
    it with 1 and stores nothing), and the block is multiplied by 0 rather
    than left as it is. *)
Theorem C2_zero_integral_block_is_zeroed
        (nquad : list Q -> list Q -> block -> Q * Q)
        (line_theta line_phi : list Q) (tis : Q) (b : block) :
  Qabs (fst (nquad line_theta line_phi (transpose b))) <= 0 ->
  normalize_bsdf_data nquad 1 1 line_theta line_phi [[tis]] [[b]] true false
  = Ok ([[0]], [[map (map (fun v => v * 0)) b]]).
Proof.
  intro H. apply Qltb_ge in H.
  unfold normalize_bsdf_data, range. cbn [seq loop repeat].
  unfold normalize_slice. cbn [lookup nth_error bind].
  rewrite H. reflexivity.
Qed.

Lemma C2_witness :
  normalize_bsdf_data no_flux 1 1 [0; 45; 90] [0; 180; 360] [[1 # 2]]
                      [[peak_at_normal]] true false
  = Ok ([[0]], [[map (map (fun v => v * 0)) peak_at_normal]]).
Proof.
  apply (C2_zero_integral_block_is_zeroed
           no_flux [0; 45; 90] [0; 180; 360] (1 # 2) peak_at_normal).
  vm_compute. discriminate.
Defined.

(** With a positive integral the slice is scaled by [TIS / integral]. *)
Lemma normalize_positive_integral
      (nquad : list Q -> list Q -> block -> Q * Q)
      (line_theta line_phi : list Q) (tis : Q) (b : block) :
  0 < Qabs (fst (nquad line_theta line_phi (transpose b))) ->
  normalize_bsdf_data nquad 1 1 line_theta line_phi [[tis]] [[b]] true false
  = Ok ([[tis / Qabs (fst (nquad line_theta line_phi (transpose b)))]],
        [[map (map (fun v =>
                      v * (tis / Qabs (fst (nquad line_theta line_phi
                                                  (transpose b)))))) b]]).
Proof.
  intro H. apply Qltb_lt in H.
  unfold normalize_bsdf_data, range. cbn [seq loop repeat].
  unfold normalize_slice. cbn [lookup nth_error bind].
  rewrite H. reflexivity.
Qed.

End NormalizerProperties.

(** *** Precision resolution *)

Section PrecisionProperties.

Import PyQ Precision PrecisionSpec Samples.
Local Open Scope Q_scope.

Lemma near_enough_all :
  forallb (near_enough 180) (seq 2 999) = true.
Proof. vm_compute. reflexivity. Qed.

Lemma within_quarter_is_nearest (x : Q) (u : Z) :
  Qabs (x - (1 # 2) * inject_Z u) <= 1 # 4 ->
  nearest_half_multiple ((1 # 2) * inject_Z u) x.
Proof.
  intro H. split; [exists u; reflexivity|]. intro k.
  apply Qabs_Qle_condition in H. destruct H as [H1 H2].
  destruct (Z.eq_dec k u) as [->|Hne]; [apply Qle_refl|].
  apply Qle_trans with (1 # 4);
    [apply Qabs_Qle_condition; split; assumption|].
  destruct (Z_lt_le_dec k u) as [Hlt|Hge].
  - assert (Hk : inject_Z k + 1 <= inject_Z u).
    { change 1 with (inject_Z 1). rewrite <- inject_Z_plus, <- Zle_Qle. lia. }
    apply Qle_trans with (x - (1 # 2) * inject_Z k); [lra|apply Qle_Qabs].
  - assert (Hk : inject_Z u + 1 <= inject_Z k).
    { change 1 with (inject_Z 1). rewrite <- inject_Z_plus, <- Zle_Qle. lia. }
    rewrite <- Qabs_opp.
    apply Qle_trans with (- (x - (1 # 2) * inject_Z k)); [lra|apply Qle_Qabs].
Qed.

Lemma div_nonzero (x y : Q) : ~ y == 0 -> div x y = Ok (x / y).
Proof.
  intro H. unfold div. destruct (Qeq_bool y 0) eqn:E; [|reflexivity].
  apply Qeq_bool_iff in E. contradiction.
Qed.

Lemma inject_Z_nonzero (z : Z) : z <> 0%Z -> ~ inject_Z z == 0.
Proof.
  intros H E. apply H. unfold Qeq in E. simpl in E. lia.
Qed.

Lemma recommended_precision_eq (scatterRadial scatterAzimuth : list Q) :
  (2 <= length scatterRadial <= 1000)%nat ->
  (2 <= length scatterAzimuth <= 1000)%nat ->
  phi_theta_recommended_precision scatterRadial scatterAzimuth
                                  "PlaneSymmetrical"
  = Ok ((1 # 2) * inject_Z (half_steps 90 (len scatterRadial)),
        (1 # 2) * inject_Z (half_steps 180 (len scatterAzimuth))).
Proof.
  intros Hr Ha. unfold phi_theta_recommended_precision, round_to_multiple.
  cbn [String.eqb Ascii.eqb Bool.eqb].
  assert (Hr' : (2 <= len scatterRadial <= 1000)%Z) by (unfold len; lia).
  assert (Ha' : (2 <= len scatterAzimuth <= 1000)%Z) by (unfold len; lia).
  rewrite (div_nonzero 90 (inject_Z (len scatterRadial)))
    by (apply inject_Z_nonzero; lia).
  cbn [bind].
  destruct (Z.ltb_spec 1000 (len scatterRadial)); [lia|].
  rewrite (div_nonzero 90 (inject_Z (len scatterRadial - 1)))
    by (apply inject_Z_nonzero; lia).
  cbn [bind]. rewrite div_nonzero by discriminate. cbn [bind].
  rewrite (div_nonzero 180 (inject_Z (len scatterAzimuth)))
    by (apply inject_Z_nonzero; lia).
  cbn [bind].
  destruct (Z.ltb_spec 1000 (len scatterAzimuth)); [lia|].
  rewrite (div_nonzero 180 (inject_Z (len scatterAzimuth - 1)))
    by (apply inject_Z_nonzero; lia).
  cbn [bind]. rewrite div_nonzero by discriminate. cbn [bind].
  reflexivity.
Qed.

(** The same for a radial axis of any length from 2 on: above 1000
    samples the radial step is computed as for 1000. *)
Lemma recommended_precision_any_radial
      (scatterRadial scatterAzimuth : list Q) :
  (2 <= length scatterRadial)%nat ->
  (2 <= length scatterAzimuth <= 1000)%nat ->
  phi_theta_recommended_precision scatterRadial scatterAzimuth
                                  "PlaneSymmetrical"
  = Ok ((1 # 2)
        * inject_Z (half_steps 90 (if (1000 <? len scatterRadial)%Z
                                   then 1000 else len scatterRadial)),
        (1 # 2) * inject_Z (half_steps 180 (len scatterAzimuth))).
Proof.
  intros Hr Ha. unfold phi_theta_recommended_precision, round_to_multiple.
  cbn [String.eqb Ascii.eqb Bool.eqb].
  assert (Hr' : (2 <= len scatterRadial)%Z) by (unfold len; lia).
  assert (Ha' : (2 <= len scatterAzimuth <= 1000)%Z) by (unfold len; lia).
  rewrite (div_nonzero 90 (inject_Z (len scatterRadial)))
    by (apply inject_Z_nonzero; lia).
  cbn [bind].
  destruct (Z.ltb_spec 1000 (len scatterRadial));
    [rewrite (div_nonzero 90 (inject_Z (1000 - 1))) by discriminate
    |rewrite (div_nonzero 90 (inject_Z (len scatterRadial - 1)))
       by (apply inject_Z_nonzero; lia)];
    cbn [bind]; rewrite div_nonzero by discriminate; cbn [bind];
    rewrite (div_nonzero 180 (inject_Z (len scatterAzimuth)))
      by (apply inject_Z_nonzero; lia);
    cbn [bind];
    (destruct (Z.ltb_spec 1000 (len scatterAzimuth)); [lia|]);
    rewrite (div_nonzero 180 (inject_Z (len scatterAzimuth - 1)))
      by (apply inject_Z_nonzero; lia);
    cbn [bind]; rewrite div_nonzero by discriminate; cbn [bind];
    reflexivity.
Qed.

(** C8, amended.  For a plane-symmetrical source whose radial and azimuth
    axes have at least 2 samples each, and the azimuth axis at most 1000,
    the routine returns and the recommended [precisionPhi] is a nearest
    multiple of 0.5 to [180 / (len(scatterAzimuth) - 1)]; when the radial
    axis has 181 samples the recommended [precisionTheta] is 0.5, the
    nearest multiple of 0.5 to [90 / 180]. *)
Theorem C8_recommended_precision_nearest_half
        (scatterRadial scatterAzimuth : list Q) :
  (2 <= length scatterRadial)%nat ->
  (2 <= length scatterAzimuth <= 1000)%nat ->
  exists precisionTheta precisionPhi,
    phi_theta_recommended_precision scatterRadial scatterAzimuth
                                    "PlaneSymmetrical"
    = Ok (precisionTheta, precisionPhi) /\
    nearest_half_multiple precisionPhi
                          (180 / inject_Z (len scatterAzimuth - 1)) /\
    (length scatterRadial = 181%nat ->
     nearest_half_multiple precisionTheta (90 / 180) /\
     precisionTheta == 1 # 2).
Proof.
  intros Hr Ha.
  rewrite recommended_precision_any_radial by lia.
  eexists _, _. split; [reflexivity|]. split.
  - apply within_quarter_is_nearest.
    pose proof near_enough_all as Hall. rewrite forallb_forall in Hall.
    specialize (Hall (length scatterAzimuth)).
    unfold near_enough in Hall. apply Qle_bool_iff. apply Hall.
    apply in_seq. lia.
  - intro H181. unfold len. rewrite H181. split.
    + apply within_quarter_is_nearest. vm_compute. discriminate.
    + vm_compute. reflexivity.
Qed.

Lemma C8_witness :
  exists precisionTheta precisionPhi,
    phi_theta_recommended_precision (half_degree_axis 181) [0; 90; 180]
                                    "PlaneSymmetrical"
    = Ok (precisionTheta, precisionPhi) /\
    nearest_half_multiple precisionPhi
                          (180 / inject_Z (len [0; 90; 180] - 1)) /\
    (length (half_degree_axis 181) = 181%nat ->
     nearest_half_multiple precisionTheta (90 / 180) /\
     precisionTheta == 1 # 2).
Proof.
  apply (C8_recommended_precision_nearest_half
           (half_degree_axis 181) [0; 90; 180]).
  - vm_compute. lia.
  - simpl. lia.
Defined.

(** With a single azimuth sample the step [180 / (1 - 1)] cannot be
    formed, and with none [180 / 0] cannot: the routine raises in both
    cases and recommends nothing.  The same holds of a radial axis of one
    sample or none, whatever the azimuth axis. *)
Lemma C8_short_axis_raises :
  phi_theta_recommended_precision (half_degree_axis 181) [0]
                                  "PlaneSymmetrical"
  = Raise ZeroDivisionError /\
  phi_theta_recommended_precision (half_degree_axis 181) []
                                  "PlaneSymmetrical"
  = Raise ZeroDivisionError /\
  phi_theta_recommended_precision [0] [0; 90; 180] "PlaneSymmetrical"
  = Raise ZeroDivisionError /\
  phi_theta_recommended_precision [] [0; 90; 180] "PlaneSymmetrical"
  = Raise ZeroDivisionError /\
  ~ (forall scatterAzimuth : list Q,
        (length scatterAzimuth <= 1000)%nat ->
        exists precisionTheta precisionPhi,
          phi_theta_recommended_precision (half_degree_axis 181)
                                          scatterAzimuth "PlaneSymmetrical"
          = Ok (precisionTheta, precisionPhi) /\
          nearest_half_multiple
            precisionPhi (180 / inject_Z (len scatterAzimuth - 1))).
Proof.
  assert (E : phi_theta_recommended_precision (half_degree_axis 181) [0]
                "PlaneSymmetrical" = Raise ZeroDivisionError)
    by (vm_compute; reflexivity).
  split; [exact E|]. split; [vm_compute; reflexivity|].
  split; [vm_compute; reflexivity|]. split; [vm_compute; reflexivity|].
  intro H. destruct (H [0]) as (pT & pP & H1 & _); [simpl; lia|].
  rewrite E in H1. discriminate.
Qed.

End PrecisionProperties.

(** *** The readers *)

Section ReaderProperties.

Import PyQ PyStr Reader ReaderSpec ZemaxReader Samples.
Local Open Scope string_scope.

Lemma quiet_silent {A : Type} (m : M A) : quiet m -> silent_on_return m.
Proof. intros H s s' v E. exact (H s s' (Ok v) E). Qed.

Lemma quiet_ret {A : Type} (a : A) : quiet (ret a).
Proof. intros s s' r E. injection E as <- _. reflexivity. Qed.

Lemma quiet_lift {A : Type} (r : result A) : quiet (lift r).
Proof. intros s s' r' E. injection E as <- _. reflexivity. Qed.

Lemma quiet_readline : quiet readline.
Proof.
  intros s s' r. unfold readline. destruct (unread s); intro E;
    injection E as <- _; reflexivity.
Qed.

Lemma quiet_read_uncommented : quiet read_uncommented.
Proof.
  intros s s' r. unfold read_uncommented.
  destruct (skip_comments (unread s)). intro E. injection E as <- _.
  reflexivity.
Qed.

Lemma quiet_read_to_data_begin : quiet read_to_data_begin.
Proof.
  intros s s' r. unfold read_to_data_begin.
  destruct (seek_data_begin (unread s)). intro E. injection E as <- _.
  reflexivity.
Qed.

Lemma quiet_bind {A B : Type} (m : M A) (k : A -> M B) :
  quiet m -> (forall a, quiet (k a)) -> quiet (bindM m k).
Proof.
  intros Hm Hk s s' r. unfold bindM.
  destruct (m s) as [s1 r1] eqn:E1. pose proof (Hm _ _ _ E1) as P1.
  destruct r1 as [a|e| |]; intro E.
  - rewrite <- P1. exact (Hk a _ _ _ E).
  - injection E as <- _. exact P1.
  - injection E as <- _. exact P1.
  - injection E as <- _. exact P1.
Qed.

Lemma quiet_for_eachM {A B : Type} (xs : list A) (body : A -> M B) :
  (forall x, quiet (body x)) -> quiet (for_eachM xs body).
Proof.
  intro H. induction xs as [|x xs IH]; simpl.
  - apply quiet_ret.
  - apply quiet_bind; [apply H|]. intro b.
    apply quiet_bind; [exact IH|]. intro bs. apply quiet_ret.
Qed.

Lemma quiet_read_count (offset : nat) : quiet (read_count offset).
Proof.
  unfold read_count. apply quiet_bind; [apply quiet_read_uncommented|].
  intro. apply quiet_lift.
Qed.

Lemma silent_bind {A B : Type} (m : M A) (k : A -> M B) :
  silent_on_return m -> (forall a, silent_on_return (k a)) ->
  silent_on_return (bindM m k).
Proof.
  intros Hm Hk s s' v. unfold bindM.
  destruct (m s) as [s1 r1] eqn:E1.
  destruct r1 as [a|e| |]; intro E; try discriminate.
  rewrite <- (Hm _ _ _ E1). exact (Hk a _ _ _ E).
Qed.

Lemma never_bind_l {A B : Type} (m : M A) (k : A -> M B) :
  never_returns m -> never_returns (bindM m k).
Proof.
  intros Hm s s' v. unfold bindM.
  destruct (m s) as [s1 r1] eqn:E1.
  destruct r1 as [a|e| |]; try discriminate.
  exfalso. exact (Hm _ _ _ E1).
Qed.

Lemma never_bind_r {A B : Type} (m : M A) (k : A -> M B) :
  (forall a, never_returns (k a)) -> never_returns (bindM m k).
Proof.
  intros Hk s s' v. unfold bindM.
  destruct (m s) as [s1 r1] eqn:E1.
  destruct r1 as [a|e| |]; try discriminate. apply Hk.
Qed.

Lemma never_unbound {A : Type} : never_returns (lift (@read_local A None)).
Proof. intros s s' v. discriminate. Qed.

Lemma never_silent {A : Type} (m : M A) :
  never_returns m -> silent_on_return m.
Proof. intros H s s' v E. exfalso. exact (H _ _ _ E). Qed.

(** A values line either yields the axis in silence or prints its warning
    and leaves the axis unassigned. *)
Lemma silent_read_values {B : Type} (nb : Z) (warning : string)
      (k : option (list Q) -> M B) :
  (forall values, silent_on_return (k (Some values))) ->
  never_returns (k None) ->
  silent_on_return (bindM (read_values nb warning) k).
Proof.
  intros Hsome Hnone. unfold read_values.
  intros s s' v. unfold bindM at 1.
  destruct (bindM read_uncommented _ s) as [s1 r1] eqn:E1.
  revert E1. unfold bindM at 1.
  destruct (read_uncommented s) as [s0 r0] eqn:E0.
  pose proof (quiet_read_uncommented _ _ _ E0) as P0.
  destruct r0 as [line|e| |]; try (intro E1; injection E1 as <- <-; discriminate).
  unfold bindM at 1. unfold lift at 1.
  destruct (drop_empty_tail _) as [tokens|e| |];
    try (intro E1; injection E1 as <- <-; discriminate).
  destruct (negb _).
  - unfold bindM, print, ret. intro E1. injection E1 as <- <-.
    intro E. exfalso. exact (Hnone _ _ _ E).
  - unfold bindM, lift, ret.
    destruct (for_each tokens float) as [values|e| |];
      intro E1; injection E1 as <- <-; try discriminate.
    intro E. rewrite <- P0. exact (Hsome values _ _ _ E).
Qed.

Ltac quiet_tac :=
  repeat first
    [ apply quiet_ret | apply quiet_lift | apply quiet_readline
    | apply quiet_read_uncommented | apply quiet_read_to_data_begin
    | apply quiet_read_count
    | apply quiet_for_eachM; intro
    | apply quiet_bind; [|intro] ].

Ltac never_tac :=
  repeat first
    [ apply never_unbound
    | apply never_bind_l; apply never_unbound
    | apply never_bind_r; intro ].

Ltac silent_tac :=
  repeat first
    [ apply silent_read_values; [intro|solve [never_tac]]
    | apply silent_bind; [apply quiet_silent; solve [quiet_tac]|intro]
    | apply quiet_silent; solve [quiet_tac] ].

Lemma read_zemax_bsdf_silent : silent_on_return read_zemax_bsdf.
Proof. unfold read_zemax_bsdf. silent_tac. Qed.

(** C3 fails.  A values line whose token count differs from the declared
    count prints its warning and leaves the axis unassigned, and the final
    [return] then raises [UnboundLocalError]: whenever the Zemax reader
    has printed a warning it does not return. *)
Theorem C3_warning_then_no_result (text : chars) (log : list string)
        (r : result zemax_bsdf) :
  run read_zemax_bsdf text = (log, r) ->
  log <> [] ->
  forall v, r <> Ok v.
Proof.
  unfold run. destruct (read_zemax_bsdf _) as [s' r'] eqn:E.
  intro H. injection H as <- <-. intros Hlog v ->.
  apply Hlog. exact (read_zemax_bsdf_silent _ _ _ E).
Qed.

Lemma C3_witness :
  run read_zemax_bsdf mismatched_rotation_file
  = ([".....WARNING: Wrong data for sample rotation values"],
     Raise UnboundLocalError) /\
  forall v : zemax_bsdf, Raise UnboundLocalError <> Ok v.
Proof.
  assert (E : run read_zemax_bsdf mismatched_rotation_file
              = ([".....WARNING: Wrong data for sample rotation values"],
                 Raise UnboundLocalError)) by (vm_compute; reflexivity).
  split; [exact E|].
  apply (C3_warning_then_no_result mismatched_rotation_file
           [".....WARNING: Wrong data for sample rotation values"]
           (Raise UnboundLocalError) E).
  discriminate.
Defined.

End ReaderProperties.

Section SpeosReaderProperties.

Import PyQ PyStr Reader ReaderSpec SpeosReader SpeosReaderSpec Samples.
Local Open Scope string_scope.

(** C5, amended.  The second line of a Speos file is 0 for text and 1
    for binary data, and the Speos writer puts 0 there.  For every file of
    version 8.0 or later whose second line starts with the flag 0, the
    reader does not stop at that line: with nothing printed it goes on
    with the third line, as it does from there for any file. *)
Theorem C5_text_flag_file_is_read_on
        (inputFilepath text headerLine flagLine version : chars)
        (rest : list chars) (versionNumber : Q) :
  lines_of text = headerLine :: flagLine :: rest ->
  lookup (split_on " " (drop_last headerLine))
         (length (split_on " " (drop_last headerLine)) - 1) = Ok version ->
  float (drop 1 version) = Ok versionNumber ->
  (8 <= versionNumber)%Q ->
  lookup (split_on tab (drop_last flagLine)) 0 = Ok (lit "0") ->
  read_speos_bsdf inputFilepath (mk_state (lines_of text) [])
  = read_speos_from_comment (extension_symmetry inputFilepath)
                            (mk_state rest []).
Proof.
  intros Hlines Hversion Hfloat Hge Hflag.
  unfold read_speos_bsdf. rewrite Hlines.
  unfold bindM at 1. unfold readline at 1. cbn [unread printed].
  unfold bindM at 1. unfold lift at 1. rewrite Hversion.
  unfold bindM at 1. unfold lift at 1. rewrite Hfloat.
  apply Qltb_ge in Hge. rewrite Hge.
  unfold bindM at 1. unfold readline at 1. cbn [unread printed].
  unfold bindM at 1. unfold lift at 1. rewrite Hflag.
  reflexivity.
Qed.

Lemma C5_witness :
  read_speos_bsdf (lit "sample.brdf") (mk_state (lines_of flag_zero_file) [])
  = read_speos_from_comment (extension_symmetry (lit "sample.brdf"))
                            (mk_state (skipn 2 (lines_of flag_zero_file)) []).
Proof.
  apply (C5_text_flag_file_is_read_on
           (lit "sample.brdf") flag_zero_file
           (nth 0 (lines_of flag_zero_file) [])
           (nth 1 (lines_of flag_zero_file) [])
           (lit "v8.0") (skipn 2 (lines_of flag_zero_file)) 8.0%Q).
  - vm_compute. reflexivity.
  - vm_compute. reflexivity.
  - vm_compute. reflexivity.
  - vm_compute. discriminate.
  - vm_compute. reflexivity.
Defined.

(** The claim as stated fails: the second line of this file is the flag 0,
    and the reader returns its data with nothing printed. *)
Lemma C5_flag_zero_file_is_read :
  nth 1 (lines_of flag_zero_file) [] = (lit "0" ++ [newline])%list /\
  run (read_speos_bsdf (lit "sample.brdf")) flag_zero_file
  = ([], Ok flag_zero_result).
Proof. split; vm_compute; reflexivity. Qed.

(** The reader stops at the first line when its last token, without its
    first character, is a number below 8. *)
Lemma read_speos_bsdf_rejects_old_version
      (inputFilepath text headerLine version : chars) (rest : list chars)
      (versionNumber : Q) :
  lines_of text = headerLine :: rest ->
  lookup (split_on " " (drop_last headerLine))
         (length (split_on " " (drop_last headerLine)) - 1) = Ok version ->
  float (drop 1 version) = Ok versionNumber ->
  (versionNumber < 8)%Q ->
  run (read_speos_bsdf inputFilepath) text = (version_warnings, Exit).
Proof.
  intros Hlines Hversion Hfloat Hlt.
  unfold run, read_speos_bsdf. rewrite Hlines.
  unfold bindM at 1. unfold readline at 1. cbn [unread printed].
  unfold bindM at 1. unfold lift at 1. rewrite Hversion.
  unfold bindM at 1. unfold lift at 1. rewrite Hfloat.
  apply Qltb_lt in Hlt. rewrite Hlt.
  reflexivity.
Qed.

End SpeosReaderProperties.

(** *** The writers *)

Section WriterProperties.

Import PyQ PyStr Reader ReaderSpec SpeosReader.
Import Writers SpeosWriter ZemaxWriter WriterSpec WriterOutput Render Samples.
Local Open Scope R_scope.
Set Warnings "-notation-for-abbreviation".

Lemma appended_first {A : Type} (f : fragment) (k : unit -> W A)
      (out : list fragment) :
  appended (bindW (append f) k) = Ok out -> exists rest, out = f :: rest.
Proof.
  unfold appended, bindW, append. cbn [bind].
  destruct (k tt) as [[b out2]|e| |]; cbn [bind]; try discriminate.
  intro H. injection H as <-. exists out2. reflexivity.
Qed.

Lemma write_speos_header_first
      (binaryMode : Z) (anisotropyVector : list Z) (scatterType : chars)
      (nbSampleRotation nbAngleIncidence : nat)
      (sampleRotation angleIncidence : list R) (tisData : list (list R))
      (nLines : list fragment) :
  write_speos_header_bsdf binaryMode anisotropyVector scatterType
                          nbSampleRotation nbAngleIncidence
                          sampleRotation angleIncidence tisData = Ok nLines ->
  exists rest, nLines = speos_header_fragment :: rest.
Proof.
  unfold write_speos_header_bsdf. cbv zeta. apply appended_first.
Qed.

Lemma write_speos_data_extends
      (nLines : list fragment) (scatterType : chars)
      (nbSampleRotation nbAngleIncidence : nat)
      (line_theta line_phi : list R)
      (bsdfDataSpeos : list (list (list (list R))))
      (out : list fragment) :
  write_speos_data_bsdf nLines scatterType nbSampleRotation nbAngleIncidence
                        line_theta line_phi bsdfDataSpeos = Ok out ->
  exists more, out = nLines ++ more.
Proof.
  unfold write_speos_data_bsdf. cbv zeta.
  destruct (appended _) as [more|e| |]; cbn [bind]; try discriminate.
  intro H. injection H as <-. exists more. reflexivity.
Qed.

(** C10.  Every file the Speos writers produce starts with the line
    [OPTIS - Anisotropic BSDF surface file v7.0]; its version token parses
    to 7.0, below 8.0, and the Speos reader leaves through [exit()] on that
    first line: the converter's own Speos output is always rejected by its
    own Speos reader. *)
Theorem C10_own_speos_output_is_rejected
        (str_float str_round3 format_sci3 : R -> chars)
        (binaryMode : Z) (anisotropyVector : list Z) (scatterType : chars)
        (nbSampleRotation nbAngleIncidence : nat)
        (sampleRotation angleIncidence : list R) (tisData : list (list R))
        (line_theta line_phi : list R)
        (bsdfDataSpeos : list (list (list (list R))))
        (header nLines : list fragment) (inputFilepath : chars) :
  write_speos_header_bsdf binaryMode anisotropyVector scatterType
                          nbSampleRotation nbAngleIncidence
                          sampleRotation angleIncidence tisData = Ok header ->
  write_speos_data_bsdf header scatterType nbSampleRotation nbAngleIncidence
                        line_theta line_phi bsdfDataSpeos = Ok nLines ->
  (exists rest,
      lines_of (file_text str_float str_round3 format_sci3 nLines)
      = (lit "OPTIS - Anisotropic BSDF surface file v7.0" ++ [newline])
          :: rest) /\
  float (lit "7.0") = Ok 7.0%Q /\
  run (read_speos_bsdf inputFilepath)
      (file_text str_float str_round3 format_sci3 nLines)
  = (version_warnings, Exit).
Proof.
  intros Hh Hd.
  destruct (write_speos_header_first _ _ _ _ _ _ _ _ _ Hh) as [rest ->].
  destruct (write_speos_data_extends _ _ _ _ _ _ _ _ Hd) as [more ->].
  set (tail := file_text str_float str_round3 format_sci3 (rest ++ more)).
  assert (Hlines :
    lines_of (file_text str_float str_round3 format_sci3
                        ((speos_header_fragment :: rest) ++ more))
    = (lit "OPTIS - Anisotropic BSDF surface file v7.0" ++ [newline])
        :: lines_of tail) by reflexivity.
  split; [exists (lines_of tail); exact Hlines|].
  split; [reflexivity|].
  apply (read_speos_bsdf_rejects_old_version
           inputFilepath _ _ (lit "v7.0") (lines_of tail) 7.0%Q Hlines).
  - reflexivity.
  - reflexivity.
  - reflexivity.
Qed.

Lemma C10_witness :
  (exists rest,
      lines_of (file_text plain_float plain_float plain_float
                          written_speos_file)
      = (lit "OPTIS - Anisotropic BSDF surface file v7.0" ++ [newline])
          :: rest) /\
  float (lit "7.0") = Ok 7.0%Q /\
  run (read_speos_bsdf (lit "plate_0.5_0.5.anisotropicbsdf"))
      (file_text plain_float plain_float plain_float written_speos_file)
  = (version_warnings, Exit).
Proof.
  apply (C10_own_speos_output_is_rejected
           plain_float plain_float plain_float
           0%Z [0; 1; 0]%Z (lit "BRDF") 1 1 [0%R] [30%R] [[(1 / 2)%R]]
           [0%R; 90%R] [0%R; 180%R; 360%R]
           [[ [[1; 2; 3]; [4; 5; 6]] ]]%R
           written_speos_header written_speos_file).
  - reflexivity.
  - reflexivity.
Defined.

Lemma forW_ext {A : Type} (xs : list A) (body body' : A -> W unit) :
  (forall x, In x xs -> body x = body' x) -> forW xs body = forW xs body'.
Proof.
  induction xs as [|x xs IH]; intro H; [reflexivity|].
  cbn [forW]. rewrite (H x (or_introl eq_refl)).
  rewrite IH; [reflexivity|]. intros y Hy. apply H. right. exact Hy.
Qed.

Lemma forW_emit {A : Type} (xs : list A) (g : A -> list fragment) :
  forW xs (fun x => Ok (tt, g x)) = Ok (tt, flat_map g xs).
Proof.
  induction xs as [|x xs IH]; [reflexivity|].
  cbn [forW flat_map]. unfold bindW. cbn [bind]. rewrite IH. reflexivity.
Qed.

Lemma forW_out {A : Type} (xs : list A) (body : A -> W unit)
      (g : A -> list fragment) :
  (forall x, In x xs -> body x = Ok (tt, g x)) ->
  forW xs body = Ok (tt, flat_map g xs).
Proof.
  intro H. rewrite (forW_ext xs body (fun x => Ok (tt, g x)) H).
  apply forW_emit.
Qed.

Lemma in_range (n x : nat) : In x (range n) <-> (x < n)%nat.
Proof. unfold range. rewrite in_seq. lia. Qed.

Lemma flat_map_length_uniform {A B : Type} (g : A -> list B) (L : nat)
      (xs : list A) :
  (forall x, In x xs -> length (g x) = L) ->
  length (flat_map g xs) = (length xs * L)%nat.
Proof.
  induction xs as [|x xs IH]; intro H; [reflexivity|].
  cbn [flat_map length]. rewrite length_app, (H x (or_introl eq_refl)).
  rewrite IH; [lia|]. intros y Hy. apply H. right. exact Hy.
Qed.

Lemma nth_error_flat_map_seq {B : Type} (g : nat -> list B) (L : nat) :
  forall n s a b,
    (forall x, (s <= x < s + n)%nat -> length (g x) = L) ->
    (a < n)%nat -> (b < L)%nat ->
    nth_error (flat_map g (seq s n)) (a * L + b) = nth_error (g (s + a)%nat) b.
Proof.
  induction n as [|n IH]; intros s a b H Ha Hb; [lia|].
  cbn [seq flat_map]. destruct a as [|a].
  - rewrite Nat.add_0_r. cbn [Nat.mul Nat.add].
    apply nth_error_app1. rewrite H; [assumption|lia].
  - rewrite nth_error_app2 by (rewrite H; [|lia]; lia).
    rewrite H by lia.
    replace (S a * L + b - L)%nat with (a * L + b)%nat by lia.
    rewrite IH; [|intros x Hx; apply H; lia|lia|assumption].
    f_equal. f_equal. lia.
Qed.

Lemma nth_error_flat_map_range {B : Type} (g : nat -> list B) (L n a b : nat) :
  (forall x, (x < n)%nat -> length (g x) = L) ->
  (a < n)%nat -> (b < L)%nat ->
  nth_error (flat_map g (range n)) (a * L + b) = nth_error (g a) b.
Proof.
  intros H Ha Hb. unfold range.
  rewrite (nth_error_flat_map_seq g L n 0 a b); [reflexivity| |assumption..].
  intros x Hx. apply H. lia.
Qed.

Lemma nth_error_map_range {B : Type} (f : nat -> B) (n p : nat) :
  (p < n)%nat -> nth_error (map f (range n)) p = Some (f p).
Proof.
  intro H. unfold range. rewrite nth_error_map.
  rewrite nth_error_nth' with (d := 0%nat) by (rewrite length_seq; exact H).
  rewrite seq_nth by exact H. reflexivity.
Qed.

Lemma row_in_block (nT nP k p : nat) :
  (k < nT)%nat -> (p < nP)%nat ->
  ((k + 1) * (nP + 2) + 1 + p < (nT + 1) * (nP + 2))%nat.
Proof.
  intros Hk Hp.
  assert (H : ((k + 1) * (nP + 2) <= nT * (nP + 2))%nat)
    by (apply Nat.mul_le_mono_r; lia).
  lia.
Qed.

Lemma block_split (n B i j r : nat) :
  ((i * n + j) * B + r = i * (n * B) + (j * B + r))%nat.
Proof. lia. Qed.

Lemma in_blocks (n B j r : nat) :
  (j < n)%nat -> (r < B)%nat -> (j * B + r < n * B)%nat.
Proof.
  intros Hj Hr.
  assert (H : ((j + 1) * B <= n * B)%nat) by (apply Nat.mul_le_mono_r; lia).
  lia.
Qed.

Lemma length_range (n : nat) : length (range n) = n.
Proof. apply length_seq. Qed.

Section SpeosData.

Variable scatterType : chars.
Variable scale : R -> R -> R.
Variables nbSampleRotation nbAngleIncidence : nat.
Variables line_theta line_phi : list R.
Variable bsdfDataSpeos : list (list (list (list R))).

(** The scatter type fixes what a cell becomes before it is written. *)
Hypothesis scatter_case :
  (str_eq scatterType (lit "BRDF") = true /\ scale = fun _ v => v) \/
  (str_eq scatterType (lit "BRDF") = false /\
   str_eq scatterType (lit "BTDF") = true /\
   scale = fun theta v => cos ((180 - theta) * PI / 180) * v).

Hypothesis data_covers :
  covers bsdfDataSpeos nbSampleRotation nbAngleIncidence
         (length line_theta) (length line_phi).

Local Notation speos_row_out :=
  (WriterOutput.speos_row_out scale line_theta line_phi bsdfDataSpeos).
Local Notation speos_block_out :=
  (WriterOutput.speos_block_out scale line_theta line_phi bsdfDataSpeos).
Local Notation speos_data_out :=
  (WriterOutput.speos_data_out scale nbSampleRotation nbAngleIncidence
                               line_theta line_phi bsdfDataSpeos).

Lemma flat_map_singleton {A B : Type} (f : A -> B) (xs : list A) :
  flat_map (fun x => [f x]) xs = map f xs.
Proof. induction xs; simpl; congruence. Qed.

Lemma bindW_liftW_Ok {A B : Type} (a : A) (k : A -> W B) :
  bindW (liftW (Ok a)) k = k a.
Proof.
  unfold bindW, liftW. cbn [bind].
  destruct (k a) as [[b out]|e| |]; reflexivity.
Qed.

Lemma write_speos_data_out (nLines : list fragment) :
  write_speos_data_bsdf nLines scatterType nbSampleRotation nbAngleIncidence
                        line_theta line_phi bsdfDataSpeos
  = Ok (nLines ++ speos_data_out).
Proof.
  unfold write_speos_data_bsdf. cbv zeta.
  rewrite (forW_out (range nbSampleRotation) _
             (fun i => flat_map (speos_block_out i) (range nbAngleIncidence))).
  { unfold bindW, append, appended. cbn [bind]. unfold WriterOutput.speos_data_out.
    reflexivity. }
  intros i Hi. apply in_range in Hi.
  apply forW_out. intros j Hj. apply in_range in Hj.
  rewrite (forW_out (range (length line_phi)) _
             (fun x => [[TAB; StrFloat (nth x line_phi 0)]])).
  2:{ intros x Hx. apply in_range in Hx.
      rewrite (lookup_nth line_phi x 0 Hx). rewrite bindW_liftW_Ok.
      reflexivity. }
  rewrite (forW_out (range (length line_theta)) _ (speos_row_out i j)).
  { unfold bindW, append. cbn [bind]. unfold WriterOutput.speos_block_out.
    rewrite flat_map_singleton. do 2 f_equal. cbn [app].
    rewrite <- app_assoc. reflexivity. }
  intros k Hk. apply in_range in Hk.
  rewrite (lookup_nth line_theta k 0 Hk). rewrite bindW_liftW_Ok.
  rewrite (forW_out (range (length line_phi)) _
             (fun p => [[TAB; StrFloat (scale (nth k line_theta 0)
                                             (value4 bsdfDataSpeos i j k p))]])).
  { unfold bindW, append. cbn [bind]. unfold WriterOutput.speos_row_out.
    rewrite flat_map_singleton. reflexivity. }
  intros p Hp. apply in_range in Hp.
  destruct scatter_case as [[-> ->]|(-> & -> & ->)];
    rewrite (data_covers i j k p Hi Hj Hk Hp), bindW_liftW_Ok; reflexivity.
Qed.

Lemma speos_row_length (i j k : nat) :
  length (speos_row_out i j k) = (length line_phi + 2)%nat.
Proof.
  unfold WriterOutput.speos_row_out. cbn [length]. rewrite length_app, length_map.
  unfold range. rewrite length_seq. simpl. lia.
Qed.

Lemma speos_block_length (i j : nat) :
  length (speos_block_out i j)
  = ((length line_theta + 1) * (length line_phi + 2))%nat.
Proof.
  unfold WriterOutput.speos_block_out. rewrite length_app. cbn [length].
  rewrite length_app, length_map.
  rewrite (flat_map_length_uniform _ (length line_phi + 2)%nat)
    by (intros; apply speos_row_length).
  unfold range. rewrite !length_seq. simpl. lia.
Qed.

Lemma speos_data_out_nth (i j k p : nat) :
  (i < nbSampleRotation)%nat -> (j < nbAngleIncidence)%nat ->
  (k < length line_theta)%nat -> (p < length line_phi)%nat ->
  nth_error speos_data_out
            (speos_position nbAngleIncidence (length line_theta)
                            (length line_phi) i j k p)
  = Some [TAB; StrFloat (scale (nth k line_theta 0)
                               (value4 bsdfDataSpeos i j k p))].
Proof.
  intros Hi Hj Hk Hp. unfold WriterOutput.speos_data_out, speos_position.
  pose proof (row_in_block _ _ _ _ Hk Hp) as Hin.
  set (L := (length line_phi + 2)%nat) in *.
  set (B := ((length line_theta + 1) * L)%nat) in *.
  assert (HB : forall i j, length (speos_block_out i j) = B)
    by apply speos_block_length.
  assert (HBs : forall x,
             length (flat_map (speos_block_out x) (range nbAngleIncidence))
             = (nbAngleIncidence * B)%nat).
  { intro x. rewrite (flat_map_length_uniform _ B) by (intros; apply HB).
    rewrite length_range. reflexivity. }
  rewrite <- !Nat.add_assoc. rewrite block_split.
  assert (Hin' : ((k + 1) * L + (1 + p) < B)%nat) by lia.
  pose proof (in_blocks _ _ _ _ Hj Hin') as Hjn.
  rewrite nth_error_app1.
  2:{ rewrite (flat_map_length_uniform _ (nbAngleIncidence * B)%nat)
        by (intros; apply HBs).
      rewrite length_range. apply in_blocks; assumption. }
  rewrite (nth_error_flat_map_range _ (nbAngleIncidence * B)%nat);
    [|intros; apply HBs|assumption|assumption].
  rewrite (nth_error_flat_map_range _ B);
    [|intros; apply HB|assumption|assumption].
  unfold WriterOutput.speos_block_out.
  assert (Hhead :
    length ([StrInt (Z.of_nat (length line_theta)); T " ";
             StrInt (Z.of_nat (length line_phi)); NL]
              :: map (fun x => [TAB; StrFloat (nth x line_phi 0)])
                     (range (length line_phi)) ++ [[NL]]) = L).
  { cbn [length]. rewrite length_app, length_map, length_range.
    unfold L. simpl. lia. }
  rewrite nth_error_app2 by (rewrite Hhead; lia).
  rewrite Hhead.
  replace ((k + 1) * L + (1 + p) - L)%nat with (k * L + (1 + p))%nat by lia.
  rewrite (nth_error_flat_map_range _ L);
    [|intros; apply speos_row_length|assumption|unfold L; lia].
  unfold WriterOutput.speos_row_out. cbn [Nat.add nth_error].
  rewrite nth_error_app1 by (rewrite length_map, length_range; exact Hp).
  exact (nth_error_map_range _ _ _ Hp).
Qed.

End SpeosData.

Section ZemaxData.

Variables index_wavelength index_RT nbSampleRotation nbAngleIncidence : nat.
Variable tisData : list (list R).
Variables shape2 shape3 : nat.
Variable bsdfData : list (list (list (list R))).

Hypothesis tis_covers :
  forall j, (j < nbAngleIncidence)%nat ->
            lookup tisData j = Ok (nth j tisData []) /\
            lookup (nth j tisData []) index_wavelength
            = Ok (WriterOutput.tis_at index_wavelength tisData j).

Hypothesis data_covers :
  forall j l k,
    (j < nbAngleIncidence)%nat -> (l < shape2)%nat -> (k < shape3)%nat ->
    lookup4 bsdfData (j + nbAngleIncidence * index_RT) index_wavelength l k
    = Ok (value4 bsdfData (j + nbAngleIncidence * index_RT)
                 index_wavelength l k).

Hypothesis shape2_positive : (0 < shape2)%nat.

Local Notation tis_at := (WriterOutput.tis_at index_wavelength tisData).
Local Notation zemax_value :=
  (WriterOutput.zemax_value index_wavelength index_RT nbAngleIncidence
                            bsdfData).
Local Notation zemax_row_out :=
  (WriterOutput.zemax_row_out index_wavelength index_RT nbAngleIncidence
                              shape2 bsdfData).
Local Notation zemax_block_out :=
  (WriterOutput.zemax_block_out index_wavelength index_RT nbAngleIncidence
                                tisData shape2 shape3 bsdfData).
Local Notation zemax_data_out :=
  (WriterOutput.zemax_data_out index_wavelength index_RT nbSampleRotation
                               nbAngleIncidence tisData shape2 shape3
                               bsdfData).

Lemma write_zemax_data_out :
  write_zemax_data_bsdf index_wavelength index_RT nbSampleRotation
                        nbAngleIncidence tisData shape2 shape3 bsdfData
  = Ok zemax_data_out.
Proof.
  unfold write_zemax_data_bsdf.
  rewrite (forW_out (range nbSampleRotation) _
             (fun i => flat_map zemax_block_out (range nbAngleIncidence))).
  { reflexivity. }
  intros i _. apply forW_out. intros j Hj. apply in_range in Hj.
  destruct (tis_covers j Hj) as [-> E]. rewrite bindW_liftW_Ok.
  rewrite E, bindW_liftW_Ok.
  rewrite (forW_out (range shape3) _ (zemax_row_out j)).
  { reflexivity. }
  intros k Hk. apply in_range in Hk.
  rewrite (forW_out (range (shape2 - 1)) _
             (fun l => [[Sci3 (zemax_value j l k); TAB]])).
  2:{ intros l Hl. apply in_range in Hl.
      rewrite data_covers by lia. rewrite bindW_liftW_Ok. reflexivity. }
  rewrite data_covers by lia.
  unfold bindW, append, liftW. cbn [bind]. unfold WriterOutput.zemax_row_out.
  rewrite flat_map_singleton. reflexivity.
Qed.

Lemma zemax_row_length (j k : nat) : length (zemax_row_out j k) = shape2.
Proof.
  unfold WriterOutput.zemax_row_out. rewrite length_app, length_map, length_range.
  simpl. lia.
Qed.

Lemma zemax_block_length (j : nat) :
  length (zemax_block_out j) = (1 + shape3 * shape2)%nat.
Proof.
  unfold WriterOutput.zemax_block_out. cbn [length].
  rewrite (flat_map_length_uniform _ shape2)
    by (intros; apply zemax_row_length).
  rewrite length_range. reflexivity.
Qed.

Lemma zemax_data_out_nth (i j l k : nat) :
  (i < nbSampleRotation)%nat -> (j < nbAngleIncidence)%nat ->
  (l < shape2)%nat -> (k < shape3)%nat ->
  nth_error zemax_data_out
            (zemax_position nbAngleIncidence shape2 shape3 i j l k)
  = Some [Sci3 (zemax_value j l k);
          if (l <? shape2 - 1)%nat then TAB else NL].
Proof.
  intros Hi Hj Hl Hk. unfold WriterOutput.zemax_data_out, zemax_position.
  set (B := (1 + shape3 * shape2)%nat).
  assert (HB : forall j, length (zemax_block_out j) = B)
    by apply zemax_block_length.
  assert (HBs :
             length (flat_map zemax_block_out (range nbAngleIncidence))
             = (nbAngleIncidence * B)%nat).
  { rewrite (flat_map_length_uniform _ B) by (intros; apply HB).
    rewrite length_range. reflexivity. }
  assert (Hrow : (k * shape2 + l < shape3 * shape2)%nat)
    by exact (in_blocks shape3 shape2 k l Hk Hl).
  assert (Hin : (1 + (k * shape2 + l) < B)%nat) by (unfold B; lia).
  rewrite <- !Nat.add_assoc. rewrite block_split.
  pose proof (in_blocks _ _ _ _ Hj Hin) as Hjn.
  rewrite nth_error_app1.
  2:{ rewrite (flat_map_length_uniform _ (nbAngleIncidence * B)%nat)
        by (intros; exact HBs).
      rewrite length_range. apply in_blocks; assumption. }
  rewrite (nth_error_flat_map_range _ (nbAngleIncidence * B)%nat);
    [|intros; exact HBs|assumption|assumption].
  rewrite (nth_error_flat_map_range _ B);
    [|intros; apply HB|assumption|assumption].
  unfold WriterOutput.zemax_block_out. cbn [Nat.add nth_error].
  rewrite (nth_error_flat_map_range _ shape2);
    [|intros; apply zemax_row_length|assumption|assumption].
  unfold WriterOutput.zemax_row_out.
  destruct (Nat.ltb_spec l (shape2 - 1)) as [Hlt|Hge].
  - rewrite nth_error_app1 by (rewrite length_map, length_range; exact Hlt).
    exact (nth_error_map_range _ _ _ Hlt).
  - assert (l = (shape2 - 1)%nat) by lia. subst l.
    rewrite nth_error_app2 by (rewrite length_map, length_range; lia).
    rewrite length_map, length_range, Nat.sub_diag. reflexivity.
Qed.

End ZemaxData.

(** C6, amended.  It is the Speos writer that multiplies every value of a
    BTDF data set by [cos((180 - theta) * pi / 180)] for that value's
    theta, and writes BRDF values as they are; the Zemax writer, which is
    not told the scatter type, writes every value as it is. *)
Theorem C6_cosine_belongs_to_the_speos_writer :
  (forall (nLines : list fragment) (nbSampleRotation nbAngleIncidence : nat)
          (line_theta line_phi : list R)
          (bsdfDataSpeos : list (list (list (list R)))) (i j k p : nat),
      covers bsdfDataSpeos nbSampleRotation nbAngleIncidence
             (length line_theta) (length line_phi) ->
      (i < nbSampleRotation)%nat -> (j < nbAngleIncidence)%nat ->
      (k < length line_theta)%nat -> (p < length line_phi)%nat ->
      (exists out,
          write_speos_data_bsdf nLines (lit "BTDF") nbSampleRotation
                                nbAngleIncidence line_theta line_phi
                                bsdfDataSpeos = Ok out /\
          nth_error out
                    (length nLines
                     + speos_position nbAngleIncidence (length line_theta)
                                      (length line_phi) i j k p)
          = Some [TAB;
                  StrFloat (cos ((180 - nth k line_theta 0) * PI / 180)
                            * value4 bsdfDataSpeos i j k p)]) /\
      (exists out,
          write_speos_data_bsdf nLines (lit "BRDF") nbSampleRotation
                                nbAngleIncidence line_theta line_phi
                                bsdfDataSpeos = Ok out /\
          nth_error out
                    (length nLines
                     + speos_position nbAngleIncidence (length line_theta)
                                      (length line_phi) i j k p)
          = Some [TAB; StrFloat (value4 bsdfDataSpeos i j k p)])) /\
  (forall (index_wavelength index_RT nbSampleRotation nbAngleIncidence : nat)
          (tisData : list (list R)) (shape2 shape3 : nat)
          (bsdfData : list (list (list (list R)))) (i j l k : nat),
      (forall j, (j < nbAngleIncidence)%nat ->
                 lookup tisData j = Ok (nth j tisData []) /\
                 lookup (nth j tisData []) index_wavelength
                 = Ok (WriterOutput.tis_at index_wavelength tisData j)) ->
      (forall j l k,
          (j < nbAngleIncidence)%nat -> (l < shape2)%nat -> (k < shape3)%nat ->
          lookup4 bsdfData (j + nbAngleIncidence * index_RT)
                  index_wavelength l k
          = Ok (value4 bsdfData (j + nbAngleIncidence * index_RT)
                       index_wavelength l k)) ->
      (i < nbSampleRotation)%nat -> (j < nbAngleIncidence)%nat ->
      (l < shape2)%nat -> (k < shape3)%nat ->
      exists out,
        write_zemax_data_bsdf index_wavelength index_RT nbSampleRotation
                              nbAngleIncidence tisData shape2 shape3 bsdfData
        = Ok out /\
        nth_error out (zemax_position nbAngleIncidence shape2 shape3 i j l k)
        = Some [Sci3 (value4 bsdfData (j + nbAngleIncidence * index_RT)
                             index_wavelength l k);
                if (l <? shape2 - 1)%nat then TAB else NL]).
Proof.
  split.
  - intros nLines nbSampleRotation nbAngleIncidence line_theta line_phi
           bsdfDataSpeos i j k p Hc Hi Hj Hk Hp.
    split.
    + eexists. split.
      * apply (write_speos_data_out
                 (lit "BTDF")
                 (fun theta v => cos ((180 - theta) * PI / 180) * v));
          [right; repeat split|exact Hc].
      * rewrite nth_error_app2 by lia.
        replace (length nLines + _ - length nLines)%nat
          with (speos_position nbAngleIncidence (length line_theta)
                               (length line_phi) i j k p) by lia.
        apply (speos_data_out_nth
                 (fun theta v => cos ((180 - theta) * PI / 180) * v));
          assumption.
    + eexists. split.
      * apply (write_speos_data_out (lit "BRDF") (fun _ v => v));
          [left; repeat split|exact Hc].
      * rewrite nth_error_app2 by lia.
        replace (length nLines + _ - length nLines)%nat
          with (speos_position nbAngleIncidence (length line_theta)
                               (length line_phi) i j k p) by lia.
        apply (speos_data_out_nth (fun _ v => v)); assumption.
  - intros index_wavelength index_RT nbSampleRotation nbAngleIncidence
           tisData shape2 shape3 bsdfData i j l k Ht Hd Hi Hj Hl Hk.
    eexists. split.
    + apply write_zemax_data_out; [exact Ht|exact Hd|lia].
    + apply zemax_data_out_nth; try assumption; lia.
Qed.

Lemma transmission_block_covers : covers transmission_block 1 1 2 3.
Proof.
  intros i j k l Hi Hj Hk Hl.
  destruct i as [|i]; [|lia]. destruct j as [|j]; [|lia].
  destruct k as [|[|k]]; [| |lia];
    (destruct l as [|[|[|l]]]; [| | |lia]); reflexivity.
Qed.

Lemma C6_witness :
  ((exists out,
       write_speos_data_bsdf [] (lit "BTDF") 1 1 [90; 180] [0; 180; 360]
                             transmission_block = Ok out /\
       nth_error out (length (@nil fragment) + speos_position 1 2 3 0 0 0 1)
       = Some [TAB;
               StrFloat (cos ((180 - nth 0 [90; 180] 0) * PI / 180)
                         * value4 transmission_block 0 0 0 1)]) /\
   (exists out,
       write_speos_data_bsdf [] (lit "BRDF") 1 1 [90; 180] [0; 180; 360]
                             transmission_block = Ok out /\
       nth_error out (length (@nil fragment) + speos_position 1 2 3 0 0 0 1)
       = Some [TAB; StrFloat (value4 transmission_block 0 0 0 1)])) /\
  (exists out,
      write_zemax_data_bsdf 0 0 1 1 [[50]] 2 3 transmission_block = Ok out /\
      nth_error out (zemax_position 1 2 3 0 0 0 1)
      = Some [Sci3 (value4 transmission_block (0 + 1 * 0) 0 0 1);
              if (0 <? 2 - 1)%nat then TAB else NL]).
Proof.
  split.
  - apply (proj1 C6_cosine_belongs_to_the_speos_writer
                 [] 1%nat 1%nat [90; 180] [0; 180; 360] transmission_block
                 0%nat 0%nat 0%nat 1%nat).
    + exact transmission_block_covers.
    + lia.
    + lia.
    + simpl. lia.
    + simpl. lia.
  - apply (proj2 C6_cosine_belongs_to_the_speos_writer
                 0%nat 0%nat 1%nat 1%nat [[50]] 2%nat 3%nat transmission_block
                 0%nat 0%nat 0%nat 1%nat).
    + intros j Hj. destruct j as [|j]; [|lia]. split; reflexivity.
    + intros j l k Hj Hl Hk.
      destruct j as [|j]; [|lia].
      destruct l as [|[|l]]; [| |lia];
        (destruct k as [|[|[|k]]]; [| | |lia]); reflexivity.
    + lia.
    + lia.
    + lia.
    + lia.
Defined.

(** A transmission block on the axis [90, 180]: the Zemax writer writes the
    sample at 90 degrees as it is, where the cosine factor is 0. *)
Lemma C6_zemax_writer_applies_no_cosine :
  write_zemax_data_bsdf 0 0 1 1 [[50]] 2 1 [[ [[1]; [1]] ]]
  = Ok [[T "TIS "; StrRound3 (50 / 100); NL];
        [Sci3 1; TAB]; [Sci3 1; NL]; [T "DataEnd"; NL]] /\
  [Sci3 1; TAB] <> [Sci3 (cos ((180 - 90) * PI / 180) * 1); TAB].
Proof.
  split; [reflexivity|].
  intro H. injection H as H.
  replace ((180 - 90) * PI / 180) with (PI / 2) in H by lra.
  rewrite cos_PI2 in H. lra.
Qed.

End WriterProperties.

(** *** The coordinate transforms *)

Section TransformProperties.

Import Transform TransformSpec.
Local Open Scope R_scope.

Lemma normalize_unit (x y z : R) :
  x * x + y * y + z * z = 1 -> normalize x y z = Ok (x, y, z).
Proof.
  intro H. unfold normalize. rewrite H, sqrt_1.
  destruct (Req_EM_T 1 0) as [E|_]; [lra|].
  replace (x * (1 / 1)) with x by field.
  replace (y * (1 / 1)) with y by field.
  replace (z * (1 / 1)) with z by field.
  reflexivity.
Qed.

Lemma acos_degrees_ok (z : R) :
  -1 <= z <= 1 -> acos_degrees z = Ok (acos z * (180 / PI)).
Proof.
  intros [H1 H2]. unfold acos_degrees.
  destruct (Rle_dec (-1) z); [|contradiction].
  destruct (Rle_dec z 1); [reflexivity|contradiction].
Qed.

(** The integer nearest to [x], when it is nearer than one half. *)
Lemma round_near (x : R) (n : Z) :
  Rabs (x - IZR n) < 1 / 2 -> round x = n.
Proof.
  intro H. apply Rabs_def2 in H. destruct H as [H1 H2].
  unfold round.
  destruct (base_Int_part x) as [B1 B2].
  set (f := Int_part x) in *.
  assert (Hf : (f = n \/ f = n - 1)%Z).
  { assert (Hlo : IZR (n - 1) < IZR f + 1 / 2 + 1 / 2) by
        (rewrite minus_IZR; lra).
    assert (Hhi : IZR f < IZR (n + 1)) by (rewrite plus_IZR; lra).
    apply lt_IZR in Hhi.
    assert (Hlo' : IZR (n - 1) < IZR (f + 1)) by (rewrite plus_IZR; lra).
    apply lt_IZR in Hlo'. lia. }
  destruct Hf as [->| ->].
  - destruct (Rlt_dec (x - IZR n) (1 / 2)); [reflexivity|lra].
  - rewrite minus_IZR in *.
    destruct (Rlt_dec (x - (IZR n - 1)) (1 / 2)); [lra|].
    destruct (Rlt_dec (1 / 2) (x - (IZR n - 1))); [f_equal; lia|lra].
Qed.

Lemma round_digits_near (x : R) (ndigits : nat) (n : Z) :
  Rabs (x * 10 ^ ndigits - IZR n) < 1 / 2 ->
  round_digits x ndigits = IZR n / 10 ^ ndigits.
Proof.
  intro H. unfold round_digits. rewrite (round_near _ n H). reflexivity.
Qed.

Lemma round_digits_0 (ndigits : nat) : round_digits 0 ndigits = 0.
Proof.
  rewrite (round_digits_near 0 ndigits 0).
  - unfold Rdiv. apply Rmult_0_l.
  - rewrite Rmult_0_l, Rminus_diag, Rabs_R0. lra.
Qed.

Lemma round_digits_integer (n : Z) (ndigits : nat) :
  round_digits (IZR n) ndigits = IZR n.
Proof.
  assert (Hp : 10 ^ ndigits <> 0) by (apply pow_nonzero; lra).
  rewrite (round_digits_near (IZR n) ndigits (n * 10 ^ Z.of_nat ndigits)).
  - rewrite mult_IZR, <- pow_IZR. field. exact Hp.
  - rewrite mult_IZR, <- pow_IZR.
    replace (IZR n * 10 ^ ndigits - IZR n * IZR 10 ^ ndigits) with 0 by ring.
    rewrite Rabs_R0. lra.
Qed.

Lemma n2s_at_pole (phi : R) :
  convert_normal_to_specular_using_cartesian 0 phi 0 = Ok (0, 180).
Proof.
  unfold convert_normal_to_specular_using_cartesian. cbv zeta.
  replace (0 * PI / 180) with 0 by (unfold Rdiv; ring).
  rewrite Rmult_0_l, sin_0, cos_0.
  rewrite !Rmult_0_l, Rmult_0_r, Rmult_1_l, Rminus_diag, Rplus_0_l.
  rewrite normalize_unit by ring. cbn [bind].
  rewrite acos_degrees_ok by lra. cbn [bind]. rewrite acos_1, Rmult_0_l.
  destruct (Req_EM_T 0 0) as [E|N]; [|contradiction].
  unfold assign_if.
  destruct (Rlt_dec 0 0) as [L|L]; [lra|]. cbn [read_local bind].
  destruct (Rlt_dec 0 180) as [L2|L2]; [|lra].
  f_equal. f_equal. lra.
Qed.

Lemma s2n_at_pole (phi : R) :
  convert_specular_to_normal_using_cartesian 0 phi 0 = Ok (0, round_digits phi 2).
Proof.
  unfold convert_specular_to_normal_using_cartesian. cbv zeta.
  replace (0 * PI / 180) with 0 by (unfold Rdiv; ring).
  rewrite Rmult_0_l, sin_0, cos_0.
  rewrite !Rmult_0_l, Rmult_0_r, Rmult_1_l, Ropp_0, Rmult_0_l, !Rplus_0_l.
  rewrite normalize_unit by ring. cbn [bind].
  rewrite acos_degrees_ok by lra. cbn [bind]. rewrite acos_1, Rmult_0_l.
  rewrite !round_digits_0.
  destruct (Req_EM_T 0 0) as [E|N]; [|contradiction].
  unfold assign_if.
  destruct (Rlt_dec 0 0) as [L|L]; [lra|]. cbn [read_local bind].
  f_equal. f_equal. f_equal. field. apply PI_neq0.
Qed.

Lemma there_and_back_at_pole (phi : R) :
  there_and_back 0 phi 0 = Ok (0, 180).
Proof.
  unfold there_and_back. rewrite n2s_at_pole. cbn [bind].
  rewrite s2n_at_pole. f_equal. f_equal.
  apply (round_digits_integer 180 2).
Qed.

Lemma sin_cos_square (x : R) : sin x * sin x + cos x * cos x = 1.
Proof. exact (sin2_cos2 x). Qed.

(** The rotated direction is a unit vector. *)
Lemma rotated_unit (t p a : R) :
  let x := sin t * cos p in
  let y := sin t * sin p in
  let z := cos t in
  (x * cos a - z * sin a) * (x * cos a - z * sin a) + y * y
  + (x * sin a + z * cos a) * (x * sin a + z * cos a) = 1.
Proof.
  cbv zeta.
  replace ((sin t * cos p * cos a - cos t * sin a)
           * (sin t * cos p * cos a - cos t * sin a)
           + sin t * sin p * (sin t * sin p)
           + (sin t * cos p * sin a + cos t * cos a)
             * (sin t * cos p * sin a + cos t * cos a))
    with ((sin a * sin a + cos a * cos a)
          * (sin t * sin t * (cos p * cos p) + cos t * cos t)
          + sin t * sin t * (sin p * sin p)) by ring.
  rewrite sin_cos_square.
  replace (1 * (sin t * sin t * (cos p * cos p) + cos t * cos t)
           + sin t * sin t * (sin p * sin p))
    with (sin t * sin t * (sin p * sin p + cos p * cos p) + cos t * cos t)
    by ring.
  rewrite sin_cos_square, Rmult_1_r. apply sin_cos_square.
Qed.

Lemma rotated_unit_back (t p a : R) :
  let x := sin t * cos p in
  let y := sin t * sin p in
  let z := cos t in
  (- x * cos a + z * sin a) * (- x * cos a + z * sin a) + y * y
  + (x * sin a + z * cos a) * (x * sin a + z * cos a) = 1.
Proof.
  cbv zeta.
  replace ((- (sin t * cos p) * cos a + cos t * sin a)
           * (- (sin t * cos p) * cos a + cos t * sin a)
           + sin t * sin p * (sin t * sin p)
           + (sin t * cos p * sin a + cos t * cos a)
             * (sin t * cos p * sin a + cos t * cos a))
    with ((sin t * cos p * cos a - cos t * (- sin a))
           * (sin t * cos p * cos a - cos t * (- sin a))
           + sin t * sin p * (sin t * sin p)
           + (sin t * cos p * (- sin a) + cos t * cos a)
             * (sin t * cos p * (- sin a) + cos t * cos a)) by ring.
  rewrite <- sin_neg, <- (cos_neg a). apply rotated_unit.
Qed.

Lemma unit_component_bound (x y z : R) :
  x * x + y * y + z * z = 1 -> -1 <= z <= 1.
Proof. intro H. split; nra. Qed.

(** Polar form of a point of the plane through the arctangent. *)
Lemma polar_atan_right (x y : R) :
  0 < x ->
  sqrt (x * x + y * y) * cos (atan (y / x)) = x /\
  sqrt (x * x + y * y) * sin (atan (y / x)) = y.
Proof.
  intro Hx. rewrite cos_atan, sin_atan.
  set (s := sqrt (1 + (y / x)²)).
  assert (Hs : 0 < s) by (apply sqrt_lt_R0; unfold Rsqr; nra).
  assert (Hr : sqrt (x * x + y * y) = x * s).
  { apply sqrt_lem_1; [nra|nra|].
    replace (x * s * (x * s)) with (x * x * (s * s)) by ring.
    unfold s. rewrite sqrt_sqrt by (unfold Rsqr; nra).
    unfold Rsqr. field. lra. }
  rewrite Hr. split; field; lra.
Qed.

Lemma polar_atan_left (x y : R) :
  x < 0 ->
  sqrt (x * x + y * y) * cos (atan (y / x)) = - x /\
  sqrt (x * x + y * y) * sin (atan (y / x)) = - y.
Proof.
  intro Hx. rewrite cos_atan, sin_atan.
  set (s := sqrt (1 + (y / x)²)).
  assert (Hs : 0 < s) by (apply sqrt_lt_R0; unfold Rsqr; nra).
  assert (Hr : sqrt (x * x + y * y) = - x * s).
  { apply sqrt_lem_1; [nra|nra|].
    replace (- x * s * (- x * s)) with (x * x * (s * s)) by ring.
    unfold s. rewrite sqrt_sqrt by (unfold Rsqr; nra).
    unfold Rsqr. field. lra. }
  rewrite Hr. split; field; lra.
Qed.

Lemma cos_sub_PI (x : R) : cos (x - PI) = - cos x.
Proof. rewrite cos_minus, cos_PI, sin_PI. ring. Qed.

Lemma sin_sub_PI (x : R) : sin (x - PI) = - sin x.
Proof. rewrite sin_minus, cos_PI, sin_PI. ring. Qed.

Lemma cos_add_2PI (x : R) : cos (x + 2 * PI) = cos x.
Proof. rewrite cos_plus, cos_2PI, sin_2PI. ring. Qed.

Lemma sin_add_2PI (x : R) : sin (x + 2 * PI) = sin x.
Proof. rewrite sin_plus, cos_2PI, sin_2PI. ring. Qed.

Lemma degrees_radians (x : R) : x * (180 / PI) * (PI / 180) = x.
Proof. field. apply PI_neq0. Qed.

Lemma radians_degrees (x : R) : x * (PI / 180) * (180 / PI) = x.
Proof. field. apply PI_neq0. Qed.

Lemma n2s_unfold (theta_i phi_i angle_inc : R) :
  convert_normal_to_specular_using_cartesian theta_i phi_i angle_inc =
  let t := theta_i * (PI / 180) in
  let p := phi_i * (PI / 180) in
  let a := angle_inc * PI / 180 in
  '(x_o, y_o, z_o) <-
     normalize (sin t * cos p * cos a - cos t * sin a)
               (sin t * sin p)
               (sin t * cos p * sin a + cos t * cos a) ;;
  theta_o <- acos_degrees z_o ;;
  phi_o <- specular_azimuth x_o y_o ;;
  Ok (theta_o, change_reference phi_o).
Proof. reflexivity. Qed.

Lemma s2n_unfold (theta_i phi_i angle_inc : R) :
  convert_specular_to_normal_using_cartesian theta_i phi_i angle_inc =
  let t := theta_i * (PI / 180) in
  let p := phi_i * (PI / 180) in
  let a := angle_inc * PI / 180 in
  '(x_o, y_o, z_o) <-
     normalize (- (sin t * cos p) * cos a + cos t * sin a)
               (sin t * sin p)
               (sin t * cos p * sin a + cos t * cos a) ;;
  theta_o <- acos_degrees z_o ;;
  phi_o <- normal_azimuth p x_o y_o ;;
  Ok (round_digits theta_o 2, round_digits phi_o 2).
Proof. reflexivity. Qed.

Lemma change_reference_direction (psi : R) :
  cos (radians (change_reference psi)) = - cos (radians psi) /\
  sin (radians (change_reference psi)) = - sin (radians psi).
Proof.
  unfold change_reference, radians.
  destruct (Rlt_dec psi 180).
  - replace ((psi + 180) * (PI / 180)) with (psi * (PI / 180) + PI) by field.
    split; [apply neg_cos|apply neg_sin].
  - replace ((psi - 180) * (PI / 180)) with (psi * (PI / 180) - PI) by field.
    split; [apply cos_sub_PI|apply sin_sub_PI].
Qed.

Lemma specular_azimuth_polar (x y : R) :
  exists psi,
    specular_azimuth x y = Ok psi /\
    sqrt (x * x + y * y) * cos (radians psi) = x /\
    sqrt (x * x + y * y) * sin (radians psi) = y.
Proof.
  unfold specular_azimuth, radians.
  destruct (Req_EM_T x 0) as [Hx|Hx].
  - subst x. rewrite Rmult_0_l, Rplus_0_l. unfold assign_if.
    destruct (Rlt_dec y 0) as [Hy|Hy].
    + exists 270. split; [reflexivity|].
      replace (270 * (PI / 180)) with (3 * (PI / 2)) by field.
      rewrite cos_3PI2, sin_3PI2.
      replace (y * y) with (- y * - y) by ring.
      rewrite sqrt_square by lra. split; ring.
    + destruct (Rlt_dec 0 y) as [Hy'|Hy'].
      * exists 90. split; [reflexivity|].
        replace (90 * (PI / 180)) with (PI / 2) by field.
        rewrite cos_PI2, sin_PI2, sqrt_square by lra. split; ring.
      * assert (y = 0) by lra. subst y.
        destruct (Req_EM_T 0 0) as [E|E]; [|contradiction].
        exists 0. split; [reflexivity|].
        rewrite Rmult_0_l, sqrt_0. split; ring.
  - cbv zeta. eexists. split; [reflexivity|].
    destruct (Rlt_dec x 0) as [Hneg|Hnneg].
    + destruct (Rlt_dec 0 x) as [Hc|_]; [lra|].
      replace ((180 + atan (y / x) * (180 / PI)) * (PI / 180))
        with (atan (y / x) + PI) by (field; apply PI_neq0).
      rewrite neg_cos, neg_sin.
      destruct (polar_atan_left x y Hneg) as [Hc Hs].
      split; [rewrite Ropp_mult_distr_r_reverse, Hc|
              rewrite Ropp_mult_distr_r_reverse, Hs]; ring.
    + assert (Hpos : 0 < x) by lra.
      destruct (Rlt_dec 0 x) as [_|Hc]; [|lra].
      destruct (polar_atan_right x y Hpos) as [Hc Hs].
      destruct (Rlt_dec y 0).
      * replace ((360 + atan (y / x) * (180 / PI)) * (PI / 180))
          with (atan (y / x) + 2 * PI) by (field; apply PI_neq0).
        rewrite cos_add_2PI, sin_add_2PI. split; assumption.
      * rewrite degrees_radians. split; assumption.
Qed.

(** The specular angles name the rotated direction, mirrored through the
    polar axis by the change of azimuth reference. *)
Lemma n2s_direction (theta phi angle_inc : R) :
  let t := radians theta in
  let p := radians phi in
  let a := angle_inc * PI / 180 in
  let x1 := sin t * cos p * cos a - cos t * sin a in
  let y1 := sin t * sin p in
  let z1 := sin t * cos p * sin a + cos t * cos a in
  exists theta_s phi_s,
    convert_normal_to_specular_using_cartesian theta phi angle_inc
    = Ok (theta_s, phi_s) /\
    cos (radians theta_s) = z1 /\
    sin (radians theta_s) * cos (radians phi_s) = - x1 /\
    sin (radians theta_s) * sin (radians phi_s) = - y1.
Proof.
  intros t p a x1 y1 z1. rewrite n2s_unfold. cbv zeta.
  fold (radians theta) (radians phi). fold t p a. fold x1 y1 z1.
  pose proof (rotated_unit t p a) as Hunit. cbv zeta in Hunit.
  fold x1 y1 z1 in Hunit.
  rewrite (normalize_unit x1 y1 z1 Hunit). cbn [bind].
  pose proof (unit_component_bound _ _ _ Hunit) as Hz.
  rewrite (acos_degrees_ok z1 Hz). cbn [bind].
  destruct (specular_azimuth_polar x1 y1) as (psi & -> & Hc & Hs).
  cbn [bind]. eexists _, _. split; [reflexivity|].
  assert (Hth : radians (acos z1 * (180 / PI)) = acos z1)
    by (unfold radians; apply degrees_radians).
  rewrite !Hth, (cos_acos z1 Hz), (sin_acos z1 Hz).
  replace (1 - z1²) with (x1 * x1 + y1 * y1) by (unfold Rsqr; lra).
  destruct (change_reference_direction psi) as [-> ->].
  split; [reflexivity|]. split; lra.
Qed.

Lemma tan_sub_PI (x : R) : cos x <> 0 -> tan (x - PI) = tan x.
Proof.
  intro H. unfold tan. rewrite sin_sub_PI, cos_sub_PI. field. exact H.
Qed.

Lemma tan_add_PI (x : R) : cos x <> 0 -> tan (x + PI) = tan x.
Proof.
  intro H. unfold tan. rewrite neg_sin, neg_cos. field. exact H.
Qed.

(** [atan2] recovers the angle of a point given in polar form. *)
Lemma atan2_polar (r q : R) :
  0 < r -> - PI < q <= PI -> cos q <> 0 ->
  atan2 (r * sin q) (r * cos q) = q.
Proof.
  intros Hr [Hlo Hhi] Hc. pose proof PI_RGT_0 as Hpi.
  assert (Htan : r * sin q / (r * cos q) = tan q)
    by (unfold tan; field; split; lra).
  unfold atan2. rewrite Htan.
  destruct (Rlt_dec 0 (r * cos q)) as [Hpos|Hnpos].
  - assert (Hcq : 0 < cos q) by nra.
    apply atan_tan. split.
    + destruct (Rlt_dec (- (PI / 2)) q) as [|Hn]; [assumption|].
      exfalso. assert (Hq : cos (- q) <= 0) by (apply cos_le_0; lra).
      rewrite cos_neg in Hq. lra.
    + destruct (Rlt_dec q (PI / 2)) as [|Hn]; [assumption|].
      exfalso. assert (Hq : cos q <= 0) by (apply cos_le_0; lra). lra.
  - assert (Hcq : cos q < 0) by nra.
    destruct (Rlt_dec (r * cos q) 0) as [_|Hn]; [|nra].
    assert (Hout : q < - (PI / 2) \/ PI / 2 < q).
    { destruct (Rlt_dec q (- (PI / 2))) as [|H1]; [left; assumption|].
      destruct (Rlt_dec (PI / 2) q) as [|H2]; [right; assumption|].
      exfalso. assert (0 <= cos q) by (apply cos_ge_0; lra). lra. }
    destruct (Rle_dec 0 (r * sin q)) as [Hs|Hs].
    + assert (Hsq : 0 <= sin q) by nra.
      assert (Hq : PI / 2 < q).
      { destruct Hout as [Hq|Hq]; [|assumption]. exfalso.
        assert (sin q < 0) by (apply sin_lt_0_var; lra). lra. }
      rewrite <- (tan_sub_PI q Hc). rewrite atan_tan by lra. ring.
    + assert (Hsq : sin q < 0) by nra.
      assert (Hq : q < - (PI / 2)).
      { destruct Hout as [Hq|Hq]; [assumption|]. exfalso.
        assert (0 <= sin q) by (apply sin_ge_0; lra). lra. }
      rewrite <- (tan_add_PI q Hc). rewrite atan_tan by lra. ring.
Qed.

(** Rounding never crosses zero. *)
Lemma round_nonpos (x : R) : x <= 0 -> (round x <= 0)%Z.
Proof.
  intro H. unfold round. destruct (base_Int_part x) as [B1 B2].
  set (f := Int_part x) in *.
  assert (Hf : (f <= 0)%Z) by (apply le_IZR; lra).
  destruct (Rlt_dec (x - IZR f) (1 / 2)) as [|Hn]; [assumption|].
  assert (Hf' : (f <= -1)%Z).
  { destruct (Z.eq_dec f 0) as [E|]; [|lia]. rewrite E in Hn. lra. }
  destruct (Rlt_dec (1 / 2) (x - IZR f)); [lia|].
  destruct (Z.even f); lia.
Qed.

Lemma round_positive (x : R) : 1 / 2 < x -> (1 <= round x)%Z.
Proof.
  intro H. unfold round. destruct (base_Int_part x) as [B1 B2].
  set (f := Int_part x) in *.
  assert (Hf : (0 <= f)%Z).
  { assert (Hlt : IZR (-1) < IZR f) by lra. apply lt_IZR in Hlt. lia. }
  destruct (Z.eq_dec f 0) as [E|Hne].
  - rewrite E in *. destruct (Rlt_dec (x - 0) (1 / 2)); [lra|].
    destruct (Rlt_dec (1 / 2) (x - 0)); [lia|lra].
  - destruct (Rlt_dec (x - IZR f) (1 / 2)); [lia|].
    destruct (Rlt_dec (1 / 2) (x - IZR f)); [lia|].
    destruct (Z.even f); lia.
Qed.

Lemma round_negative (x : R) : x < - (1 / 2) -> (round x <= -1)%Z.
Proof.
  intro H. unfold round. destruct (base_Int_part x) as [B1 B2].
  set (f := Int_part x) in *.
  assert (Hf : (f <= -1)%Z).
  { assert (Hlt : IZR f < IZR 0) by lra. apply lt_IZR in Hlt. lia. }
  destruct (Rlt_dec (x - IZR f) (1 / 2)); [assumption|].
  assert (Hf' : (f <= -2)%Z).
  { destruct (Z.eq_dec f (-1)) as [E|]; [|lia]. rewrite E in *. lra. }
  destruct (Rlt_dec (1 / 2) (x - IZR f)); [lia|].
  destruct (Z.even f); lia.
Qed.

Lemma round_error (x : R) : Rabs (IZR (round x) - x) <= 1 / 2.
Proof.
  unfold round. destruct (base_Int_part x) as [B1 B2].
  set (f := Int_part x) in *.
  destruct (Rlt_dec (x - IZR f) (1 / 2)) as [H1|H1].
  - apply Rabs_le. lra.
  - destruct (Rlt_dec (1 / 2) (x - IZR f)) as [H2|H2].
    + rewrite plus_IZR. apply Rabs_le. lra.
    + destruct (Z.even f); [|rewrite plus_IZR]; apply Rabs_le; lra.
Qed.

Lemma pow10_pos (n : nat) : 0 < 10 ^ n.
Proof. apply pow_lt. lra. Qed.

Lemma round_digits_nonpos (x : R) (n : nat) :
  x <= 0 -> round_digits x n <= 0.
Proof.
  intro H. unfold round_digits. pose proof (pow10_pos n) as Hp.
  assert (Hr : (round (x * 10 ^ n) <= 0)%Z) by (apply round_nonpos; nra).
  apply IZR_le in Hr. unfold Rdiv.
  assert (0 < / 10 ^ n) by (apply Rinv_0_lt_compat; exact Hp). nra.
Qed.

Lemma round_digits_positive (x : R) (n : nat) :
  1 / 2 < x * 10 ^ n -> 0 < round_digits x n.
Proof.
  intro H. unfold round_digits. pose proof (pow10_pos n) as Hp.
  pose proof (round_positive _ H) as Hr. apply IZR_le in Hr. unfold Rdiv.
  assert (0 < / 10 ^ n) by (apply Rinv_0_lt_compat; exact Hp). nra.
Qed.

Lemma round_digits_negative (x : R) (n : nat) :
  x * 10 ^ n < - (1 / 2) -> round_digits x n < 0.
Proof.
  intro H. unfold round_digits. pose proof (pow10_pos n) as Hp.
  pose proof (round_negative _ H) as Hr. apply IZR_le in Hr. unfold Rdiv.
  assert (0 < / 10 ^ n) by (apply Rinv_0_lt_compat; exact Hp). nra.
Qed.

Lemma round_digits_error (x : R) (n : nat) :
  Rabs (round_digits x n - x) <= 1 / 2 / 10 ^ n.
Proof.
  unfold round_digits. pose proof (pow10_pos n) as Hp.
  replace (IZR (round (x * 10 ^ n)) / 10 ^ n - x)
    with ((IZR (round (x * 10 ^ n)) - x * 10 ^ n) * / 10 ^ n)
    by (field; lra).
  rewrite Rabs_mult, (Rabs_pos_eq (/ 10 ^ n))
    by (left; apply Rinv_0_lt_compat; exact Hp).
  unfold Rdiv. apply Rmult_le_compat_r.
  - left. apply Rinv_0_lt_compat. exact Hp.
  - apply (round_error (x * 10 ^ n)).
Qed.

(** Rotating back undoes the rotation. *)
Lemma rotate_back (x z a : R) :
  - - (x * cos a - z * sin a) * cos a + (x * sin a + z * cos a) * sin a = x /\
  - (x * cos a - z * sin a) * sin a + (x * sin a + z * cos a) * cos a = z.
Proof.
  pose proof (sin_cos_square a) as H. split.
  - replace (- - (x * cos a - z * sin a) * cos a
             + (x * sin a + z * cos a) * sin a)
      with (x * (sin a * sin a + cos a * cos a)) by ring.
    rewrite H. ring.
  - replace (- (x * cos a - z * sin a) * sin a
             + (x * sin a + z * cos a) * cos a)
      with (z * (sin a * sin a + cos a * cos a)) by ring.
    rewrite H. ring.
Qed.

(** The round trip ends in the original direction with its azimuth
    mirrored: the polar angle comes back, rounded, and the azimuth is
    recomputed from [(x, -y)]. *)
Lemma there_and_back_unfold (theta phi angle_inc : R) :
  0 <= theta <= 180 ->
  exists phi_s,
    there_and_back theta phi angle_inc =
    (phi_o <- normal_azimuth (radians phi_s)
                             (sin (radians theta) * cos (radians phi))
                             (- (sin (radians theta) * sin (radians phi))) ;;
     Ok (round_digits theta 2, round_digits phi_o 2)).
Proof.
  intro Hth. unfold there_and_back.
  destruct (n2s_direction theta phi angle_inc)
    as (theta_s & phi_s & -> & Hz & Hx & Hy).
  cbv zeta in Hz, Hx, Hy. cbn [bind]. exists phi_s.
  rewrite s2n_unfold. cbv zeta.
  fold (radians theta_s) (radians phi_s). rewrite Hx, Hy, Hz.
  set (t := radians theta) in *. set (p := radians phi) in *.
  set (a := angle_inc * PI / 180) in *.
  destruct (rotate_back (sin t * cos p) (cos t) a) as [Ex Ez].
  rewrite Ex, Ez.
  rewrite normalize_unit.
  2:{ replace (sin t * cos p * (sin t * cos p)
               + - (sin t * sin p) * - (sin t * sin p) + cos t * cos t)
        with (sin t * sin t * (sin p * sin p + cos p * cos p) + cos t * cos t)
        by ring.
      rewrite sin_cos_square, Rmult_1_r. apply sin_cos_square. }
  cbn [bind]. rewrite acos_degrees_ok by apply COS_bound. cbn [bind].
  pose proof PI_RGT_0 as Hpi.
  rewrite acos_cos by (unfold t, radians; split; nra).
  replace (t * (180 / PI)) with theta
    by (unfold t, radians; rewrite radians_degrees; reflexivity).
  reflexivity.
Qed.

(** Away from the plane [x = 0] and from small negative [y], the azimuth
    comes back. *)
Lemma normal_azimuth_recovers (theta phi phi_i : R) :
  0 <= theta <= 90 -> 0 <= phi < 360 ->
  5 / 1000 < Rabs (sin (radians theta) * cos (radians phi)) ->
  0 <= sin (radians theta) * sin (radians phi) \/
  sin (radians theta) * sin (radians phi) < - (5 / 10000) ->
  normal_azimuth phi_i (sin (radians theta) * cos (radians phi))
                 (- (sin (radians theta) * sin (radians phi)))
  = Ok phi.
Proof.
  intros Hth Hphi Hx Hy. pose proof PI_RGT_0 as Hpi.
  set (t := radians theta) in *. set (p := radians phi) in *.
  assert (Ht : 0 <= t <= PI / 2) by (unfold t, radians; split; nra).
  assert (Hp : 0 <= p < 2 * PI) by (unfold p, radians; split; nra).
  assert (Hst : 0 <= sin t) by (apply sin_ge_0; lra).
  assert (Hx0 : sin t * cos p <> 0).
  { intro E. rewrite E, Rabs_R0 in Hx. lra. }
  assert (Hst' : 0 < sin t).
  { destruct (Req_EM_T (sin t) 0) as [E|E]; [|lra].
    exfalso. apply Hx0. rewrite E. ring. }
  assert (Hcp : cos p <> 0).
  { intro E. apply Hx0. rewrite E. ring. }
  unfold normal_azimuth.
  destruct (Req_EM_T (round_digits (sin t * cos p) 2) 0) as [E|_].
  { exfalso. destruct (Rle_dec 0 (sin t * cos p)) as [Hs|Hs].
    - rewrite Rabs_pos_eq in Hx by exact Hs.
      assert (0 < round_digits (sin t * cos p) 2)
        by (apply round_digits_positive; simpl; lra).
      lra.
    - rewrite Rabs_left in Hx by lra.
      assert (round_digits (sin t * cos p) 2 < 0)
        by (apply round_digits_negative; simpl; lra).
      lra. }
  cbv zeta. f_equal.
  destruct (Rlt_dec p PI) as [Hlow|Hhigh].
  - (* phi below 180: the mirrored direction has the angle [- p] *)
    assert (Hsp : 0 <= sin p) by (apply sin_ge_0; lra).
    replace (- (sin t * sin p)) with (sin t * sin (- p))
      by (rewrite sin_neg; ring).
    replace (sin t * cos p) with (sin t * cos (- p))
      by (rewrite cos_neg; reflexivity).
    rewrite atan2_polar; [|exact Hst'|lra|rewrite cos_neg; exact Hcp].
    destruct (Rlt_dec 0 (round_digits (sin t * sin (- p)) 3)) as [Hr|_].
    { exfalso.
      assert (round_digits (sin t * sin (- p)) 3 <= 0)
        by (apply round_digits_nonpos; rewrite sin_neg; nra).
      lra. }
    replace (- p * (180 / PI)) with (- phi)
      by (unfold p, radians; field; lra).
    rewrite Rabs_Ropp. apply Rabs_pos_eq. lra.
  - (* phi from 180 on: the mirrored direction has the angle [2 PI - p] *)
    assert (Hsin : sin (2 * PI - p) = - sin p).
    { rewrite sin_minus, sin_2PI, cos_2PI. ring. }
    assert (Hcos : cos (2 * PI - p) = cos p).
    { rewrite cos_minus, sin_2PI, cos_2PI. ring. }
    replace (- (sin t * sin p)) with (sin t * sin (2 * PI - p))
      by (rewrite Hsin; ring).
    replace (sin t * cos p) with (sin t * cos (2 * PI - p))
      by (rewrite Hcos; reflexivity).
    rewrite atan2_polar; [|exact Hst'|lra|rewrite Hcos; exact Hcp].
    replace ((2 * PI - p) * (180 / PI)) with (360 - phi)
      by (unfold p, radians; field; lra).
    rewrite Rabs_pos_eq by lra.
    destruct (Rlt_dec 0 (round_digits (sin t * sin (2 * PI - p)) 3))
      as [Hr|Hr]; [ring|].
    rewrite Hsin in Hr.
    destruct Hy as [Hy|Hy].
    + (* [y >= 0] with [sin p <= 0]: only at phi = 180 *)
      assert (Hsp : sin p <= 0) by (apply sin_le_0; lra).
      assert (Hp' : p = PI).
      { destruct (Req_EM_T p PI) as [|Hne]; [assumption|]. exfalso.
        assert (sin p < 0) by (apply sin_lt_0; lra). nra. }
      assert (phi = 180).
      { unfold p, radians in Hp'.
        apply (Rmult_eq_reg_r (PI / 180)); [|lra]. rewrite Hp'. field. }
      lra.
    + exfalso. apply Hr. apply round_digits_positive. simpl. lra.
Qed.

(** The round trip returns both angles rounded to two decimals. *)
Lemma there_and_back_rounds (theta phi angle_inc : R) :
  0 <= theta <= 90 -> 0 <= phi < 360 ->
  5 / 1000 < Rabs (sin (radians theta) * cos (radians phi)) ->
  0 <= sin (radians theta) * sin (radians phi) \/
  sin (radians theta) * sin (radians phi) < - (5 / 10000) ->
  there_and_back theta phi angle_inc
  = Ok (round_digits theta 2, round_digits phi 2).
Proof.
  intros Hth Hphi Hx Hy.
  destruct (there_and_back_unfold theta phi angle_inc) as [phi_s ->];
    [lra|].
  rewrite (normal_azimuth_recovers theta phi (radians phi_s) Hth Hphi Hx Hy).
  reflexivity.
Qed.

(** C4, amended.  Over the reals, for theta in [0, 90], phi in [0, 360)
    and any incidence angle, when the direction has [|x| > 0.005] and
    [y >= 0] or [y < -0.0005] (x = sin theta cos phi, y = sin theta
    sin phi), the specular-to-normal transform composed after the
    normal-to-specular one returns theta and phi rounded to two decimals,
    hence within 0.005 degrees of the original angles. *)
Theorem C4_round_trip_to_two_decimals (theta phi angle_inc : R) :
  0 <= theta <= 90 -> 0 <= phi < 360 ->
  5 / 1000 < Rabs (sin (radians theta) * cos (radians phi)) ->
  0 <= sin (radians theta) * sin (radians phi) \/
  sin (radians theta) * sin (radians phi) < - (5 / 10000) ->
  exists theta' phi',
    there_and_back theta phi angle_inc = Ok (theta', phi') /\
    theta' = round_digits theta 2 /\
    phi' = round_digits phi 2 /\
    Rabs (theta' - theta) <= 5 / 1000 /\
    Rabs (phi' - phi) <= 5 / 1000.
Proof.
  intros Hth Hphi Hx Hy.
  exists (round_digits theta 2), (round_digits phi 2).
  split; [apply there_and_back_rounds; assumption|].
  split; [reflexivity|]. split; [reflexivity|].
  pose proof (round_digits_error theta 2) as E1.
  pose proof (round_digits_error phi 2) as E2.
  simpl in E1, E2. split; lra.
Qed.

Lemma radians_90 : radians 90 = PI / 2.
Proof. unfold radians. field. Qed.

Lemma radians_0 : radians 0 = 0.
Proof. unfold radians. ring. Qed.

Lemma C4_witness :
  exists theta' phi',
    there_and_back 90 0 30 = Ok (theta', phi') /\
    theta' = round_digits 90 2 /\
    phi' = round_digits 0 2 /\
    Rabs (theta' - 90) <= 5 / 1000 /\
    Rabs (phi' - 0) <= 5 / 1000.
Proof.
  apply (C4_round_trip_to_two_decimals 90 0 30).
  - lra.
  - lra.
  - rewrite radians_90, radians_0, sin_PI2, cos_0, Rmult_1_r, Rabs_R1. lra.
  - left. rewrite radians_0, sin_0, Rmult_0_r. lra.
Defined.

Lemma round_digits_89996 : round_digits (89996 / 1000) 2 = 90.
Proof.
  rewrite (round_digits_near _ 2 9000).
  - simpl. lra.
  - simpl. rewrite Rabs_left by lra. lra.
Qed.

(** The round trip is off by 90 degrees in azimuth at the pole, and by
    0.004 degrees in polar angle at 89.996 degrees. *)
Lemma C4_round_trip_misses_tolerance :
  there_and_back 0 90 0 = Ok (0, 180) /\
  1 / 1000000 < Rabs (180 - 90) /\
  there_and_back (89996 / 1000) 0 0 = Ok (90, 0) /\
  1 / 1000000 < Rabs (90 - 89996 / 1000).
Proof.
  split; [apply there_and_back_at_pole|].
  split; [rewrite Rabs_pos_eq; lra|].
  split; [|rewrite Rabs_pos_eq; lra].
  rewrite there_and_back_rounds.
  - rewrite round_digits_89996, round_digits_0. reflexivity.
  - lra.
  - lra.
  - rewrite radians_0, cos_0, Rmult_1_r. pose proof PI_RGT_0 as Hpi.
    assert (Hs : sin (PI / 6) < sin (radians (89996 / 1000))).
    { apply sin_increasing_1; unfold radians; lra. }
    rewrite sin_PI6 in Hs. rewrite Rabs_pos_eq; lra.
  - left. rewrite radians_0, sin_0, Rmult_0_r. lra.
Qed.

End TransformProperties.

Section MoreTransformProperties.

Import Transform TransformSpec Cylindrical.
Local Open Scope R_scope.

Lemma specular_azimuth_range (x y psi : R) :
  specular_azimuth x y = Ok psi -> 0 <= psi < 360.
Proof.
  unfold specular_azimuth.
  destruct (Req_EM_T x 0) as [Hx|Hx].
  - unfold assign_if.
    destruct (Rlt_dec y 0); [intro H; injection H as <-; lra|].
    destruct (Rlt_dec 0 y); [intro H; injection H as <-; lra|].
    destruct (Req_EM_T y 0); [intro H; injection H as <-; lra|discriminate].
  - cbv zeta. intro H. injection H as <-.
    pose proof (atan_bound (y / x)) as [Hlo Hhi].
    pose proof PI_RGT_0 as HPI.
    assert (Hd : 0 < 180 / PI) by (apply Rdiv_lt_0_compat; lra).
    assert (Hlo' : - 90 < atan (y / x) * (180 / PI)).
    { apply (Rmult_lt_compat_r (180 / PI)) in Hlo; [|exact Hd].
      replace (- PI / 2 * (180 / PI)) with (- 90) in Hlo by (field; lra).
      exact Hlo. }
    assert (Hhi' : atan (y / x) * (180 / PI) < 90).
    { apply (Rmult_lt_compat_r (180 / PI)) in Hhi; [|exact Hd].
      replace (PI / 2 * (180 / PI)) with 90 in Hhi by (field; lra).
      exact Hhi. }
    destruct (Rlt_dec x 0) as [Hneg|Hnneg].
    + destruct (Rlt_dec 0 x); lra.
    + assert (Hpos : 0 < x) by lra.
      destruct (Rlt_dec 0 x) as [_|Hc]; [|lra].
      destruct (Rlt_dec y 0) as [Hy|Hy].
      * assert (atan (y / x) < 0).
        { rewrite <- atan_0. apply atan_increasing.
          unfold Rdiv. apply Rmult_neg_pos; [lra|].
          apply Rinv_0_lt_compat. lra. }
        assert (atan (y / x) * (180 / PI) < 0)
          by (apply Rmult_neg_pos; lra).
        lra.
      * assert (0 <= atan (y / x)).
        { rewrite <- atan_0.
          destruct (Req_EM_T y 0) as [->|Hy0].
          - unfold Rdiv. rewrite Rmult_0_l. lra.
          - left. apply atan_increasing.
            apply Rdiv_lt_0_compat; lra. }
        assert (0 <= atan (y / x) * (180 / PI))
          by (apply Rmult_le_pos; lra).
        lra.
Qed.

Lemma change_reference_range (psi : R) :
  0 <= psi < 360 -> 0 <= change_reference psi < 360.
Proof.
  intros [H0 H1]. unfold change_reference.
  destruct (Rlt_dec psi 180); lra.
Qed.

Lemma acos_degrees_range (z theta : R) :
  acos_degrees z = Ok theta -> 0 <= theta <= 180.
Proof.
  unfold acos_degrees.
  destruct (Rle_dec (-1) z); [|discriminate].
  destruct (Rle_dec z 1); [|discriminate].
  intro H. injection H as <-.
  pose proof (acos_bound z) as [Hlo Hhi].
  pose proof PI_RGT_0 as HPI.
  assert (Hd : 0 < 180 / PI) by (apply Rdiv_lt_0_compat; lra).
  split.
  - apply Rmult_le_pos; lra.
  - apply (Rmult_le_compat_r (180 / PI)) in Hhi; [|lra].
    replace (PI * (180 / PI)) with 180 in Hhi by (field; lra).
    exact Hhi.
Qed.

(** Two angles of one turn with the same cosine and the same sine. *)
Lemma angle_unique (a b : R) :
  0 <= a < 2 * PI -> 0 <= b < 2 * PI ->
  cos a = cos b -> sin a = sin b -> a = b.
Proof.
  intros Ha Hb Hc Hs.
  assert (Hsin : sin (a - b) = 0) by (rewrite sin_minus, Hc, Hs; ring).
  assert (Hcos : cos (a - b) = 1).
  { rewrite cos_minus, Hc, Hs.
    pose proof (sin_cos_square b). lra. }
  pose proof PI_RGT_0 as HPI.
  destruct (Rle_dec 0 (a - b)) as [Hd|Hd].
  - destruct (sin_eq_O_2PI_0 (a - b)) as [H|[H|H]]; try lra.
    rewrite H, cos_PI in Hcos. lra.
  - assert (Hsin' : sin (b - a) = 0).
    { replace (b - a) with (- (a - b)) by ring. rewrite sin_neg. lra. }
    assert (Hcos' : cos (b - a) = 1).
    { replace (b - a) with (- (a - b)) by ring. rewrite cos_neg. lra. }
    destruct (sin_eq_O_2PI_0 (b - a)) as [H|[H|H]]; try lra.
    rewrite H, cos_PI in Hcos'. lra.
Qed.

Lemma degrees_unique (a b : R) :
  0 <= a < 360 -> 0 <= b < 360 ->
  cos (radians a) = cos (radians b) -> sin (radians a) = sin (radians b) ->
  a = b.
Proof.
  intros Ha Hb Hc Hs.
  pose proof PI_RGT_0 as HPI.
  assert (H : radians a = radians b).
  { apply angle_unique; try assumption; unfold radians.
    - split; [apply Rmult_le_pos; [lra|]|].
      + apply Rlt_le, Rdiv_lt_0_compat; lra.
      + replace (2 * PI) with (360 * (PI / 180)) by field.
        apply Rmult_lt_compat_r; [apply Rdiv_lt_0_compat; lra|lra].
    - split; [apply Rmult_le_pos; [lra|]|].
      + apply Rlt_le, Rdiv_lt_0_compat; lra.
      + replace (2 * PI) with (360 * (PI / 180)) by field.
        apply Rmult_lt_compat_r; [apply Rdiv_lt_0_compat; lra|lra]. }
  unfold radians in H.
  apply Rmult_eq_reg_r in H; [exact H|].
  apply Rgt_not_eq. apply Rdiv_lt_0_compat; lra.
Qed.

Lemma radians_range (a : R) :
  0 <= a <= 180 -> 0 <= radians a <= PI.
Proof.
  intros [H0 H1]. unfold radians. pose proof PI_RGT_0 as HPI.
  assert (Hd : 0 < PI / 180) by (apply Rdiv_lt_0_compat; lra).
  split; [apply Rmult_le_pos; lra|].
  apply (Rmult_le_compat_r (PI / 180)) in H1; [|lra].
  replace (180 * (PI / 180)) with PI in H1 by field. exact H1.
Qed.

Lemma radians_inj (a b : R) : radians a = radians b -> a = b.
Proof.
  unfold radians. intro H. pose proof PI_RGT_0 as HPI.
  apply Rmult_eq_reg_r in H; [exact H|].
  apply Rgt_not_eq. apply Rdiv_lt_0_compat; lra.
Qed.

(** What the normal-to-specular conversion computes, with the outcome of
    each of its steps. *)
Lemma n2s_steps (theta phi angle_inc theta_s phi_s : R) :
  convert_normal_to_specular_using_cartesian theta phi angle_inc
  = Ok (theta_s, phi_s) ->
  exists z psi x y,
    acos_degrees z = Ok theta_s /\ specular_azimuth x y = Ok psi /\
    phi_s = change_reference psi.
Proof.
  rewrite n2s_unfold. cbv zeta.
  destruct (normalize _ _ _) as [[[x y] z]|e| |]; try discriminate.
  cbn [bind].
  destruct (acos_degrees z) as [t|e| |] eqn:Et; try discriminate.
  cbn [bind].
  destruct (specular_azimuth x y) as [psi|e| |] eqn:Ep; try discriminate.
  cbn [bind]. intro H. injection H as <- <-.
  exists z, psi, x, y. repeat split; assumption.
Qed.

(** X1.  The normal-to-specular conversion returns for every input; the
    polar angle it returns is in [0, 180], the azimuth in [0, 360], and
    the two name the input direction rotated by the incidence angle about
    the y axis and then mirrored through the polar axis (the change of
    azimuth reference). *)
Theorem n2s_returns_rotated_direction (theta phi angle_inc : R) :
  let t := radians theta in
  let p := radians phi in
  let a := angle_inc * PI / 180 in
  exists theta_s phi_s,
    convert_normal_to_specular_using_cartesian theta phi angle_inc
    = Ok (theta_s, phi_s) /\
    0 <= theta_s <= 180 /\ 0 <= phi_s <= 360 /\
    cos (radians theta_s) = sin t * cos p * sin a + cos t * cos a /\
    sin (radians theta_s) * cos (radians phi_s)
    = - (sin t * cos p * cos a - cos t * sin a) /\
    sin (radians theta_s) * sin (radians phi_s) = - (sin t * sin p).
Proof.
  intros t p a.
  destruct (n2s_direction theta phi angle_inc)
    as (theta_s & phi_s & E & Hz & Hx & Hy).
  exists theta_s, phi_s. split; [exact E|].
  destruct (n2s_steps _ _ _ _ _ E) as (z & psi & x & y & Et & Ep & ->).
  split; [exact (acos_degrees_range _ _ Et)|].
  split.
  { pose proof (change_reference_range
                  _ (specular_azimuth_range _ _ _ Ep)) as Hrange.
    lra. }
  repeat split; assumption.
Qed.

(** X2.  At normal incidence the conversion keeps the polar angle and turns
    the azimuth by half a turn. *)
Theorem n2s_at_normal_incidence (theta phi : R) :
  0 < theta < 180 -> 0 <= phi < 360 ->
  convert_normal_to_specular_using_cartesian theta phi 0
  = Ok (theta, if Rlt_dec phi 180 then phi + 180 else phi - 180).
Proof.
  intros Ht Hp.
  destruct (n2s_direction theta phi 0)
    as (theta_s & phi_s & E & Hz & Hx & Hy).
  cbv zeta in Hz, Hx, Hy.
  assert (E0 : 0 * PI / 180 = 0) by lra.
  rewrite E0, sin_0, cos_0 in Hz, Hx.
  destruct (n2s_steps _ _ _ _ _ E) as (z & psi & x & y & Et & Ep & Hphi).
  pose proof (acos_degrees_range _ _ Et) as Rt.
  pose proof (change_reference_range _ (specular_azimuth_range _ _ _ Ep))
    as Rp.
  rewrite <- Hphi in Rp.
  assert (Htheta : theta_s = theta).
  { apply radians_inj. apply cos_inj.
    - apply radians_range. exact Rt.
    - apply radians_range. lra.
    - rewrite Hz. ring. }
  subst theta_s.
  assert (Hsin : 0 < sin (radians theta)).
  { pose proof PI_RGT_0 as HPI. apply sin_gt_0; unfold radians.
    - apply Rmult_lt_0_compat; [lra|apply Rdiv_lt_0_compat; lra].
    - destruct Ht as [_ Ht].
      apply (Rmult_lt_compat_r (PI / 180)) in Ht;
        [|apply Rdiv_lt_0_compat; lra].
      replace (180 * (PI / 180)) with PI in Ht by field. exact Ht. }
  destruct (change_reference_direction phi) as [Cc Cs].
  assert (Hphi' : phi_s = change_reference phi).
  { apply degrees_unique.
    - exact Rp.
    - apply change_reference_range. exact Hp.
    - rewrite Cc. apply (Rmult_eq_reg_l (sin (radians theta))); [|lra].
      rewrite Hx. ring.
    - rewrite Cs. apply (Rmult_eq_reg_l (sin (radians theta))); [|lra].
      rewrite Hy. ring. }
  rewrite E, Hphi'. reflexivity.
Qed.

Lemma n2s_at_normal_incidence_witness :
  convert_normal_to_specular_using_cartesian 45 90 0
  = Ok (45, if Rlt_dec 90 180 then 90 + 180 else 90 - 180).
Proof.
  apply (n2s_at_normal_incidence 45 90); lra.
Defined.

Lemma Rabs_le_bounds (x y : R) : Rabs x <= y -> - y <= x <= y.
Proof. unfold Rabs. destruct (Rcase_abs x); lra. Qed.

Lemma round_le (x : R) (n : Z) : x <= IZR n -> (round x <= n)%Z.
Proof.
  intro H. pose proof (round_error x) as He.
  apply Rabs_le_bounds in He.
  assert (IZR (round x) < IZR (n + 1)) by (rewrite plus_IZR; lra).
  apply lt_IZR in H0. lia.
Qed.

Lemma round_ge (x : R) (n : Z) : IZR n <= x -> (n <= round x)%Z.
Proof.
  intro H. pose proof (round_error x) as He.
  apply Rabs_le_bounds in He.
  assert (IZR (n - 1) < IZR (round x)) by (rewrite minus_IZR; lra).
  apply lt_IZR in H0. lia.
Qed.

(** Rounding to [ndigits] decimals does not cross an integer bound. *)
Lemma round_digits_between (x : R) (ndigits : nat) (lo hi : Z) :
  IZR lo <= x <= IZR hi ->
  IZR lo <= round_digits x ndigits <= IZR hi.
Proof.
  intros [Hlo Hhi]. unfold round_digits.
  pose proof (pow10_pos ndigits) as Hp.
  assert (Ep : 10 ^ ndigits = IZR (10 ^ Z.of_nat ndigits)).
  { rewrite <- pow_IZR. reflexivity. }
  split.
  - apply Rmult_le_reg_r with (10 ^ ndigits); [exact Hp|].
    unfold Rdiv. rewrite Rmult_assoc, Rinv_l, Rmult_1_r by lra.
    rewrite Ep at 1. rewrite <- mult_IZR. apply IZR_le, round_ge.
    rewrite mult_IZR, <- Ep. apply Rmult_le_compat_r; lra.
  - apply Rmult_le_reg_r with (10 ^ ndigits); [exact Hp|].
    unfold Rdiv. rewrite Rmult_assoc, Rinv_l, Rmult_1_r by lra.
    rewrite Ep at 2. rewrite <- mult_IZR. apply IZR_le, round_le.
    rewrite mult_IZR, <- Ep. apply Rmult_le_compat_r; lra.
Qed.

Lemma atan2_range (y x : R) : - PI <= atan2 y x <= PI.
Proof.
  unfold atan2. pose proof PI_RGT_0 as HPI.
  pose proof (atan_bound (y / x)) as [Hlo Hhi].
  destruct (Rlt_dec 0 x); [lra|].
  destruct (Rlt_dec x 0) as [Hx|Hx].
  - destruct (Rle_dec 0 y) as [Hy|Hy].
    + assert (atan (y / x) <= 0).
      { rewrite <- atan_0.
        destruct (Req_EM_T y 0) as [->|Hy0].
        - unfold Rdiv. rewrite Rmult_0_l. lra.
        - left. apply atan_increasing.
          unfold Rdiv. apply Rmult_pos_neg; [lra|].
          apply Rinv_lt_0_compat. exact Hx. }
      lra.
    + assert (0 < atan (y / x)).
      { rewrite <- atan_0. apply atan_increasing.
        unfold Rdiv. apply Rmult_neg_neg; [lra|].
        apply Rinv_lt_0_compat. exact Hx. }
      lra.
  - destruct (Rlt_dec 0 y); [lra|]. destruct (Rlt_dec y 0); lra.
Qed.

Lemma normal_azimuth_range (phi x y : R) :
  0 <= phi <= 360 ->
  exists psi, normal_azimuth (radians phi) x y = Ok psi /\ 0 <= psi <= 360.
Proof.
  intro Hphi. unfold normal_azimuth.
  destruct (Req_EM_T (round_digits x 2) 0) as [Hx|Hx].
  - unfold assign_if.
    destruct (Rlt_dec y 0) as [Hy|Hy]; [exists 90; split; [reflexivity|lra]|].
    destruct (Rlt_dec 0 y) as [Hy'|Hy'];
      [exists 270; split; [reflexivity|lra]|].
    assert (y = 0) by lra. subst y.
    rewrite round_digits_0.
    destruct (Req_EM_T 0 0) as [_|E]; [|contradiction].
    exists (radians phi * (180 / PI)). split; [reflexivity|].
    unfold radians. rewrite radians_degrees. exact Hphi.
  - eexists. split; [reflexivity|]. cbv zeta.
    pose proof (atan2_range y x) as [Hlo Hhi].
    pose proof PI_RGT_0 as HPI.
    assert (Hd : 0 < 180 / PI) by (apply Rdiv_lt_0_compat; lra).
    assert (Ha : Rabs (atan2 y x * (180 / PI)) <= 180).
    { apply Rabs_le. split.
      - apply (Rmult_le_compat_r (180 / PI)) in Hlo; [|lra].
        replace (- PI * (180 / PI)) with (- 180) in Hlo by (field; lra).
        exact Hlo.
      - apply (Rmult_le_compat_r (180 / PI)) in Hhi; [|lra].
        replace (PI * (180 / PI)) with 180 in Hhi by (field; lra).
        exact Hhi. }
    pose proof (Rabs_pos (atan2 y x * (180 / PI))).
    destruct (Rlt_dec 0 (round_digits y 3)); lra.
Qed.

(** X3.  The specular-to-normal conversion returns for every input; the
    polar angle it returns is in [0, 180], and for an input azimuth in
    [0, 360] so is the azimuth it returns. *)
Theorem s2n_returns_in_range (theta phi angle_inc : R) :
  0 <= phi <= 360 ->
  exists theta_n phi_n,
    convert_specular_to_normal_using_cartesian theta phi angle_inc
    = Ok (theta_n, phi_n) /\
    0 <= theta_n <= 180 /\ 0 <= phi_n <= 360.
Proof.
  intro Hphi. rewrite s2n_unfold. cbv zeta.
  set (t := theta * (PI / 180)). set (p := phi * (PI / 180)).
  set (a := angle_inc * PI / 180).
  pose proof (rotated_unit_back t p a) as Hunit. cbv zeta in Hunit.
  rewrite (normalize_unit _ _ _ Hunit). cbn [bind].
  pose proof (unit_component_bound _ _ _ Hunit) as Hz.
  rewrite (acos_degrees_ok _ Hz). cbn [bind].
  destruct (normal_azimuth_range phi
              (- (sin t * cos p) * cos a + cos t * sin a) (sin t * sin p) Hphi)
    as (psi & Epsi & Rpsi).
  fold (radians phi) in p. subst p. rewrite Epsi. cbn [bind].
  eexists _, _. split; [reflexivity|].
  assert (Rt : 0 <= acos (sin t * cos (radians phi) * sin a + cos t * cos a)
                    * (180 / PI) <= 180).
  { apply (acos_degrees_range
             (sin t * cos (radians phi) * sin a + cos t * cos a)).
    apply acos_degrees_ok. exact Hz. }
  split.
  - apply (round_digits_between _ 2 0 180). exact Rt.
  - apply (round_digits_between _ 2 0 360). exact Rpsi.
Qed.

Lemma s2n_returns_in_range_witness :
  exists theta_n phi_n,
    convert_specular_to_normal_using_cartesian 30 90 20
    = Ok (theta_n, phi_n) /\
    0 <= theta_n <= 180 /\ 0 <= phi_n <= 360.
Proof.
  apply (s2n_returns_in_range 30 90 20). lra.
Defined.

(** The azimuth block shared by the conversions. *)
Lemma cylindrical_unfold (theta_i phi_i angle_inc : R) :
  convert_normal_to_specular_using_cylindrical theta_i phi_i angle_inc =
  let x_o := theta_i * cos (radians phi_i) - angle_inc in
  let y_o := theta_i * sin (radians phi_i) in
  phi_o <- specular_azimuth x_o y_o ;;
  Ok (sqrt (x_o * x_o + y_o * y_o), phi_o).
Proof.
  unfold convert_normal_to_specular_using_cylindrical, specular_azimuth,
    radians. cbv zeta.
  destruct (Req_EM_T _ 0); [|reflexivity].
  unfold assign_if.
  destruct (Rlt_dec _ 0); [reflexivity|].
  destruct (Rlt_dec 0 _); [reflexivity|].
  destruct (Req_EM_T _ 0); reflexivity.
Qed.

Lemma cylindrical_phiref_unfold (theta_i phi_i angle_inc : R) :
  convert_normal_to_specular_using_cylindrical_phiref theta_i phi_i angle_inc
  =
  let x_o := theta_i * cos (radians phi_i) - angle_inc in
  let y_o := theta_i * sin (radians phi_i) in
  phi_o <- specular_azimuth x_o y_o ;;
  Ok (sqrt (x_o * x_o + y_o * y_o), change_reference phi_o).
Proof.
  unfold convert_normal_to_specular_using_cylindrical_phiref,
    specular_azimuth, change_reference, radians. cbv zeta.
  destruct (Req_EM_T _ 0); [|reflexivity].
  unfold assign_if.
  destruct (Rlt_dec _ 0); [reflexivity|].
  destruct (Rlt_dec 0 _); [reflexivity|].
  destruct (Req_EM_T _ 0); reflexivity.
Qed.

(** X4.  The cylindrical conversion returns for every input the polar form
    of the point [(theta cos phi - angle_inc, theta sin phi)]: a radius
    that is not negative and an azimuth in [0, 360]. *)
Theorem cylindrical_returns_polar_form (theta phi angle_inc : R) :
  exists theta_o phi_o,
    convert_normal_to_specular_using_cylindrical theta phi angle_inc
    = Ok (theta_o, phi_o) /\
    0 <= theta_o /\ 0 <= phi_o <= 360 /\
    theta_o * cos (radians phi_o) = theta * cos (radians phi) - angle_inc /\
    theta_o * sin (radians phi_o) = theta * sin (radians phi).
Proof.
  rewrite cylindrical_unfold. cbv zeta.
  destruct (specular_azimuth_polar
              (theta * cos (radians phi) - angle_inc)
              (theta * sin (radians phi))) as (psi & E & Hc & Hs).
  rewrite E. cbn [bind]. eexists _, _. split; [reflexivity|].
  split; [apply sqrt_pos|].
  split; [pose proof (specular_azimuth_range _ _ _ E) as Hrange; lra|].
  split; assumption.
Qed.

(** X5.  The variant with the Speos azimuth reference returns the same
    radius and the azimuth turned by half a turn; with no incidence angle
    the first is the identity on a positive radius and an azimuth in
    [0, 360). *)
Theorem cylindrical_phiref_turns_azimuth (theta phi angle_inc : R) :
  0 < theta -> 0 <= phi < 360 ->
  (exists theta_o phi_o,
      convert_normal_to_specular_using_cylindrical theta phi angle_inc
      = Ok (theta_o, phi_o) /\
      convert_normal_to_specular_using_cylindrical_phiref theta phi angle_inc
      = Ok (theta_o, if Rlt_dec phi_o 180 then phi_o + 180 else phi_o - 180))
  /\
  convert_normal_to_specular_using_cylindrical theta phi 0 = Ok (theta, phi)
  /\
  convert_normal_to_specular_using_cylindrical_phiref theta phi 0
  = Ok (theta, if Rlt_dec phi 180 then phi + 180 else phi - 180).
Proof.
  intros Ht Hp.
  assert (Hgen : forall inc, exists theta_o phi_o,
    convert_normal_to_specular_using_cylindrical theta phi inc
    = Ok (theta_o, phi_o) /\
    convert_normal_to_specular_using_cylindrical_phiref theta phi inc
    = Ok (theta_o, change_reference phi_o)).
  { intro inc. rewrite cylindrical_unfold, cylindrical_phiref_unfold.
    cbv zeta.
    destruct (specular_azimuth_polar
                (theta * cos (radians phi) - inc)
                (theta * sin (radians phi))) as (psi & E & _).
    rewrite E. cbn [bind]. eexists _, _. split; reflexivity. }
  split; [exact (Hgen angle_inc)|].
  assert (Hpolar : exists theta_o phi_o,
    convert_normal_to_specular_using_cylindrical theta phi 0
    = Ok (theta_o, phi_o) /\
    0 <= theta_o /\ 0 <= phi_o < 360 /\
    theta_o * cos (radians phi_o) = theta * cos (radians phi) - 0 /\
    theta_o * sin (radians phi_o) = theta * sin (radians phi)).
  { rewrite cylindrical_unfold. cbv zeta.
    destruct (specular_azimuth_polar
                (theta * cos (radians phi) - 0)
                (theta * sin (radians phi))) as (psi & E & Hc & Hs).
    rewrite E. cbn [bind]. eexists _, _. split; [reflexivity|].
    split; [apply sqrt_pos|].
    split; [exact (specular_azimuth_range _ _ _ E)|].
    split; assumption. }
  destruct Hpolar as (theta_o & phi_o & E & R0 & Rp & Hc & Hs).
  rewrite Rminus_0_r in Hc.
  assert (Hr : theta_o = theta).
  { assert (Hsq : theta_o * theta_o = theta * theta).
    { pose proof (sin_cos_square (radians phi_o)).
      pose proof (sin_cos_square (radians phi)).
      replace (theta_o * theta_o)
        with ((theta_o * sin (radians phi_o)) * (theta_o * sin (radians phi_o))
              + (theta_o * cos (radians phi_o))
                * (theta_o * cos (radians phi_o))) by nra.
      rewrite Hc, Hs. nra. }
    nra. }
  subst theta_o.
  assert (Ha : phi_o = phi).
  { apply degrees_unique; try assumption.
    - apply (Rmult_eq_reg_l theta); [exact Hc|lra].
    - apply (Rmult_eq_reg_l theta); [exact Hs|lra]. }
  subst phi_o. split; [exact E|].
  destruct (Hgen 0) as (t' & p' & E1 & E2).
  rewrite E in E1. injection E1 as <- <-. exact E2.
Qed.

Lemma cylindrical_phiref_turns_azimuth_witness :
  (exists theta_o phi_o,
      convert_normal_to_specular_using_cylindrical 45 90 30
      = Ok (theta_o, phi_o) /\
      convert_normal_to_specular_using_cylindrical_phiref 45 90 30
      = Ok (theta_o, if Rlt_dec phi_o 180 then phi_o + 180 else phi_o - 180))
  /\
  convert_normal_to_specular_using_cylindrical 45 90 0 = Ok (45, 90)
  /\
  convert_normal_to_specular_using_cylindrical_phiref 45 90 0
  = Ok (45, if Rlt_dec 90 180 then 90 + 180 else 90 - 180).
Proof.
  apply (cylindrical_phiref_turns_azimuth 45 90 30); lra.
Defined.

End MoreTransformProperties.

Section MoreResamplerProperties.

Import PyQ Resampler ResamplerSpec Samples ResamplerSamples.
Local Open Scope Q_scope.

Lemma for_each_length {A B : Type} (xs : list A) (body : A -> result B)
      (ys : list B) :
  for_each xs body = Ok ys -> length ys = length xs.
Proof.
  revert ys. induction xs as [|x xs IH]; intros ys; cbn [for_each].
  - intro H. injection H as <-. reflexivity.
  - destruct (body x) as [b|e| |]; cbn [bind]; try discriminate.
    destruct (for_each xs body) as [bs|e| |]; cbn [bind]; try discriminate.
    intro H. injection H as <-. simpl. f_equal. apply IH. reflexivity.
Qed.

Lemma for_each_Forall {A B : Type} (P : B -> Prop) (xs : list A)
      (body : A -> result B) (ys : list B) :
  (forall x y, In x xs -> body x = Ok y -> P y) ->
  for_each xs body = Ok ys -> Forall P ys.
Proof.
  revert ys. induction xs as [|x xs IH]; intros ys HP; cbn [for_each].
  - intro H. injection H as <-. constructor.
  - destruct (body x) as [b|e| |] eqn:Eb; cbn [bind]; try discriminate.
    destruct (for_each xs body) as [bs|e| |]; cbn [bind]; try discriminate.
    intro H. injection H as <-. constructor.
    + apply (HP x b); [left; reflexivity|exact Eb].
    + apply IH; [|reflexivity]. intros x' y Hin. apply HP. right. exact Hin.
Qed.

(** The array of cells the conversion builds before it orders the radial
    rows, and its dimensions. *)
Lemma cells_dims (n2s s2n : Q -> Q -> Q -> Q * Q) (symmetry : string)
      (s : source) (n nbSampleRotation nbAngleIncidence nbTheta nbPhi : nat)
      (sampleRotation angleIncidence : list Q) (precisionTheta precisionPhi : Q)
      (temp : list (list (list (list Q)))) :
  for_each (range n) (fun i =>
    currentSampleRot <- lookup sampleRotation (i mod nbSampleRotation) ;;
    for_each (range nbAngleIncidence) (fun j =>
      currentAngleInc <- lookup angleIncidence j ;;
      let index := (i * nbAngleIncidence + j)%nat in
      for_each (range nbTheta) (fun k =>
        let currentTheta := inject_Z (Z.of_nat k) * precisionTheta in
        for_each (range nbPhi) (fun l =>
          let currentPhi := inject_Z (Z.of_nat l) * precisionPhi in
          resample_cell n2s s2n symmetry s i j index currentTheta currentPhi
                        currentSampleRot currentAngleInc)))) = Ok temp ->
  dims4 temp n nbAngleIncidence nbTheta nbPhi.
Proof.
  intro H. split.
  - rewrite (for_each_length _ _ _ H). apply length_range.
  - eapply for_each_Forall; [|exact H].
    intros i plane _ Hi. cbv beta in Hi.
    destruct (lookup sampleRotation _) as [rot|e| |]; cbn [bind] in Hi;
      try discriminate.
    split.
    + rewrite (for_each_length _ _ _ Hi). apply length_range.
    + eapply for_each_Forall; [|exact Hi].
      intros j b _ Hj. cbv beta in Hj.
      destruct (lookup angleIncidence j) as [inc|e| |]; cbn [bind] in Hj;
        try discriminate.
      cbv zeta in Hj. split.
      * rewrite (for_each_length _ _ _ Hj). apply length_range.
      * eapply for_each_Forall; [|exact Hj].
        intros k row _ Hk. cbv beta zeta in Hk.
        rewrite (for_each_length _ _ _ Hk). apply length_range.
Qed.

Lemma map_combine_range {A B : Type} (f : nat * A -> B) (g : A -> B)
      (l : list A) (start n : nat) :
  (forall i x, (start <= i < start + n)%nat -> f (i, x) = g x) ->
  map f (combine (seq start n) l) = map g (firstn n l).
Proof.
  revert start l. induction n as [|n IH]; intros start l H; [reflexivity|].
  destruct l as [|x l]; [reflexivity|].
  cbn [seq combine map firstn]. f_equal.
  - apply H. lia.
  - apply IH. intros i y Hi. apply H. lia.
Qed.

Lemma dims4_rev_rows (a : list (list (list (list Q)))) (n1 n2 n3 n4 : nat) :
  dims4 a n1 n2 n3 n4 ->
  dims4 (map (map (@rev (list Q))) a) n1 n2 n3 n4.
Proof.
  intros [Hlen Hall]. split; [rewrite length_map; exact Hlen|].
  apply Forall_map. eapply Forall_impl; [|exact Hall].
  intros plane [Hp Hb]. split; [rewrite length_map; exact Hp|].
  apply Forall_map. eapply Forall_impl; [|exact Hb].
  intros b [Hb1 Hb2]. split; [rewrite length_rev; exact Hb1|].
  apply Forall_rev. exact Hb2.
Qed.

(** X6.  Whenever the conversion returns, the array it returns has
    [nb_reflection_transmission * nbSampleRotation] planes of
    [nbAngleIncidence] blocks of [int(90 / precisionTheta + 1)] rows of
    [int(360 / precisionPhi + 1)] values, and the two axes it returns have
    these lengths: the azimuths are the multiples of [precisionPhi] and
    the radial angles the multiples of [precisionTheta], counted from 90
    for transmission data read from a Zemax file. *)
Theorem conversion_output_dimensions
        (n2s s2n : Q -> Q -> Q -> Q * Q)
        (nb_reflection_transmission : nat) (symmetry scatterType : string)
        (nbSampleRotation nbAngleIncidence : nat)
        (sampleRotation angleIncidence : list Q) (s : source)
        (precisionTheta precisionPhi : Q)
        (bsdfDataSpeos : list (list (list (list Q))))
        (line_theta line_phi : list Q) :
  convert_zemax_speos_bsdf_data
    n2s s2n nb_reflection_transmission symmetry scatterType
    nbSampleRotation nbAngleIncidence sampleRotation angleIncidence s
    precisionTheta precisionPhi
  = Ok (bsdfDataSpeos, line_theta, line_phi) ->
  dims4 bsdfDataSpeos (nb_reflection_transmission * nbSampleRotation)
        nbAngleIncidence
        (axis_count 90 precisionTheta) (axis_count 360 precisionPhi) /\
  line_phi = map (fun l => precisionPhi * inject_Z (Z.of_nat l))
                 (range (axis_count 360 precisionPhi)) /\
  line_theta
  = map (fun k =>
           if (bool_speos_brdf s || String.eqb scatterType "BRDF")%bool
           then precisionTheta * inject_Z (Z.of_nat k)
           else 90 + precisionTheta * inject_Z (Z.of_nat k))
        (range (axis_count 90 precisionTheta)).
Proof.
  unfold convert_zemax_speos_bsdf_data, axis_count, div.
  destruct (Qeq_bool precisionTheta 0); cbn [bind]; [discriminate|].
  destruct (Qeq_bool precisionPhi 0); cbn [bind]; [discriminate|].
  destruct (_ || _)%bool; [discriminate|].
  set (nbTheta := Z.to_nat (int (90 / precisionTheta + 1))).
  set (nbPhi := Z.to_nat (int (360 / precisionPhi + 1))).
  destruct (for_each _ _) as [temp|e| |] eqn:Et; cbn [bind];
    try discriminate.
  apply cells_dims in Et.
  destruct (bool_speos_brdf s || String.eqb scatterType "BRDF")%bool.
  - intro H. injection H as <- <- <-. repeat split; try reflexivity.
    + apply Et.
    + apply Et.
  - destruct (_ && _)%bool; [discriminate|].
    intro H. injection H as <- <- <-. repeat split; try reflexivity.
    + rewrite length_map, length_combine, length_range.
      destruct Et as [-> _]. apply Nat.min_id.
    + apply Forall_map. apply Forall_forall. intros [i plane] Hin.
      apply in_combine_r in Hin.
      destruct Et as [_ Hall]. rewrite Forall_forall in Hall.
      destruct (Hall plane Hin) as [Hp Hb].
      destruct (i <? nbSampleRotation)%nat.
      * split; [rewrite length_map; exact Hp|].
        apply Forall_map. eapply Forall_impl; [|exact Hb].
        intros b [Hb1 Hb2]. split; [rewrite length_rev; exact Hb1|].
        apply Forall_rev. exact Hb2.
      * split; [apply repeat_length|].
        apply Forall_forall. intros b Hb'. apply repeat_spec in Hb'.
        subst b. split; [apply repeat_length|].
        apply Forall_forall. intros row Hrow. apply repeat_spec in Hrow.
        subst row. apply repeat_length.
Qed.

Lemma conversion_output_dimensions_witness :
  dims4 (fst (fst resampled_grid)) (1 * 1) 1
        (axis_count 90 45) (axis_count 360 90) /\
  snd resampled_grid
  = map (fun l => 90 * inject_Z (Z.of_nat l)) (range (axis_count 360 90)) /\
  snd (fst resampled_grid)
  = map (fun k =>
           if (bool_speos_brdf grid_src || String.eqb "BRDF" "BRDF")%bool
           then 45 * inject_Z (Z.of_nat k)
           else 90 + 45 * inject_Z (Z.of_nat k))
        (range (axis_count 90 45)).
Proof.
  apply (conversion_output_dimensions
           same_angles same_angles 1 "PlaneSymmetrical" "BRDF" 1 1
           [0] [0] grid_src 45 90).
  vm_compute. reflexivity.
Defined.

(** X7.  From a Zemax source, transmission data is resampled exactly as
    reflection data would be and then stored with its radial rows in
    reverse order on an axis that starts at 90: row [k] of a transmission
    block is row [nbTheta - 1 - k] of the reflection block. *)
Theorem transmission_rows_are_reversed
        (n2s s2n : Q -> Q -> Q -> Q * Q) (symmetry scatterType : string)
        (nbSampleRotation nbAngleIncidence : nat)
        (sampleRotation angleIncidence : list Q)
        (scatterRadial scatterAzimuth : list Q) (bsdfData : list (list block))
        (precisionTheta precisionPhi : Q)
        (reflection : list (list (list (list Q))))
        (line_theta line_phi : list Q) :
  String.eqb scatterType "BRDF" = false ->
  convert_zemax_speos_bsdf_data
    n2s s2n 1 symmetry "BRDF" nbSampleRotation nbAngleIncidence
    sampleRotation angleIncidence
    (FromZemax scatterRadial scatterAzimuth bsdfData)
    precisionTheta precisionPhi
  = Ok (reflection, line_theta, line_phi) ->
  convert_zemax_speos_bsdf_data
    n2s s2n 1 symmetry scatterType nbSampleRotation nbAngleIncidence
    sampleRotation angleIncidence
    (FromZemax scatterRadial scatterAzimuth bsdfData)
    precisionTheta precisionPhi
  = Ok (map (map (@rev (list Q))) reflection,
        map (fun theta => 90 + theta) line_theta,
        line_phi).
Proof.
  intro Hst.
  unfold convert_zemax_speos_bsdf_data, div.
  destruct (Qeq_bool precisionTheta 0); cbn [bind]; [discriminate|].
  destruct (Qeq_bool precisionPhi 0); cbn [bind]; [discriminate|].
  destruct (_ || _)%bool; [discriminate|].
  set (nbTheta := Z.to_nat (int (90 / precisionTheta + 1))).
  set (nbPhi := Z.to_nat (int (360 / precisionPhi + 1))).
  destruct (for_each _ _) as [temp|e| |] eqn:Et; cbn [bind];
    try discriminate.
  apply cells_dims in Et. destruct Et as [Hlen _].
  rewrite Hst. cbn [bool_speos_brdf orb String.eqb Ascii.eqb Bool.eqb].
  intro H. injection H as <- <- <-.
  rewrite Nat.mul_1_l in *. rewrite Nat.ltb_irrefl. cbn [andb].
  f_equal. f_equal. f_equal.
  - unfold range.
    rewrite (map_combine_range _ (map (@rev (list Q))) temp 0 nbSampleRotation).
    + rewrite <- Hlen, firstn_all. reflexivity.
    + intros i plane Hi.
      destruct (Nat.ltb_spec i nbSampleRotation); [reflexivity|lia].
  - rewrite map_map. reflexivity.
Qed.

Lemma transmission_rows_are_reversed_witness :
  convert_zemax_speos_bsdf_data
    same_angles same_angles 1 "PlaneSymmetrical" "BTDF" 1 1 [0] [0]
    (FromZemax [0; 45; 90] [0; 90; 180] [[grid_block]]) 45 90
  = Ok (map (map (@rev (list Q))) (fst (fst resampled_grid)),
        map (fun theta => 90 + theta) (snd (fst resampled_grid)),
        snd resampled_grid).
Proof.
  apply (transmission_rows_are_reversed
           same_angles same_angles "PlaneSymmetrical" "BTDF" 1 1 [0] [0]
           [0; 45; 90] [0; 90; 180] [[grid_block]] 45 90).
  - reflexivity.
  - vm_compute. reflexivity.
Defined.

Lemma bisect_left_below_first (axis : list Q) (x : Q) :
  strictly_increasing axis -> x <= nth 0 axis 0 -> axis <> [] ->
  bisect_left axis x = 0%nat.
Proof.
  intros Hs Hx Hne.
  destruct (bisect_left_spec axis x Hs) as (_ & Hlo & _).
  destruct (bisect_left axis x) as [|k]; [reflexivity|].
  exfalso. assert (H : nth 0 axis 0 < x) by (apply Hlo; lia).
  apply (Qlt_not_le _ _ H Hx).
Qed.

(** Inside the range of a strictly increasing axis the two bracketing
    samples and the weight give the queried angle back. *)
Lemma theta_bracket_in_range (axis : list Q) (x : Q) :
  strictly_increasing axis -> axis <> [] ->
  nth 0 axis 0 <= x -> x <= last axis 0 ->
  exists i s c,
    theta_bracket axis x = Ok (i, s, c) /\
    (i < length axis)%nat /\ (s < length axis)%nat /\
    nth i axis 0 * (1 - c) + nth s axis 0 * c == x.
Proof.
  intros Hs Hne Hlo Hhi. unfold theta_bracket.
  assert (Hpos : (0 < length axis)%nat)
    by (destruct axis; [congruence|simpl; lia]).
  destruct (bisect_left_spec axis x Hs) as (Hlen & Hbelow & Habove).
  set (k := bisect_left axis x) in *.
  destruct (Nat.eqb_spec k 0) as [Hk0|Hk0].
  - rewrite Hk0 in *. exists 0%nat, 0%nat, 0. split; [reflexivity|].
    split; [exact Hpos|]. split; [exact Hpos|].
    assert (H : x <= nth 0 axis 0) by (apply Habove; lia).
    assert (E : nth 0 axis 0 == x) by (apply Qle_antisym; assumption).
    rewrite E. ring.
  - destruct (Nat.leb_spec k (length axis - 1)) as [Hk|Hk].
    + assert (E : (k - 1 + 1 = S (k - 1))%nat) by lia. rewrite E.
      rewrite (lookup_nth axis (k - 1) 0) by lia.
      rewrite (lookup_nth axis (S (k - 1)) 0) by lia.
      assert (H1 : nth (k - 1) axis 0 < x) by (apply Hbelow; lia).
      assert (H2 : x <= nth (S (k - 1)) axis 0) by (apply Habove; lia).
      cbn [bind]. rewrite div_pos by lra. cbn [bind].
      eexists _, _, _. split; [reflexivity|].
      split; [lia|]. split; [lia|]. field. lra.
    + exfalso. rewrite last_nth in Hhi.
      assert (H : nth (length axis - 1) axis 0 < x) by (apply Hbelow; lia).
      apply (Qlt_not_le _ _ H Hhi).
Qed.

Lemma phi_bracket_in_range (axis : list Q) (x : Q) :
  strictly_increasing axis -> axis <> [] ->
  nth 0 axis 0 <= x -> x <= last axis 0 ->
  exists i s c,
    phi_bracket axis x = Ok (i, s, c) /\
    (i < length axis)%nat /\ (s < length axis)%nat /\
    nth i axis 0 * (1 - c) + nth s axis 0 * c == x.
Proof.
  intros Hs Hne Hlo Hhi. unfold phi_bracket.
  assert (Hpos : (0 < length axis)%nat)
    by (destruct axis; [congruence|simpl; lia]).
  destruct (bisect_left_spec axis x Hs) as (Hlen & Hbelow & Habove).
  set (k := bisect_left axis x) in *.
  destruct (Nat.eqb_spec k 0) as [Hk0|Hk0].
  - rewrite Hk0 in *. exists 0%nat, 0%nat, 0. split; [reflexivity|].
    split; [exact Hpos|]. split; [exact Hpos|].
    assert (H : x <= nth 0 axis 0) by (apply Habove; lia).
    assert (E : nth 0 axis 0 == x) by (apply Qle_antisym; assumption).
    rewrite E. ring.
  - destruct (Nat.leb_spec k (length axis - 1)) as [Hk|Hk].
    + assert (E : (k - 1 + 1 = S (k - 1))%nat) by lia. rewrite E.
      rewrite (lookup_nth axis (k - 1) 0) by lia.
      rewrite (lookup_nth axis (S (k - 1)) 0) by lia.
      assert (H1 : nth (k - 1) axis 0 < x) by (apply Hbelow; lia).
      assert (H2 : x <= nth (S (k - 1)) axis 0) by (apply Habove; lia).
      cbn [bind]. rewrite div_pos by lra. cbn [bind].
      eexists _, _, _. split; [reflexivity|].
      split; [lia|]. split; [lia|]. field. lra.
    + exfalso. rewrite last_nth in Hhi.
      assert (H : nth (length axis - 1) axis 0 < x) by (apply Hbelow; lia).
      apply (Qlt_not_le _ _ H Hhi).
Qed.

Lemma blend_bilinear (c0 c1 c2 c3 t1 t2 p1 p2 ct cp : Q) :
  blend (bilinear c0 c1 c2 c3 t1 p1) (bilinear c0 c1 c2 c3 t2 p1)
        (bilinear c0 c1 c2 c3 t1 p2) (bilinear c0 c1 c2 c3 t2 p2) ct cp
  == bilinear c0 c1 c2 c3 (t1 * (1 - ct) + t2 * ct) (p1 * (1 - cp) + p2 * cp).
Proof. unfold blend, bilinear. ring. Qed.

(** X8.  Inside the source grid the interpolation is exact on data that is
    affine in each angle: if every sample of the block is
    [c0 + c1 theta + c2 phi + c3 theta phi] at its own angles, the cell
    is that same expression at the transformed angles. *)
Theorem interpolation_reproduces_bilinear_data
        (symmetry : string) (s : source) (i j index : nat)
        (scatterRadial scatterAzimuth : list Q) (b : block)
        (c0 c1 c2 c3 newTheta newPhi : Q) :
  axes_of s index = Ok (scatterRadial, scatterAzimuth) ->
  block_of s i j index = Ok b ->
  scatterRadial <> [] -> scatterAzimuth <> [] ->
  block_dims b (length scatterAzimuth) (length scatterRadial) ->
  strictly_increasing scatterRadial ->
  strictly_increasing scatterAzimuth ->
  (forall p t,
      (p < length scatterAzimuth)%nat -> (t < length scatterRadial)%nat ->
      nth t (nth p b []) 0
      == bilinear c0 c1 c2 c3 (nth t scatterRadial 0) (nth p scatterAzimuth 0))
  ->
  nth 0 scatterRadial 0 <= newTheta <= last scatterRadial 0 ->
  nth 0 scatterAzimuth 0 <= fold_phi symmetry newPhi
  <= last scatterAzimuth 0 ->
  exists v,
    interpolate_cell symmetry s i j index newTheta newPhi = Ok v /\
    v == bilinear c0 c1 c2 c3 newTheta (fold_phi symmetry newPhi).
Proof.
  intros Hax Hb Hr Ha Hd Hsr Hsa Hdata [Ht0 Ht1] [Hp0 Hp1].
  destruct (theta_bracket_in_range scatterRadial newTheta Hsr Hr Ht0 Ht1)
    as (it & st & ct & Et & Hit & Hst & Ect).
  destruct (phi_bracket_in_range scatterAzimuth (fold_phi symmetry newPhi)
                                 Hsa Ha Hp0 Hp1)
    as (ip & sp & cp & Ep & Hip & Hsp & Ecp).
  unfold interpolate_cell. rewrite Hax. cbn [bind]. rewrite Et, Ep.
  cbn [bind]. rewrite (corners_block s i j index b ip sp it st Hb).
  rewrite (lookup2_dims b _ _ ip it Hd Hip Hit).
  rewrite (lookup2_dims b _ _ ip st Hd Hip Hst).
  rewrite (lookup2_dims b _ _ sp it Hd Hsp Hit).
  rewrite (lookup2_dims b _ _ sp st Hd Hsp Hst).
  cbn [bind]. eexists. split; [reflexivity|].
  unfold blend.
  rewrite (Hdata ip it Hip Hit), (Hdata ip st Hip Hst),
    (Hdata sp it Hsp Hit), (Hdata sp st Hsp Hst).
  pose proof (blend_bilinear c0 c1 c2 c3
                (nth it scatterRadial 0) (nth st scatterRadial 0)
                (nth ip scatterAzimuth 0) (nth sp scatterAzimuth 0) ct cp)
    as Hb'.
  unfold blend in Hb'. rewrite Hb'.
  unfold bilinear. rewrite Ect, Ecp. reflexivity.
Qed.

Lemma interpolation_reproduces_bilinear_data_witness :
  exists v,
    interpolate_cell "PlaneSymmetrical" grid_src 0 0 0 30 200 = Ok v /\
    v == bilinear 1 (1 # 45) (1 # 30) 0 30 (fold_phi "PlaneSymmetrical" 200).
Proof.
  apply (interpolation_reproduces_bilinear_data
           "PlaneSymmetrical" grid_src 0 0 0
           [0; 45; 90] [0; 90; 180] grid_block 1 (1 # 45) (1 # 30) 0 30 200).
  - reflexivity.
  - reflexivity.
  - discriminate.
  - discriminate.
  - split; [reflexivity|]. repeat constructor.
  - simpl. repeat split; reflexivity.
  - simpl. repeat split; reflexivity.
  - intros p t Hp Ht.
    destruct p as [|[|[|p]]]; [| | |simpl in Hp; lia];
      (destruct t as [|[|[|t]]]; [| | |simpl in Ht; lia]);
      vm_compute; reflexivity.
  - split; vm_compute; discriminate.
  - split; vm_compute; discriminate.
Defined.

(** X9.  At or below the first sample of both axes the two brackets
    collapse to index 0 with weight 0, and the cell is the sample stored
    at [(0, 0)]. *)
Theorem lower_edge_is_flat
        (symmetry : string) (s : source) (i j index : nat)
        (scatterRadial scatterAzimuth : list Q) (b : block)
        (newTheta newPhi : Q) :
  axes_of s index = Ok (scatterRadial, scatterAzimuth) ->
  block_of s i j index = Ok b ->
  scatterRadial <> [] -> scatterAzimuth <> [] ->
  block_dims b (length scatterAzimuth) (length scatterRadial) ->
  strictly_increasing scatterRadial ->
  strictly_increasing scatterAzimuth ->
  newTheta <= nth 0 scatterRadial 0 ->
  fold_phi symmetry newPhi <= nth 0 scatterAzimuth 0 ->
  theta_bracket scatterRadial newTheta = Ok (0%nat, 0%nat, 0) /\
  phi_bracket scatterAzimuth (fold_phi symmetry newPhi)
  = Ok (0%nat, 0%nat, 0) /\
  exists v,
    interpolate_cell symmetry s i j index newTheta newPhi = Ok v /\
    v == nth 0 (nth 0 b []) 0.
Proof.
  intros Hax Hb Hr Ha Hd Hsr Hsa Ht Hp.
  assert (Et : theta_bracket scatterRadial newTheta = Ok (0%nat, 0%nat, 0)).
  { unfold theta_bracket.
    rewrite (bisect_left_below_first _ _ Hsr Ht Hr). reflexivity. }
  assert (Ep : phi_bracket scatterAzimuth (fold_phi symmetry newPhi)
               = Ok (0%nat, 0%nat, 0)).
  { unfold phi_bracket.
    rewrite (bisect_left_below_first _ _ Hsa Hp Ha). reflexivity. }
  split; [exact Et|]. split; [exact Ep|].
  assert (Hlr : (0 < length scatterRadial)%nat)
    by (destruct scatterRadial; [congruence|simpl; lia]).
  assert (Hla : (0 < length scatterAzimuth)%nat)
    by (destruct scatterAzimuth; [congruence|simpl; lia]).
  unfold interpolate_cell. rewrite Hax. cbn [bind]. rewrite Et, Ep.
  cbn [bind]. rewrite (corners_block s i j index b 0 0 0 0 Hb).
  rewrite (lookup2_dims b _ _ 0 0 Hd Hla Hlr). cbn [bind].
  eexists. split; [reflexivity|]. unfold blend. ring.
Qed.

Lemma lower_edge_is_flat_witness :
  theta_bracket [0; 45; 90] 0 = Ok (0%nat, 0%nat, 0) /\
  phi_bracket [0; 90; 180] (fold_phi "PlaneSymmetrical" 360)
  = Ok (0%nat, 0%nat, 0) /\
  exists v,
    interpolate_cell "PlaneSymmetrical" grid_src 0 0 0 0 360 = Ok v /\
    v == nth 0 (nth 0 grid_block []) 0.
Proof.
  apply (lower_edge_is_flat
           "PlaneSymmetrical" grid_src 0 0 0
           [0; 45; 90] [0; 90; 180] grid_block 0 360).
  - reflexivity.
  - reflexivity.
  - discriminate.
  - discriminate.
  - split; [reflexivity|]. repeat constructor.
  - simpl. repeat split; reflexivity.
  - simpl. repeat split; reflexivity.
  - vm_compute. discriminate.
  - vm_compute. discriminate.
Defined.

End MoreResamplerProperties.

Section MorePrecisionProperties.

Import PyQ Precision PrecisionSpec Resampler ResamplerSpec PrecisionRanges.
Import Samples.
Local Open Scope Q_scope.

Lemma recommended_precision_general
      (scatterRadial scatterAzimuth : list Q) (symmetry : string) :
  (2 <= length scatterRadial)%nat -> (2 <= length scatterAzimuth)%nat ->
  phi_theta_recommended_precision scatterRadial scatterAzimuth symmetry
  = Ok (recommended 90 1000 (len scatterRadial),
        recommended (fst (phi_range symmetry)) (snd (phi_range symmetry))
                    (len scatterAzimuth)).
Proof.
  intros Hr Ha.
  unfold phi_theta_recommended_precision, round_to_multiple, recommended,
    phi_range.
  assert (Hr' : (2 <= len scatterRadial)%Z) by (unfold len; lia).
  assert (Ha' : (2 <= len scatterAzimuth)%Z) by (unfold len; lia).
  destruct (String.eqb symmetry "PlaneSymmetrical"); cbv zeta; cbn [fst snd];
    rewrite (div_nonzero 90 (inject_Z (len scatterRadial)))
      by (apply inject_Z_nonzero; lia);
    cbn [bind];
    (destruct (Z.ltb_spec 1000 (len scatterRadial));
     [rewrite (div_nonzero 90 (inject_Z (1000 - 1))) by discriminate
     |rewrite (div_nonzero 90 (inject_Z (len scatterRadial - 1)))
        by (apply inject_Z_nonzero; lia)]);
    cbn [bind]; rewrite div_nonzero by discriminate; cbn [bind].
  - rewrite (div_nonzero 180 (inject_Z (len scatterAzimuth)))
      by (apply inject_Z_nonzero; lia).
    cbn [bind].
    destruct (Z.ltb_spec 1000 (len scatterAzimuth));
      [rewrite (div_nonzero 180 (inject_Z (500 - 1))) by discriminate
      |rewrite (div_nonzero 180 (inject_Z (len scatterAzimuth - 1)))
         by (apply inject_Z_nonzero; lia)];
      cbn [bind]; rewrite div_nonzero by discriminate; reflexivity.
  - rewrite (div_nonzero 180 (inject_Z (len scatterAzimuth)))
      by (apply inject_Z_nonzero; lia).
    cbn [bind].
    destruct (Z.ltb_spec 1000 (len scatterAzimuth));
      [rewrite (div_nonzero 180 (inject_Z (500 - 1))) by discriminate
      |rewrite (div_nonzero 180 (inject_Z (len scatterAzimuth - 1)))
         by (apply inject_Z_nonzero; lia)];
      cbn [bind]; rewrite div_nonzero by discriminate; reflexivity.
  - rewrite (div_nonzero 360 (inject_Z (len scatterAzimuth)))
      by (apply inject_Z_nonzero; lia).
    cbn [bind].
    destruct (Z.ltb_spec 1000 (len scatterAzimuth));
      [rewrite (div_nonzero 360 (inject_Z (1000 - 1))) by discriminate
      |rewrite (div_nonzero 360 (inject_Z (len scatterAzimuth - 1)))
         by (apply inject_Z_nonzero; lia)];
      cbn [bind]; rewrite div_nonzero by discriminate; reflexivity.
  - rewrite (div_nonzero 360 (inject_Z (len scatterAzimuth)))
      by (apply inject_Z_nonzero; lia).
    cbn [bind].
    destruct (Z.ltb_spec 1000 (len scatterAzimuth));
      [rewrite (div_nonzero 360 (inject_Z (1000 - 1))) by discriminate
      |rewrite (div_nonzero 360 (inject_Z (len scatterAzimuth - 1)))
         by (apply inject_Z_nonzero; lia)];
      cbn [bind]; rewrite div_nonzero by discriminate; reflexivity.
Qed.

Lemma recommended_beyond (angle_max : Q) (nb_max n : Z) :
  (1000 < n)%Z ->
  recommended angle_max nb_max n = recommended angle_max nb_max 1001.
Proof.
  intro H. unfold recommended.
  destruct (Z.ltb_spec 1000 n); [reflexivity|lia].
Qed.

Lemma workable_theta :
  forallb (workable 90 1000 90 181) (seq 2 359) = true.
Proof. vm_compute. reflexivity. Qed.

Lemma workable_phi :
  forallb (workable 360 1000 360 721) (seq 2 1000) = true.
Proof. vm_compute. reflexivity. Qed.

Lemma workable_phi_plane :
  forallb (workable 180 500 360 721) (1001 :: seq 2 719)%nat = true.
Proof. vm_compute. reflexivity. Qed.

Lemma degenerate_theta :
  forallb (degenerate 90 1000) (seq 361 641) = true.
Proof. vm_compute. reflexivity. Qed.

Lemma degenerate_phi_plane :
  forallb (degenerate 180 500) (seq 721 280) = true.
Proof. vm_compute. reflexivity. Qed.

Lemma workable_spec (angle_max : Q) (nb_max : Z) (span : Q) (cells n : nat) :
  workable angle_max nb_max span cells n = true ->
  1 # 2 <= recommended angle_max nb_max (Z.of_nat n) /\
  (axis_count span (recommended angle_max nb_max (Z.of_nat n)) <= cells)%nat.
Proof.
  unfold workable. cbv zeta. intro H. apply andb_prop in H.
  destruct H as [H1 H2]. split.
  - apply Qle_bool_iff. exact H1.
  - apply Nat.leb_le. exact H2.
Qed.

(** The step recommended for an axis of more than 1000 samples is the one
    recommended for 1001. *)
Lemma capped (n : nat) : (1000 < n)%nat ->
  forall angle_max nb_max,
    recommended angle_max nb_max (Z.of_nat n)
    = recommended angle_max nb_max (Z.of_nat 1001).
Proof.
  intros H angle_max nb_max.
  rewrite (recommended_beyond _ _ (Z.of_nat n)) by lia. reflexivity.
Qed.

(** X10.  For a radial axis of 2 to 360 samples and an azimuth axis of at
    least 2 samples (a plane-symmetrical one of at most 720, or of more
    than 1000), the recommended steps are at least half a degree, so the
    target grid has at most 181 radial and 721 azimuthal samples. *)
Theorem recommended_precision_is_workable
        (scatterRadial scatterAzimuth : list Q) (symmetry : string) :
  (2 <= length scatterRadial <= 360)%nat ->
  (2 <= length scatterAzimuth)%nat ->
  (symmetry = "PlaneSymmetrical"%string ->
   (length scatterAzimuth <= 720)%nat \/ (1000 < length scatterAzimuth)%nat) ->
  exists precisionTheta precisionPhi,
    phi_theta_recommended_precision scatterRadial scatterAzimuth symmetry
    = Ok (precisionTheta, precisionPhi) /\
    1 # 2 <= precisionTheta /\ 1 # 2 <= precisionPhi /\
    (axis_count 90 precisionTheta <= 181)%nat /\
    (axis_count 360 precisionPhi <= 721)%nat.
Proof.
  intros Hr Ha Hsym.
  rewrite recommended_precision_general by lia.
  eexists _, _. split; [reflexivity|].
  assert (Ht : workable 90 1000 90 181 (length scatterRadial) = true).
  { pose proof workable_theta as Hall. rewrite forallb_forall in Hall.
    apply Hall. apply in_seq. lia. }
  apply workable_spec in Ht. destruct Ht as [Ht1 Ht2].
  assert (Hp : workable (fst (phi_range symmetry)) (snd (phi_range symmetry))
                        360 721
                        (if (1000 <? length scatterAzimuth)%nat
                         then 1001%nat else length scatterAzimuth) = true).
  { unfold phi_range.
    destruct (String.eqb_spec symmetry "PlaneSymmetrical") as [E|E];
      cbn [fst snd].
    - pose proof workable_phi_plane as Hall. rewrite forallb_forall in Hall.
      apply Hall.
      destruct (Nat.ltb_spec 1000 (length scatterAzimuth)) as [H|H].
      + left. reflexivity.
      + right. apply in_seq. destruct (Hsym E); lia.
    - pose proof workable_phi as Hall. rewrite forallb_forall in Hall.
      apply Hall. apply in_seq.
      destruct (Nat.ltb_spec 1000 (length scatterAzimuth)); lia. }
  apply workable_spec in Hp. destruct Hp as [Hp1 Hp2].
  assert (E : recommended (fst (phi_range symmetry)) (snd (phi_range symmetry))
                          (len scatterAzimuth)
              = recommended (fst (phi_range symmetry))
                            (snd (phi_range symmetry))
                            (Z.of_nat (if (1000 <? length scatterAzimuth)%nat
                                       then 1001%nat
                                       else length scatterAzimuth))).
  { unfold len.
    destruct (Nat.ltb_spec 1000 (length scatterAzimuth)) as [H|H];
      [apply capped; exact H|reflexivity]. }
  rewrite E. unfold len. repeat split; assumption.
Qed.

Lemma recommended_precision_is_workable_witness :
  exists precisionTheta precisionPhi,
    phi_theta_recommended_precision (half_degree_axis 181) [0; 90; 180]
                                    "Asymmetrical"
    = Ok (precisionTheta, precisionPhi) /\
    1 # 2 <= precisionTheta /\ 1 # 2 <= precisionPhi /\
    (axis_count 90 precisionTheta <= 181)%nat /\
    (axis_count 360 precisionPhi <= 721)%nat.
Proof.
  apply (recommended_precision_is_workable
           (half_degree_axis 181) [0; 90; 180] "Asymmetrical").
  - vm_compute. lia.
  - simpl. lia.
  - discriminate.
Defined.

Lemma degenerate_spec (angle_max : Q) (nb_max : Z) (n : nat) :
  degenerate angle_max nb_max n = true ->
  recommended angle_max nb_max (Z.of_nat n) == 0.
Proof. unfold degenerate. intro H. apply Qeq_bool_iff. exact H. Qed.

Lemma zero_step_raises (n2s s2n : Q -> Q -> Q -> Q * Q)
      (nb_reflection_transmission : nat) (symmetry scatterType : string)
      (nbSampleRotation nbAngleIncidence : nat)
      (sampleRotation angleIncidence : list Q) (s : source)
      (precisionTheta precisionPhi : Q) :
  precisionTheta == 0 \/ precisionPhi == 0 ->
  convert_zemax_speos_bsdf_data
    n2s s2n nb_reflection_transmission symmetry scatterType
    nbSampleRotation nbAngleIncidence sampleRotation angleIncidence s
    precisionTheta precisionPhi
  = Raise ZeroDivisionError.
Proof.
  intro H. unfold convert_zemax_speos_bsdf_data, div.
  destruct (Qeq_bool precisionTheta 0) eqn:Et; [reflexivity|].
  cbn [bind].
  destruct (Qeq_bool precisionPhi 0) eqn:Ep; [reflexivity|].
  exfalso. destruct H as [H|H]; apply Qeq_bool_iff in H; congruence.
Qed.

(** A radial axis of 361 samples or more, or a plane-symmetrical azimuth
    axis of 721 to 1000 samples, is given the step zero. *)
Lemma dense_axis_recommended
      (scatterRadial scatterAzimuth : list Q) (symmetry : string) :
  (2 <= length scatterRadial)%nat -> (2 <= length scatterAzimuth)%nat ->
  (361 <= length scatterRadial)%nat \/
  (symmetry = "PlaneSymmetrical"%string /\
   (721 <= length scatterAzimuth <= 1000)%nat) ->
  exists precisionTheta precisionPhi,
    phi_theta_recommended_precision scatterRadial scatterAzimuth symmetry
    = Ok (precisionTheta, precisionPhi) /\
    (precisionTheta == 0 \/ precisionPhi == 0).
Proof.
  intros Hr Ha Hdense.
  rewrite recommended_precision_general by lia.
  eexists _, _. split; [reflexivity|].
  destruct Hdense as [Hd|[-> Hd]].
  - left. unfold len.
    pose proof degenerate_theta as Hall. rewrite forallb_forall in Hall.
    destruct (Nat.ltb_spec 1000 (length scatterRadial)) as [H|H].
    + rewrite (capped _ H). apply degenerate_spec.
      apply Hall. apply in_seq. lia.
    + apply degenerate_spec. apply Hall. apply in_seq. lia.
  - right. unfold len, phi_range.
    cbn [String.eqb Ascii.eqb Bool.eqb fst snd].
    pose proof degenerate_phi_plane as Hall.
    rewrite forallb_forall in Hall.
    apply degenerate_spec. apply Hall. apply in_seq. lia.
Qed.

(** X11.  For a radial axis of more than 360 samples, or a plane-symmetrical
    azimuth axis of 721 to 1000 samples, a recommended step is zero, and
    the conversion run with the recommended steps raises
    [ZeroDivisionError] whatever the data. *)
Theorem dense_axis_gets_zero_step
        (scatterRadial scatterAzimuth : list Q) (symmetry : string) :
  (2 <= length scatterRadial)%nat -> (2 <= length scatterAzimuth)%nat ->
  (361 <= length scatterRadial)%nat \/
  (symmetry = "PlaneSymmetrical"%string /\
   (721 <= length scatterAzimuth <= 1000)%nat) ->
  exists precisionTheta precisionPhi,
    phi_theta_recommended_precision scatterRadial scatterAzimuth symmetry
    = Ok (precisionTheta, precisionPhi) /\
    (precisionTheta == 0 \/ precisionPhi == 0) /\
    forall (n2s s2n : Q -> Q -> Q -> Q * Q)
           (nb_reflection_transmission : nat) (scatterType : string)
           (nbSampleRotation nbAngleIncidence : nat)
           (sampleRotation angleIncidence : list Q) (s : source),
      convert_zemax_speos_bsdf_data
        n2s s2n nb_reflection_transmission symmetry scatterType
        nbSampleRotation nbAngleIncidence sampleRotation angleIncidence s
        precisionTheta precisionPhi
      = Raise ZeroDivisionError.
Proof.
  intros Hr Ha Hdense.
  destruct (dense_axis_recommended _ _ _ Hr Ha Hdense)
    as (precisionTheta & precisionPhi & Hrec & Hz).
  exists precisionTheta, precisionPhi.
  split; [exact Hrec|]. split; [exact Hz|].
  intros. apply zero_step_raises. exact Hz.
Qed.

Lemma dense_axis_gets_zero_step_witness :
  exists precisionTheta precisionPhi,
    phi_theta_recommended_precision (half_degree_axis 361) [0; 90; 180]
                                    "PlaneSymmetrical"
    = Ok (precisionTheta, precisionPhi) /\
    (precisionTheta == 0 \/ precisionPhi == 0) /\
    forall (n2s s2n : Q -> Q -> Q -> Q * Q)
           (nb_reflection_transmission : nat) (scatterType : string)
           (nbSampleRotation nbAngleIncidence : nat)
           (sampleRotation angleIncidence : list Q) (s : source),
      convert_zemax_speos_bsdf_data
        n2s s2n nb_reflection_transmission "PlaneSymmetrical" scatterType
        nbSampleRotation nbAngleIncidence sampleRotation angleIncidence s
        precisionTheta precisionPhi
      = Raise ZeroDivisionError.
Proof.
  apply (dense_axis_gets_zero_step
           (half_degree_axis 361) [0; 90; 180] "PlaneSymmetrical").
  - vm_compute. lia.
  - simpl. lia.
  - left. vm_compute. lia.
Defined.

End MorePrecisionProperties.

Section MoreNormalizerProperties.

Import PyQ Normalizer NormalizerSpec Samples NormalizerSamples.
Local Open Scope Q_scope.

Lemma store_upd {A : Type} (l : list A) (i : nat) (v : A) :
  (i < length l)%nat -> store l i v = Ok (upd l i v).
Proof.
  revert i. induction l as [|a l IH]; intros i H; [simpl in H; lia|].
  destruct i as [|i]; [reflexivity|].
  cbn [store upd]. rewrite IH by (simpl in H; lia). reflexivity.
Qed.

Lemma length_upd {A : Type} (l : list A) (i : nat) (v : A) :
  length (upd l i v) = length l.
Proof.
  revert i. induction l as [|a l IH]; intros i; [reflexivity|].
  destruct i as [|i]; [reflexivity|]. cbn [upd length]. rewrite IH.
  reflexivity.
Qed.

Lemma nth_upd_same {A : Type} (l : list A) (i : nat) (v d : A) :
  (i < length l)%nat -> nth i (upd l i v) d = v.
Proof.
  revert i. induction l as [|a l IH]; intros i H; [simpl in H; lia|].
  destruct i as [|i]; [reflexivity|].
  cbn [upd nth]. apply IH. simpl in H. lia.
Qed.

Lemma nth_upd_other {A : Type} (l : list A) (i k : nat) (v d : A) :
  k <> i -> nth k (upd l i v) d = nth k l d.
Proof.
  revert i k. induction l as [|a l IH]; intros i k H; [reflexivity|].
  destruct i as [|i]; destruct k as [|k]; try reflexivity; try lia.
  cbn [upd nth]. apply IH. lia.
Qed.

Lemma store2_upd {A : Type} (m : list (list A)) (i j : nat) (v : A) :
  (i < length m)%nat -> (j < length (nth i m []))%nat ->
  store2 m i j v = Ok (upd m i (upd (nth i m []) j v)).
Proof.
  intros Hi Hj. unfold store2.
  rewrite (lookup_nth m i []) by exact Hi. cbn [bind].
  rewrite store_upd by exact Hj. cbn [bind].
  apply store_upd. exact Hi.
Qed.

Lemma at2_upd2 {A : Type} (d : A) (m : list (list A)) (i j i' j' : nat)
      (v : A) :
  (i < length m)%nat -> (j < length (nth i m []))%nat ->
  at2 d (upd m i (upd (nth i m []) j v)) i' j'
  = if ((i' =? i) && (j' =? j))%nat then v else at2 d m i' j'.
Proof.
  intros Hi Hj. unfold at2.
  destruct (Nat.eqb_spec i' i) as [->|Hne]; cbn [andb].
  - rewrite nth_upd_same by exact Hi.
    destruct (Nat.eqb_spec j' j) as [->|Hne'].
    + apply nth_upd_same. exact Hj.
    + apply nth_upd_other. exact Hne'.
  - rewrite nth_upd_other by exact Hne. reflexivity.
Qed.

Lemma shape2_upd2 {A : Type} (m : list (list A)) (n k i j : nat) (v : A) :
  shape2 m n k -> shape2 (upd m i (upd (nth i m []) j v)) n k.
Proof.
  intros [Hlen Hrows]. split; [rewrite length_upd; exact Hlen|].
  apply Forall_forall. intros row Hin.
  apply (In_nth _ _ []) in Hin. destruct Hin as (p & Hp & <-).
  rewrite length_upd in Hp. rewrite Forall_forall in Hrows.
  destruct (Nat.eq_dec p i) as [->|Hne].
  - rewrite nth_upd_same by exact Hp. rewrite length_upd.
    apply Hrows. apply nth_In. exact Hp.
  - rewrite nth_upd_other by exact Hne. apply Hrows. apply nth_In. exact Hp.
Qed.

Lemma shape2_row {A : Type} (m : list (list A)) (n k i : nat) :
  shape2 m n k -> (i < n)%nat -> length (nth i m []) = k.
Proof.
  intros [Hlen Hrows] Hi. rewrite Forall_forall in Hrows.
  apply Hrows. apply nth_In. lia.
Qed.

(** A loop over consecutive indices that keeps an invariant. *)
Lemma loop_seq_invariant {S : Type} (P : nat -> S -> Prop)
      (body : nat -> S -> result S) (len start : nat) (st0 : S) :
  P start st0 ->
  (forall k st, (start <= k < start + len)%nat -> P k st ->
                exists st', body k st = Ok st' /\ P (Datatypes.S k) st') ->
  exists st, loop (seq start len) body st0 = Ok st /\ P (start + len)%nat st.
Proof.
  revert start st0. induction len as [|len IH]; intros start st0 H0 Hstep.
  - exists st0. split; [reflexivity|]. rewrite Nat.add_0_r. exact H0.
  - cbn [seq loop].
    destruct (Hstep start st0) as (st1 & E1 & H1); [lia|exact H0|].
    rewrite E1. cbn [bind].
    destruct (IH (Datatypes.S start) st1 H1) as (st & E & H).
    + intros k st' Hk. apply Hstep. lia.
    + exists st. split; [exact E|].
      replace (start + Datatypes.S len)%nat with (Datatypes.S start + len)%nat
        by lia.
      exact H.
Qed.

Lemma nth_repeat_lt {A : Type} (a d : A) (n i : nat) :
  (i < n)%nat -> nth i (repeat a n) d = a.
Proof.
  revert i. induction n as [|n IH]; intros i H; [lia|].
  destruct i as [|i]; [reflexivity|]. cbn [repeat nth]. apply IH. lia.
Qed.

Section Slices.

Variable nquad : list Q -> list Q -> block -> Q * Q.
Variables n m : nat.
Variables line_theta line_phi : list Q.
Variable tisData : list (list Q).
Variable bsdfData : list (list block).
Variables bool_zemax0_speos1 bool_log : bool.
Hypothesis Htis : shape2 tisData n m.
Hypothesis Hdata : shape2 bsdfData n m.

Let f (i j : nat) : Q :=
  factor nquad line_theta line_phi bool_zemax0_speos1
         (at2 0 tisData i j) (at2 [] bsdfData i j).

(** The slices the two loops have been through when they are about to
    treat [(i, j)]. *)
Let processed (i j i' j' : nat) : Prop :=
  (i' < i)%nat \/ (i' = i /\ (j' < j)%nat).

Let Inv (i j : nat) (st : list (list Q) * list (list block)) : Prop :=
  shape2 (fst st) n m /\ shape2 (snd st) n m /\
  forall i' j', (i' < n)%nat -> (j' < m)%nat ->
    (processed i j i' j' ->
     at2 0 (fst st) i' j' = f i' j' /\
     at2 [] (snd st) i' j' = scale (at2 [] bsdfData i' j') (f i' j')) /\
    (~ processed i j i' j' ->
     at2 0 (fst st) i' j' = 0 /\
     at2 [] (snd st) i' j' = at2 [] bsdfData i' j').

Lemma normalize_slice_step (i j : nat)
      (st : list (list Q) * list (list block)) :
  (i < n)%nat -> (j < m)%nat -> Inv i j st ->
  exists st',
    normalize_slice nquad line_theta line_phi tisData
                    bool_zemax0_speos1 bool_log i j st = Ok st' /\
    Inv i (S j) st'.
Proof.
  intros Hi Hj. destruct st as [F D]. intros (HF & HD & Hval).
  cbn [fst snd] in HF, HD, Hval.
  destruct (Hval i j Hi Hj) as [_ Hnot].
  destruct Hnot as [HF0 HD0]; [unfold processed; lia|].
  assert (LF : length F = n) by apply HF.
  assert (LD : length D = n) by apply HD.
  assert (LT : length tisData = n) by apply Htis.
  pose proof (shape2_row F n m i HF Hi) as RF.
  pose proof (shape2_row D n m i HD Hi) as RD.
  pose proof (shape2_row tisData n m i Htis Hi) as RT.
  unfold normalize_slice.
  rewrite (lookup_nth D i []) by lia. cbn [bind].
  rewrite (lookup_nth (nth i D []) j []) by lia. cbn [bind].
  unfold at2 in HD0, HF0. unfold block in *. rewrite HD0.
  fold (at2 [] bsdfData i j). set (b := at2 [] bsdfData i j).
  set (I := Qabs (fst (nquad line_theta line_phi
                             (if bool_zemax0_speos1 then transpose b else b)))).
  assert (Ef : f i j = if Qltb 0 I then at2 0 tisData i j / I else 0)
    by reflexivity.
  (* the factors after the test on the integral *)
  assert (HF' : exists F',
    (if Qltb 0 I
     then tisRow <- lookup tisData i ;;
          tis <- lookup tisRow j ;;
          store2 F i j (tis / I)
     else row <- lookup F i ;; _ <- lookup row j ;; Ok F) = Ok F' /\
    shape2 F' n m /\
    forall i' j',
      at2 0 F' i' j'
      = if ((i' =? i) && (j' =? j))%nat then f i j else at2 0 F i' j').
  { destruct (Qltb 0 I) eqn:EI.
    - rewrite (lookup_nth tisData i []) by lia. cbn [bind].
      rewrite (lookup_nth (nth i tisData []) j 0) by lia. cbn [bind].
      rewrite store2_upd by lia. eexists. split; [reflexivity|].
      split; [apply shape2_upd2; exact HF|].
      intros i' j'. rewrite at2_upd2 by lia. rewrite Ef. reflexivity.
    - rewrite (lookup_nth F i []) by lia. cbn [bind].
      rewrite (lookup_nth (nth i F []) j 0) by lia. cbn [bind].
      exists F. split; [reflexivity|]. split; [exact HF|].
      intros i' j'.
      destruct (Nat.eqb_spec i' i) as [->|]; [|reflexivity].
      destruct (Nat.eqb_spec j' j) as [->|]; [|reflexivity].
      cbn [andb]. rewrite Ef. exact HF0. }
  destruct HF' as (F' & -> & HF'shape & HF'val). cbn [bind].
  assert (Elog : exists x,
    (if bool_log then tisRow <- lookup tisData i ;; lookup tisRow j
     else Ok 0) = Ok x).
  { destruct bool_log; [|exists 0; reflexivity].
    rewrite (lookup_nth tisData i []) by lia. cbn [bind].
    rewrite (lookup_nth (nth i tisData []) j 0) by lia.
    eexists. reflexivity. }
  destruct Elog as (x & ->). cbn [bind].
  assert (LF' : length F' = n) by apply HF'shape.
  pose proof (shape2_row F' n m i HF'shape Hi) as RF'.
  rewrite (lookup_nth F' i []) by lia. cbn [bind].
  rewrite (lookup_nth (nth i F' []) j 0) by lia. cbn [bind].
  pose proof (HF'val i j) as Hfij. unfold at2 at 1 in Hfij.
  rewrite Hfij, !Nat.eqb_refl. cbn [andb].
  rewrite store2_upd by lia. cbn [bind].
  eexists. split; [reflexivity|].
  split; [exact HF'shape|]. split; [apply shape2_upd2; exact HD|].
  cbn [fst snd]. intros i' j' Hi' Hj'.
  rewrite (HF'val i' j'), at2_upd2 by lia.
  destruct (Hval i' j' Hi' Hj') as [Hdone Hnot].
  destruct (Nat.eqb_spec i' i) as [->|Hne]; cbn [andb].
  - destruct (Nat.eqb_spec j' j) as [->|Hne'].
    + split; [intros _; split; reflexivity|].
      intro H. exfalso. apply H. unfold processed. lia.
    + split.
      * intro H. apply Hdone. unfold processed in *. lia.
      * intro H. apply Hnot. unfold processed in *. lia.
  - split.
    + intro H. apply Hdone. unfold processed in *. lia.
    + intro H. apply Hnot. unfold processed in *. lia.
Qed.

Lemma normalize_row (i : nat) (st : list (list Q) * list (list block)) :
  (i < n)%nat -> Inv i 0 st ->
  exists st',
    loop (range m)
         (fun j st =>
            normalize_slice nquad line_theta line_phi tisData
                            bool_zemax0_speos1 bool_log i j st) st = Ok st' /\
    Inv (S i) 0 st'.
Proof.
  intros Hi H0. unfold range.
  destruct (loop_seq_invariant
              (Inv i)
              (fun j st =>
                 normalize_slice nquad line_theta line_phi tisData
                                 bool_zemax0_speos1 bool_log i j st)
              m 0 st H0) as (st' & E & H).
  - intros k st1 Hk Hinv. apply normalize_slice_step; [exact Hi|lia|exact Hinv].
  - exists st'. split; [exact E|].
    destruct H as (HF & HD & Hval). split; [exact HF|]. split; [exact HD|].
    intros i' j' Hi' Hj'. destruct (Hval i' j' Hi' Hj') as [Hdone Hnot].
    split.
    + intro Hp. apply Hdone. unfold processed in *. lia.
    + intro Hp. apply Hnot. unfold processed in *. lia.
Qed.

Lemma normalize_all :
  exists st,
    normalize_bsdf_data nquad n m line_theta line_phi tisData bsdfData
                        bool_zemax0_speos1 bool_log = Ok st /\
    Inv n 0 st.
Proof.
  unfold normalize_bsdf_data, range.
  apply (loop_seq_invariant (fun i => Inv i 0) _ n 0).
  - split; [|split; [exact Hdata|]].
    + split; [apply repeat_length|].
      apply Forall_forall. intros row Hrow. apply repeat_spec in Hrow.
      subst row. apply repeat_length.
    + cbn [fst snd]. intros i' j' Hi' Hj'. split.
      * intro H. exfalso. unfold processed in H. lia.
      * intros _. split; [|reflexivity].
        unfold at2. rewrite nth_repeat_lt by exact Hi'.
        apply nth_repeat_lt. exact Hj'.
  - intros k st Hk Hinv. apply normalize_row; [lia|exact Hinv].
Qed.

End Slices.

(** X12.  Whenever the normaliser returns on [n] by [m] slices, the factor
    of a slice is [TIS / integral] when the absolute value of its integral
    is positive and 0 otherwise, every block is multiplied by its own
    factor, and the dimensions are kept.  (The quadrature is the library's:
    whether it returns on a given block and axes is not stated here.) *)
Theorem normalization_scales_every_slice
        (nquad : list Q -> list Q -> block -> Q * Q)
        (nbSampleRotation nbAngleIncidence : nat)
        (line_theta line_phi : list Q) (tisData : list (list Q))
        (bsdfData : list (list block))
        (bool_zemax0_speos1 bool_log : bool)
        (normalizationBsdf : list (list Q)) (normalized : list (list block)) :
  shape2 tisData nbSampleRotation nbAngleIncidence ->
  shape2 bsdfData nbSampleRotation nbAngleIncidence ->
  normalize_bsdf_data nquad nbSampleRotation nbAngleIncidence
                      line_theta line_phi tisData bsdfData
                      bool_zemax0_speos1 bool_log
  = Ok (normalizationBsdf, normalized) ->
  shape2 normalizationBsdf nbSampleRotation nbAngleIncidence /\
  shape2 normalized nbSampleRotation nbAngleIncidence /\
  forall i j,
    (i < nbSampleRotation)%nat -> (j < nbAngleIncidence)%nat ->
    at2 0 normalizationBsdf i j
    = factor nquad line_theta line_phi bool_zemax0_speos1
             (at2 0 tisData i j) (at2 [] bsdfData i j) /\
    at2 [] normalized i j
    = scale (at2 [] bsdfData i j) (at2 0 normalizationBsdf i j).
Proof.
  intros Htis Hdata Hreturned.
  destruct (normalize_all nquad nbSampleRotation nbAngleIncidence
              line_theta line_phi tisData bsdfData
              bool_zemax0_speos1 bool_log Htis Hdata)
    as ([F D] & E & HF & HD & Hval).
  rewrite E in Hreturned. injection Hreturned as <- <-.
  split; [exact HF|]. split; [exact HD|].
  intros i j Hi Hj. destruct (Hval i j Hi Hj) as [Hdone _].
  destruct Hdone as [H1 H2]; [left; exact Hi|].
  cbn [fst snd] in H1, H2. split; [exact H1|]. rewrite H1. exact H2.
Qed.

Lemma normalization_scales_every_slice_witness :
  exists normalizationBsdf normalized,
    normalize_bsdf_data sum_of_samples 1 2 [0; 45; 90] [0; 180; 360]
                        [[1 # 2; 1 # 4]]
                        [[peak_at_normal; [[0; 0; 0]; [0; 0; 0]; [0; 0; 0]]]]
                        true false
    = Ok (normalizationBsdf, normalized) /\
    shape2 normalizationBsdf 1 2 /\
    shape2 normalized 1 2 /\
    forall i j,
      (i < 1)%nat -> (j < 2)%nat ->
      at2 0 normalizationBsdf i j
      = factor sum_of_samples [0; 45; 90] [0; 180; 360] true
               (at2 0 [[1 # 2; 1 # 4]] i j)
               (at2 [] [[peak_at_normal;
                         [[0; 0; 0]; [0; 0; 0]; [0; 0; 0]]]] i j) /\
      at2 [] normalized i j
      = scale (at2 [] [[peak_at_normal;
                        [[0; 0; 0]; [0; 0; 0]; [0; 0; 0]]]] i j)
              (at2 0 normalizationBsdf i j).
Proof.
  eexists _, _. split; [vm_compute; reflexivity|].
  apply (normalization_scales_every_slice
           sum_of_samples 1 2 [0; 45; 90] [0; 180; 360]
           [[1 # 2; 1 # 4]]
           [[peak_at_normal; [[0; 0; 0]; [0; 0; 0]; [0; 0; 0]]]]
           true false).
  - split; [reflexivity|]. repeat constructor.
  - split; [reflexivity|]. repeat constructor.
  - vm_compute. reflexivity.
Defined.

End MoreNormalizerProperties.

Section MoreReaderProperties.

Import PyQ PyStr Reader ReaderSpec ZemaxReader ZemaxReaderSpec.
Import ResamplerSpec NormalizerSpec Samples ZemaxReaderSamples.
Local Open Scope string_scope.

Lemma bindM_Ok {A B : Type} (m : M A) (k : A -> M B) (s s' : state) (v : B) :
  bindM m k s = (s', Ok v) ->
  exists s1 a, m s = (s1, Ok a) /\ k a s1 = (s', Ok v).
Proof.
  unfold bindM. destruct (m s) as [s1 [a|e| |]]; intro H;
    try (injection H as _ H; discriminate).
  exists s1, a. split; [reflexivity|exact H].
Qed.

Lemma bindM_step {A B : Type} (m : M A) (k : A -> M B) (s s1 : state)
      (a : A) :
  m s = (s1, Ok a) -> bindM m k s = k a s1.
Proof. intro E. unfold bindM. rewrite E. reflexivity. Qed.

Lemma lift_Ok {A : Type} (r : result A) (s s' : state) (a : A) :
  lift r s = (s', Ok a) -> s' = s /\ r = Ok a.
Proof. unfold lift. intro H. injection H as <- ->. split; reflexivity. Qed.

Lemma ret_Ok {A : Type} (x : A) (s s' : state) (a : A) :
  ret x s = (s', Ok a) -> s' = s /\ a = x.
Proof. unfold ret. intro H. injection H as <- <-. split; reflexivity. Qed.

Lemma for_eachM_Ok {A B : Type} (P : B -> Prop) (xs : list A)
      (body : A -> M B) :
  (forall x s s' y, body x s = (s', Ok y) -> P y) ->
  forall s s' ys,
    for_eachM xs body s = (s', Ok ys) ->
    length ys = length xs /\ Forall P ys.
Proof.
  intro HP. induction xs as [|x xs IH]; intros s s' ys H.
  - apply ret_Ok in H. destruct H as [_ ->]. split; [reflexivity|constructor].
  - cbn [for_eachM] in H.
    apply bindM_Ok in H. destruct H as (s1 & b & Eb & H).
    apply bindM_Ok in H. destruct H as (s2 & bs & Ebs & H).
    apply ret_Ok in H. destruct H as [_ ->].
    destruct (IH _ _ _ Ebs) as [Hlen Hall]. split.
    + simpl. rewrite Hlen. reflexivity.
    + constructor; [exact (HP _ _ _ _ Eb)|exact Hall].
Qed.

Lemma read_values_Ok (nb : Z) (warning : string) (s s' : state)
      (values : list Q) :
  read_values nb warning s = (s', Ok (Some values)) ->
  Z.of_nat (length values) = nb.
Proof.
  unfold read_values. intro H.
  apply bindM_Ok in H. destruct H as (s1 & line & _ & H).
  apply bindM_Ok in H. destruct H as (s2 & tokens & _ & H).
  destruct (Z.eqb_spec (Z.of_nat (length tokens)) nb) as [E|E];
    cbn [negb] in H.
  - apply bindM_Ok in H. destruct H as (s3 & vs & Ev & H).
    apply lift_Ok in Ev. destruct Ev as [_ Ev].
    apply ret_Ok in H. destruct H as [_ H]. injection H as ->.
    rewrite (for_each_length _ _ _ Ev). exact E.
  - apply bindM_Ok in H. destruct H as (s3 & u & _ & H).
    apply ret_Ok in H. destruct H as [_ H]. discriminate.
Qed.

Lemma dimension_Ok (n : Z) (d : nat) :
  dimension n = Ok d -> Z.of_nat d = n.
Proof.
  unfold dimension. destruct (Z.ltb_spec n 0) as [Hn|Hn]; [discriminate|].
  intro H. injection H as <-. lia.
Qed.

Lemma dimension_Ok_nat (n : Z) (d : nat) :
  dimension n = Ok d -> d = Z.to_nat n.
Proof.
  unfold dimension. destruct (Z.ltb_spec n 0) as [Hn|Hn]; [discriminate|].
  intro H. injection H as <-. reflexivity.
Qed.

Lemma assign_row_length (n : nat) (tokens : list chars) (row : list Q) :
  assign_row n tokens = Ok row -> length row = n.
Proof.
  unfold assign_row.
  destruct (for_each tokens float) as [values|e| |]; cbn [bind];
    try discriminate.
  destruct (Nat.eqb_spec (length values) n) as [E|E].
  - intro H. injection H as <-. exact E.
  - destruct values as [|v [|w values]]; try discriminate.
    intro H. injection H as <-. apply repeat_length.
Qed.

Lemma read_local_Ok {A : Type} (o : option A) (a : A) :
  read_local o = Ok a -> o = Some a.
Proof. destruct o; [intro H; injection H as ->; reflexivity|discriminate]. Qed.

Lemma slices_shapes (n1 n2 n3 n4 : nat)
      (slices : list (list (Q * list (list Q)))) :
  length slices = n1 ->
  Forall (fun row =>
            length row = n2 /\
            Forall (fun x => length (snd x) = n3 /\
                             Forall (fun r => length r = n4) (snd x)) row)
         slices ->
  shape2 (map (map fst) slices) n1 n2 /\
  dims4 (map (map snd) slices) n1 n2 n3 n4.
Proof.
  intros Hlen Hall. split; (split; [rewrite length_map; exact Hlen|]).
  - apply Forall_map. eapply Forall_impl; [|exact Hall].
    intros row [Hrow _]. rewrite length_map. exact Hrow.
  - apply Forall_map. eapply Forall_impl; [|exact Hall].
    intros row [Hrow Hcells]. split; [rewrite length_map; exact Hrow|].
    apply Forall_map. exact Hcells.
Qed.

Tactic Notation "run_step" hyp(H) ident(s) ident(a) ident(E) :=
  apply bindM_Ok in H; destruct H as (s & a & E & H).

(** X13.  Whenever the Zemax reader returns, every axis has as many values
    as its count line declares, the TIS values are one per sample rotation
    and incidence angle, and the data is one block per such pair, of one
    row per azimuth and one value per radial angle. *)
Theorem zemax_reader_returns_consistent_shapes
        (text : chars) (log : list string) (v : zemax_bsdf) :
  run read_zemax_bsdf text = (log, Ok v) ->
  Z.of_nat (length (sampleRotation v)) = nbSampleRotation v /\
  Z.of_nat (length (angleIncidence v)) = nbAngleIncidence v /\
  Z.of_nat (length (scatterAzimuth v)) = nbScatterAzimuth v /\
  Z.of_nat (length (scatterRadial v)) = nbScatterRadial v /\
  shape2 (tisData v) (length (sampleRotation v)) (length (angleIncidence v)) /\
  dims4 (bsdfData v)
        (length (sampleRotation v)) (length (angleIncidence v))
        (length (scatterAzimuth v)) (length (scatterRadial v)).
Proof.
  unfold run. destruct (read_zemax_bsdf _) as [s' r] eqn:H.
  intro Hr. injection Hr as _ ->.
  unfold read_zemax_bsdf in H.
  run_step H s1 sourceLine E1. run_step H s2 symmetryLine E2.
  run_step H s3 spectralLine E3. run_step H s4 scatterTypeLine E4.
  run_step H s5 nbSR E5. run_step H s6 oSR E6.
  run_step H s7 nbAI E7. run_step H s8 oAI E8.
  run_step H s9 nbAz E9. run_step H s10 oAz E10.
  run_step H s11 nbRad E11. run_step H s12 oRad E12.
  run_step H s13 u E13.
  run_step H s14 dimRotation D1. run_step H s15 dimIncidence D2.
  run_step H s16 dimAzimuth D3. run_step H s17 dimRadial D4.
  run_step H s18 slices Es.
  run_step H s19 aI L1. run_step H s20 sR L2.
  run_step H s21 rad L3. run_step H s22 az L4.
  apply ret_Ok in H. destruct H as [_ ->].
  cbn [sampleRotation angleIncidence scatterAzimuth scatterRadial
       nbSampleRotation nbAngleIncidence nbScatterAzimuth nbScatterRadial
       tisData bsdfData].
  apply lift_Ok in L1, L2, L3, L4, D1, D2, D3, D4.
  destruct L1 as [_ L1]. destruct L2 as [_ L2].
  destruct L3 as [_ L3]. destruct L4 as [_ L4].
  apply read_local_Ok in L1, L2, L3, L4. subst oAI oSR oRad oAz.
  apply read_values_Ok in E6, E8, E10, E12.
  destruct D1 as [_ D1]. destruct D2 as [_ D2].
  destruct D3 as [_ D3]. destruct D4 as [_ D4].
  apply dimension_Ok in D1, D2, D3, D4.
  assert (N1 : dimRotation = length sR) by lia.
  assert (N2 : dimIncidence = length aI) by lia.
  assert (N3 : dimAzimuth = length az) by lia.
  assert (N4 : dimRadial = length rad) by lia.
  repeat (split; [assumption|]).
  apply slices_shapes.
  - destruct (for_eachM_Ok (fun _ => True) _ _ (fun _ _ _ _ _ => I) _ _ _ Es)
      as [Hlen _].
    rewrite Hlen. unfold range. rewrite length_seq. exact N1.
  - eapply for_eachM_Ok; [|exact Es].
    intros i t t' row Hrow. cbv beta in Hrow. split.
    + destruct (for_eachM_Ok (fun _ => True) _ _ (fun _ _ _ _ _ => I)
                             _ _ _ Hrow) as [Hlen _].
      rewrite Hlen. unfold range. rewrite length_seq. exact N2.
    + eapply for_eachM_Ok; [|exact Hrow].
      intros j t1 t1' cell Hcell. cbv beta in Hcell.
      run_step Hcell t2 tisLine C1. run_step Hcell t3 tis C2.
      run_step Hcell t4 rows C3.
      apply ret_Ok in Hcell. destruct Hcell as [_ ->]. cbn [snd]. split.
      * destruct (for_eachM_Ok (fun _ => True) _ _ (fun _ _ _ _ _ => I)
                               _ _ _ C3) as [Hlen _].
        rewrite Hlen. unfold range. rewrite length_seq. exact N3.
      * eapply for_eachM_Ok; [|exact C3].
        intros k t5 t5' r Hr. cbv beta in Hr.
        run_step Hr t6 dataLine R1.
        apply lift_Ok in Hr. destruct Hr as [_ Hr].
        rewrite (assign_row_length _ _ _ Hr). exact N4.
Qed.

Lemma zemax_reader_returns_consistent_shapes_witness :
  Z.of_nat (length (sampleRotation small_zemax_result))
  = nbSampleRotation small_zemax_result /\
  Z.of_nat (length (angleIncidence small_zemax_result))
  = nbAngleIncidence small_zemax_result /\
  Z.of_nat (length (scatterAzimuth small_zemax_result))
  = nbScatterAzimuth small_zemax_result /\
  Z.of_nat (length (scatterRadial small_zemax_result))
  = nbScatterRadial small_zemax_result /\
  shape2 (tisData small_zemax_result)
         (length (sampleRotation small_zemax_result))
         (length (angleIncidence small_zemax_result)) /\
  dims4 (bsdfData small_zemax_result)
        (length (sampleRotation small_zemax_result))
        (length (angleIncidence small_zemax_result))
        (length (scatterAzimuth small_zemax_result))
        (length (scatterRadial small_zemax_result)).
Proof.
  apply (zemax_reader_returns_consistent_shapes
           small_zemax_file [] small_zemax_result).
  vm_compute. reflexivity.
Defined.

Lemma consumes_ret {A : Type} (a : A) : consumes (ret a).
Proof. intros s s1 r H. injection H as <- _. exists []. reflexivity. Qed.

Lemma consumes_lift {A : Type} (r : result A) : consumes (lift r).
Proof. intros s s1 r' H. injection H as <- _. exists []. reflexivity. Qed.

Lemma consumes_print (msg : string) : consumes (print msg).
Proof. intros s s1 r H. injection H as <- _. exists []. reflexivity. Qed.

Lemma skip_comments_suffix (ls rest : list chars) (r : result chars) :
  skip_comments ls = (rest, r) -> exists pre, ls = (pre ++ rest)%list.
Proof.
  revert rest r. induction ls as [|l ls IH]; intros rest r; cbn [skip_comments].
  - intro H. injection H as <- _. exists []. reflexivity.
  - destruct l as [|c l'].
    + intro H. injection H as <- _. exists [[]]. reflexivity.
    + destruct (c =? "#")%char.
      * intro H. destruct (IH _ _ H) as [pre ->].
        exists ((c :: l') :: pre). reflexivity.
      * intro H. injection H as <- _. exists [c :: l']. reflexivity.
Qed.

Lemma consumes_read_uncommented : consumes read_uncommented.
Proof.
  intros s s1 r. unfold read_uncommented.
  destruct (skip_comments (unread s)) as [rest r'] eqn:E.
  intro H. injection H as <- _. cbn [unread].
  exact (skip_comments_suffix _ _ _ E).
Qed.

Lemma consumes_bind {A B : Type} (m : M A) (k : A -> M B) :
  consumes m -> (forall a, consumes (k a)) -> consumes (bindM m k).
Proof.
  intros Hm Hk s s' r. unfold bindM.
  destruct (m s) as [s1 r1] eqn:E1. destruct (Hm _ _ _ E1) as [pre1 P1].
  destruct r1 as [a|e| |]; intro H;
    try (injection H as <- _; exists pre1; exact P1).
  destruct (Hk a _ _ _ H) as [pre2 P2].
  exists (pre1 ++ pre2)%list. rewrite P1, P2. apply app_assoc.
Qed.

Lemma consumes_read_count (offset : nat) : consumes (read_count offset).
Proof.
  unfold read_count. apply consumes_bind; [apply consumes_read_uncommented|].
  intro. apply consumes_lift.
Qed.

Lemma consumes_read_values (nb : Z) (warning : string) :
  consumes (read_values nb warning).
Proof.
  unfold read_values.
  apply consumes_bind; [apply consumes_read_uncommented|]. intro line.
  apply consumes_bind; [apply consumes_lift|]. intro tokens.
  destruct (negb _).
  - apply consumes_bind; [apply consumes_print|]. intro. apply consumes_ret.
  - apply consumes_bind; [apply consumes_lift|]. intro. apply consumes_ret.
Qed.

Lemma consumes_read_zemax_header : consumes read_zemax_header.
Proof.
  unfold read_zemax_header.
  repeat first
    [ apply consumes_ret
    | apply consumes_bind;
      [first [ apply consumes_read_uncommented | apply consumes_read_count
             | apply consumes_read_values ]
      |intro] ].
Qed.

Lemma seek_data_begin_found (ls rest : list chars) :
  seek_data_begin ls = (rest, Ok tt) -> has_data_begin ls.
Proof.
  induction ls as [|l ls IH]; cbn [seek_data_begin]; [discriminate|].
  destruct (starts_with (lit "DataBegin") l) eqn:E.
  - intros _. left. exact E.
  - intro H. right. exact (IH H).
Qed.

Lemma seek_data_begin_hangs (ls : list chars) :
  ~ has_data_begin ls -> seek_data_begin ls = ([], Hang).
Proof.
  induction ls as [|l ls IH]; intro H; cbn [seek_data_begin]; [reflexivity|].
  destruct (starts_with (lit "DataBegin") l) eqn:E.
  - exfalso. apply H. left. exact E.
  - apply IH. intro H'. apply H. right. exact H'.
Qed.

(** The reader is its header part followed by the search for the data
    section. *)
Lemma read_zemax_bsdf_header (s s' : state) (v : zemax_bsdf) :
  read_zemax_bsdf s = (s', Ok v) ->
  exists s12 h s13,
    read_zemax_header s = (s12, Ok h) /\
    read_to_data_begin s12 = (s13, Ok tt).
Proof.
  intro H. unfold read_zemax_bsdf in H.
  run_step H s1 sourceLine E1. run_step H s2 symmetryLine E2.
  run_step H s3 spectralLine E3. run_step H s4 scatterTypeLine E4.
  run_step H s5 nbSR E5. run_step H s6 oSR E6.
  run_step H s7 nbAI E7. run_step H s8 oAI E8.
  run_step H s9 nbAz E9. run_step H s10 oAz E10.
  run_step H s11 nbRad E11. run_step H s12 oRad E12.
  run_step H s13 u E13. destruct u.
  eexists s12, _, s13. split; [|exact E13].
  unfold read_zemax_header.
  rewrite (bindM_step _ _ _ _ _ E1), (bindM_step _ _ _ _ _ E2),
    (bindM_step _ _ _ _ _ E3), (bindM_step _ _ _ _ _ E4),
    (bindM_step _ _ _ _ _ E5), (bindM_step _ _ _ _ _ E6),
    (bindM_step _ _ _ _ _ E7), (bindM_step _ _ _ _ _ E8),
    (bindM_step _ _ _ _ _ E9), (bindM_step _ _ _ _ _ E10),
    (bindM_step _ _ _ _ _ E11), (bindM_step _ _ _ _ _ E12).
  reflexivity.
Qed.

(** X14.  The Zemax reader returns only for a file that has a line starting
    with [DataBegin]; once the header is read, if no later line starts
    with [DataBegin] the search for the data section never ends. *)
Theorem zemax_reader_needs_data_begin (text : chars) :
  (forall log v,
      run read_zemax_bsdf text = (log, Ok v) ->
      has_data_begin (lines_of text)) /\
  (forall s h,
      read_zemax_header (mk_state (lines_of text) []) = (s, Ok h) ->
      ~ has_data_begin (unread s) ->
      run read_zemax_bsdf text = (printed s, Hang)).
Proof.
  split.
  - intros log v. unfold run.
    destruct (read_zemax_bsdf _) as [s' r] eqn:H.
    intro Hr. injection Hr as _ ->.
    destruct (read_zemax_bsdf_header _ _ _ H) as (s12 & h & s13 & Eh & Ed).
    destruct (consumes_read_zemax_header _ _ _ Eh) as [pre Hpre].
    cbn [unread] in Hpre. rewrite Hpre.
    apply Exists_app. right.
    unfold read_to_data_begin in Ed.
    destruct (seek_data_begin (unread s12)) as [rest r] eqn:E.
    injection Ed as _ ->. exact (seek_data_begin_found _ _ E).
  - intros s h Eh Hno. unfold run.
    unfold read_zemax_header in Eh.
    run_step Eh s1 sourceLine E1. run_step Eh s2 symmetryLine E2.
    run_step Eh s3 spectralLine E3. run_step Eh s4 scatterTypeLine E4.
    run_step Eh s5 nbSR E5. run_step Eh s6 oSR E6.
    run_step Eh s7 nbAI E7. run_step Eh s8 oAI E8.
    run_step Eh s9 nbAz E9. run_step Eh s10 oAz E10.
    run_step Eh s11 nbRad E11. run_step Eh s12 oRad E12.
    apply ret_Ok in Eh. destruct Eh as [-> _].
    unfold read_zemax_bsdf.
    rewrite (bindM_step _ _ _ _ _ E1), (bindM_step _ _ _ _ _ E2),
      (bindM_step _ _ _ _ _ E3), (bindM_step _ _ _ _ _ E4),
      (bindM_step _ _ _ _ _ E5), (bindM_step _ _ _ _ _ E6),
      (bindM_step _ _ _ _ _ E7), (bindM_step _ _ _ _ _ E8),
      (bindM_step _ _ _ _ _ E9), (bindM_step _ _ _ _ _ E10),
      (bindM_step _ _ _ _ _ E11), (bindM_step _ _ _ _ _ E12).
    unfold bindM at 1. unfold read_to_data_begin.
    rewrite (seek_data_begin_hangs _ Hno). reflexivity.
Qed.

Lemma skip_comments_comment_only (ls : list chars) :
  comment_only ls -> skip_comments ls = ([], Raise IndexError).
Proof.
  induction 1 as [|l ls [rest ->] _ IH]; [reflexivity|].
  cbn [skip_comments]. exact IH.
Qed.

(** X15.  On an empty file, or one whose every line is a comment, the
    Zemax reader raises [IndexError]: it looks at the first character of
    the empty string [readline] returns at the end of the file. *)
Theorem zemax_reader_rejects_comment_only_file (text : chars) :
  comment_only (lines_of text) ->
  run read_zemax_bsdf text = ([], Raise IndexError).
Proof.
  intro H. unfold run, read_zemax_bsdf.
  unfold bindM at 1. unfold read_uncommented at 1. cbn [unread printed].
  rewrite (skip_comments_comment_only _ H). reflexivity.
Qed.

Lemma zemax_reader_rejects_comment_only_file_witness :
  run read_zemax_bsdf (text_of ["#Data converted"; "#Wavelength"])
  = ([], Raise IndexError).
Proof.
  apply (zemax_reader_rejects_comment_only_file
           (text_of ["#Data converted"; "#Wavelength"])).
  repeat constructor; eexists; reflexivity.
Defined.

Lemma zemax_reader_needs_data_begin_witness :
  run read_zemax_bsdf truncated_zemax_file = ([], Hang).
Proof.
  refine (proj2 (zemax_reader_needs_data_begin truncated_zemax_file)
                (mk_state (lines_of (text_of [""; "Monochrome"])) []) _ _ _).
  - vm_compute. reflexivity.
  - intro H. vm_compute in H.
    repeat match goal with
           | H : Exists _ (_ :: _) |- _ =>
               let E := fresh in
               let H' := fresh in
               inversion H as [? ? E|? ? H']; clear H; [discriminate E|]
           | H : Exists _ [] |- _ => inversion H
           end.
Defined.

End MoreReaderProperties.

Section MoreSpeosReaderProperties.

Import PyQ PyStr Reader ReaderSpec SpeosReader.
Import ResamplerSpec NormalizerSpec Samples ZemaxReaderSamples.
Local Open Scope string_scope.

Tactic Notation "run_step" hyp(H) ident(s) ident(a) ident(E) :=
  apply bindM_Ok in H; destruct H as (s & a & E & H).

Lemma exit_never {A : Type} (s s' : state) (v : A) :
  @exit A s <> (s', Ok v).
Proof. unfold exit. intro H. discriminate. Qed.

Lemma print_Ok (msg : string) (s s' : state) (u : unit) :
  print msg s = (s', Ok u) -> printed s' = (printed s ++ [msg])%list.
Proof. unfold print. intro H. injection H as <- _. reflexivity. Qed.

(** X16.  For a path whose extension does not contain [brdf], such as the
    [.anisotropicbsdf] the converter itself writes, the Speos reader never
    returns: its [symmetry] is assigned for a [brdf] extension only. *)
Theorem speos_reader_needs_brdf_extension (inputFilepath : chars) :
  contains (lit "brdf") (lower (splitext_ext inputFilepath)) = false ->
  forall text log v,
    run (read_speos_bsdf inputFilepath) text <> (log, Ok v).
Proof.
  intros Hext text log v. unfold run.
  destruct (read_speos_bsdf _ _) as [s' r] eqn:H.
  intro Hr. injection Hr as _ ->.
  unfold read_speos_bsdf in H. rewrite Hext in H. cbv zeta in H.
  run_step H s1 headerLine E1. run_step H s2 version E2.
  run_step H s3 versionNumber E3.
  destruct (Qltb versionNumber 8).
  { run_step H t1 u1 P1. run_step H t2 u2 P2.
    exact (exit_never _ _ _ H). }
  run_step H s4 textorbinaryLine E4. run_step H s5 flag E5.
  cbn [PyStr.eq] in H.
  run_step H s6 commentLine E6. run_step H s7 nbmeasurementLine E7.
  run_step H s8 descriptionLine E8. run_step H s9 rtLine E9.
  run_step H s10 reflection E10. run_step H s11 transmission E11.
  run_step H s12 typeLine E12. run_step H s13 countsLine E13.
  run_step H s14 nbAngleIncidence E14. run_step H s15 nbWavelength E15.
  run_step H s16 angleLine E16. run_step H s17 angleIncidence E17.
  run_step H s18 wavelengthLine E18. run_step H s19 wavelength E19.
  run_step H s20 dimBlocks E20. run_step H s21 dimWavelength E21.
  run_step H s22 blocks E22. run_step H s23 scatterType E23.
  run_step H s24 symmetry E24.
  apply lift_Ok in E24. destruct E24 as [_ E24]. discriminate.
Qed.

Lemma speos_reader_needs_brdf_extension_witness :
  contains (lit "brdf")
           (lower (splitext_ext (lit "plate_0.5_0.5.anisotropicbsdf")))
  = false /\
  forall text log v,
    run (read_speos_bsdf (lit "plate_0.5_0.5.anisotropicbsdf")) text
    <> (log, Ok v).
Proof.
  split; [reflexivity|].
  apply (speos_reader_needs_brdf_extension
           (lit "plate_0.5_0.5.anisotropicbsdf")).
  reflexivity.
Defined.

Lemma quiet_read_block : quiet read_block.
Proof.
  unfold read_block.
  repeat first
    [ apply quiet_ret | apply quiet_lift | apply quiet_readline
    | apply quiet_for_eachM; intro
    | apply quiet_bind; [|intro] ].
Qed.

Lemma read_block_Ok (s s' : state) (b : speos_block) :
  read_block s = (s', Ok b) ->
  Forall (fun row => length row = length (block_radial b)) (block_data b).
Proof.
  intro H. unfold read_block in H.
  run_step H s1 tisLine E1. run_step H s2 tis E2.
  run_step H s3 countLine E3. run_step H s4 nbRad E4.
  run_step H s5 nbAz E5. run_step H s6 azLine E6.
  run_step H s7 az E7. run_step H s8 dimRadial E8.
  run_step H s9 dimAzimuth E9. run_step H s10 rows E10.
  apply ret_Ok in H. destruct H as [_ ->].
  cbn [block_radial block_data]. unfold SpeosReader.transpose.
  apply Forall_map. apply Forall_forall. intros c _.
  rewrite !length_map. reflexivity.
Qed.

(** X17.  Whenever the Speos reader returns it has printed nothing, its
    success flag is 1, its symmetry is [Asymmetrical], its scatter type is
    [BRDF] or [BTDF], and it announces one data set, or two, labelled
    [BTDF], when the file flags both reflection and transmission. *)
Theorem speos_reader_returns_success_only
        (inputFilepath text : chars) (log : list string) (v : speos_bsdf) :
  run (read_speos_bsdf inputFilepath) text = (log, Ok v) ->
  log = [] /\
  bool_success v = 1%Z /\
  symmetry v = lit "Asymmetrical" /\
  ((nb_reflection_transmission v = 1%Z /\
    (scatterType v = lit "BRDF" \/ scatterType v = lit "BTDF")) \/
   (nb_reflection_transmission v = 2%Z /\ scatterType v = lit "BTDF")).
Proof.
  unfold run. destruct (read_speos_bsdf _ _) as [s' r] eqn:H.
  intro Hr. injection Hr as <- ->.
  unfold read_speos_bsdf in H. cbv zeta in H.
  run_step H s1 headerLine E1. run_step H s2 version E2.
  run_step H s3 versionNumber E3.
  destruct (Qltb versionNumber 8).
  { run_step H t1 u1 P1. run_step H t2 u2 P2.
    exfalso. exact (exit_never _ _ _ H). }
  run_step H s4 textorbinaryLine E4. run_step H s5 flag E5.
  cbn [PyStr.eq] in H.
  run_step H s6 commentLine E6. run_step H s7 nbmeasurementLine E7.
  run_step H s8 descriptionLine E8. run_step H s9 rtLine E9.
  run_step H s10 reflection E10. run_step H s11 transmission E11.
  run_step H s12 typeLine E12. run_step H s13 countsLine E13.
  run_step H s14 nbAngleIncidence E14. run_step H s15 nbWavelength E15.
  run_step H s16 angleLine E16. run_step H s17 angleIncidence E17.
  run_step H s18 wavelengthLine E18. run_step H s19 wavelength E19.
  run_step H s20 dimBlocks E20. run_step H s21 dimWavelength E21.
  run_step H s22 blocks E22. run_step H s23 scatterType E23.
  run_step H s24 symmetry E24.
  apply ret_Ok in H. destruct H as [-> ->].
  cbn [bool_success SpeosReader.symmetry SpeosReader.scatterType
       nb_reflection_transmission].
  apply lift_Ok in E23, E24. destruct E23 as [-> E23]. destruct E24 as [-> E24].
  split.
  { (* nothing was printed *)
    pose proof (quiet_readline _ _ _ E1) as Q1.
    pose proof (quiet_lift _ _ _ _ E2) as Q2.
    pose proof (quiet_lift _ _ _ _ E3) as Q3.
    pose proof (quiet_readline _ _ _ E4) as Q4.
    pose proof (quiet_lift _ _ _ _ E5) as Q5.
    pose proof (quiet_readline _ _ _ E6) as Q6.
    pose proof (quiet_readline _ _ _ E7) as Q7.
    pose proof (quiet_readline _ _ _ E8) as Q8.
    pose proof (quiet_readline _ _ _ E9) as Q9.
    pose proof (quiet_lift _ _ _ _ E10) as Q10.
    pose proof (quiet_lift _ _ _ _ E11) as Q11.
    pose proof (quiet_readline _ _ _ E12) as Q12.
    pose proof (quiet_readline _ _ _ E13) as Q13.
    pose proof (quiet_lift _ _ _ _ E14) as Q14.
    pose proof (quiet_lift _ _ _ _ E15) as Q15.
    pose proof (quiet_readline _ _ _ E16) as Q16.
    pose proof (quiet_lift _ _ _ _ E17) as Q17.
    pose proof (quiet_readline _ _ _ E18) as Q18.
    pose proof (quiet_lift _ _ _ _ E19) as Q19.
    pose proof (quiet_lift _ _ _ _ E20) as Q20.
    pose proof (quiet_lift _ _ _ _ E21) as Q21.
    assert (Q22 : printed s22 = printed s21).
    { refine (quiet_for_eachM _ _ _ _ _ _ E22). intro i.
      apply quiet_for_eachM. intro j. apply quiet_read_block. }
    cbn [printed] in *. congruence. }
  split; [reflexivity|].
  apply read_local_Ok in E23, E24.
  split.
  { destruct (contains _ _); [|discriminate].
    injection E24 as <-. reflexivity. }
  destruct (str_eq transmission (lit "1")).
  - injection E23 as <-.
    destruct (str_eq reflection (lit "1")); cbn [andb].
    + right. split; reflexivity.
    + left. split; [reflexivity|right; reflexivity].
  - rewrite andb_false_r.
    destruct (str_eq reflection (lit "1")); [|discriminate].
    injection E23 as <-. left. split; [reflexivity|left; reflexivity].
Qed.

Lemma speos_reader_returns_success_only_witness :
  @nil string = [] /\
  bool_success flag_zero_result = 1%Z /\
  symmetry flag_zero_result = lit "Asymmetrical" /\
  ((nb_reflection_transmission flag_zero_result = 1%Z /\
    (scatterType flag_zero_result = lit "BRDF" \/
     scatterType flag_zero_result = lit "BTDF")) \/
   (nb_reflection_transmission flag_zero_result = 2%Z /\
    scatterType flag_zero_result = lit "BTDF")).
Proof.
  apply (speos_reader_returns_success_only
           (lit "sample.brdf") flag_zero_file [] flag_zero_result).
  vm_compute. reflexivity.
Defined.

Lemma length_concat_uniform {A : Type} (ls : list (list A)) (n : nat) :
  Forall (fun l => length l = n) ls ->
  length (concat ls) = (length ls * n)%nat.
Proof.
  induction 1 as [|l ls Hl _ IH]; [reflexivity|].
  cbn [concat length]. rewrite length_app, Hl, IH. reflexivity.
Qed.

Lemma Forall_concat {A : Type} (P : A -> Prop) (ls : list (list A)) :
  Forall (Forall P) ls -> Forall P (concat ls).
Proof.
  induction 1 as [|l ls Hl _ IH]; [constructor|].
  cbn [concat]. apply Forall_app. split; assumption.
Qed.

(** X18.  Whenever the Speos reader returns, it returns one radial axis, one
    azimuth axis and one block for each of the
    [nb_reflection_transmission * nbAngleIncidence] data sets and each
    wavelength, a TIS value for each, and every row of a block has as many
    values as its radial axis has angles. *)
Theorem speos_reader_returns_consistent_blocks
        (inputFilepath text : chars) (log : list string) (v : speos_bsdf) :
  run (read_speos_bsdf inputFilepath) text = (log, Ok v) ->
  let sets :=
    Z.to_nat (nb_reflection_transmission v * nbAngleIncidence v) in
  let wavelengths := Z.to_nat (nbSampleRotation v) in
  length (scatterRadial_list v) = (sets * wavelengths)%nat /\
  length (scatterAzimuth_list v) = (sets * wavelengths)%nat /\
  length (bsdfData_list v) = (sets * wavelengths)%nat /\
  shape2 (tisData v) sets wavelengths /\
  forall k,
    (k < sets * wavelengths)%nat ->
    Forall (fun row =>
              length row = length (nth k (scatterRadial_list v) []))
           (nth k (bsdfData_list v) []).
Proof.
  unfold run. destruct (read_speos_bsdf _ _) as [s' r] eqn:H.
  intro Hr. injection Hr as _ ->.
  unfold read_speos_bsdf in H. cbv zeta in H.
  run_step H s1 headerLine E1. run_step H s2 version E2.
  run_step H s3 versionNumber E3.
  destruct (Qltb versionNumber 8).
  { run_step H t1 u1 P1. run_step H t2 u2 P2.
    exfalso. exact (exit_never _ _ _ H). }
  run_step H s4 textorbinaryLine E4. run_step H s5 flag E5.
  cbn [PyStr.eq] in H.
  run_step H s6 commentLine E6. run_step H s7 nbmeasurementLine E7.
  run_step H s8 descriptionLine E8. run_step H s9 rtLine E9.
  run_step H s10 reflection E10. run_step H s11 transmission E11.
  run_step H s12 typeLine E12. run_step H s13 countsLine E13.
  run_step H s14 nbAI E14. run_step H s15 nbWavelength E15.
  run_step H s16 angleLine E16. run_step H s17 angleIncidence E17.
  run_step H s18 wavelengthLine E18. run_step H s19 wavelength E19.
  run_step H s20 dimBlocks E20. run_step H s21 dimWavelength E21.
  run_step H s22 blocks E22. run_step H s23 scatterType E23.
  run_step H s24 symmetry E24.
  apply ret_Ok in H. destruct H as [_ ->].
  cbn [scatterRadial_list scatterAzimuth_list bsdfData_list tisData
       nb_reflection_transmission nbAngleIncidence nbSampleRotation].
  apply lift_Ok in E20, E21.
  destruct E20 as [_ E20]. destruct E21 as [_ E21].
  apply dimension_Ok_nat in E20.
  apply dimension_Ok_nat in E21.
  rewrite <- E20, <- E21.
  assert (Hblocks :
    length blocks = dimBlocks /\
    Forall (fun row =>
              length row = dimWavelength /\
              Forall (fun b =>
                        Forall (fun r => length r = length (block_radial b))
                               (block_data b)) row) blocks).
  { split.
    - destruct (for_eachM_Ok (fun _ => True) _ _ (fun _ _ _ _ _ => I)
                             _ _ _ E22) as [Hlen _].
      rewrite Hlen. unfold range. apply length_seq.
    - eapply for_eachM_Ok; [|exact E22].
      intros i t t' row Hrow. cbv beta in Hrow. split.
      + destruct (for_eachM_Ok (fun _ => True) _ _ (fun _ _ _ _ _ => I)
                               _ _ _ Hrow) as [Hlen _].
        rewrite Hlen. unfold range. apply length_seq.
      + eapply for_eachM_Ok; [|exact Hrow].
        intros j t1 t1' b Hb. exact (read_block_Ok _ _ _ Hb). }
  destruct Hblocks as [Hlen Hall].
  assert (Hcat : length (concat blocks) = (dimBlocks * dimWavelength)%nat).
  { rewrite <- Hlen. apply length_concat_uniform.
    eapply Forall_impl; [|exact Hall]. intros row [Hr _]. exact Hr. }
  cbv zeta. rewrite !length_map.
  repeat (split; [exact Hcat|]).
  split.
  - split; [rewrite length_map; exact Hlen|].
    apply Forall_map. eapply Forall_impl; [|exact Hall].
    intros row [Hr _]. rewrite length_map. exact Hr.
  - intros k Hk.
    assert (Hcells :
      Forall (fun b => Forall (fun r => length r = length (block_radial b))
                              (block_data b)) (concat blocks)).
    { apply Forall_concat. eapply Forall_impl; [|exact Hall].
      intros row [_ Hr]. exact Hr. }
    set (d := mk_speos_block 0 [] [] []).
    rewrite (nth_indep _ [] (block_radial d))
      by (rewrite length_map; lia).
    rewrite (nth_indep _ [] (block_data d))
      by (rewrite length_map; lia).
    rewrite !map_nth.
    rewrite Forall_forall in Hcells. apply Hcells. apply nth_In. lia.
Qed.

Lemma speos_reader_returns_consistent_blocks_witness :
  let sets :=
    Z.to_nat (nb_reflection_transmission flag_zero_result
              * nbAngleIncidence flag_zero_result) in
  let wavelengths := Z.to_nat (nbSampleRotation flag_zero_result) in
  length (scatterRadial_list flag_zero_result) = (sets * wavelengths)%nat /\
  length (scatterAzimuth_list flag_zero_result)
  = (sets * wavelengths)%nat /\
  length (bsdfData_list flag_zero_result) = (sets * wavelengths)%nat /\
  shape2 (tisData flag_zero_result) sets wavelengths /\
  forall k,
    (k < sets * wavelengths)%nat ->
    Forall (fun row =>
              length row
              = length (nth k (scatterRadial_list flag_zero_result) []))
           (nth k (bsdfData_list flag_zero_result) []).
Proof.
  apply (speos_reader_returns_consistent_blocks
           (lit "sample.brdf") flag_zero_file [] flag_zero_result).
  vm_compute. reflexivity.
Defined.

End MoreSpeosReaderProperties.

Section MoreWriterProperties.

Import PyQ PyStr Writers SpeosWriter ZemaxWriter WriterSpec WriterOutput.
Import WriterLabels Samples.
Local Open Scope R_scope.

(** X19.  For a scatter type that is neither [BRDF] nor [BTDF] the Speos
    data writer raises nothing and writes no value: whatever the array
    holds, each row of a block is its radial angle alone. *)
Theorem unknown_scatter_type_writes_no_values
        (nLines : list fragment) (scatterType : chars)
        (nbSampleRotation nbAngleIncidence : nat)
        (line_theta line_phi : list R)
        (bsdfDataSpeos : list (list (list (list R)))) :
  str_eq scatterType (lit "BRDF") = false ->
  str_eq scatterType (lit "BTDF") = false ->
  write_speos_data_bsdf nLines scatterType nbSampleRotation nbAngleIncidence
                        line_theta line_phi bsdfDataSpeos
  = Ok (nLines ++ speos_labels_out nbSampleRotation nbAngleIncidence
                                   line_theta line_phi).
Proof.
  intros Hr Ht. unfold write_speos_data_bsdf. cbv zeta.
  rewrite (forW_out (range nbSampleRotation) _
             (fun i => flat_map (fun j => speos_labels_block line_theta line_phi)
                                (range nbAngleIncidence))).
  { unfold bindW, append, appended. cbn [bind]. unfold speos_labels_out.
    reflexivity. }
  intros i _. apply forW_out. intros j _.
  rewrite (forW_out (range (length line_phi)) _
             (fun x => [[TAB; StrFloat (nth x line_phi 0)]])).
  2:{ intros x Hx. apply in_range in Hx.
      rewrite (lookup_nth line_phi x 0 Hx). rewrite bindW_liftW_Ok.
      reflexivity. }
  rewrite (forW_out (range (length line_theta)) _
             (fun k => [[StrFloat (nth k line_theta 0)]; [NL]])).
  { unfold bindW, append. cbn [bind]. unfold speos_labels_block.
    rewrite flat_map_singleton. do 2 f_equal. cbn [app].
    rewrite <- app_assoc. reflexivity. }
  intros k Hk. apply in_range in Hk.
  rewrite (lookup_nth line_theta k 0 Hk). rewrite bindW_liftW_Ok.
  rewrite (forW_out (range (length line_phi)) _ (fun _ => [])).
  { unfold bindW, append. cbn [bind].
    assert (E : flat_map (fun _ : nat => @nil fragment)
                         (range (length line_phi)) = []).
    { induction (range (length line_phi)); [reflexivity|assumption]. }
    rewrite E. reflexivity. }
  intros p _. rewrite Hr, Ht. reflexivity.
Qed.

Lemma unknown_scatter_type_writes_no_values_witness :
  write_speos_data_bsdf [] (lit "BSDF") 1 1 [0; 90] [0; 180; 360] []
  = Ok ([] ++ speos_labels_out 1 1 [0; 90] [0; 180; 360]).
Proof.
  apply (unknown_scatter_type_writes_no_values
           [] (lit "BSDF") 1 1 [0; 90] [0; 180; 360] []);
    reflexivity.
Defined.

Lemma forW_constant {A : Type} (xs : list A) (out : list fragment) :
  forW xs (fun _ => Ok (tt, out))
  = Ok (tt, concat (repeat out (length xs))).
Proof.
  rewrite (forW_emit xs (fun _ => out)).
  induction xs as [|x xs IH]; [reflexivity|].
  cbn [flat_map length repeat concat]. injection IH as ->. reflexivity.
Qed.

(** X20.  The Zemax data writer indexes its blocks by incidence angle only:
    what it writes for [n] sample rotations is what it writes for one,
    [n] times over, before the closing [DataEnd]. *)
Theorem zemax_blocks_repeat_per_rotation
        (index_wavelength index_RT n nbAngleIncidence : nat)
        (tisData : list (list R)) (shape2 shape3 : nat)
        (bsdfData : list (list (list (list R))))
        (one : list fragment) :
  write_zemax_data_bsdf index_wavelength index_RT 1 nbAngleIncidence
                        tisData shape2 shape3 bsdfData
  = Ok (one ++ [[T "DataEnd"; NL]]) ->
  write_zemax_data_bsdf index_wavelength index_RT n nbAngleIncidence
                        tisData shape2 shape3 bsdfData
  = Ok (concat (repeat one n) ++ [[T "DataEnd"; NL]]).
Proof.
  unfold write_zemax_data_bsdf.
  set (block := forW (range nbAngleIncidence) _).
  change (appended (bindW (forW (range 1) (fun _ => block))
                          (fun _ => append [T "DataEnd"; NL]))
          = Ok (one ++ [[T "DataEnd"; NL]]) ->
          appended (bindW (forW (range n) (fun _ => block))
                          (fun _ => append [T "DataEnd"; NL]))
          = Ok (concat (repeat one n) ++ [[T "DataEnd"; NL]])).
  destruct block as [[[] out]|e| |]; cbn; try discriminate.
  rewrite app_nil_r. intro H. injection H as H.
  apply app_inv_tail in H. subst out.
  rewrite forW_constant. unfold range. rewrite length_seq.
  reflexivity.
Qed.

Lemma zemax_blocks_repeat_per_rotation_witness :
  write_zemax_data_bsdf 0 0 3 1 [[50]] 2 1 [[ [[1]; [2]] ]]
  = Ok (concat (repeat [[T "TIS "; StrRound3 (50 / 100); NL];
                        [Sci3 1; TAB]; [Sci3 2; NL]] 3)
        ++ [[T "DataEnd"; NL]]).
Proof.
  apply (zemax_blocks_repeat_per_rotation
           0 0 3 1 [[50]] 2 1 [[ [[1]; [2]] ]]
           [[T "TIS "; StrRound3 (50 / 100); NL];
            [Sci3 1; TAB]; [Sci3 2; NL]]).
  reflexivity.
Defined.

End MoreWriterProperties.

Section MorePipelineProperties.

Import PyQ PyStr Reader ReaderSpec ZemaxReader.
Import Resampler Normalizer Precision Writers SpeosWriter WriterOutput Render.
Import ZemaxToSpeos Samples ZemaxReaderSamples NormalizerSamples.
Import ConversionSamples.
Local Open Scope string_scope.

Tactic Notation "run_step" hyp(H) ident(s) ident(a) ident(E) :=
  apply bindM_Ok in H; destruct H as (s & a & E & H).

(** X21.  The conversion of a Zemax file writes a file only when the reader
    has returned without a warning and both recommended steps are not
    zero; the file is named after the input, in lower case, with the two
    steps and the extension [.anisotropicbsdf], and its first line is the
    version 7.0 header, so the Speos reader stops at it. *)
Theorem conversion_writes_unreadable_file
        (n2s s2n : Q -> Q -> Q -> Q * Q)
        (nquad : list Q -> list Q -> block -> Q * Q)
        (str_float str_round3 format_sci3 : R -> chars)
        (inputFilepath text : chars) (log : list string)
        (outputFilepath : fragment) (nLines : list fragment) :
  run (convert_zemax_to_speos_bsdf n2s s2n nquad inputFilepath) text
  = (log, Ok (outputFilepath, nLines)) ->
  log = [] /\
  (exists z precisionTheta precisionPhi,
      run read_zemax_bsdf text = ([], Ok z) /\
      phi_theta_recommended_precision
        (scatterRadial z) (scatterAzimuth z)
        (ZemaxToSpeos.text (symmetry z))
      = Ok (precisionTheta, precisionPhi) /\
      ~ precisionTheta == 0 /\ ~ precisionPhi == 0 /\
      outputFilepath
      = [Text (lower (splitext_root inputFilepath)); T "_";
         StrFloat (Q2R precisionTheta); T "_"; StrFloat (Q2R precisionPhi);
         T ".anisotropicbsdf"]) /\
  (exists rest, nLines = speos_header_fragment :: rest) /\
  forall path,
    run (SpeosReader.read_speos_bsdf path)
        (file_text str_float str_round3 format_sci3 nLines)
    = (version_warnings, Exit).
Proof.
  unfold run.
  destruct (convert_zemax_to_speos_bsdf _ _ _ _ _) as [s' r] eqn:H.
  intro Hr. injection Hr as <- ->.
  unfold convert_zemax_to_speos_bsdf in H.
  run_step H s1 z E1. run_step H s2 precision E2.
  destruct precision as [precisionTheta precisionPhi].
  run_step H s3 converted E3.
  destruct converted as [[bsdfDataSpeos line_theta] line_phi].
  run_step H s4 normalized E4.
  destruct normalized as [normalizationBsdf bsdfDataSpeos'].
  run_step H s5 header E5. run_step H s6 lines E6.
  apply ret_Ok in H. destruct H as [-> H]. injection H as -> ->.
  apply lift_Ok in E2, E3, E4, E5, E6.
  destruct E2 as [-> E2]. destruct E3 as [-> E3]. destruct E4 as [-> E4].
  destruct E5 as [-> E5]. destruct E6 as [-> E6].
  pose proof (read_zemax_bsdf_silent _ _ _ E1) as Hsilent.
  cbn [printed] in Hsilent.
  assert (Hsteps : ~ precisionTheta == 0 /\ ~ precisionPhi == 0).
  { split; intro Hz;
      rewrite (zero_step_raises _ _ _ _ _ _ _ _ _ _ precisionTheta
                                precisionPhi) in E3;
      try discriminate; [left|right]; exact Hz. }
  destruct (write_speos_header_first _ _ _ _ _ _ _ _ _ E5) as [rest ->].
  destruct (write_speos_data_extends _ _ _ _ _ _ _ _ E6) as [more ->].
  split; [exact Hsilent|]. split.
  { exists z, precisionTheta, precisionPhi.
    split; [rewrite E1, Hsilent; reflexivity|].
    split; [exact E2|]. split; [apply Hsteps|]. split; [apply Hsteps|].
    reflexivity. }
  split; [exists (rest ++ more)%list; reflexivity|].
  intro path.
  set (tail := file_text str_float str_round3 format_sci3 (rest ++ more)).
  assert (Hlines :
    lines_of (file_text str_float str_round3 format_sci3
                        ((speos_header_fragment :: rest) ++ more))
    = (lit "OPTIS - Anisotropic BSDF surface file v7.0" ++ [newline])%list
        :: lines_of tail) by reflexivity.
  apply (read_speos_bsdf_rejects_old_version
           path _ _ (lit "v7.0") (lines_of tail) 7.0%Q Hlines);
    reflexivity.
Qed.

Lemma conversion_writes_unreadable_file_witness :
  [] = @nil string /\
  (exists z precisionTheta precisionPhi,
      run read_zemax_bsdf small_zemax_file = ([], Ok z) /\
      phi_theta_recommended_precision
        (scatterRadial z) (scatterAzimuth z)
        (ZemaxToSpeos.text (symmetry z))
      = Ok (precisionTheta, precisionPhi) /\
      ~ precisionTheta == 0 /\ ~ precisionPhi == 0 /\
      fst small_conversion
      = [Text (lower (splitext_root (lit "Plate.BSDF"))); T "_";
         StrFloat (Q2R precisionTheta); T "_"; StrFloat (Q2R precisionPhi);
         T ".anisotropicbsdf"]) /\
  (exists rest, snd small_conversion = speos_header_fragment :: rest) /\
  forall path,
    run (SpeosReader.read_speos_bsdf path)
        (file_text plain_float plain_float plain_float (snd small_conversion))
    = (version_warnings, Exit).
Proof.
  apply (conversion_writes_unreadable_file
           same_angles same_angles sum_of_samples
           plain_float plain_float plain_float
           (lit "Plate.BSDF") small_zemax_file []
           (fst small_conversion) (snd small_conversion)).
  reflexivity.
Defined.

(** X22.  A Zemax file whose radial axis has 361 samples or more, or whose
    plane-symmetrical azimuth axis has 721 to 1000 samples, is read but not
    converted: the recommended step is zero, the resampler divides by it,
    and the conversion ends in [ZeroDivisionError] before anything is
    written. *)
Theorem dense_file_is_not_converted
        (n2s s2n : Q -> Q -> Q -> Q * Q)
        (nquad : list Q -> list Q -> block -> Q * Q)
        (inputFilepath text : chars) (log : list string) (z : zemax_bsdf) :
  run read_zemax_bsdf text = (log, Ok z) ->
  (2 <= length (scatterRadial z))%nat ->
  (2 <= length (scatterAzimuth z))%nat ->
  (361 <= length (scatterRadial z))%nat \/
  (symmetry z = lit "PlaneSymmetrical" /\
   (721 <= length (scatterAzimuth z) <= 1000)%nat) ->
  run (convert_zemax_to_speos_bsdf n2s s2n nquad inputFilepath) text
  = ([], Raise ZeroDivisionError).
Proof.
  unfold run. intros Hread Hr Ha Hdense.
  destruct (read_zemax_bsdf _) as [s1 r] eqn:E1.
  injection Hread as Hlog ->.
  pose proof (read_zemax_bsdf_silent _ _ _ E1) as Hsilent.
  cbn [printed] in Hsilent.
  assert (Hd : (361 <= length (scatterRadial z))%nat \/
               (ZemaxToSpeos.text (symmetry z) = "PlaneSymmetrical" /\
                (721 <= length (scatterAzimuth z) <= 1000)%nat)).
  { destruct Hdense as [H|[H1 H2]]; [left; exact H|right].
    split; [|exact H2]. unfold ZemaxToSpeos.text. rewrite H1. reflexivity. }
  destruct (dense_axis_recommended _ _ _ Hr Ha Hd)
    as (precisionTheta & precisionPhi & Hrec & Hz).
  unfold convert_zemax_to_speos_bsdf.
  rewrite (bindM_step _ _ _ _ _ E1). rewrite Hrec.
  unfold bindM at 1. unfold lift at 1.
  rewrite (zero_step_raises _ _ _ _ _ _ _ _ _ _ _ _ Hz).
  unfold bindM, lift. rewrite Hsilent. reflexivity.
Qed.

Lemma dense_file_is_not_converted_witness :
  run (convert_zemax_to_speos_bsdf same_angles same_angles sum_of_samples
                                   (lit "Dense.bsdf"))
      dense_zemax_file
  = ([], Raise ZeroDivisionError).
Proof.
  apply (dense_file_is_not_converted
           same_angles same_angles sum_of_samples
           (lit "Dense.bsdf") dense_zemax_file [] dense_zemax_result).
  - vm_compute. reflexivity.
  - vm_compute. lia.
  - vm_compute. lia.
  - left. vm_compute. lia.
Defined.

End MorePipelineProperties.

Section MoreRoundTripProperties.

Import PyQ PyStr Reader ReaderSpec ZemaxReader.
Import Writers ZemaxWriter WriterSpec WriterOutput Render.
Import ZemaxHeaderWriter ZemaxFile Samples RoundTripSamples.
Local Open Scope char_scope.

(** [int(str(n))] is [n]. *)

Lemma digits_value_uint (d : Decimal.uint) (acc : Z) :
  digits_value (lit (NilEmpty.string_of_uint d)) acc
  = Some (uint_value d acc).
Proof.
  revert acc. induction d; intro acc; cbn [NilEmpty.string_of_uint lit
    list_ascii_of_string digits_value uint_value];
    try reflexivity;
    (etransitivity; [|apply IHd]); reflexivity.
Qed.

Lemma uint_value_revapp (d d' : Decimal.uint) :
  Z.of_N (DecimalPos.Unsigned.of_lu (Decimal.revapp d d'))
  = uint_value d (Z.of_N (DecimalPos.Unsigned.of_lu d')).
Proof.
  revert d'. induction d; intro d'; cbn [Decimal.revapp uint_value];
    try reflexivity;
    rewrite IHd; f_equal; cbn [DecimalPos.Unsigned.of_lu]; lia.
Qed.

Lemma uint_value_of_uint (d : Decimal.uint) : uint_value d 0 = Z.of_uint d.
Proof.
  unfold Z.of_uint. rewrite DecimalPos.Unsigned.of_uint_alt. unfold Decimal.rev.
  rewrite uint_value_revapp. reflexivity.
Qed.

Lemma digits_no_blank (d : Decimal.uint) :
  forallb (fun c => negb (is_space c)) (lit (NilEmpty.string_of_uint d))
  = true.
Proof. induction d; [reflexivity|..]; exact IHd. Qed.

Lemma lstrip_no_blank (s : chars) :
  forallb (fun c => negb (is_space c)) s = true -> lstrip s = s.
Proof.
  destruct s as [|c s]; [reflexivity|]. cbn [forallb lstrip].
  intro H. apply andb_true_iff in H. destruct H as [H _].
  apply negb_true_iff in H. rewrite H. reflexivity.
Qed.

Lemma forallb_rev {A : Type} (p : A -> bool) (l : list A) :
  forallb p (rev l) = forallb p l.
Proof.
  induction l as [|a l IH]; [reflexivity|]. cbn [rev forallb].
  rewrite forallb_app, IH. cbn [forallb]. rewrite andb_true_r.
  apply andb_comm.
Qed.

Lemma strip_no_blank (s : chars) :
  forallb (fun c => negb (is_space c)) s = true -> strip s = s.
Proof.
  intro H. unfold strip. rewrite (lstrip_no_blank s H).
  rewrite lstrip_no_blank by (rewrite forallb_rev; exact H).
  apply rev_involutive.
Qed.

Lemma int_digits (d : Decimal.uint) :
  d <> Decimal.Nil ->
  int (lit (NilEmpty.string_of_uint d)) = Ok (Z.of_uint d).
Proof.
  intro Hd. unfold int. rewrite (strip_no_blank _ (digits_no_blank d)).
  assert (Es : signed (lit (NilEmpty.string_of_uint d))
               = (false, lit (NilEmpty.string_of_uint d))).
  { destruct d; reflexivity. }
  rewrite Es, digits_value_uint, uint_value_of_uint.
  destruct d; try reflexivity. contradiction.
Qed.

Lemma int_str_int (n : Z) : int (str_int n) = Ok n.
Proof.
  unfold str_int. destruct n as [|p|p]; [reflexivity| |].
  - cbn [Z.to_int NilZero.string_of_int]. unfold NilZero.string_of_uint.
    pose proof (DecimalPos.Unsigned.to_uint_nonnil p) as Hp.
    pose proof (DecimalPos.Unsigned.of_to p) as Hv.
    destruct (Pos.to_uint p) eqn:E; try contradiction;
      rewrite <- E in *; rewrite int_digits by exact Hp;
      unfold Z.of_uint; rewrite Hv; reflexivity.
  - cbn [Z.to_int NilZero.string_of_int]. unfold NilZero.string_of_uint.
    pose proof (DecimalPos.Unsigned.to_uint_nonnil p) as Hp.
    pose proof (DecimalPos.Unsigned.of_to p) as Hv.
    assert (E : int ("-" :: lit (NilEmpty.string_of_uint (Pos.to_uint p)))
                = Ok (Z.neg p)).
    { unfold int.
      rewrite (strip_no_blank ("-" :: _)) by apply digits_no_blank.
      cbn [signed]. rewrite digits_value_uint, uint_value_of_uint.
      unfold Z.of_uint. rewrite Hv.
      destruct (Pos.to_uint p); try contradiction; reflexivity. }
    destruct (Pos.to_uint p) eqn:E'; try contradiction; exact E.
Qed.

Lemma str_int_no_blank (n : Z) :
  forallb (fun c => negb (is_space c)) (str_int n) = true.
Proof.
  unfold str_int. destruct n as [|p|p]; [reflexivity| |];
    cbn [Z.to_int NilZero.string_of_int]; unfold NilZero.string_of_uint;
    destruct (Pos.to_uint p) eqn:E; try reflexivity;
    rewrite <- E; apply (digits_no_blank (Pos.to_uint p)).
Qed.

Lemma no_blank_plain (s : chars) :
  forallb (fun c => negb (is_space c)) s = true -> plain s = true.
Proof.
  unfold plain. intro H. rewrite forallb_forall in *. intros c Hc.
  specialize (H c Hc). apply negb_true_iff in H. apply negb_true_iff.
  destruct (Ascii.eqb_spec c newline) as [->|]; [discriminate H|reflexivity].
Qed.

Lemma token_no_blank (s : chars) :
  token s = true -> forallb (fun c => negb (is_space c)) s = true.
Proof. destruct s; [discriminate|]. exact (fun H => H). Qed.

Lemma token_plain (s : chars) : token s = true -> plain s = true.
Proof. intro H. apply no_blank_plain, token_no_blank, H. Qed.

Lemma plain_app (s t : chars) :
  plain (s ++ t) = (plain s && plain t)%bool.
Proof. apply forallb_app. Qed.

(** The lines of a text made of whole lines. *)

Lemma lines_from_plain (b rest cur : chars) :
  plain b = true ->
  lines_from (b ++ newline :: rest) cur
  = (rev cur ++ b ++ [newline]) :: lines_from rest [].
Proof.
  revert cur. induction b as [|c b IH]; intros cur H.
  - cbn [app lines_from]. rewrite Ascii.eqb_refl. reflexivity.
  - cbn [plain forallb] in H. apply andb_true_iff in H.
    destruct H as [Hc Hb]. apply negb_true_iff in Hc.
    cbn [app lines_from]. rewrite Hc. rewrite (IH _ Hb).
    cbn [rev]. rewrite <- app_assoc. reflexivity.
Qed.

Lemma lines_of_whole (bodies : list chars) :
  forallb plain bodies = true ->
  lines_of (flat_map (fun b => b ++ [newline]) bodies)
  = map (fun b => b ++ [newline]) bodies.
Proof.
  unfold lines_of. induction bodies as [|b bodies IH]; [reflexivity|].
  cbn [forallb flat_map map]. intro H. apply andb_true_iff in H.
  destruct H as [Hb Hbs]. rewrite <- app_assoc. cbn [app].
  rewrite (lines_from_plain _ _ _ Hb). rewrite (IH Hbs). reflexivity.
Qed.

(** [split()] on pieces that end in a blank. *)

Lemma split_blank_run (t s cur : chars) :
  forallb (fun c => negb (is_space c)) t = true ->
  split_blank (t ++ s) cur = split_blank s (rev t ++ cur).
Proof.
  revert cur. induction t as [|c t IH]; intros cur H; [reflexivity|].
  cbn [forallb] in H. apply andb_true_iff in H. destruct H as [Hc Ht].
  apply negb_true_iff in Hc. cbn [app split_blank]. rewrite Hc.
  rewrite (IH _ Ht). cbn [rev]. rewrite <- app_assoc. reflexivity.
Qed.

Lemma split_blank_piece (t s : chars) (c : ascii) :
  token t = true -> is_space c = true ->
  split_blank (t ++ c :: s) [] = t :: split_blank s [].
Proof.
  intros Ht Hc. rewrite (split_blank_run _ _ _ (token_no_blank _ Ht)).
  rewrite app_nil_r. cbn [split_blank]. rewrite Hc.
  destruct t as [|a t]; [discriminate|].
  destruct (rev (a :: t)) as [|x r] eqn:E.
  - apply (f_equal (@length ascii)) in E. rewrite length_rev in E.
    discriminate.
  - rewrite <- E, rev_involutive. reflexivity.
Qed.

Lemma split_tabbed {A : Type} (f : A -> chars) (xs : list A) (s : chars) :
  (forall x, In x xs -> token (f x) = true) ->
  split_blank (flat_map (fun x => f x ++ [tab]) xs ++ s) []
  = map f xs ++ split_blank s [].
Proof.
  induction xs as [|x xs IH]; intro H; [reflexivity|].
  cbn [flat_map map]. rewrite <- !app_assoc. cbn [app].
  rewrite split_blank_piece; [|apply H; left; reflexivity|reflexivity].
  rewrite IH; [reflexivity|].
  intros y Hy. apply H. right. exact Hy.
Qed.

Lemma for_each_map {A B C : Type} (f : A -> B) (body : B -> result C)
      (g : A -> C) (xs : list A) :
  (forall x, In x xs -> body (f x) = Ok (g x)) ->
  for_each (map f xs) body = Ok (map g xs).
Proof.
  induction xs as [|x xs IH]; intro H; [reflexivity|].
  cbn [map for_each]. rewrite (H x (or_introl eq_refl)). cbn [bind].
  rewrite IH; [reflexivity|]. intros y Hy. apply H. right. exact Hy.
Qed.

(** A spelling that [float] accepts does not start a comment. *)
Lemma float_not_comment (s : chars) (v : Q) :
  token s = true -> float s = Ok v -> uncommented s.
Proof.
  intros Ht Hf. destruct s as [|c s]; [discriminate|]. unfold uncommented.
  destruct (Ascii.eqb_spec c "#") as [->|]; [|reflexivity].
  exfalso. unfold float in Hf.
  rewrite (strip_no_blank _ (token_no_blank _ Ht)) in Hf.
  cbn [signed break Ascii.eqb Bool.eqb orb] in Hf.
  destruct (break _ s) as [a b].
  cbn [break Ascii.eqb Bool.eqb] in Hf.
  destruct (break _ a) as [w fr]. cbn [app digits_value is_digit] in Hf.
  cbn in Hf. discriminate.
Qed.

(** What the header writer appends. *)

Lemma axis_written (n : nat) (xs : list R) :
  (n <= length xs)%nat ->
  forW (range n) (fun i =>
    bindW (liftW (lookup xs i)) (fun x => append [StrFloat x; TAB]))
  = Ok (tt, axis_out n xs).
Proof.
  intro Hn. unfold axis_out.
  rewrite (forW_out (range n) _
             (fun i => [[StrFloat (nth i xs 0%R); TAB]])).
  { rewrite flat_map_singleton. reflexivity. }
  intros i Hi. apply in_range in Hi.
  rewrite (lookup_nth xs i 0%R) by lia. rewrite bindW_liftW_Ok.
  reflexivity.
Qed.

Lemma write_zemax_header_out
      (scatterType symmetry : chars) (currentwavelength : R)
      (nbSampleRotation nbAngleIncidence : nat)
      (sampleRotation angleIncidence line_theta line_phi : list R) :
  (nbSampleRotation <= length sampleRotation)%nat ->
  (nbAngleIncidence <= length angleIncidence)%nat ->
  write_zemax_header_bsdf scatterType symmetry currentwavelength
                          nbSampleRotation nbAngleIncidence
                          sampleRotation angleIncidence line_theta line_phi
  = Ok (zemax_header_out scatterType symmetry currentwavelength
                         nbSampleRotation nbAngleIncidence
                         sampleRotation angleIncidence line_theta line_phi).
Proof.
  intros Hn Hm. unfold write_zemax_header_bsdf. cbv zeta.
  rewrite (axis_written _ _ Hn), (axis_written _ _ Hm).
  rewrite (axis_written _ line_phi (le_n _)).
  rewrite (axis_written _ line_theta (le_n _)).
  reflexivity.
Qed.

(** Whenever a writer returns, what it has appended is the output above. *)

Lemma forW_returns {A : Type} (xs : list A) (body : A -> W unit)
      (g : A -> list fragment) (out : list fragment) :
  (forall x o, In x xs -> body x = Ok (tt, o) -> o = g x) ->
  forW xs body = Ok (tt, out) -> out = flat_map g xs.
Proof.
  revert out. induction xs as [|x xs IH]; intros out H; cbn [forW flat_map].
  - intro E. injection E as <-. reflexivity.
  - unfold bindW at 1. destruct (body x) as [[[] o]|e| |] eqn:Ex;
      cbn [bind]; try discriminate.
    destruct (forW xs body) as [[[] o2]|e| |] eqn:Exs;
      cbn [bind]; try discriminate.
    intro E. injection E as <-.
    rewrite (H x o (or_introl eq_refl) Ex).
    rewrite (IH o2 (fun y o' Hy => H y o' (or_intror Hy)) eq_refl).
    reflexivity.
Qed.

Lemma looked_up {A : Type} (xs : list A) (i : nat) (d : A)
      (k : A -> W unit) (o : list fragment) :
  bindW (liftW (lookup xs i)) k = Ok (tt, o) ->
  lookup xs i = Ok (nth i xs d) /\ k (nth i xs d) = Ok (tt, o).
Proof.
  destruct (lookup xs i) as [x|e| |] eqn:E; try discriminate.
  rewrite bindW_liftW_Ok. intro H.
  destruct (lookup_Ok_nth xs i d x E) as [_ <-]. split; [reflexivity|exact H].
Qed.

Lemma axis_returns (n : nat) (xs : list R) (out : list fragment) :
  forW (range n) (fun i =>
    bindW (liftW (lookup xs i)) (fun x => append [StrFloat x; TAB]))
  = Ok (tt, out) ->
  out = axis_out n xs.
Proof.
  intro H. unfold axis_out. rewrite <- flat_map_singleton.
  refine (forW_returns _ _ _ _ _ H); intros i o _ Hi; cbv beta in Hi |- *.
  apply (looked_up xs i 0%R) in Hi. destruct Hi as [_ Hi].
  injection Hi as <-. reflexivity.
Qed.

Lemma write_zemax_header_returns
      (scatterType symmetry : chars) (currentwavelength : R)
      (nbSampleRotation nbAngleIncidence : nat)
      (sampleRotation angleIncidence line_theta line_phi : list R)
      (header : list fragment) :
  write_zemax_header_bsdf scatterType symmetry currentwavelength
                          nbSampleRotation nbAngleIncidence
                          sampleRotation angleIncidence line_theta line_phi
  = Ok header ->
  header = zemax_header_out scatterType symmetry currentwavelength
                            nbSampleRotation nbAngleIncidence
                            sampleRotation angleIncidence line_theta line_phi.
Proof.
  unfold write_zemax_header_bsdf. cbv zeta.
  destruct (forW (range nbSampleRotation) _) as [[[] o1]|e| |] eqn:E1;
    try discriminate.
  destruct (forW (range nbAngleIncidence) _) as [[[] o2]|e| |] eqn:E2;
    try discriminate.
  destruct (forW (range (length line_phi)) _) as [[[] o3]|e| |] eqn:E3;
    try discriminate.
  destruct (forW (range (length line_theta)) _) as [[[] o4]|e| |] eqn:E4;
    try discriminate.
  apply axis_returns in E1, E2, E3, E4. subst o1 o2 o3 o4.
  intro H. injection H as <-. reflexivity.
Qed.

Lemma lookup4_value (a : list (list (list (list R)))) (i j k l : nat)
      (v : R) :
  SpeosWriter.lookup4 a i j k l = Ok v -> v = value4 a i j k l.
Proof.
  unfold SpeosWriter.lookup4, value4.
  destruct (lookup a i) as [ai| | |] eqn:E1; try discriminate.
  destruct (lookup_Ok_nth a i [] ai E1) as [_ <-]. cbn [bind].
  destruct (lookup (nth i a []) j) as [aij| | |] eqn:E2; try discriminate.
  destruct (lookup_Ok_nth _ j [] aij E2) as [_ <-]. cbn [bind].
  destruct (lookup (nth j (nth i a []) []) k) as [aijk| | |] eqn:E3;
    try discriminate.
  destruct (lookup_Ok_nth _ k [] aijk E3) as [_ <-]. cbn [bind].
  intro E4. destruct (lookup_Ok_nth _ l 0%R v E4) as [_ <-]. reflexivity.
Qed.

Lemma cell_returns (a : list (list (list (list R)))) (i j k l : nat)
      (sep : piece) (o : list fragment) :
  bindW (liftW (SpeosWriter.lookup4 a i j k l))
        (fun v => append [Sci3 v; sep])
  = Ok (tt, o) ->
  o = [[Sci3 (value4 a i j k l); sep]].
Proof.
  destruct (SpeosWriter.lookup4 a i j k l) as [v| | |] eqn:E;
    try discriminate.
  rewrite bindW_liftW_Ok. intro H. injection H as <-.
  rewrite (lookup4_value _ _ _ _ _ _ E). reflexivity.
Qed.

Lemma write_zemax_data_returns
      (index_wavelength index_RT nbSampleRotation nbAngleIncidence : nat)
      (tisData : list (list R)) (shape2 shape3 : nat)
      (bsdfData : list (list (list (list R)))) (data : list fragment) :
  write_zemax_data_bsdf index_wavelength index_RT nbSampleRotation
                        nbAngleIncidence tisData shape2 shape3 bsdfData
  = Ok data ->
  data = zemax_data_out index_wavelength index_RT nbSampleRotation
                        nbAngleIncidence tisData shape2 shape3 bsdfData.
Proof.
  unfold write_zemax_data_bsdf, zemax_data_out.
  destruct (forW (range nbSampleRotation) _) as [[[] o]|e| |] eqn:E;
    try discriminate.
  intro H. injection H as <-. f_equal.
  refine (forW_returns _ _ _ _ _ E); intros i oi _ Hi; cbv beta in Hi |- *.
  refine (forW_returns _ _ _ _ _ Hi); intros j oj _ Hj; cbv beta in Hj |- *.
  apply (looked_up tisData j []) in Hj. destruct Hj as [_ Hj].
  apply (looked_up (nth j tisData []) index_wavelength 0%R) in Hj.
  destruct Hj as [_ Hj]. unfold zemax_block_out.
  unfold bindW at 1 in Hj. unfold append at 1 in Hj. cbn [bind] in Hj.
  destruct (forW (range shape3) _) as [[[] rows]|e| |] eqn:Er;
    try discriminate.
  cbn [bind] in Hj. injection Hj as <-. cbn [app]. f_equal.
  refine (forW_returns _ _ _ _ _ Er); intros k ok _ Hk; cbv beta in Hk |- *.
  unfold bindW at 1 in Hk.
  destruct (forW (range (shape2 - 1)) _) as [[[] cells]|e| |] eqn:Ec;
    try discriminate.
  cbn [bind] in Hk.
  destruct (bindW (liftW (SpeosWriter.lookup4 _ _ _ _ _)) _)
    as [[[] final]|e| |] eqn:Ef; try discriminate.
  cbn [bind] in Hk. injection Hk as <-.
  apply cell_returns in Ef. subst final.
  unfold zemax_row_out, zemax_value. f_equal.
  rewrite <- flat_map_singleton.
  refine (forW_returns _ _ _ _ _ Ec); intros l ol _ Hl; cbv beta in Hl |- *.
  apply cell_returns in Hl. exact Hl.
Qed.

(** The text of the written file, line by line. *)

Lemma flat_map_nested {A B C : Type} (f : B -> list C) (g : A -> list B)
      (l : list A) :
  flat_map f (flat_map g l) = flat_map (fun x => flat_map f (g x)) l.
Proof.
  induction l as [|a l IH]; [reflexivity|].
  cbn [flat_map]. rewrite flat_map_app, IH. reflexivity.
Qed.

Lemma flat_map_mapped {A B C : Type} (f : B -> list C) (g : A -> B)
      (l : list A) :
  flat_map f (map g l) = flat_map (fun x => f (g x)) l.
Proof.
  induction l as [|a l IH]; [reflexivity|].
  cbn [map flat_map]. rewrite IH. reflexivity.
Qed.

Section WrittenText.

Set Warnings "-notation-for-abbreviation".

Variables str_float str_round3 format_sci3 : R -> chars.

Local Notation text := (file_text str_float str_round3 format_sci3).
Local Notation whole := (flat_map (fun b : chars => b ++ [newline])).

Lemma text_app (a b : list fragment) : text (a ++ b) = text a ++ text b.
Proof. apply flat_map_app. Qed.

Lemma text_axis (n : nat) (xs : list R) :
  text (axis_out n xs) = axis_line str_float n xs.
Proof.
  unfold file_text, axis_out, axis_line. rewrite flat_map_mapped.
  apply flat_map_ext. intro i. reflexivity.
Qed.

Lemma text_header
      (scatterType symmetry : chars) (currentwavelength : R)
      (nbSampleRotation nbAngleIncidence : nat)
      (sampleRotation angleIncidence line_theta line_phi : list R) :
  text (zemax_header_out scatterType symmetry currentwavelength
                         nbSampleRotation nbAngleIncidence
                         sampleRotation angleIncidence line_theta line_phi)
  = whole (header_lines str_float scatterType symmetry currentwavelength
                        nbSampleRotation nbAngleIncidence
                        sampleRotation angleIncidence line_theta line_phi).
Proof.
  unfold zemax_header_out, header_lines.
  rewrite !text_app, !text_axis.
  unfold file_text. cbn [flat_map render_piece T NL TAB].
  rewrite <- !app_assoc. reflexivity.
Qed.

Variables index_wavelength index_RT nbAngleIncidence : nat.
Variable tisData : list (list R).
Variables shape2 shape3 : nat.
Variable bsdfData : list (list (list (list R))).

Local Notation row_line :=
  (row_line format_sci3 index_wavelength index_RT nbAngleIncidence
            shape2 bsdfData).
Local Notation block_lines :=
  (block_lines str_round3 format_sci3 index_wavelength index_RT
               nbAngleIncidence tisData shape2 shape3 bsdfData).

Lemma text_row (j k : nat) :
  text (zemax_row_out index_wavelength index_RT nbAngleIncidence
                      shape2 bsdfData j k)
  = row_line j k ++ [newline].
Proof.
  unfold zemax_row_out, ZemaxFile.row_line. rewrite text_app.
  unfold file_text. rewrite flat_map_mapped.
  cbn [flat_map render_piece NL TAB]. rewrite !app_nil_r.
  rewrite <- !app_assoc. f_equal.
Qed.

Lemma text_block (j : nat) :
  text (zemax_block_out index_wavelength index_RT nbAngleIncidence
                        tisData shape2 shape3 bsdfData j)
  = whole (block_lines j).
Proof.
  unfold zemax_block_out, ZemaxFile.block_lines.
  unfold file_text. cbn [flat_map]. f_equal.
  rewrite flat_map_nested, flat_map_mapped.
  apply flat_map_ext. intro k. apply text_row.
Qed.

Lemma text_data (nbSampleRotation : nat) :
  text (zemax_data_out index_wavelength index_RT nbSampleRotation
                       nbAngleIncidence tisData shape2 shape3 bsdfData)
  = whole (data_lines str_round3 format_sci3 index_wavelength index_RT
                      nbAngleIncidence tisData shape2 shape3 bsdfData
                      nbSampleRotation).
Proof.
  unfold zemax_data_out, data_lines. rewrite text_app, flat_map_app.
  f_equal. unfold file_text. rewrite !flat_map_nested.
  apply flat_map_ext. intro i.
  apply flat_map_ext. intro j. apply text_block.
Qed.

End WrittenText.

(** Reading the written lines. *)

Lemma uncommented_app (l t : chars) : uncommented l -> uncommented (l ++ t).
Proof. destruct l; [contradiction|]. exact (fun H => H). Qed.

Lemma read_uncommented_take (l : chars) (rest : list chars)
      (log : list string) :
  uncommented l ->
  read_uncommented (mk_state (l :: rest) log) = (mk_state rest log, Ok l).
Proof.
  destruct l as [|c l]; [contradiction|]. unfold uncommented. intro H.
  unfold read_uncommented. cbn [unread printed skip_comments].
  rewrite H. reflexivity.
Qed.

Lemma read_uncommented_skip (l : chars) (rest : list chars)
      (log : list string) :
  commented l ->
  read_uncommented (mk_state (l :: rest) log)
  = read_uncommented (mk_state rest log).
Proof.
  destruct l as [|c l]; [contradiction|]. unfold commented. intro H.
  unfold read_uncommented. cbn [unread printed skip_comments].
  rewrite H. reflexivity.
Qed.

Lemma bindM_lift_Ok {A B : Type} (a : A) (k : A -> M B) (s : state) :
  bindM (lift (Ok a)) k s = k a s.
Proof. reflexivity. Qed.

Lemma map_flat_map {A B C : Type} (f : B -> C) (g : A -> list B)
      (l : list A) :
  map f (flat_map g l) = flat_map (fun x => map f (g x)) l.
Proof.
  induction l as [|a l IH]; [reflexivity|].
  cbn [flat_map]. rewrite map_app, IH. reflexivity.
Qed.

Lemma plain_flat_map {A : Type} (f : A -> chars) (xs : list A) :
  (forall x, In x xs -> plain (f x) = true) ->
  plain (flat_map f xs) = true.
Proof.
  induction xs as [|x xs IH]; intro H; [reflexivity|].
  cbn [flat_map]. rewrite plain_app, (H x (or_introl eq_refl)).
  apply IH. intros y Hy. apply H. right. exact Hy.
Qed.

Lemma forallb_flat_map {A B : Type} (p : B -> bool) (g : A -> list B)
      (xs : list A) :
  (forall x, In x xs -> forallb p (g x) = true) ->
  forallb p (flat_map g xs) = true.
Proof.
  induction xs as [|x xs IH]; intro H; [reflexivity|].
  cbn [flat_map]. rewrite forallb_app, (H x (or_introl eq_refl)).
  apply IH. intros y Hy. apply H. right. exact Hy.
Qed.

Lemma slice_line (k : nat) (body : chars) :
  slice k (body ++ [newline]) = skipn k body.
Proof. unfold slice, drop, drop_last. rewrite removelast_last. reflexivity. Qed.

Lemma lstrip_blanks (b s : chars) :
  forallb is_space b = true -> lstrip (b ++ s) = lstrip s.
Proof.
  induction b as [|c b IH]; [reflexivity|]. cbn [forallb app lstrip].
  intro H. apply andb_true_iff in H. destruct H as [Hc Hb].
  rewrite Hc. exact (IH Hb).
Qed.

Lemma int_after_blanks (b s : chars) :
  forallb is_space b = true -> int (b ++ s) = int s.
Proof.
  intro H. unfold int, strip. rewrite (lstrip_blanks _ _ H). reflexivity.
Qed.

Lemma read_count_line (offset : nat) (name : chars) (n : Z)
      (rest : list chars) (log : list string) :
  uncommented name ->
  (offset <= length name)%nat ->
  forallb is_space (skipn offset name) = true ->
  read_count offset (mk_state (((name ++ str_int n) ++ [newline]) :: rest) log)
  = (mk_state rest log, Ok n).
Proof.
  intros Hc Hlen Hb. unfold read_count.
  rewrite (bindM_step _ _ _ _ _
             (read_uncommented_take _ rest log
                (uncommented_app _ _ (uncommented_app _ _ Hc)))).
  unfold lift. rewrite slice_line, skipn_app.
  replace (offset - length name)%nat with 0%nat by lia. cbn [skipn].
  rewrite (int_after_blanks _ _ Hb), int_str_int. reflexivity.
Qed.

Lemma dimension_of_nat (n : nat) : dimension (Z.of_nat n) = Ok n.
Proof.
  unfold dimension. destruct (Z.ltb_spec (Z.of_nat n) 0) as [H|H]; [lia|].
  rewrite Nat2Z.id. reflexivity.
Qed.

Lemma drop_empty_tail_tokens (toks : list chars) :
  toks <> [] -> (forall t, In t toks -> token t = true) ->
  drop_empty_tail (rev toks) = Ok toks.
Proof.
  intros Hne Ht. destruct (rev toks) as [|t r] eqn:E.
  - apply (f_equal (@length chars)) in E. rewrite length_rev in E.
    destruct toks; [contradiction|discriminate].
  - assert (Hin : In t toks).
    { apply in_rev. rewrite E. left. reflexivity. }
    specialize (Ht t Hin). cbn [drop_empty_tail].
    destruct t as [|c t]; [discriminate|].
    rewrite <- E, rev_involutive. reflexivity.
Qed.

Lemma range_last (n : nat) :
  (0 < n)%nat -> range n = range (n - 1) ++ [(n - 1)%nat].
Proof.
  intro H. unfold range. replace n with (S (n - 1)) at 1 by lia.
  rewrite seq_S. reflexivity.
Qed.

Lemma for_eachM_lines {A B : Type} (xs : list A) (body : A -> M B)
      (lines : A -> list chars) (g : A -> B) (log : list string) :
  (forall x rest,
      In x xs ->
      body x (mk_state (lines x ++ rest) log) = (mk_state rest log, Ok (g x)))
  ->
  forall rest,
    for_eachM xs body (mk_state (flat_map lines xs ++ rest) log)
    = (mk_state rest log, Ok (map g xs)).
Proof.
  induction xs as [|x xs IH]; intros H rest; [reflexivity|].
  cbn [for_eachM flat_map map]. rewrite <- app_assoc.
  rewrite (bindM_step _ _ _ _ _ (H x _ (or_introl eq_refl))).
  rewrite (bindM_step _ _ _ _ _
             (IH (fun y r Hy => H y r (or_intror Hy)) rest)).
  reflexivity.
Qed.

Section ReadBack.

Set Warnings "-notation-for-abbreviation".

Variables str_float str_round3 format_sci3 : R -> chars.
Variables float_of round3_of sci3_of : R -> Q.
Hypothesis float_spelled : spelled str_float float_of.
Hypothesis round3_spelled : spelled str_round3 round3_of.
Hypothesis sci3_spelled : spelled format_sci3 sci3_of.

Local Notation axis_line := (axis_line str_float).

Lemma split_axis_line (n : nat) (xs : list R) :
  split (axis_line n xs)
  = map (fun i => str_float (nth i xs 0%R)) (range n).
Proof.
  unfold split, ZemaxFile.axis_line.
  rewrite <- (app_nil_r (flat_map _ _)).
  rewrite (split_tabbed (fun i => str_float (nth i xs 0%R))).
  - apply app_nil_r.
  - intros i _. apply float_spelled.
Qed.

Lemma axis_line_uncommented (n : nat) (xs : list R) :
  (0 < n)%nat -> uncommented (axis_line n xs ++ [newline]).
Proof.
  intro Hn. apply uncommented_app. unfold ZemaxFile.axis_line, range.
  destruct n as [|n]; [lia|]. cbn [seq flat_map].
  do 2 apply uncommented_app.
  destruct (float_spelled (nth 0 xs 0%R)) as [Ht Hf].
  exact (float_not_comment _ _ Ht Hf).
Qed.

Lemma read_values_line (n : nat) (xs : list R) (warning : string)
      (rest : list chars) (log : list string) :
  (0 < n)%nat ->
  read_values (Z.of_nat n) warning
              (mk_state ((axis_line n xs ++ [newline]) :: rest) log)
  = (mk_state rest log,
     Ok (Some (map (fun i => float_of (nth i xs 0%R)) (range n)))).
Proof.
  intro Hn. unfold read_values.
  rewrite (bindM_step _ _ _ _ _
             (read_uncommented_take _ rest log
                                    (axis_line_uncommented n xs Hn))).
  unfold drop_last. rewrite removelast_last, split_axis_line.
  rewrite drop_empty_tail_tokens.
  2:{ intro E. apply (f_equal (@length chars)) in E.
      rewrite length_map, length_range in E. cbn [length] in E. lia. }
  2:{ intros t Ht. apply in_map_iff in Ht. destruct Ht as (i & <- & _).
      apply float_spelled. }
  unfold bindM at 1. unfold lift at 1.
  rewrite length_map, length_range, Z.eqb_refl. cbn [negb].
  rewrite (for_each_map _ float (fun i => float_of (nth i xs 0%R))).
  2:{ intros i _. apply float_spelled. }
  reflexivity.
Qed.

Lemma axis_line_plain (n : nat) (xs : list R) :
  plain (axis_line n xs) = true.
Proof.
  apply plain_flat_map. intros i _. rewrite plain_app.
  rewrite (token_plain _ (proj1 (float_spelled _))). reflexivity.
Qed.

Lemma header_lines_plain
      (scatterType symmetry : chars) (currentwavelength : R)
      (nbSampleRotation nbAngleIncidence : nat)
      (sampleRotation angleIncidence line_theta line_phi : list R) :
  plain scatterType = true -> plain symmetry = true ->
  forallb plain
          (header_lines str_float scatterType symmetry currentwavelength
                        nbSampleRotation nbAngleIncidence
                        sampleRotation angleIncidence line_theta line_phi)
  = true.
Proof.
  intros Hs Hy. unfold header_lines. cbn [forallb].
  rewrite !plain_app, !axis_line_plain, Hs, Hy.
  rewrite !(no_blank_plain _ (str_int_no_blank _)).
  rewrite (token_plain _ (proj1 (float_spelled _))). reflexivity.
Qed.

Variables index_wavelength index_RT nbAngleIncidence : nat.
Variable tisData : list (list R).
Variables shape2 shape3 : nat.
Variable bsdfData : list (list (list (list R))).
Hypothesis shape2_positive : (0 < shape2)%nat.

Local Notation value :=
  (zemax_value index_wavelength index_RT nbAngleIncidence bsdfData).
Local Notation row_line :=
  (row_line format_sci3 index_wavelength index_RT nbAngleIncidence
            shape2 bsdfData).
Local Notation block_lines :=
  (block_lines str_round3 format_sci3 index_wavelength index_RT
               nbAngleIncidence tisData shape2 shape3 bsdfData).

Lemma split_row_line (j k : nat) :
  split (row_line j k ++ [newline])
  = map (fun l => format_sci3 (value j l k)) (range shape2).
Proof.
  unfold split, ZemaxFile.row_line. rewrite <- app_assoc.
  rewrite (split_tabbed (fun l => format_sci3 (value j l k))).
  2:{ intros l _. apply sci3_spelled. }
  rewrite split_blank_piece; [|apply sci3_spelled|reflexivity].
  rewrite (range_last shape2 shape2_positive).
  rewrite map_app. reflexivity.
Qed.

Lemma zemax_row_read (j k : nat) (rest : list chars) (log : list string) :
  bindM readline (fun dataLine => lift (assign_row shape2 (split dataLine)))
        (mk_state ((row_line j k ++ [newline]) :: rest) log)
  = (mk_state rest log,
     Ok (map (fun l => sci3_of (value j l k)) (range shape2))).
Proof.
  unfold bindM, readline. cbn [unread printed]. unfold lift, assign_row.
  rewrite split_row_line.
  rewrite (for_each_map _ float (fun l => sci3_of (value j l k))).
  2:{ intros l _. apply sci3_spelled. }
  cbn [bind]. rewrite length_map, length_range, Nat.eqb_refl. reflexivity.
Qed.

Lemma zemax_block_read (j : nat) (rest : list chars) (log : list string) :
  bindM readline (fun tisLine =>
  bindM (lift (float (slice 4 tisLine))) (fun tis =>
  bindM (for_eachM (range shape3) (fun k =>
           bindM readline (fun dataLine =>
           lift (assign_row shape2 (split dataLine))))) (fun rows =>
  ret (tis, rows))))
        (mk_state (map (fun b => b ++ [newline]) (block_lines j) ++ rest) log)
  = (mk_state rest log,
     Ok (round3_of (tis_at index_wavelength tisData j / 100)%R,
         map (fun k => map (fun l => sci3_of (value j l k)) (range shape2))
             (range shape3))).
Proof.
  unfold ZemaxFile.block_lines. cbn [map app].
  unfold bindM at 1. unfold readline at 1. cbn [unread printed].
  rewrite slice_line. cbn [skipn lit list_ascii_of_string app].
  unfold bindM at 1. unfold lift at 1.
  rewrite (proj2 (round3_spelled _)).
  rewrite map_map, <- flat_map_singleton.
  rewrite (bindM_step _ _ _ _ _
             (for_eachM_lines
                (range shape3) _ (fun k => [row_line j k ++ [newline]])
                (fun k => map (fun l => sci3_of (value j l k)) (range shape2))
                log (fun k r _ => zemax_row_read j k r log) rest)).
  reflexivity.
Qed.

Lemma data_lines_plain (nbSampleRotation : nat) :
  forallb plain
          (data_lines str_round3 format_sci3 index_wavelength index_RT
                      nbAngleIncidence tisData shape2 shape3 bsdfData
                      nbSampleRotation)
  = true.
Proof.
  unfold data_lines. rewrite forallb_app.
  change (forallb plain [lit "DataEnd"]) with true. rewrite andb_true_r.
  apply forallb_flat_map. intros i _. apply forallb_flat_map. intros j _.
  unfold ZemaxFile.block_lines. cbn [forallb]. rewrite plain_app.
  rewrite (token_plain _ (proj1 (round3_spelled _))). cbn [plain forallb andb].
  apply forallb_forall. intros line Hl. apply in_map_iff in Hl.
  destruct Hl as (k & <- & _). unfold ZemaxFile.row_line.
  rewrite plain_app, (token_plain _ (proj1 (sci3_spelled _))).
  rewrite andb_true_r. apply plain_flat_map. intros l _.
  rewrite plain_app, (token_plain _ (proj1 (sci3_spelled _))). reflexivity.
Qed.

Lemma zemax_blocks_read (nbSampleRotation : nat) (rest : list chars)
      (log : list string) :
  for_eachM (range nbSampleRotation) (fun i =>
    for_eachM (range nbAngleIncidence) (fun j =>
      bindM readline (fun tisLine =>
      bindM (lift (float (slice 4 tisLine))) (fun tis =>
      bindM (for_eachM (range shape3) (fun k =>
               bindM readline (fun dataLine =>
               lift (assign_row shape2 (split dataLine))))) (fun rows =>
      ret (tis, rows))))))
    (mk_state
       (map (fun b => b ++ [newline])
            (flat_map (fun i => flat_map block_lines (range nbAngleIncidence))
                      (range nbSampleRotation))
        ++ rest) log)
  = (mk_state rest log,
     Ok (map (fun _ =>
                map (fun j =>
                       (round3_of (tis_at index_wavelength tisData j / 100)%R,
                        map (fun k =>
                               map (fun l => sci3_of (value j l k))
                                   (range shape2))
                            (range shape3)))
                    (range nbAngleIncidence))
             (range nbSampleRotation))).
Proof.
  rewrite map_flat_map.
  apply (for_eachM_lines
           (range nbSampleRotation) _
           (fun i => map (fun b => b ++ [newline])
                         (flat_map block_lines (range nbAngleIncidence)))).
  intros i r _. rewrite map_flat_map.
  apply (for_eachM_lines
           (range nbAngleIncidence) _
           (fun j => map (fun b => b ++ [newline]) (block_lines j))).
  intros j r' _. apply zemax_block_read.
Qed.

End ReadBack.

Ltac step tac := erewrite bindM_step; [|tac].

(** X23.  The Zemax reader accepts what the two Zemax writers produce.
    Let [float] read back the three spellings of a float the writers use,
    each a string without blanks, and let the scatter type and the symmetry
    hold no line end.  For at least one sample rotation, incidence angle,
    azimuth and radial angle, whenever the header writer and the data
    writer return, the file made of the header followed by the data is
    read without a warning; the reader returns the stripped scatter type
    and symmetry, the counts and the axes of the header, the TIS values,
    and the blocks of the data with one row per azimuth, all as they are
    spelled. *)
Theorem zemax_writers_output_is_read_back
        (str_float str_round3 format_sci3 : R -> chars)
        (float_of round3_of sci3_of : R -> Q)
        (scatterType symmetry : chars) (currentwavelength : R)
        (index_wavelength index_RT nbSampleRotation nbAngleIncidence : nat)
        (sampleRotation angleIncidence line_theta line_phi : list R)
        (tisData : list (list R))
        (bsdfData : list (list (list (list R))))
        (header data : list fragment) :
  spelled str_float float_of ->
  spelled str_round3 round3_of ->
  spelled format_sci3 sci3_of ->
  plain scatterType = true -> plain symmetry = true ->
  (0 < nbSampleRotation)%nat -> (0 < nbAngleIncidence)%nat ->
  (0 < length line_theta)%nat -> (0 < length line_phi)%nat ->
  write_zemax_header_bsdf scatterType symmetry currentwavelength
                          nbSampleRotation nbAngleIncidence
                          sampleRotation angleIncidence line_theta line_phi
  = Ok header ->
  write_zemax_data_bsdf index_wavelength index_RT nbSampleRotation
                        nbAngleIncidence tisData
                        (length line_theta) (length line_phi) bsdfData
  = Ok data ->
  run read_zemax_bsdf
      (file_text str_float str_round3 format_sci3 (header ++ data))
  = ([], Ok (read_back float_of round3_of sci3_of scatterType symmetry
                       index_wavelength index_RT
                       nbSampleRotation nbAngleIncidence
                       sampleRotation angleIncidence line_theta line_phi
                       tisData bsdfData)).
Proof.
  intros Hf Hr Hs Hsc Hsy Hn Hm Ht Hp Hheader Hdata.
  apply write_zemax_header_returns in Hheader.
  apply write_zemax_data_returns in Hdata. subst header data.
  unfold run.
  rewrite text_app, text_header, text_data, <- flat_map_app.
  rewrite lines_of_whole.
  2:{ rewrite forallb_app.
      rewrite (header_lines_plain _ _ Hf) by assumption.
      rewrite (data_lines_plain _ _ _ _ Hr Hs). reflexivity. }
  rewrite map_app. unfold header_lines, data_lines.
  rewrite (map_app _ _ [lit "DataEnd"]).
  cbn [map app].
  unfold read_zemax_bsdf.
  step ltac:(rewrite !read_uncommented_skip by exact eq_refl;
             apply read_uncommented_take; exact eq_refl).
  step ltac:(apply read_uncommented_take; exact eq_refl).
  step ltac:(apply read_uncommented_take; exact eq_refl).
  step ltac:(apply read_uncommented_take; exact eq_refl).
  step ltac:(apply read_count_line;
             [exact eq_refl|cbn [length lit list_ascii_of_string]; lia
             |reflexivity]).
  step ltac:(apply (read_values_line _ _ Hf); assumption).
  step ltac:(apply read_count_line;
             [exact eq_refl|cbn [length lit list_ascii_of_string]; lia
             |reflexivity]).
  step ltac:(apply (read_values_line _ _ Hf); assumption).
  step ltac:(apply read_count_line;
             [exact eq_refl|cbn [length lit list_ascii_of_string]; lia
             |reflexivity]).
  step ltac:(apply (read_values_line _ _ Hf); assumption).
  step ltac:(apply read_count_line;
             [exact eq_refl|cbn [length lit list_ascii_of_string]; lia
             |reflexivity]).
  step ltac:(apply (read_values_line _ _ Hf); assumption).
  step ltac:(reflexivity).
  rewrite !dimension_of_nat, !bindM_lift_Ok. cbn [printed].
  step ltac:(apply (zemax_blocks_read _ _ _ _ Hr Hs); exact Ht).
  cbn [read_local]. rewrite !bindM_lift_Ok. unfold ret. cbn [printed].
  unfold read_back. rewrite !slice_line.
  do 2 f_equal. f_equal.
  - rewrite map_map. apply map_ext. intros _. rewrite map_map. reflexivity.
  - rewrite map_map. apply map_ext. intros _. rewrite map_map. reflexivity.
Qed.

Lemma zemax_writers_output_is_read_back_witness :
  run read_zemax_bsdf
      (file_text plain_float plain_float plain_float
                 (written_zemax_header ++ written_zemax_data))
  = ([], Ok (read_back (fun _ => plain_value) (fun _ => plain_value)
                       (fun _ => plain_value)
                       (lit "BRDF") (lit "Asymmetrical") 0 0 1 1
                       [0%R] [30%R] [0%R; 90%R] [0%R; 180%R; 360%R]
                       [[50%R]] transmission_block)).
Proof.
  apply (zemax_writers_output_is_read_back
           plain_float plain_float plain_float
           (fun _ => plain_value) (fun _ => plain_value)
           (fun _ => plain_value)
           (lit "BRDF") (lit "Asymmetrical") 550%R 0 0 1 1
           [0%R] [30%R] [0%R; 90%R] [0%R; 180%R; 360%R]
           [[50%R]] transmission_block
           written_zemax_header written_zemax_data);
    try (intro x; split; [reflexivity|vm_compute; reflexivity]);
    try reflexivity; cbn [length]; lia.
Defined.

End MoreRoundTripProperties.
